(** * Frame-resource ring, dirty propagation and draw batching

    A shallow embedding of the two Direct3D 12 sample applications of the
    repository:

    - [MyCastleApp]       (Game-3111_A1_Sha_taojin.cpp), and
    - [TreeBillboardsApp] (Week7-2-TreeBillboardsApp.cpp).

    The C++ member functions become functions on explicit application
    states.  Raw and owning pointers become addresses into an object store,
    string-keyed [unordered_map]s become [gmap]s, [std::vector]s and upload
    buffers become lists updated by index, [UINT]/[uint16_t] arithmetic is
    carried out in [Z] with the wrap-around written out, and [float]
    arithmetic is left abstract behind the [FloatOps] interface. *)

From Stdlib Require Import ZArith QArith Lia.
From stdpp Require Import list sorting strings gmap.

Open Scope Z_scope.

(** ** Machine integers *)

(** [UINT], [std::uint16_t] and [UINT64] conversions. *)
Definition UINT (x : Z) : Z := x mod 2 ^ 32.
Definition uint16_t (x : Z) : Z := x mod 2 ^ 16.
Definition UINT64 (x : Z) : Z := x mod 2 ^ 64.
(** [int] as produced by a conversion from a wider or unsigned value. *)
Definition INT (x : Z) : Z := (x + 2 ^ 31) mod 2 ^ 32 - 2 ^ 31.

(** [const int gNumFrameResources = 3;] (both applications). *)
Definition gNumFrameResources : Z := 3.

(** ** Floating point interface

    The sources compute with [float].  None of the modelled control flow
    depends on how an operation rounds, so the carrier and its operations
    are parameters. *)
Class FloatOps (F : Type) := {
  flit : Q -> F;            (* a literal such as [0.25f] *)
  fadd : F -> F -> F;
  fsub : F -> F -> F;
  fmul : F -> F -> F;
  fdiv : F -> F -> F;
  fneg : F -> F;
  fltb : F -> F -> bool;    (* [<]  *)
  fleb : F -> F -> bool;    (* [<=] *)
  of_int : Z -> F;          (* [static_cast<float>(int)] *)
}.

(** The order laws the camera code relies on.  They hold of [float]
    comparison on every value that is not a NaN. *)
Class FloatOrder (F : Type) `{FloatOps F} : Prop := {
  fleb_refl : forall x : F, fleb x x = true;
  fltb_false_fleb : forall x y : F, fltb x y = false -> fleb y x = true;
  fltb_asym : forall x y : F, fltb x y = true -> fltb y x = false;
  fltb_fleb_trans : forall x y z : F,
      fltb x y = true -> fleb y z = true -> fltb x z = true;
  fleb_fltb_trans : forall x y z : F,
      fleb x y = true -> fltb y z = true -> fltb x z = true;
  fadd_mono_l : forall x y d : F,
      fleb x y = true -> fleb (fadd x d) (fadd y d) = true;
  flit_mono : forall p q : Q, (p <= q)%Q -> fleb (flit p) (flit q) = true;
}.

(** Exact rational arithmetic is one instance of the interface. *)
#[export] Instance Q_FloatOps : FloatOps Q := {|
  flit := fun q => q;
  fadd := Qplus;
  fsub := Qminus;
  fmul := Qmult;
  fdiv := Qdiv;
  fneg := Qopp;
  fltb := fun x y => negb (Qle_bool y x);
  fleb := Qle_bool;
  of_int := inject_Z;
|}.

(** ** DirectXMath storage types *)

Record XMFLOAT2 {F : Type} := mkXMFLOAT2 { x2 : F; y2 : F }.
Arguments XMFLOAT2 : clear implicits.
Arguments mkXMFLOAT2 {F}.
Record XMFLOAT3 {F : Type} := mkXMFLOAT3 { x3 : F; y3 : F; z3 : F }.
Arguments XMFLOAT3 : clear implicits.
Arguments mkXMFLOAT3 {F}.
Record XMFLOAT4 {F : Type} := mkXMFLOAT4 { x4 : F; y4 : F; z4 : F; w4 : F }.
Arguments XMFLOAT4 : clear implicits.
Arguments mkXMFLOAT4 {F}.

(** [XMFLOAT4X4]: four rows of four floats, [m(r, c)] is row [r], column [c]. *)
Record XMFLOAT4X4 {F : Type} := mkXMFLOAT4X4 {
  row0 : XMFLOAT4 F; row1 : XMFLOAT4 F; row2 : XMFLOAT4 F; row3 : XMFLOAT4 F
}.
Arguments XMFLOAT4X4 : clear implicits.
Arguments mkXMFLOAT4X4 {F}.

Section DirectXMath.
Context {F : Type} `{FloatOps F}.

Definition f0 : F := flit 0.
Definition f1 : F := flit 1.

(** [MathHelper::Identity4x4()]. *)
Definition Identity4x4 : XMFLOAT4X4 F :=
    mkXMFLOAT4X4 (mkXMFLOAT4 f1 f0 f0 f0) (mkXMFLOAT4 f0 f1 f0 f0)
                 (mkXMFLOAT4 f0 f0 f1 f0) (mkXMFLOAT4 f0 f0 f0 f1).

Definition col0 (m : XMFLOAT4X4 F) : XMFLOAT4 F :=
    mkXMFLOAT4 (x4 (row0 m)) (x4 (row1 m)) (x4 (row2 m)) (x4 (row3 m)).
Definition col1 (m : XMFLOAT4X4 F) : XMFLOAT4 F :=
    mkXMFLOAT4 (y4 (row0 m)) (y4 (row1 m)) (y4 (row2 m)) (y4 (row3 m)).
Definition col2 (m : XMFLOAT4X4 F) : XMFLOAT4 F :=
    mkXMFLOAT4 (z4 (row0 m)) (z4 (row1 m)) (z4 (row2 m)) (z4 (row3 m)).
Definition col3 (m : XMFLOAT4X4 F) : XMFLOAT4 F :=
    mkXMFLOAT4 (w4 (row0 m)) (w4 (row1 m)) (w4 (row2 m)) (w4 (row3 m)).

(** [XMMatrixTranspose]: pure data movement. *)
Definition XMMatrixTranspose (m : XMFLOAT4X4 F) : XMFLOAT4X4 F :=
    mkXMFLOAT4X4 (col0 m) (col1 m) (col2 m) (col3 m).

Definition dot4 (a b : XMFLOAT4 F) : F :=
    fadd (fadd (fadd (fmul (x4 a) (x4 b)) (fmul (y4 a) (y4 b)))
               (fmul (z4 a) (z4 b)))
         (fmul (w4 a) (w4 b)).

Definition row_times (r : XMFLOAT4 F) (m : XMFLOAT4X4 F) : XMFLOAT4 F :=
    mkXMFLOAT4 (dot4 r (col0 m)) (dot4 r (col1 m))
               (dot4 r (col2 m)) (dot4 r (col3 m)).

(** [XMMatrixMultiply] (the [*] of [XMMATRIX]). *)
Definition XMMatrixMultiply (a b : XMFLOAT4X4 F) : XMFLOAT4X4 F :=
    mkXMFLOAT4X4 (row_times (row0 a) b) (row_times (row1 a) b)
                 (row_times (row2 a) b) (row_times (row3 a) b).

Definition XMMatrixScaling (sx sy sz : F) : XMFLOAT4X4 F :=
    mkXMFLOAT4X4 (mkXMFLOAT4 sx f0 f0 f0) (mkXMFLOAT4 f0 sy f0 f0)
                 (mkXMFLOAT4 f0 f0 sz f0) (mkXMFLOAT4 f0 f0 f0 f1).

Definition XMMatrixTranslation (tx ty tz : F) : XMFLOAT4X4 F :=
    mkXMFLOAT4X4 (mkXMFLOAT4 f1 f0 f0 f0) (mkXMFLOAT4 f0 f1 f0 f0)
                 (mkXMFLOAT4 f0 f0 f1 f0) (mkXMFLOAT4 tx ty tz f1).

(** [XM_PI] and [XM_PIDIV2]. *)
Definition XM_PI : F := flit 3.141592654.
Definition XM_PIDIV2 : F := flit 1.570796327.

(** Writes through the references [m(3, 0)] and [m(3, 1)]. *)
Definition set_3_0 (v : F) (m : XMFLOAT4X4 F) : XMFLOAT4X4 F :=
    mkXMFLOAT4X4 (row0 m) (row1 m) (row2 m)
                 (mkXMFLOAT4 v (y4 (row3 m)) (z4 (row3 m)) (w4 (row3 m))).
Definition set_3_1 (v : F) (m : XMFLOAT4X4 F) : XMFLOAT4X4 F :=
    mkXMFLOAT4X4 (row0 m) (row1 m) (row2 m)
                 (mkXMFLOAT4 (x4 (row3 m)) v (z4 (row3 m)) (w4 (row3 m))).

(** Modelled from the spec: [MathHelper::Clamp] (MathHelper.h is not
    part of the sources) restricts a value to [low, high]:
    [x < low ? low : (x > high ? high : x)]. *)
Definition Clamp (x low high : F) : F :=
    if fltb x low then low else if fltb high x then high else x.
End DirectXMath.

(** Modelled from the spec: [MathHelper::Rand(a, b)] (MathHelper.h is not
    part of the sources) draws an integer of [a, b] from the value [r]
    returned by [rand()]; [%] truncates. *)
Definition Rand (a b r : Z) : Z := a + Z.rem r ((b - a) + 1).

(** [MathHelper::RandF(a, b)], from the value [u] returned by [RandF()]. *)
Definition RandF {F : Type} `{FloatOps F} (a b u : F) : F :=
  fadd a (fmul u (fsub b a)).

(** Library routines on floats that stay abstract. *)
Class FloatLib (F : Type) := {
  fsinf : F -> F;
  fcosf : F -> F;
  XMVector3Normalize : XMFLOAT3 F -> XMFLOAT3 F;
}.

Definition XMMatrixRotationY {F : Type} `{FloatOps F} `{FloatLib F}
    (angle : F) : XMFLOAT4X4 F :=
  let s := fsinf angle in
  let c := fcosf angle in
  mkXMFLOAT4X4 (mkXMFLOAT4 c f0 (fsub f0 s) f0) (mkXMFLOAT4 f0 f1 f0 f0)
               (mkXMFLOAT4 s f0 c f0) (mkXMFLOAT4 f0 f0 f0 f1).

(** ** d3dUtil.h, UploadBuffer.h, GeometryGenerator.h

    These headers are not part of the sources; the records below carry the
    members the two applications read and write. *)

Inductive DXGI_FORMAT := DXGI_FORMAT_UNKNOWN | DXGI_FORMAT_R16_UINT.

Inductive D3D_PRIMITIVE_TOPOLOGY :=
| D3D_PRIMITIVE_TOPOLOGY_POINTLIST
| D3D_PRIMITIVE_TOPOLOGY_TRIANGLELIST.

(** Which buffer of a frame resource an upload resource backs. *)
Inductive UploadKind := PassCBKind | ObjectCBKind | MaterialCBKind | WavesVBKind.

(** Identity of a GPU resource ([ID3D12Resource]).  A default buffer is
    created once per geometry and per role by [d3dUtil::CreateDefaultBuffer];
    an upload resource belongs to one buffer of one frame resource. *)
Inductive Resource :=
| DefaultBuffer (geo : string) (is_index_buffer : bool)
| UploadResource (frame : nat) (kind : UploadKind).

(** A GPU virtual address: a resource and a byte offset into it. *)
Record GpuAddress := mkGpuAddress { resource : Resource; offset : Z }.

(** Modelled from the spec: [SubmeshGeometry], "{index_count, start_index,
    base_vertex}: a contiguous range into a shared index/vertex buffer". *)
Record SubmeshGeometry := mkSubmeshGeometry {
  IndexCount : Z;            (* UINT *)
  StartIndexLocation : Z;    (* UINT *)
  BaseVertexLocation : Z;    (* INT  *)
}.

(** A default-constructed [SubmeshGeometry], which [DrawArgs[name]] yields
    for a name that was never stored. *)
Definition SubmeshGeometry_default : SubmeshGeometry := mkSubmeshGeometry 0 0 0.

(** Modelled from the spec: [MeshGeometry], "{name, shared vertex buffer,
    shared index buffer, vertex stride, index format, mapping
    name -> Submesh}".  [V] is the type of the CPU copy of the vertices. *)
Record MeshGeometry {V : Type} := mkMeshGeometry {
  Name : string;
  VertexBufferCPU : option V;
  IndexBufferCPU : option (list Z);          (* uint16_t elements *)
  VertexBufferGPU : option Resource;
  IndexBufferGPU : option Resource;
  VertexByteStride : Z;
  VertexBufferByteSize : Z;
  IndexFormat : DXGI_FORMAT;
  IndexBufferByteSize : Z;
  DrawArgs : gmap string SubmeshGeometry;
}.
Arguments MeshGeometry : clear implicits.
Arguments mkMeshGeometry {V}.

(** [std::make_unique<MeshGeometry>()]. *)
Definition MeshGeometry_new {V : Type} : MeshGeometry V :=
  mkMeshGeometry EmptyString None None None None 0 0 DXGI_FORMAT_R16_UINT 0 ∅.

(** [geo->VertexBufferGPU = r]. *)
Definition set_VertexBufferGPU {V : Type} (r : option Resource)
    (geo : MeshGeometry V) : MeshGeometry V :=
  mkMeshGeometry (Name geo) (VertexBufferCPU geo) (IndexBufferCPU geo)
    r (IndexBufferGPU geo) (VertexByteStride geo) (VertexBufferByteSize geo)
    (IndexFormat geo) (IndexBufferByteSize geo) (DrawArgs geo).

(** [geo->DrawArgs[name]] as an rvalue. *)
Definition DrawArg {V : Type} (geo : MeshGeometry V) (name : string)
    : SubmeshGeometry :=
  default SubmeshGeometry_default (DrawArgs geo !! name).

(** Number of vertices and of indices a geometry's buffers hold. *)
Definition vertex_count {V : Type} (geo : MeshGeometry V) : Z :=
  VertexBufferByteSize geo / VertexByteStride geo.
Definition index_count {V : Type} (geo : MeshGeometry V) : Z :=
  IndexBufferByteSize geo / 2.

(** The local indices of a geometry's index buffer. *)
Definition indices_of {V : Type} (geo : MeshGeometry V) : list Z :=
  default [] (IndexBufferCPU geo).

(** [UploadBuffer<T>::CopyData(elementIndex, data)]: a [memcpy] into the
    mapped buffer.  The source does not check the index; an index past the
    end is left without effect here, and the theorems assume it in range. *)
Definition CopyData {T : Type} (elementIndex : Z) (data : T) (buf : list T)
    : list T :=
  if elementIndex <? 0 then buf else <[Z.to_nat elementIndex := data]> buf.

Module GeometryGenerator.
Record Vertex {F : Type} := mkVertex {
    Position : XMFLOAT3 F;
    Normal : XMFLOAT3 F;
    TangentU : XMFLOAT3 F;
    TexC : XMFLOAT2 F;
  }.
Arguments Vertex : clear implicits.
Arguments mkVertex {F}.

Record MeshData {F : Type} := mkMeshData {
    Vertices : list (Vertex F);
    Indices32 : list Z;
  }.
Arguments MeshData : clear implicits.
Arguments mkMeshData {F}.

(** [GetIndices16]: every 32-bit index converted to [uint16]. *)
Definition GetIndices16 {F : Type} (m : MeshData F) : list Z :=
    map uint16_t (Indices32 m).

(** A mesh whose indices all refer to its own vertices. *)
Definition well_formed {F : Type} (m : MeshData F) : Prop :=
    Forall (fun i => 0 <= i < Z.of_nat (length (Vertices m))) (Indices32 m).
End GeometryGenerator.

(** ** The GPU timeline

    [CompletedValue] is what [mFence->GetCompletedValue()] returns and
    [LastSignal] the last value handed to [mCommandQueue->Signal]. *)
Record Gpu := mkGpu { CompletedValue : Z; LastSignal : Z }.

(** The GPU retires up to [n] further fence points. *)
Definition gpu_run (n : nat) (g : Gpu) : Gpu :=
  mkGpu (Z.min (CompletedValue g + Z.of_nat n) (LastSignal g)) (LastSignal g).

(** [SetEventOnCompletion(fence, e); WaitForSingleObject(e, INFINITE)]:
    returns once the completed value has reached [fence], possibly [n]
    fence points later; never returns ([None]) when [fence] was not
    signalled. *)
Definition WaitForFence (fence : Z) (n : nat) (g : Gpu) : option Gpu :=
  if fence <=? LastSignal g
  then Some (mkGpu (Z.min (Z.max fence (CompletedValue g) + Z.of_nat n)
                          (LastSignal g))
                   (LastSignal g))
  else None.

(** [mCommandQueue->Signal(mFence.Get(), value)]. *)
Definition Signal (value : Z) (g : Gpu) : Gpu :=
  mkGpu (CompletedValue g) value.

(** [d3dUtil::CalcConstantBufferByteSize]: round up to a multiple of 256. *)
Definition CalcConstantBufferByteSize (byteSize : Z) : Z :=
  Z.land (byteSize + 255) (Z.lnot 255).

(** ** Recorded command lists *)
Inductive Command :=
| CmdReset (pso : string)
| CmdRSSetViewports
| CmdRSSetScissorRects
| CmdResourceBarrier (to_render_target : bool)
| CmdClearRenderTargetView
| CmdClearDepthStencilView
| CmdOMSetRenderTargets
| CmdSetDescriptorHeaps
| CmdSetGraphicsRootSignature
| CmdSetPipelineState (pso : string)
| CmdIASetVertexBuffers (vb : option Resource) (stride size : Z)
| CmdIASetIndexBuffer (ib : option Resource) (fmt : DXGI_FORMAT) (size : Z)
| CmdIASetPrimitiveTopology (t : D3D_PRIMITIVE_TOPOLOGY)
| CmdSetGraphicsRootDescriptorTable (root : Z) (heapIndex : Z)
| CmdSetGraphicsRootConstantBufferView (root : Z) (addr : GpuAddress)
| CmdDrawIndexedInstanced (indexCount instanceCount startIndex
                           baseVertex startInstance : Z)
| CmdClose.

(** Modelled from the spec: the [Waves] class (Waves.h is not part of the
    sources), "a fixed toy simulation" of a grid of heights that can be
    disturbed at a cell and integrated by one time step. *)
Class WavesOps (F W : Type) := {
  RowCount : W -> Z;
  ColumnCount : W -> Z;
  VertexCount : W -> Z;
  TriangleCount : W -> Z;
  Width : W -> F;
  Depth : W -> F;
  Position : W -> Z -> XMFLOAT3 F;
  Normal : W -> Z -> XMFLOAT3 F;
  Waves_Update : F -> W -> W;
  Disturb : Z -> Z -> F -> W -> W;
}.

(** What [BuildWavesGeometry] expects of a wave grid: at least one row and
    one column, a vertex per grid point, two triangles per quad, and (its
    [assert]) fewer than [0xffff] vertices. *)
Class WavesGrid (F W : Type) `{WavesOps F W} : Prop := {
  waves_rows_pos : forall w : W, 1 <= RowCount w;
  waves_cols_pos : forall w : W, 1 <= ColumnCount w;
  waves_vertex_count : forall w : W, VertexCount w = RowCount w * ColumnCount w;
  waves_triangle_count : forall w : W,
      TriangleCount w = (RowCount w - 1) * (ColumnCount w - 1) * 2;
  waves_fits_16 : forall w : W, VertexCount w < 65535;
  waves_update_count : forall (w : W) dt, VertexCount (Waves_Update dt w) = VertexCount w;
  waves_disturb_count : forall (w : W) i j r, VertexCount (Disturb i j r w) = VertexCount w;
}.

(** [GameTimer], as far as the frame code reads it. *)
Record GameTimer {F : Type} := mkGameTimer { TotalTime : F; DeltaTime : F }.
Arguments GameTimer : clear implicits.
Arguments mkGameTimer {F}.

(** The meshes the [GeometryGenerator] calls of a geometry-building
    routine return.  The generator is an external collaborator; its
    results are parameters. *)
Record GeneratedMeshes {F : Type} := mkGeneratedMeshes {
  box : GeometryGenerator.MeshData F;
  grid : GeometryGenerator.MeshData F;
  sphere : GeometryGenerator.MeshData F;
  cylinder : GeometryGenerator.MeshData F;
  cone : GeometryGenerator.MeshData F;
  Pyramid_flat_head : GeometryGenerator.MeshData F;
  Pyramid_pointed_head : GeometryGenerator.MeshData F;
  wedge : GeometryGenerator.MeshData F;
  pointed_cylinder : GeometryGenerator.MeshData F;
  gate : GeometryGenerator.MeshData F;
}.
Arguments GeneratedMeshes : clear implicits.
Arguments mkGeneratedMeshes {F}.

(** [(UINT)m.Vertices.size()] and [(UINT)m.Indices32.size()]. *)
Definition nVertices {F : Type} (m : GeometryGenerator.MeshData F) : Z :=
  UINT (Z.of_nat (length (GeometryGenerator.Vertices m))).
Definition nIndices {F : Type} (m : GeometryGenerator.MeshData F) : Z :=
  UINT (Z.of_nat (length (GeometryGenerator.Indices32 m))).

(** A [SubmeshGeometry] with its three members assigned. *)
Definition submesh (indexCount startIndex baseVertex : Z) : SubmeshGeometry :=
  mkSubmeshGeometry indexCount startIndex (INT baseVertex).

(** [const UINT byteSize = (UINT)v.size() * sizeof(T)]. *)
Definition byte_size {T : Type} (v : list T) (sizeof : Z) : Z :=
  UINT (UINT (Z.of_nat (length v)) * sizeof).

(** ** Root signatures, shader resource views, shaders and pipeline states

    The Direct3D 12 headers and d3dUtil.h are not part of the sources;
    the types below carry the members the two applications assign.  A
    call that can fail ([CompileShader], [CreateDDSTextureFromFile12],
    [CreateGraphicsPipelineState], ...) throws on failure and ends
    [Initialize]; the models describe the runs in which those calls
    succeed. *)

Inductive D3D12_DESCRIPTOR_RANGE_TYPE :=
| D3D12_DESCRIPTOR_RANGE_TYPE_SRV
| D3D12_DESCRIPTOR_RANGE_TYPE_CBV.

(** [CD3DX12_ROOT_PARAMETER], as [InitAsDescriptorTable] (with its one
    range, [Init(type, numDescriptors, baseShaderRegister)]) or
    [InitAsConstantBufferView(shaderRegister)] leaves it. *)
Inductive RootParameter :=
| DescriptorTable (rangeType : D3D12_DESCRIPTOR_RANGE_TYPE)
                  (numDescriptors baseShaderRegister : Z)
| ConstantBufferView (shaderRegister : Z).

Inductive D3D12_FILTER :=
| D3D12_FILTER_MIN_MAG_MIP_POINT
| D3D12_FILTER_MIN_MAG_MIP_LINEAR
| D3D12_FILTER_ANISOTROPIC.

Inductive D3D12_TEXTURE_ADDRESS_MODE :=
| D3D12_TEXTURE_ADDRESS_MODE_WRAP
| D3D12_TEXTURE_ADDRESS_MODE_CLAMP.

(** [CD3DX12_STATIC_SAMPLER_DESC]: the register, the filter and the
    address mode, which the application gives to all three coordinates. *)
Record StaticSampler := mkStaticSampler {
  ShaderRegister : Z;
  Filter : D3D12_FILTER;
  AddressMode : D3D12_TEXTURE_ADDRESS_MODE;
}.

(** [CD3DX12_ROOT_SIGNATURE_DESC]. *)
Record RootSignature := mkRootSignature {
  Parameters : list RootParameter;
  StaticSamplers : list StaticSampler;
}.

(** A texture resource: the file it was created from, and the two members
    of [GetDesc()] that the application reads. *)
Record TextureResource := mkTextureResource {
  tex_file : string;
  tex_Format : Z;              (* [DXGI_FORMAT], as its number *)
  tex_DepthOrArraySize : Z;    (* [UINT16] *)
}.

Inductive D3D12_SRV_DIMENSION :=
| D3D12_SRV_DIMENSION_TEXTURE2D
| D3D12_SRV_DIMENSION_TEXTURE2DARRAY.

(** [D3D12_SHADER_RESOURCE_VIEW_DESC].  Its members [Texture2D] and
    [Texture2DArray] share their storage: both start with
    [MostDetailedMip] and [MipLevels], and [FirstArraySlice] and
    [ArraySize] of the array are the third and fourth word. *)
Record D3D12_SHADER_RESOURCE_VIEW_DESC := mkSrvDesc {
  srv_Format : Z;
  ViewDimension : D3D12_SRV_DIMENSION;
  MostDetailedMip : Z;
  MipLevels : Z;
  FirstArraySlice : Z;
  ArraySize : Z;
}.

(** A shader resource view as [CreateShaderResourceView] creates it. *)
Record ShaderResourceView := mkShaderResourceView {
  srv_Resource : TextureResource;
  srv_Desc : D3D12_SHADER_RESOURCE_VIEW_DESC;
}.

(** [md3dDevice->CreateShaderResourceView(res, &srvDesc, hDescriptor)],
    the handle being the heap start offset by [hDescriptor] descriptors. *)
Definition CreateShaderResourceView (res : TextureResource)
    (srvDesc : D3D12_SHADER_RESOURCE_VIEW_DESC) (hDescriptor : Z)
    (srvHeap : list (option ShaderResourceView))
    : list (option ShaderResourceView) :=
  if hDescriptor <? 0 then srvHeap
  else <[Z.to_nat hDescriptor := Some (mkShaderResourceView res srvDesc)]>
         srvHeap.

(** A compiled shader, by the arguments of [d3dUtil::CompileShader]. *)
Record Shader := mkShader {
  sh_file : string;
  sh_defines : list (string * string);
  sh_entrypoint : string;
  sh_target : string;
}.

(** The formats of vertex elements, and their sizes in bytes. *)
Inductive VertexElementFormat :=
| DXGI_FORMAT_R32G32_FLOAT
| DXGI_FORMAT_R32G32B32_FLOAT
| DXGI_FORMAT_R32G32B32A32_FLOAT.

Definition format_bytes (f : VertexElementFormat) : Z :=
  match f with
  | DXGI_FORMAT_R32G32_FLOAT => 8
  | DXGI_FORMAT_R32G32B32_FLOAT => 12
  | DXGI_FORMAT_R32G32B32A32_FLOAT => 16
  end.

(** [D3D12_INPUT_ELEMENT_DESC]; the application uses input slot 0 and
    per-vertex data throughout. *)
Record D3D12_INPUT_ELEMENT_DESC := mkInputElement {
  SemanticName : string;
  SemanticIndex : Z;
  el_Format : VertexElementFormat;
  AlignedByteOffset : Z;
}.

Inductive D3D12_PRIMITIVE_TOPOLOGY_TYPE :=
| D3D12_PRIMITIVE_TOPOLOGY_TYPE_POINT
| D3D12_PRIMITIVE_TOPOLOGY_TYPE_TRIANGLE.

Inductive D3D12_FILL_MODE := D3D12_FILL_MODE_SOLID | D3D12_FILL_MODE_WIREFRAME.
Inductive D3D12_CULL_MODE := D3D12_CULL_MODE_BACK | D3D12_CULL_MODE_NONE.

(** [D3D12_GRAPHICS_PIPELINE_STATE_DESC], as far as the pipeline states
    of the applications differ from one another. *)
Record PipelineState := mkPipelineState {
  InputLayout : list D3D12_INPUT_ELEMENT_DESC;
  VS : Shader;
  GS : option Shader;
  PS : Shader;
  FillMode : D3D12_FILL_MODE;
  CullMode : D3D12_CULL_MODE;
  BlendEnable : bool;
  PrimitiveTopologyType : D3D12_PRIMITIVE_TOPOLOGY_TYPE;
}.

(** * TreeBillboardsApp (Week7-2-TreeBillboardsApp.cpp) *)
Module TreeBillboardsApp.

Module Vertex.
Record t {F : Type} := mk {
      Pos : XMFLOAT3 F; Normal : XMFLOAT3 F; TexC : XMFLOAT2 F }.
Arguments t : clear implicits.
Arguments mk {F}.
(** [sizeof(Vertex)]: eight floats. *)
Definition sizeof : Z := 32.
End Vertex.

Module TreeSpriteVertex.
Record t {F : Type} := mk { Pos : XMFLOAT3 F; Size : XMFLOAT2 F }.
Arguments t : clear implicits.
Arguments mk {F}.
Definition sizeof : Z := 20.
End TreeSpriteVertex.

(** The CPU copy of a vertex buffer ([VertexBufferCPU] blob). *)
Inductive VertexBlob {F : Type} :=
  | StdVertices (l : list (Vertex.t F))
  | SpriteVertices (l : list (TreeSpriteVertex.t F)).
Arguments VertexBlob : clear implicits.

Module ObjectConstants.
Record t {F : Type} := mk {
      World : XMFLOAT4X4 F; TexTransform : XMFLOAT4X4 F }.
Arguments t : clear implicits.
Arguments mk {F}.
Definition sizeof : Z := 128.
End ObjectConstants.

Module MaterialConstants.
Record t {F : Type} := mk {
      DiffuseAlbedo : XMFLOAT4 F;
      FresnelR0 : XMFLOAT3 F;
      Roughness : F;
      MatTransform : XMFLOAT4X4 F;
    }.
Arguments t : clear implicits.
Arguments mk {F}.
Definition sizeof : Z := 96.
End MaterialConstants.

(** Modelled from the spec: [Material], "{name, constant-block index,
    texture-slot index, albedo, reflectance coefficient, roughness, 2D
    scroll transform, dirty-frame-counter}". *)
Module Material.
Record t {F : Type} := mk {
      Name : string;
      MatCBIndex : Z;
      DiffuseSrvHeapIndex : Z;
      NumFramesDirty : Z;
      DiffuseAlbedo : XMFLOAT4 F;
      FresnelR0 : XMFLOAT3 F;
      Roughness : F;
      MatTransform : XMFLOAT4X4 F;
    }.
Arguments t : clear implicits.
Arguments mk {F}.

Definition set_NumFramesDirty {F} (n : Z) (m : t F) : t F :=
      mk (Name m) (MatCBIndex m) (DiffuseSrvHeapIndex m) n (DiffuseAlbedo m)
         (FresnelR0 m) (Roughness m) (MatTransform m).
Definition set_MatTransform {F} (x : XMFLOAT4X4 F) (m : t F) : t F :=
      mk (Name m) (MatCBIndex m) (DiffuseSrvHeapIndex m) (NumFramesDirty m)
         (DiffuseAlbedo m) (FresnelR0 m) (Roughness m) x.
End Material.

Module RenderItem.
Record t {F : Type} := mk {
      World : XMFLOAT4X4 F;
      TexTransform : XMFLOAT4X4 F;
      NumFramesDirty : Z;
      ObjCBIndex : Z;                  (* UINT *)
      Mat : option string;             (* Material*, by name *)
      Geo : option string;             (* MeshGeometry*, by name *)
      PrimitiveType : D3D_PRIMITIVE_TOPOLOGY;
      IndexCount : Z;
      StartIndexLocation : Z;
      BaseVertexLocation : Z;
    }.
Arguments t : clear implicits.
Arguments mk {F}.

Definition set_NumFramesDirty {F} (n : Z) (e : t F) : t F :=
      mk (World e) (TexTransform e) n (ObjCBIndex e) (Mat e) (Geo e)
         (PrimitiveType e) (IndexCount e) (StartIndexLocation e)
         (BaseVertexLocation e).
Definition set_World {F} (w : XMFLOAT4X4 F) (e : t F) : t F :=
      mk w (TexTransform e) (NumFramesDirty e) (ObjCBIndex e) (Mat e) (Geo e)
         (PrimitiveType e) (IndexCount e) (StartIndexLocation e)
         (BaseVertexLocation e).
End RenderItem.

(** [enum class RenderLayer : int]. *)
Inductive RenderLayer := Opaque | Transparent | AlphaTested | AlphaTestedTreeSprites.

(** [(int)RenderLayer::...]. *)
Definition layer_index (l : RenderLayer) : nat :=
    match l with
    | Opaque => 0 | Transparent => 1 | AlphaTested => 2
    | AlphaTestedTreeSprites => 3
    end%nat.

(** [(int)RenderLayer::Count]. *)
Definition RenderLayer_Count : nat := 4.

(** Modelled from the spec: [FrameResource] (FrameResource.h is not part
    of the sources), "{command allocator handle, per-object constant
    array sized to render-item count, pass constant block, material
    constant array sized to material count, optional dynamic vertex
    buffer for animated geometry, fence value}".  The allocator is the
    memory of the commands recorded with it; the pass constant block is
    left out, no modelled function reads it. *)
Module FrameResource.
Record t {F : Type} := mk {
      CmdListAlloc : list Command;
      ObjectCB : list (ObjectConstants.t F);
      MaterialCB : list (MaterialConstants.t F);
      WavesVB : list (Vertex.t F);
      Fence : Z;                       (* UINT64 *)
    }.
Arguments t : clear implicits.
Arguments mk {F}.

Definition set_CmdListAlloc {F} (x : list Command) (r : t F) : t F :=
      mk x (ObjectCB r) (MaterialCB r) (WavesVB r) (Fence r).
Definition set_ObjectCB {F} (x : list (ObjectConstants.t F)) (r : t F) : t F :=
      mk (CmdListAlloc r) x (MaterialCB r) (WavesVB r) (Fence r).
Definition set_MaterialCB {F} (x : list (MaterialConstants.t F)) (r : t F) : t F :=
      mk (CmdListAlloc r) (ObjectCB r) x (WavesVB r) (Fence r).
Definition set_WavesVB {F} (x : list (Vertex.t F)) (r : t F) : t F :=
      mk (CmdListAlloc r) (ObjectCB r) (MaterialCB r) x (Fence r).
Definition set_Fence {F} (x : Z) (r : t F) : t F :=
      mk (CmdListAlloc r) (ObjectCB r) (MaterialCB r) (WavesVB r) x.
End FrameResource.

(** The members of the application object that the modelled functions
    use.  Render items live in [heap], at the address [make_unique] gave
    them; [mAllRitems], [mRitemLayer] and [mWavesRitem] hold addresses.
    Materials and geometries are owned by their maps and referred to by
    key.  [t_base] is the function-local static of [UpdateWaves]. *)
Record State {F W : Type} := mkState {
    mFrameResources : list (FrameResource.t F);
    mCurrFrameResource : option nat;
    mCurrFrameResourceIndex : Z;
    mCurrentFence : Z;
    heap : list (RenderItem.t F);
    mAllRitems : list nat;
    mRitemLayer : list (list nat);
    mWavesRitem : option nat;
    mMaterials : gmap string (Material.t F);
    mGeometries : gmap string (MeshGeometry (VertexBlob F));
    mWaves : W;
    t_base : F;
    mTheta : F;
    mPhi : F;
    mRadius : F;
    mLastMousePos : Z * Z;
  }.
Arguments State : clear implicits.
Arguments mkState {F W}.

Section Setters.
Context {F W : Type}.
Implicit Type s : State F W.

Definition set_mFrameResources x s : State F W :=
      mkState x (mCurrFrameResource s) (mCurrFrameResourceIndex s)
        (mCurrentFence s) (heap s) (mAllRitems s) (mRitemLayer s)
        (mWavesRitem s) (mMaterials s) (mGeometries s) (mWaves s) (t_base s)
        (mTheta s) (mPhi s) (mRadius s) (mLastMousePos s).
Definition set_current (k : option nat) (i : Z) s : State F W :=
      mkState (mFrameResources s) k i
        (mCurrentFence s) (heap s) (mAllRitems s) (mRitemLayer s)
        (mWavesRitem s) (mMaterials s) (mGeometries s) (mWaves s) (t_base s)
        (mTheta s) (mPhi s) (mRadius s) (mLastMousePos s).
Definition set_mCurrentFence x s : State F W :=
      mkState (mFrameResources s) (mCurrFrameResource s)
        (mCurrFrameResourceIndex s) x (heap s) (mAllRitems s) (mRitemLayer s)
        (mWavesRitem s) (mMaterials s) (mGeometries s) (mWaves s) (t_base s)
        (mTheta s) (mPhi s) (mRadius s) (mLastMousePos s).
Definition set_heap x s : State F W :=
      mkState (mFrameResources s) (mCurrFrameResource s)
        (mCurrFrameResourceIndex s) (mCurrentFence s) x (mAllRitems s)
        (mRitemLayer s) (mWavesRitem s) (mMaterials s) (mGeometries s)
        (mWaves s) (t_base s) (mTheta s) (mPhi s) (mRadius s)
        (mLastMousePos s).
Definition set_scene (h : list (RenderItem.t F)) (all : list nat)
        (layers : list (list nat)) (waves : option nat) s : State F W :=
      mkState (mFrameResources s) (mCurrFrameResource s)
        (mCurrFrameResourceIndex s) (mCurrentFence s) h all layers waves
        (mMaterials s) (mGeometries s) (mWaves s) (t_base s) (mTheta s)
        (mPhi s) (mRadius s) (mLastMousePos s).
Definition set_mMaterials x s : State F W :=
      mkState (mFrameResources s) (mCurrFrameResource s)
        (mCurrFrameResourceIndex s) (mCurrentFence s) (heap s) (mAllRitems s)
        (mRitemLayer s) (mWavesRitem s) x (mGeometries s) (mWaves s)
        (t_base s) (mTheta s) (mPhi s) (mRadius s) (mLastMousePos s).
Definition set_mGeometries x s : State F W :=
      mkState (mFrameResources s) (mCurrFrameResource s)
        (mCurrFrameResourceIndex s) (mCurrentFence s) (heap s) (mAllRitems s)
        (mRitemLayer s) (mWavesRitem s) (mMaterials s) x (mWaves s)
        (t_base s) (mTheta s) (mPhi s) (mRadius s) (mLastMousePos s).
Definition set_waves (w : W) (tb : F) s : State F W :=
      mkState (mFrameResources s) (mCurrFrameResource s)
        (mCurrFrameResourceIndex s) (mCurrentFence s) (heap s) (mAllRitems s)
        (mRitemLayer s) (mWavesRitem s) (mMaterials s) (mGeometries s) w tb
        (mTheta s) (mPhi s) (mRadius s) (mLastMousePos s).
Definition set_camera (theta phi radius : F) (pos : Z * Z) s : State F W :=
      mkState (mFrameResources s) (mCurrFrameResource s)
        (mCurrFrameResourceIndex s) (mCurrentFence s) (heap s) (mAllRitems s)
        (mRitemLayer s) (mWavesRitem s) (mMaterials s) (mGeometries s)
        (mWaves s) (t_base s) theta phi radius pos.
End Setters.

(** What the environment supplies to one frame: the timer, the values
    drawn from the random generator, and how far the GPU gets. *)
Record FrameInput {F : Type} := mkFrameInput {
  gt : GameTimer F;
  rand_i : Z;          (* [rand()] behind [MathHelper::Rand], row *)
  rand_j : Z;          (* [rand()] behind [MathHelper::Rand], column *)
  rand_r : F;          (* [RandF()] behind [MathHelper::RandF] *)
  gpu_before : nat;    (* fence points retired before [GetCompletedValue] *)
  gpu_during : nat;    (* fence points retired past the awaited one *)
}.
Arguments FrameInput : clear implicits.
Arguments mkFrameInput {F}.

Definition MK_LBUTTON : Z := 1.
Definition MK_RBUTTON : Z := 2.

Section Methods.
Context {F W : Type} `{FloatOps F} `{WavesOps F W}.
Implicit Type s : State F W.

(** [MathHelper::Pi], and [XMConvertToRadians], which uses [XM_PI]. *)
Definition Pi : F := flit 3.1415926535.
Definition XMConvertToRadians (degrees : F) : F :=
  fmul degrees (fdiv XM_PI (flit 180)).

(** [TreeBillboardsApp::OnMouseMove]. *)
Definition OnMouseMove (btnState x y : Z) s : State F W :=
  let lx := fst (mLastMousePos s) in
  let ly := snd (mLastMousePos s) in
  if negb (Z.land btnState MK_LBUTTON =? 0) then
    let dx := XMConvertToRadians (fmul (flit 0.25) (of_int (INT (x - lx)))) in
    let dy := XMConvertToRadians (fmul (flit 0.25) (of_int (INT (y - ly)))) in
    let theta := fadd (mTheta s) dx in
    let phi := fadd (mPhi s) dy in
    let phi := Clamp phi (flit 0.1) (fsub Pi (flit 0.1)) in
    set_camera theta phi (mRadius s) (x, y) s
  else if negb (Z.land btnState MK_RBUTTON =? 0) then
    let dx := fmul (flit 0.2) (of_int (INT (x - lx))) in
    let dy := fmul (flit 0.2) (of_int (INT (y - ly))) in
    let radius := fadd (mRadius s) (fsub dx dy) in
    let radius := Clamp radius (flit 5) (flit 150) in
    set_camera (mTheta s) (mPhi s) radius (x, y) s
  else
    set_camera (mTheta s) (mPhi s) (mRadius s) (x, y) s.

(** The body of [AnimateMaterials] on the water material: the texture
    coordinates scroll, wrap at 1, and the material is marked dirty for
    every frame resource. *)
Definition scroll_water (gt : GameTimer F) (waterMat : Material.t F)
    : Material.t F :=
  let tu := x4 (row3 (Material.MatTransform waterMat)) in
  let tv := y4 (row3 (Material.MatTransform waterMat)) in
  let tu := fadd tu (fmul (flit 0.1) (DeltaTime gt)) in
  let tv := fadd tv (fmul (flit 0.02) (DeltaTime gt)) in
  let tu := if fleb f1 tu then fsub tu f1 else tu in
  let tv := if fleb f1 tv then fsub tv f1 else tv in
  let waterMat :=
    Material.set_MatTransform
      (set_3_1 tv (set_3_0 tu (Material.MatTransform waterMat))) waterMat in
  Material.set_NumFramesDirty gNumFrameResources waterMat.

(** [TreeBillboardsApp::AnimateMaterials].  [mMaterials["water"].get()] is
    dereferenced; the function stops ([None]) where the source would
    dereference a null pointer. *)
Definition AnimateMaterials (gt : GameTimer F) s : option (State F W) :=
  waterMat ← mMaterials s !! "water";
  Some (set_mMaterials (<["water" := scroll_water gt waterMat]> (mMaterials s)) s).

(** The constants [UpdateObjectCBs] stores for a render item. *)
Definition objConstants (e : RenderItem.t F) : ObjectConstants.t F :=
  ObjectConstants.mk (XMMatrixTranspose (RenderItem.World e))
                     (XMMatrixTranspose (RenderItem.TexTransform e)).

(** The loop of [UpdateObjectCBs] over [mAllRitems]. *)
Fixpoint UpdateObjectCBs_loop (ritems : list nat) (h : list (RenderItem.t F))
    (currObjectCB : list (ObjectConstants.t F))
    : option (list (RenderItem.t F) * list (ObjectConstants.t F)) :=
  match ritems with
  | [] => Some (h, currObjectCB)
  | p :: rest =>
      e ← h !! p;
      if 0 <? RenderItem.NumFramesDirty e then
        UpdateObjectCBs_loop rest
          (<[p := RenderItem.set_NumFramesDirty
                    (RenderItem.NumFramesDirty e - 1) e]> h)
          (CopyData (RenderItem.ObjCBIndex e) (objConstants e) currObjectCB)
      else UpdateObjectCBs_loop rest h currObjectCB
  end.

(** [TreeBillboardsApp::UpdateObjectCBs]. *)
Definition UpdateObjectCBs s : option (State F W) :=
  k ← mCurrFrameResource s;
  fr ← mFrameResources s !! k;
  r ← UpdateObjectCBs_loop (mAllRitems s) (heap s) (FrameResource.ObjectCB fr);
  Some (set_heap r.1
          (set_mFrameResources
             (<[k := FrameResource.set_ObjectCB r.2 fr]> (mFrameResources s))
             s)).

(** The constants [UpdateMaterialCBs] stores for a material. *)
Definition matConstants (mat : Material.t F) : MaterialConstants.t F :=
  MaterialConstants.mk (Material.DiffuseAlbedo mat) (Material.FresnelR0 mat)
    (Material.Roughness mat) (XMMatrixTranspose (Material.MatTransform mat)).

(** One iteration of the loop of [UpdateMaterialCBs], on the material and
    on the constant buffer. *)
Definition tick (mat : Material.t F) : Material.t F :=
  if 0 <? Material.NumFramesDirty mat
  then Material.set_NumFramesDirty (Material.NumFramesDirty mat - 1) mat
  else mat.
Definition copy_material (name : string) (mat : Material.t F)
    (currMaterialCB : list (MaterialConstants.t F))
    : list (MaterialConstants.t F) :=
  if 0 <? Material.NumFramesDirty mat
  then CopyData (Material.MatCBIndex mat) (matConstants mat) currMaterialCB
  else currMaterialCB.

(** [TreeBillboardsApp::UpdateMaterialCBs].  The loop runs over the
    entries of an [unordered_map]; an iteration touches its own material
    and the constant buffer only, so the materials are mapped and the
    buffer is folded over the map. *)
Definition UpdateMaterialCBs s : option (State F W) :=
  k ← mCurrFrameResource s;
  fr ← mFrameResources s !! k;
  let cb := map_fold copy_material (FrameResource.MaterialCB fr) (mMaterials s) in
  Some (set_mMaterials (tick <$> mMaterials s)
          (set_mFrameResources
             (<[k := FrameResource.set_MaterialCB cb fr]> (mFrameResources s))
             s)).

(** The vertex [UpdateWaves] derives from wave vertex [i]. *)
Definition wave_vertex (w : W) (i : Z) : Vertex.t F :=
  let pos := Position w i in
  Vertex.mk pos (Normal w i)
    (mkXMFLOAT2 (fadd (flit 0.5) (fdiv (x3 pos) (Width w)))
                (fsub (flit 0.5) (fdiv (z3 pos) (Depth w)))).

(** The simulation part of [UpdateWaves]: every quarter second one
    disturbance at a random cell, then one integration step. *)
Definition step_waves (i : FrameInput F) (wt : W * F) : W * F :=
  let w := wt.1 in
  let tb := wt.2 in
  let wt :=
    if fleb (flit 0.25) (fsub (TotalTime (gt i)) tb) then
      (Disturb (Rand 4 (RowCount w - 5) (rand_i i))
               (Rand 4 (ColumnCount w - 5) (rand_j i))
               (RandF (flit 0.2) (flit 0.5) (rand_r i)) w,
       fadd tb (flit 0.25))
    else (w, tb) in
  (Waves_Update (DeltaTime (gt i)) wt.1, wt.2).

(** The copy loop of [UpdateWaves]. *)
Definition copy_waves (w : W) (currWavesVB : list (Vertex.t F))
    : list (Vertex.t F) :=
  foldl (fun vb i => CopyData i (wave_vertex w i) vb) currWavesVB
        (seqZ 0 (VertexCount w)).

(** [TreeBillboardsApp::UpdateWaves]. *)
Definition UpdateWaves (i : FrameInput F) s : option (State F W) :=
  let wt := step_waves i (mWaves s, t_base s) in
  k ← mCurrFrameResource s;
  fr ← mFrameResources s !! k;
  let vb := copy_waves wt.1 (FrameResource.WavesVB fr) in
  p ← mWavesRitem s;
  ri ← heap s !! p;
  g ← RenderItem.Geo ri;
  geo ← mGeometries s !! g;
  let geo := set_VertexBufferGPU (Some (UploadResource k WavesVBKind)) geo in
  Some (set_mGeometries (<[g := geo]> (mGeometries s))
          (set_mFrameResources
             (<[k := FrameResource.set_WavesVB vb fr]> (mFrameResources s))
             (set_waves wt.1 wt.2 s))).

(** The wait of [Update] on the fence of the frame resource it selected. *)
Definition WaitForFrameResource (i : FrameInput F) (fence : Z) (g : Gpu)
    : option Gpu :=
  let g := gpu_run (gpu_before i) g in
  if negb (fence =? 0) && (CompletedValue g <? fence)
  then WaitForFence fence (gpu_during i) g
  else Some g.

(** The update phases that follow the wait.  [UpdateMainPassCB] only
    writes pass constants, which are not part of the state. *)
Definition UpdatePhases (i : FrameInput F) s : option (State F W) :=
  s ← AnimateMaterials (gt i) s;
  s ← UpdateObjectCBs s;
  s ← UpdateMaterialCBs s;
  UpdateWaves i s.

(** [TreeBillboardsApp::Update].  [OnKeyboardInput] is empty and
    [UpdateCamera] only writes the eye position and the view matrix, which
    are not part of the state. *)
Definition Update (i : FrameInput F) s (g : Gpu) : option (State F W * Gpu) :=
  let index := Z.rem (mCurrFrameResourceIndex s + 1) gNumFrameResources in
  fr ← mFrameResources s !! Z.to_nat index;
  let s := set_current (Some (Z.to_nat index)) index s in
  g ← WaitForFrameResource i (FrameResource.Fence fr) g;
  s ← UpdatePhases i s;
  Some (s, g).

(** [objCBByteSize] and [matCBByteSize] of [DrawRenderItems]. *)
Definition objCBByteSize : Z := CalcConstantBufferByteSize ObjectConstants.sizeof.
Definition matCBByteSize : Z := CalcConstantBufferByteSize MaterialConstants.sizeof.

(** The commands [DrawRenderItems] records for one render item, drawn
    from frame resource [k]. *)
Definition draw_item s (k : nat) (p : nat) : option (list Command) :=
  ri ← heap s !! p;
  g ← RenderItem.Geo ri;
  geo ← mGeometries s !! g;
  m ← RenderItem.Mat ri;
  mat ← mMaterials s !! m;
  let tex := Material.DiffuseSrvHeapIndex mat in
  let objCBAddress :=
    mkGpuAddress (UploadResource k ObjectCBKind)
                 (UINT (RenderItem.ObjCBIndex ri * objCBByteSize)) in
  let matCBAddress :=
    mkGpuAddress (UploadResource k MaterialCBKind)
                 (UINT (Material.MatCBIndex mat * matCBByteSize)) in
  Some [ CmdIASetVertexBuffers (VertexBufferGPU geo) (VertexByteStride geo)
                               (VertexBufferByteSize geo);
         CmdIASetIndexBuffer (IndexBufferGPU geo) (IndexFormat geo)
                             (IndexBufferByteSize geo);
         CmdIASetPrimitiveTopology (RenderItem.PrimitiveType ri);
         CmdSetGraphicsRootDescriptorTable 0 tex;
         CmdSetGraphicsRootConstantBufferView 1 objCBAddress;
         CmdSetGraphicsRootConstantBufferView 3 matCBAddress;
         CmdDrawIndexedInstanced (RenderItem.IndexCount ri) 1
           (RenderItem.StartIndexLocation ri)
           (RenderItem.BaseVertexLocation ri) 0 ].

(** [TreeBillboardsApp::DrawRenderItems]. *)
Fixpoint DrawRenderItems s (k : nat) (ritems : list nat)
    : option (list Command) :=
  match ritems with
  | [] => Some []
  | p :: rest =>
      c ← draw_item s k p;
      cs ← DrawRenderItems s k rest;
      Some (c ++ cs)
  end.

(** [mRitemLayer[(int)layer]]. *)
Definition layer_items s (l : RenderLayer) : list nat :=
  default [] (mRitemLayer s !! layer_index l).

(** The commands [Draw] records. *)
Definition Draw_commands s (k : nat) : option (list Command) :=
  opaque ← DrawRenderItems s k (layer_items s Opaque);
  alphaTested ← DrawRenderItems s k (layer_items s AlphaTested);
  treeSprites ← DrawRenderItems s k (layer_items s AlphaTestedTreeSprites);
  transparent ← DrawRenderItems s k (layer_items s Transparent);
  Some ([ CmdReset "opaque"; CmdRSSetViewports; CmdRSSetScissorRects;
          CmdResourceBarrier true; CmdClearRenderTargetView;
          CmdClearDepthStencilView; CmdOMSetRenderTargets;
          CmdSetDescriptorHeaps; CmdSetGraphicsRootSignature;
          CmdSetGraphicsRootConstantBufferView 2
            (mkGpuAddress (UploadResource k PassCBKind) 0) ]
        ++ opaque
        ++ [ CmdSetPipelineState "alphaTested" ] ++ alphaTested
        ++ [ CmdSetPipelineState "treeSprites" ] ++ treeSprites
        ++ [ CmdSetPipelineState "transparent" ] ++ transparent
        ++ [ CmdResourceBarrier false; CmdClose ]).

(** [TreeBillboardsApp::Draw].  The allocator of the current frame
    resource is reset and receives the commands of the frame; the frame
    resource is stamped with the advanced fence value, which is signalled
    on the queue. *)
Definition Draw s (g : Gpu) : option (State F W * Gpu) :=
  k ← mCurrFrameResource s;
  fr ← mFrameResources s !! k;
  cmds ← Draw_commands s k;
  let fence := UINT64 (mCurrentFence s + 1) in
  let fr := FrameResource.set_Fence fence (FrameResource.set_CmdListAlloc cmds fr) in
  Some (set_mCurrentFence fence
          (set_mFrameResources (<[k := fr]> (mFrameResources s)) s),
        Signal fence g).

(** One iteration of the message loop: [Update], then [Draw]. *)
Definition frame (i : FrameInput F) (sg : State F W * Gpu)
    : option (State F W * Gpu) :=
  sg ← Update i sg.1 sg.2;
  Draw sg.1 sg.2.

(** The frames of a run, one per input. *)
Fixpoint run (inputs : list (FrameInput F)) (sg : State F W * Gpu)
    : option (State F W * Gpu) :=
  match inputs with
  | [] => Some sg
  | i :: rest => sg ← frame i sg; run rest sg
  end.

(** The statements of one frame that bear on the ring of frame resources,
    in the order in which [Update] and [Draw] execute them. *)
Inductive Statement :=
| CycleFrameResource      (* [Update]: the ring index advances and
                             [mCurrFrameResource] is selected *)
| AwaitFrameResource      (* [Update]: the wait on the fence value of the
                             selected frame resource *)
| CallAnimateMaterials
| CallUpdateObjectCBs
| CallUpdateMaterialCBs
| CallUpdateMainPassCB
| CallUpdateWaves
| ResetCommandAllocator   (* [Draw]: [cmdListAlloc->Reset()] *)
| RecordCommands          (* [Draw]: [mCommandList->Reset] up to
                             [ExecuteCommandLists] *)
| StampFence              (* [Draw]: [mCurrFrameResource->Fence = ++mCurrentFence] *)
| SignalFence.            (* [Draw]: [mCommandQueue->Signal] *)

(** The statements of [Update], those of [Draw], and those of a frame.
    [OnKeyboardInput] and [UpdateCamera], with which [Update] begins,
    write neither the ring nor any other part of the state. *)
Definition update_statements : list Statement :=
  [ CycleFrameResource; AwaitFrameResource; CallAnimateMaterials;
    CallUpdateObjectCBs; CallUpdateMaterialCBs; CallUpdateMainPassCB;
    CallUpdateWaves ].
Definition draw_statements : list Statement :=
  [ ResetCommandAllocator; RecordCommands; StampFence; SignalFence ].
Definition frame_statements : list Statement :=
  update_statements ++ draw_statements.

(** What one statement does.  [UpdateMainPassCB] writes the pass constants
    of the current frame resource, which are not part of the state. *)
Definition execute (i : FrameInput F) (st : Statement)
    (sg : State F W * Gpu) : option (State F W * Gpu) :=
  let s := sg.1 in
  let g := sg.2 in
  match st with
  | CycleFrameResource =>
      let index := Z.rem (mCurrFrameResourceIndex s + 1) gNumFrameResources in
      _ ← mFrameResources s !! Z.to_nat index;
      Some (set_current (Some (Z.to_nat index)) index s, g)
  | AwaitFrameResource =>
      k ← mCurrFrameResource s;
      fr ← mFrameResources s !! k;
      g ← WaitForFrameResource i (FrameResource.Fence fr) g;
      Some (s, g)
  | CallAnimateMaterials => s ← AnimateMaterials (gt i) s; Some (s, g)
  | CallUpdateObjectCBs => s ← UpdateObjectCBs s; Some (s, g)
  | CallUpdateMaterialCBs => s ← UpdateMaterialCBs s; Some (s, g)
  | CallUpdateMainPassCB => Some (s, g)
  | CallUpdateWaves => s ← UpdateWaves i s; Some (s, g)
  | ResetCommandAllocator =>
      k ← mCurrFrameResource s;
      fr ← mFrameResources s !! k;
      Some (set_mFrameResources
              (<[k := FrameResource.set_CmdListAlloc [] fr]>
                 (mFrameResources s)) s, g)
  | RecordCommands =>
      k ← mCurrFrameResource s;
      fr ← mFrameResources s !! k;
      cmds ← Draw_commands s k;
      Some (set_mFrameResources
              (<[k := FrameResource.set_CmdListAlloc cmds fr]>
                 (mFrameResources s)) s, g)
  | StampFence =>
      k ← mCurrFrameResource s;
      fr ← mFrameResources s !! k;
      let fence := UINT64 (mCurrentFence s + 1) in
      Some (set_mCurrentFence fence
              (set_mFrameResources
                 (<[k := FrameResource.set_Fence fence fr]>
                    (mFrameResources s)) s), g)
  | SignalFence => Some (s, Signal (mCurrentFence s) g)
  end.

(** The statements run in sequence. *)
Fixpoint execute_all (i : FrameInput F) (sts : list Statement)
    (sg : State F W * Gpu) : option (State F W * Gpu) :=
  match sts with
  | [] => Some sg
  | st :: rest => sg ← execute i st sg; execute_all i rest sg
  end.

(** The statements that are reached, each with the state in which it
    starts. *)
Fixpoint trace (i : FrameInput F) (sts : list Statement)
    (sg : State F W * Gpu) : list (Statement * (State F W * Gpu)) :=
  match sts with
  | [] => []
  | st :: rest =>
      (st, sg) :: match execute i st sg with
                  | Some sg' => trace i rest sg'
                  | None => []
                  end
  end.

End Methods.

(** What initialisation takes from its environment. *)
Record InitInput {F W : Type} := mkInitInput {
  meshes : GeneratedMeshes F;
  waves0 : W;                      (* the [Waves] object built by [Initialize] *)
  tree_rand : nat -> F * F;        (* the two [RandF()] draws of tree [i] *)
  fence0 : Z;                      (* [mCurrentFence] when the frames start *)
  (* contents of memory that is read before it is written *)
  uninit_gvertex : GeometryGenerator.Vertex F;
  uninit_sprite : TreeSpriteVertex.t F;
  uninit_obj : ObjectConstants.t F;
  uninit_mat : MaterialConstants.t F;
  uninit_vertex : Vertex.t F;
}.
Arguments InitInput : clear implicits.
Arguments mkInitInput {F W}.

(** The local state of [BuildRenderItems]: the render items made so far,
    the running [objIndex], and the containers it fills. *)
Record Builder {F : Type} := mkBuilder {
  b_heap : list (RenderItem.t F);
  b_objIndex : Z;
  b_layers : list (list nat);
  b_all : list nat;
}.
Arguments Builder : clear implicits.
Arguments mkBuilder {F}.

(** [mRitemLayer[(int)l].push_back(p)]. *)
Definition push_layer (l : RenderLayer) (p : nat) (layers : list (list nat))
    : list (list nat) :=
  <[layer_index l := default [] (layers !! layer_index l) ++ [p]]> layers.

Section Builders.
Context {F W : Type} `{FloatOps F} `{FloatLib F} `{WavesOps F W}.
Implicit Type s : State F W.
Implicit Type inp : InitInput F W.

(** [TreeBillboardsApp::GetHillsNormal]. *)
Definition GetHillsNormal (x z : F) : XMFLOAT3 F :=
  XMVector3Normalize
    (mkXMFLOAT3
       (fsub (fmul (fmul (fneg (flit 0.03)) z) (fcosf (fmul (flit 0.1) x)))
             (fmul (flit 0.3) (fcosf (fmul (flit 0.1) z))))
       f1
       (fadd (fmul (fneg (flit 0.3)) (fsinf (fmul (flit 0.1) x)))
             (fmul (fmul (flit 0.03) x) (fsinf (fmul (flit 0.1) z))))).

(** A generator vertex copied into a [Vertex]. *)
Definition copy_vertex (v : GeometryGenerator.Vertex F) : Vertex.t F :=
  Vertex.mk (GeometryGenerator.Position v) (GeometryGenerator.Normal v)
            (GeometryGenerator.TexC v).

(** The static geometry record the building routines fill in. *)
Definition static_geometry (name : string) (blob : VertexBlob F)
    (stride vbByteSize : Z) (indices : list Z)
    (args : gmap string SubmeshGeometry) : MeshGeometry (VertexBlob F) :=
  mkMeshGeometry name (Some blob) (Some indices)
    (Some (DefaultBuffer name false)) (Some (DefaultBuffer name true))
    stride vbByteSize DXGI_FORMAT_R16_UINT (byte_size indices 2) args.

(** [TreeBillboardsApp::BuildLandGeometry]. *)
Definition BuildLandGeometry inp s : State F W :=
  let grid := grid (meshes inp) in
  let vertices :=
    map (fun v =>
           let p := GeometryGenerator.Position v in
           Vertex.mk (mkXMFLOAT3 (x3 p) (flit 0.5) (z3 p))
                     (GetHillsNormal (x3 p) (z3 p))
                     (GeometryGenerator.TexC v))
        (GeometryGenerator.Vertices grid) in
  let vbByteSize := byte_size vertices Vertex.sizeof in
  let indices := GeometryGenerator.GetIndices16 grid in
  let submesh := submesh (UINT (Z.of_nat (length indices))) 0 0 in
  let geo :=
    static_geometry "landGeo" (StdVertices vertices) Vertex.sizeof vbByteSize
      indices (<["grid" := submesh]> ∅) in
  set_mGeometries (<["landGeo" := geo]> (mGeometries s)) s.

(** The six indices of the quad at row [i], column [j] of an [n]-column
    grid, each converted to [uint16_t]. *)
Definition quad_indices (n i j : Z) : list Z :=
  map uint16_t [ i * n + j; i * n + j + 1; (i + 1) * n + j;
                 (i + 1) * n + j; i * n + j + 1; (i + 1) * n + j + 1 ].

(** [indices[k + d] = v] for the six entries of a quad; [k += 6]. *)
Definition write_quad (n i j : Z) (acc : list Z * Z) : list Z * Z :=
  let k := acc.2 in
  (foldl (fun ind dv => <[Z.to_nat (k + Z.of_nat dv.1) := dv.2]> ind) acc.1
         (imap (fun d v => (d, v)) (quad_indices n i j)),
   k + 6).

(** The index buffer of the wave grid: the loops over the quads of
    [BuildWavesGeometry]. *)
Definition wave_indices (w : W) : list Z :=
  let m := RowCount w in
  let n := ColumnCount w in
  let indices := replicate (Z.to_nat (3 * TriangleCount w)) 0 in
  (foldl (fun acc i => foldl (fun acc j => write_quad n i j acc) acc
                             (seqZ 0 (n - 1)))
         (indices, 0) (seqZ 0 (m - 1))).1.

(** [TreeBillboardsApp::BuildWavesGeometry]. *)
Definition BuildWavesGeometry s : State F W :=
  let indices := wave_indices (mWaves s) in
  let vbByteSize := UINT (VertexCount (mWaves s) * Vertex.sizeof) in
  let ibByteSize := byte_size indices 2 in
  let submesh := submesh (UINT (Z.of_nat (length indices))) 0 0 in
  let geo :=
    mkMeshGeometry "waterGeo" None (Some indices)
      None (Some (DefaultBuffer "waterGeo" true))
      Vertex.sizeof vbByteSize DXGI_FORMAT_R16_UINT ibByteSize
      (<["grid" := submesh]> ∅) in
  set_mGeometries (<["waterGeo" := geo]> (mGeometries s)) s.

(** [TreeBillboardsApp::BuildBoxGeometry].  The vertex offsets follow the
    order box, sphere, cylinder, cone, flat pyramid, pointed pyramid, wedge,
    pointed cylinder; the loops that copy the vertices put the wedge before
    the two pyramids, and the loop of the pointed pyramid reads its normals
    and texture coordinates from the flat pyramid. *)
Definition BuildBoxGeometry inp s : State F W :=
  let m := meshes inp in
  let boxVertexOffset := 0 in
  let sphereVertexOffset := UINT (boxVertexOffset + nVertices (box m)) in
  let cylinderVertexOffset := UINT (sphereVertexOffset + nVertices (sphere m)) in
  let coneVertexOffset := UINT (cylinderVertexOffset + nVertices (cylinder m)) in
  let Pyramid_flat_headVertexOffset :=
    UINT (coneVertexOffset + nVertices (cone m)) in
  let Pyramid_pointed_headVertexOffset :=
    UINT (Pyramid_flat_headVertexOffset + nVertices (Pyramid_flat_head m)) in
  let wedgeVertexOffset :=
    UINT (Pyramid_pointed_headVertexOffset + nVertices (Pyramid_pointed_head m)) in
  let pointed_cylinderVertexOffset :=
    UINT (wedgeVertexOffset + nVertices (wedge m)) in
  let boxIndexOffset := 0 in
  let sphereIndexOffset := UINT (boxIndexOffset + nIndices (box m)) in
  let cylinderIndexOffset := UINT (sphereIndexOffset + nIndices (sphere m)) in
  let coneIndexOffset := UINT (cylinderIndexOffset + nIndices (cylinder m)) in
  let Pyramid_flat_headIndexOffset :=
    UINT (coneIndexOffset + nIndices (cone m)) in
  let Pyramid_pointed_headIndexOffset :=
    UINT (Pyramid_flat_headIndexOffset + nIndices (Pyramid_flat_head m)) in
  let wedgeIndexOffset :=
    UINT (Pyramid_pointed_headIndexOffset + nIndices (Pyramid_pointed_head m)) in
  let pointed_cylinderIndexOffset :=
    UINT (wedgeIndexOffset + nIndices (wedge m)) in
  let boxSubmesh := submesh (nIndices (box m)) boxIndexOffset boxVertexOffset in
  let sphereSubmesh :=
    submesh (nIndices (sphere m)) sphereIndexOffset sphereVertexOffset in
  let cylinderSubmesh :=
    submesh (nIndices (cylinder m)) cylinderIndexOffset cylinderVertexOffset in
  let coneSubmesh := submesh (nIndices (cone m)) coneIndexOffset coneVertexOffset in
  let Pyramid_flat_headSubmesh :=
    submesh (nIndices (Pyramid_flat_head m)) Pyramid_flat_headIndexOffset
            Pyramid_flat_headVertexOffset in
  let Pyramid_pointed_headSubmesh :=
    submesh (nIndices (Pyramid_pointed_head m)) Pyramid_pointed_headIndexOffset
            Pyramid_pointed_headVertexOffset in
  let wedgeSubmesh :=
    submesh (nIndices (wedge m)) wedgeIndexOffset wedgeVertexOffset in
  let pointed_cylinderSubmesh :=
    submesh (nIndices (pointed_cylinder m)) pointed_cylinderIndexOffset
            pointed_cylinderVertexOffset in
  let vertices :=
    map copy_vertex (GeometryGenerator.Vertices (box m))
    ++ map copy_vertex (GeometryGenerator.Vertices (sphere m))
    ++ map copy_vertex (GeometryGenerator.Vertices (cylinder m))
    ++ map copy_vertex (GeometryGenerator.Vertices (cone m))
    ++ map copy_vertex (GeometryGenerator.Vertices (wedge m))
    ++ map copy_vertex (GeometryGenerator.Vertices (Pyramid_flat_head m))
    ++ imap (fun i v =>
               let o := default (uninit_gvertex inp)
                          (GeometryGenerator.Vertices (Pyramid_flat_head m) !! i) in
               Vertex.mk (GeometryGenerator.Position v)
                         (GeometryGenerator.Normal o) (GeometryGenerator.TexC o))
            (GeometryGenerator.Vertices (Pyramid_pointed_head m))
    ++ map copy_vertex (GeometryGenerator.Vertices (pointed_cylinder m)) in
  let indices :=
    GeometryGenerator.GetIndices16 (box m)
    ++ GeometryGenerator.GetIndices16 (sphere m)
    ++ GeometryGenerator.GetIndices16 (cylinder m)
    ++ GeometryGenerator.GetIndices16 (cone m)
    ++ GeometryGenerator.GetIndices16 (Pyramid_flat_head m)
    ++ GeometryGenerator.GetIndices16 (Pyramid_pointed_head m)
    ++ GeometryGenerator.GetIndices16 (wedge m)
    ++ GeometryGenerator.GetIndices16 (pointed_cylinder m) in
  let vbByteSize := byte_size vertices Vertex.sizeof in
  let geo :=
    static_geometry "boxGeo" (StdVertices vertices) Vertex.sizeof vbByteSize
      indices
      (<["pointed_cylinder" := pointed_cylinderSubmesh]>
       (<["wedge" := wedgeSubmesh]>
        (<["Pyramid_pointed_head" := Pyramid_pointed_headSubmesh]>
         (<["Pyramid_flat_head" := Pyramid_flat_headSubmesh]>
          (<["cone" := coneSubmesh]>
           (<["cylinder" := cylinderSubmesh]>
            (<["sphere" := sphereSubmesh]>
             (<["box" := boxSubmesh]> ∅)))))))) in
  set_mGeometries (<["boxGeo" := geo]> (mGeometries s)) s.

(** One tree of [BuildTreeSpritesGeometry]. *)
Definition tree_sprite inp (i : nat) : TreeSpriteVertex.t F :=
  let x := RandF (fneg (flit 40)) (flit 40) (tree_rand inp i).1 in
  let z := RandF (fneg (flit 50)) (fneg (flit 40)) (tree_rand inp i).2 in
  let y := flit 9.5 in
  if (i <=? 10)%nat then
    TreeSpriteVertex.mk (mkXMFLOAT3 x y z) (mkXMFLOAT2 (flit 20) (flit 20))
  else if (10 <? i)%nat && (i <=? 20)%nat then
    TreeSpriteVertex.mk (mkXMFLOAT3 x y (fneg z)) (mkXMFLOAT2 (flit 20) (flit 20))
  else uninit_sprite inp.

(** [TreeBillboardsApp::BuildTreeSpritesGeometry]. *)
Definition BuildTreeSpritesGeometry inp s : State F W :=
  let treeCount := 20%nat in
  let vertices := map (tree_sprite inp) (seq 0 treeCount) in
  let indices : list Z :=
    [0; 1; 2; 3; 4; 5; 6; 7; 8; 9; 10; 11; 12; 13; 14; 15; 16; 17; 18; 19] in
  let vbByteSize := byte_size vertices TreeSpriteVertex.sizeof in
  let submesh := submesh (UINT (Z.of_nat (length indices))) 0 0 in
  let geo :=
    static_geometry "treeSpritesGeo" (SpriteVertices vertices)
      TreeSpriteVertex.sizeof vbByteSize indices (<["points" := submesh]> ∅) in
  set_mGeometries (<["treeSpritesGeo" := geo]> (mGeometries s)) s.

(** A material of [BuildMaterials]: [std::make_unique<Material>()] with
    the members the routine assigns; the dirty counter and the transform
    keep their defaults. *)
Definition material (name : string) (i : Z) (albedo : XMFLOAT4 F)
    (fresnel : XMFLOAT3 F) (roughness : F) : Material.t F :=
  Material.mk name i i gNumFrameResources albedo fresnel roughness Identity4x4.

(** [TreeBillboardsApp::BuildMaterials]. *)
Definition BuildMaterials s : State F W :=
  let white := mkXMFLOAT4 f1 f1 f1 f1 in
  let r (c : Q) := mkXMFLOAT3 (flit c) (flit c) (flit c) in
  let grass := material "grass" 0 white (r 0.01%Q) (flit 0.125) in
  let water :=
    material "water" 1 (mkXMFLOAT4 f1 f1 f1 (flit 0.5)) (r 0.1%Q) f0 in
  let wirefence := material "wirefence" 2 white (r 0.02%Q) (flit 0.25) in
  let ice := material "ice" 3 white (r 0.02%Q) (flit 0.2) in
  let bricks := material "bricks" 4 white (r 0.02%Q) (flit 0.2) in
  let testcolor := material "testcolor" 5 white (r 0.02%Q) (flit 0.2) in
  let door := material "door" 6 white (r 0.02%Q) (flit 0.2) in
  let walls := material "walls" 7 white (r 0.02%Q) (flit 0.2) in
  let checkboard := material "checkboard" 8 white (r 0.02%Q) (flit 0.2) in
  let treeSprites := material "treeSprites" 9 white (r 0.01%Q) (flit 0.125) in
  set_mMaterials
    (<["treeSprites" := treeSprites]>
     (<["checkboard" := checkboard]>
      (<["walls" := walls]>
       (<["door" := door]>
        (<["testcolor" := testcolor]>
         (<["bricks" := bricks]>
          (<["ice" := ice]>
           (<["wirefence" := wirefence]>
            (<["water" := water]>
             (<["grass" := grass]> (mMaterials s)))))))))))
    s.

(** A key of a map as a pointer to its entry: null when the key is absent. *)
Definition ptr_to {A : Type} (m : gmap string A) (name : string) : option string :=
  match m !! name with Some _ => Some name | None => None end.

(** One render item of [BuildRenderItems]: [std::make_unique<RenderItem>()],
    the assignments to its members (with [objIndex++]), and the
    [push_back] of its address onto a layer.  Stops ([None]) where the
    source dereferences a null [Geo]. *)
Definition new_ritem s (world texTransform : XMFLOAT4X4 F)
    (mat geo : string) (prim : D3D_PRIMITIVE_TOPOLOGY) (arg : string)
    (l : RenderLayer) (b : Builder F) : option (nat * Builder F) :=
  g ← mGeometries s !! geo;
  let p := length (b_heap b) in
  let ri :=
    RenderItem.mk world texTransform gNumFrameResources
      (UINT (b_objIndex b)) (ptr_to (mMaterials s) mat) (Some geo) prim
      (IndexCount (DrawArg g arg)) (StartIndexLocation (DrawArg g arg))
      (BaseVertexLocation (DrawArg g arg)) in
  Some (p, mkBuilder (b_heap b ++ [ri]) (b_objIndex b + 1)
                     (push_layer l p (b_layers b)) (b_all b)).

(** [mAllRitems.push_back(std::move(item))], for several items. *)
Definition push_all (ps : list nat) (b : Builder F) : Builder F :=
  mkBuilder (b_heap b) (b_objIndex b) (b_layers b) (b_all b ++ ps).

Definition scaling (x y z : Q) : XMFLOAT4X4 F :=
  XMMatrixScaling (flit x) (flit y) (flit z).
Definition translation (x y z : Q) : XMFLOAT4X4 F :=
  XMMatrixTranslation (flit x) (flit y) (flit z).

(** One iteration of the tower loop of [BuildRenderItems]. *)
Definition build_tower s (b : Builder F) (d : Q * Q) : option (Builder F) :=
  let tri := D3D_PRIMITIVE_TOPOLOGY_TRIANGLELIST in
  '(tower_base, b) ←
    new_ritem s (XMMatrixMultiply (scaling 10 10 10) (translation d.1 5 d.2))
      Identity4x4 "bricks" "boxGeo" tri "cylinder" AlphaTested b;
  '(tower_middle, b) ←
    new_ritem s (XMMatrixMultiply (scaling 10 10 10) (translation d.1 20 d.2))
      Identity4x4 "wirefence" "boxGeo" tri "Pyramid_flat_head" AlphaTested b;
  '(tower_top, b) ←
    new_ritem s (XMMatrixMultiply (scaling 7 7 7) (translation d.1 25 d.2))
      Identity4x4 "ice" "boxGeo" tri "cone" AlphaTested b;
  Some (push_all [tower_base; tower_middle; tower_top] b).

(** One iteration of the wall-fence loop of [BuildRenderItems]. *)
Definition build_fence s (b : Builder F) (loc : Q) : option (Builder F) :=
  let tri := D3D_PRIMITIVE_TOPOLOGY_TRIANGLELIST in
  '(wall_obj_3, b) ←
    new_ritem s (XMMatrixMultiply (scaling 4 4 4) (translation (-7) 13 loc))
      Identity4x4 "wirefence" "boxGeo" tri "box" AlphaTested b;
  '(wall_obj_4, b) ←
    new_ritem s (XMMatrixMultiply (scaling 4 4 4) (translation 7 13 loc))
      Identity4x4 "wirefence" "boxGeo" tri "box" AlphaTested b;
  Some (push_all [wall_obj_3; wall_obj_4] b).

(** A loop whose body may stop. *)
Fixpoint for_each {A B : Type} (body : B -> A -> option B) (b : B) (l : list A)
    : option B :=
  match l with
  | [] => Some b
  | x :: rest => b ← body b x; for_each body b rest
  end.

(** [TreeBillboardsApp::BuildRenderItems]. *)
Definition BuildRenderItems s : option (State F W) :=
  let tri := D3D_PRIMITIVE_TOPOLOGY_TRIANGLELIST in
  let b := mkBuilder (heap s) 0 (mRitemLayer s) (mAllRitems s) in
  '(wavesRitem, b) ←
    new_ritem s Identity4x4 (scaling 5 5 1) "water" "waterGeo" tri "grid"
Transparent b;
  let mWavesRitem := Some wavesRitem in
  '(gridRitem, b) ←
    new_ritem s Identity4x4
      (XMMatrixMultiply (scaling 5 5 1) (translation 0.5 0.5 0.5))
      "grass" "landGeo" tri "grid" Opaque b;
  b ← for_each (build_tower s) b
        [(30, 30); (30, -30); (-30, -30); (-30, 30)]%Q;
  b ← for_each (build_fence s) b [30; 30; -30; -30]%Q;
  let wall := scaling 60 15 5 in
  '(wall_one, b) ←
    new_ritem s (XMMatrixMultiply wall (translation 0 5 30))
      Identity4x4 "bricks" "boxGeo" tri "box" AlphaTested b;
  '(wall_two, b) ←
    new_ritem s (XMMatrixMultiply wall (translation 0 5 (-30)))
      Identity4x4 "bricks" "boxGeo" tri "box" AlphaTested b;
  '(wall_three, b) ←
    new_ritem s
      (XMMatrixMultiply (XMMatrixMultiply wall (XMMatrixRotationY XM_PIDIV2))
                        (translation 30 5 0))
      Identity4x4 "bricks" "boxGeo" tri "box" AlphaTested b;
  '(wall_four, b) ←
    new_ritem s
      (XMMatrixMultiply (XMMatrixMultiply wall (XMMatrixRotationY XM_PIDIV2))
                        (translation (-30) 5 0))
      Identity4x4 "bricks" "boxGeo" tri "box" AlphaTested b;
  '(base_building, b) ←
    new_ritem s (XMMatrixMultiply (scaling 5 5 5) (translation 0 10 0))
      Identity4x4 "testcolor" "boxGeo" tri "pointed_cylinder" AlphaTested b;
  '(baseRitem, b) ←
    new_ritem s (scaling 30 20 30)
      Identity4x4 "checkboard" "boxGeo" tri "sphere" AlphaTested b;
  '(gateRitem, b) ←
    new_ritem s (XMMatrixMultiply (scaling 6 10 15) (translation 30 5 0))
      Identity4x4 "door" "boxGeo" tri "box" AlphaTested b;
  '(treeSpritesRitem, b) ←
    new_ritem s Identity4x4 Identity4x4 "treeSprites" "treeSpritesGeo"
      D3D_PRIMITIVE_TOPOLOGY_POINTLIST "points" AlphaTestedTreeSprites b;
  let b :=
    push_all [wavesRitem; gridRitem; gateRitem; baseRitem; base_building;
              wall_one; wall_two; wall_three; wall_four; treeSpritesRitem] b in
  Some (set_scene (b_heap b) (b_all b) (b_layers b) mWavesRitem s).

(** [TreeBillboardsApp::BuildFrameResources]: three frame resources with
    their buffers sized to the scene, a fresh allocator and fence 0. *)
Definition BuildFrameResources inp s : State F W :=
  let fr :=
    FrameResource.mk []
      (replicate (Z.to_nat (UINT (Z.of_nat (length (mAllRitems s)))))
                 (uninit_obj inp))
      (replicate (Z.to_nat (UINT (Z.of_nat (size (mMaterials s)))))
                 (uninit_mat inp))
      (replicate (Z.to_nat (VertexCount (mWaves s))) (uninit_vertex inp))
      0 in
  set_mFrameResources
    (mFrameResources s ++ replicate (Z.to_nat gNumFrameResources) fr) s.

(** The application object as its constructor leaves it. *)
Definition State_new inp : State F W :=
  mkState [] None 0 (fence0 inp) [] [] (replicate RenderLayer_Count []) None
    ∅ ∅ (waves0 inp) f0
    (fmul (flit 1.5) XM_PI)
    (fsub XM_PIDIV2 (flit 0.1)) (flit 50) (0, 0).

(** [TreeBillboardsApp::Initialize], from the creation of the waves to
    [BuildFrameResources].  The flush of the command queue that ends it
    belongs to [D3DApp], which is not part of the sources; [fence0] is the
    fence counter it leaves. *)
Definition Initialize inp : option (State F W) :=
  let s := State_new inp in
  let s := BuildLandGeometry inp s in
  let s := BuildWavesGeometry s in
  let s := BuildBoxGeometry inp s in
  let s := BuildTreeSpritesGeometry inp s in
  let s := BuildMaterials s in
  s ← BuildRenderItems s;
  Some (BuildFrameResources inp s).

End Builders.

(** [Texture] of d3dUtil.h. *)
Module Texture.
Record t := mk {
  Name : string;
  Filename : string;
  Resource : TextureResource;
}.
End Texture.

Section Setup.

(** What [GetDesc()] returns for the resource created from each texture
    file: its format and [DepthOrArraySize]. *)
Variable dds : string -> Z * Z.

(** [std::make_unique<Texture>()], the assignments to [Name] and
    [Filename], and [CreateDDSTextureFromFile12]. *)
Definition load_texture (name filename : string) : Texture.t :=
  Texture.mk name filename
    (mkTextureResource filename (dds filename).1 (dds filename).2).

(** [TreeBillboardsApp::LoadTextures]. *)
Definition LoadTextures (mTextures : gmap string Texture.t)
    : gmap string Texture.t :=
  let grassTex := load_texture "grassTex" "../../Textures/grass.dds" in
  let waterTex := load_texture "waterTex" "../../Textures/water1.dds" in
  let fenceTex := load_texture "fenceTex" "../../Textures/WireFence.dds" in
  let iceTex := load_texture "iceTex" "../../Textures/ice.dds" in
  let bricksTex := load_texture "bricksTex" "../../Textures/bricks.dds" in
  let testcolorTex :=
    load_texture "testcolorTex" "../../Textures/testcolor.dds" in
  let doorTex := load_texture "doorTex" "../../Textures/door.dds" in
  let wallsTex := load_texture "wallsTex" "../../Textures/walls.dds" in
  let checkboardTex :=
    load_texture "checkboardTex" "../../Textures/checkboard.dds" in
  let treeArrayTex :=
    load_texture "treeArrayTex" "../../Textures/treeArray.dds" in
  <[Texture.Name treeArrayTex := treeArrayTex]>
  (<[Texture.Name checkboardTex := checkboardTex]>
   (<[Texture.Name wallsTex := wallsTex]>
    (<[Texture.Name doorTex := doorTex]>
     (<[Texture.Name testcolorTex := testcolorTex]>
      (<[Texture.Name bricksTex := bricksTex]>
       (<[Texture.Name iceTex := iceTex]>
        (<[Texture.Name fenceTex := fenceTex]>
         (<[Texture.Name waterTex := waterTex]>
          (<[Texture.Name grassTex := grassTex]> mTextures))))))))).

End Setup.

(** [TreeBillboardsApp::GetStaticSamplers]. *)
Definition GetStaticSamplers : list StaticSampler :=
  let pointWrap :=
    mkStaticSampler 0 D3D12_FILTER_MIN_MAG_MIP_POINT
                    D3D12_TEXTURE_ADDRESS_MODE_WRAP in
  let pointClamp :=
    mkStaticSampler 1 D3D12_FILTER_MIN_MAG_MIP_POINT
                    D3D12_TEXTURE_ADDRESS_MODE_CLAMP in
  let linearWrap :=
    mkStaticSampler 2 D3D12_FILTER_MIN_MAG_MIP_LINEAR
                    D3D12_TEXTURE_ADDRESS_MODE_WRAP in
  let linearClamp :=
    mkStaticSampler 3 D3D12_FILTER_MIN_MAG_MIP_LINEAR
                    D3D12_TEXTURE_ADDRESS_MODE_CLAMP in
  let anisotropicWrap :=
    mkStaticSampler 4 D3D12_FILTER_ANISOTROPIC
                    D3D12_TEXTURE_ADDRESS_MODE_WRAP in
  let anisotropicClamp :=
    mkStaticSampler 5 D3D12_FILTER_ANISOTROPIC
                    D3D12_TEXTURE_ADDRESS_MODE_CLAMP in
  [pointWrap; pointClamp; linearWrap; linearClamp; anisotropicWrap;
   anisotropicClamp].

(** [TreeBillboardsApp::BuildRootSignature]: the description it
    serialises. *)
Definition BuildRootSignature : RootSignature :=
  let texTable := DescriptorTable D3D12_DESCRIPTOR_RANGE_TYPE_SRV 1 0 in
  let slotRootParameter :=
    [texTable; ConstantBufferView 0; ConstantBufferView 1;
     ConstantBufferView 2] in
  mkRootSignature slotRootParameter GetStaticSamplers.

(** [TreeBillboardsApp::BuildDescriptorHeaps]: the heap of ten
    descriptors and the views created in it.  [mTextures[name]->Resource]
    dereferences the entry; the function stops ([None]) where the source
    would dereference a null pointer. *)
Definition BuildDescriptorHeaps (mTextures : gmap string Texture.t)
    : option (list (option ShaderResourceView)) :=
  let mSrvDescriptorHeap := replicate 10 None in
  let hDescriptor := 0 in
  grassTex ← Texture.Resource <$> mTextures !! "grassTex";
  waterTex ← Texture.Resource <$> mTextures !! "waterTex";
  fenceTex ← Texture.Resource <$> mTextures !! "fenceTex";
  iceTex ← Texture.Resource <$> mTextures !! "iceTex";
  bricksTex ← Texture.Resource <$> mTextures !! "bricksTex";
  testcolorTex ← Texture.Resource <$> mTextures !! "testcolorTex";
  doorTex ← Texture.Resource <$> mTextures !! "doorTex";
  wallsTex ← Texture.Resource <$> mTextures !! "wallsTex";
  checkboardTex ← Texture.Resource <$> mTextures !! "checkboardTex";
  treeArrayTex ← Texture.Resource <$> mTextures !! "treeArrayTex";
  let srvDesc (format : Z) :=
    mkSrvDesc format D3D12_SRV_DIMENSION_TEXTURE2D 0 (UINT (-1)) 0 0 in
  let h :=
    CreateShaderResourceView grassTex (srvDesc (tex_Format grassTex))
      hDescriptor mSrvDescriptorHeap in
  let hDescriptor := hDescriptor + 1 in
  let h :=
    CreateShaderResourceView waterTex (srvDesc (tex_Format waterTex))
      hDescriptor h in
  let hDescriptor := hDescriptor + 1 in
  let h :=
    CreateShaderResourceView fenceTex (srvDesc (tex_Format fenceTex))
      hDescriptor h in
  let hDescriptor := hDescriptor + 1 in
  let h :=
    CreateShaderResourceView iceTex (srvDesc (tex_Format iceTex))
      hDescriptor h in
  let hDescriptor := hDescriptor + 1 in
  let h :=
    CreateShaderResourceView bricksTex (srvDesc (tex_Format bricksTex))
      hDescriptor h in
  let hDescriptor := hDescriptor + 1 in
  let h :=
    CreateShaderResourceView testcolorTex (srvDesc (tex_Format testcolorTex))
      hDescriptor h in
  let hDescriptor := hDescriptor + 1 in
  let h :=
    CreateShaderResourceView doorTex (srvDesc (tex_Format doorTex))
      hDescriptor h in
  let hDescriptor := hDescriptor + 1 in
  let h :=
    CreateShaderResourceView wallsTex (srvDesc (tex_Format wallsTex))
      hDescriptor h in
  let hDescriptor := hDescriptor + 1 in
  let h :=
    CreateShaderResourceView checkboardTex
      (srvDesc (tex_Format checkboardTex)) hDescriptor h in
  let hDescriptor := hDescriptor + 1 in
  let srvDesc :=
    mkSrvDesc (tex_Format treeArrayTex) D3D12_SRV_DIMENSION_TEXTURE2DARRAY
      0 (UINT (-1)) 0 (tex_DepthOrArraySize treeArrayTex) in
  Some (CreateShaderResourceView treeArrayTex srvDesc hDescriptor h).

(** [TreeBillboardsApp::BuildShadersAndInputLayouts]: the shaders, and the
    two input layouts. *)
Definition BuildShadersAndInputLayouts (mShaders : gmap string Shader)
    : gmap string Shader
      * (list D3D12_INPUT_ELEMENT_DESC * list D3D12_INPUT_ELEMENT_DESC) :=
  let defines := [("FOG", "1")] in
  let alphaTestDefines := [("FOG", "1"); ("ALPHA_TEST", "1")] in
  let mShaders :=
    <["standardVS" := mkShader "Shaders\Default.hlsl" [] "VS" "vs_5_1"]>
      mShaders in
  let mShaders :=
    <["opaquePS" := mkShader "Shaders\Default.hlsl" defines "PS" "ps_5_1"]>
      mShaders in
  let mShaders :=
    <["alphaTestedPS" :=
        mkShader "Shaders\Default.hlsl" alphaTestDefines "PS" "ps_5_1"]>
      mShaders in
  let mShaders :=
    <["treeSpriteVS" := mkShader "Shaders\TreeSprite.hlsl" [] "VS" "vs_5_1"]>
      mShaders in
  let mShaders :=
    <["treeSpriteGS" := mkShader "Shaders\TreeSprite.hlsl" [] "GS" "gs_5_1"]>
      mShaders in
  let mShaders :=
    <["treeSpritePS" :=
        mkShader "Shaders\TreeSprite.hlsl" alphaTestDefines "PS" "ps_5_1"]>
      mShaders in
  let mStdInputLayout :=
    [ mkInputElement "POSITION" 0 DXGI_FORMAT_R32G32B32_FLOAT 0;
      mkInputElement "NORMAL" 0 DXGI_FORMAT_R32G32B32_FLOAT 12;
      mkInputElement "TEXCOORD" 0 DXGI_FORMAT_R32G32_FLOAT 24 ] in
  let mTreeSpriteInputLayout :=
    [ mkInputElement "POSITION" 0 DXGI_FORMAT_R32G32B32_FLOAT 0;
      mkInputElement "SIZE" 0 DXGI_FORMAT_R32G32_FLOAT 12 ] in
  (mShaders, (mStdInputLayout, mTreeSpriteInputLayout)).

(** [TreeBillboardsApp::BuildPSOs].  [mShaders[name]->GetBufferPointer()]
    dereferences the entry; the function stops ([None]) where the source
    would dereference a null pointer. *)
Definition BuildPSOs (mShaders : gmap string Shader)
    (mStdInputLayout mTreeSpriteInputLayout : list D3D12_INPUT_ELEMENT_DESC)
    (mPSOs : gmap string PipelineState) : option (gmap string PipelineState) :=
  standardVS ← mShaders !! "standardVS";
  opaquePS ← mShaders !! "opaquePS";
  let opaquePsoDesc :=
    mkPipelineState mStdInputLayout standardVS None opaquePS
      D3D12_FILL_MODE_SOLID D3D12_CULL_MODE_BACK false
      D3D12_PRIMITIVE_TOPOLOGY_TYPE_TRIANGLE in
  let mPSOs := <["opaque" := opaquePsoDesc]> mPSOs in
  let transparentPsoDesc :=
    mkPipelineState (InputLayout opaquePsoDesc) (VS opaquePsoDesc)
      (GS opaquePsoDesc) (PS opaquePsoDesc) (FillMode opaquePsoDesc)
      (CullMode opaquePsoDesc) true (PrimitiveTopologyType opaquePsoDesc) in
  let mPSOs := <["transparent" := transparentPsoDesc]> mPSOs in
  alphaTestedPS ← mShaders !! "alphaTestedPS";
  let alphaTestedPsoDesc :=
    mkPipelineState (InputLayout opaquePsoDesc) (VS opaquePsoDesc)
      (GS opaquePsoDesc) alphaTestedPS (FillMode opaquePsoDesc)
      D3D12_CULL_MODE_NONE (BlendEnable opaquePsoDesc)
      (PrimitiveTopologyType opaquePsoDesc) in
  let mPSOs := <["alphaTested" := alphaTestedPsoDesc]> mPSOs in
  treeSpriteVS ← mShaders !! "treeSpriteVS";
  treeSpriteGS ← mShaders !! "treeSpriteGS";
  treeSpritePS ← mShaders !! "treeSpritePS";
  let treeSpritePsoDesc :=
    mkPipelineState mTreeSpriteInputLayout treeSpriteVS (Some treeSpriteGS)
      treeSpritePS (FillMode opaquePsoDesc) D3D12_CULL_MODE_NONE
      (BlendEnable opaquePsoDesc) D3D12_PRIMITIVE_TOPOLOGY_TYPE_POINT in
  Some (<["treeSprites" := treeSpritePsoDesc]> mPSOs).

(** [TreeBillboardsApp::OnMouseDown]. *)
Definition OnMouseDown {F W : Type} (btnState x y : Z) (s : State F W)
    : State F W :=
  set_camera (mTheta s) (mPhi s) (mRadius s) (x, y) s.

End TreeBillboardsApp.

(** * MyCastleApp (Game-3111_A1_Sha_taojin.cpp) *)
Module MyCastleApp.

(** The named colours of [DirectX::Colors] the castle uses. *)
Inductive Colors :=
| Gray | ForestGreen | Crimson | SteelBlue | Gold | Red | Tan | Chocolate
| Pink | Cyan.

Module Vertex.
Record t {F : Type} := mk { Pos : XMFLOAT3 F; Color : Colors }.
Arguments t : clear implicits.
Arguments mk {F}.
(** [sizeof(Vertex)]: a position and an [XMFLOAT4] colour. *)
Definition sizeof : Z := 28.
End Vertex.

Module ObjectConstants.
Record t {F : Type} := mk { World : XMFLOAT4X4 F }.
Arguments t : clear implicits.
Arguments mk {F}.
Definition sizeof : Z := 64.
End ObjectConstants.

(** [sizeof(PassConstants)]: six matrices and ten further floats, padded. *)
Definition PassConstants_sizeof : Z := 432.

Module RenderItem.
Record t {F : Type} := mk {
  World : XMFLOAT4X4 F;
  NumFramesDirty : Z;
  ObjCBIndex : Z;                  (* UINT *)
  Geo : option string;             (* MeshGeometry*, by name *)
  PrimitiveType : D3D_PRIMITIVE_TOPOLOGY;
  IndexCount : Z;
  StartIndexLocation : Z;
  BaseVertexLocation : Z;
}.
Arguments t : clear implicits.
Arguments mk {F}.
End RenderItem.

(** Modelled from the spec: [FrameResource] (FrameResource.h is not part
    of the sources), here with the per-object constant array and the
    fence value; see [TreeBillboardsApp.FrameResource]. *)
Module FrameResource.
Record t {F : Type} := mk {
  CmdListAlloc : list Command;
  ObjectCB : list (ObjectConstants.t F);
  Fence : Z;
}.
Arguments t : clear implicits.
Arguments mk {F}.
End FrameResource.

(** [D3D12_CONSTANT_BUFFER_VIEW_DESC]. *)
Record CBV := mkCBV { BufferLocation : GpuAddress; SizeInBytes : Z }.

(** The members of the application object the modelled functions use.
    [mCbvHeap] holds, per descriptor slot, the view created in it. *)
Record State {F : Type} := mkState {
  mFrameResources : list (FrameResource.t F);
  mCurrFrameResource : option nat;
  mCurrFrameResourceIndex : Z;
  heap : list (RenderItem.t F);
  mAllRitems : list nat;
  mOpaqueRitems : list nat;
  mGeometries : gmap string (MeshGeometry (list (Vertex.t F)));
  mCbvHeap : list (option CBV);
  mPassCbvOffset : Z;
  mIsWireframe : bool;
  mTheta : F;
  mPhi : F;
  mRadius : F;
  mLastMousePos : Z * Z;
}.
Arguments State : clear implicits.
Arguments mkState {F}.

Section Setters.
Context {F : Type}.
Implicit Type s : State F.

Definition set_mFrameResources x s : State F :=
  mkState x (mCurrFrameResource s) (mCurrFrameResourceIndex s) (heap s)
    (mAllRitems s) (mOpaqueRitems s) (mGeometries s) (mCbvHeap s)
    (mPassCbvOffset s) (mIsWireframe s) (mTheta s) (mPhi s) (mRadius s)
    (mLastMousePos s).
Definition set_scene (h : list (RenderItem.t F)) (all opaque : list nat) s
    : State F :=
  mkState (mFrameResources s) (mCurrFrameResource s)
    (mCurrFrameResourceIndex s) h all opaque (mGeometries s) (mCbvHeap s)
    (mPassCbvOffset s) (mIsWireframe s) (mTheta s) (mPhi s) (mRadius s)
    (mLastMousePos s).
Definition set_mGeometries x s : State F :=
  mkState (mFrameResources s) (mCurrFrameResource s)
    (mCurrFrameResourceIndex s) (heap s) (mAllRitems s) (mOpaqueRitems s) x
    (mCbvHeap s) (mPassCbvOffset s) (mIsWireframe s) (mTheta s) (mPhi s)
    (mRadius s) (mLastMousePos s).
Definition set_mCbvHeap (x : list (option CBV)) (off : Z) s : State F :=
  mkState (mFrameResources s) (mCurrFrameResource s)
    (mCurrFrameResourceIndex s) (heap s) (mAllRitems s) (mOpaqueRitems s)
    (mGeometries s) x off (mIsWireframe s) (mTheta s) (mPhi s) (mRadius s)
    (mLastMousePos s).
Definition set_camera (theta phi radius : F) (pos : Z * Z) s : State F :=
  mkState (mFrameResources s) (mCurrFrameResource s)
    (mCurrFrameResourceIndex s) (heap s) (mAllRitems s) (mOpaqueRitems s)
    (mGeometries s) (mCbvHeap s) (mPassCbvOffset s) (mIsWireframe s)
    theta phi radius pos.
End Setters.

Record Builder {F : Type} := mkBuilder {
  b_heap : list (RenderItem.t F);
  b_objIndex : Z;
  b_all : list nat;
}.
Arguments Builder : clear implicits.
Arguments mkBuilder {F}.

Section Methods.
Context {F : Type} `{FloatOps F} `{FloatLib F}.
Implicit Type s : State F.

(** [MyCastleApp::OnMouseMove]. *)
Definition OnMouseMove (btnState x y : Z) s : State F :=
  let lx := fst (mLastMousePos s) in
  let ly := snd (mLastMousePos s) in
  if negb (Z.land btnState TreeBillboardsApp.MK_LBUTTON =? 0) then
    let dx := TreeBillboardsApp.XMConvertToRadians
                (fmul (flit 0.25) (of_int (INT (x - lx)))) in
    let dy := TreeBillboardsApp.XMConvertToRadians
                (fmul (flit 0.25) (of_int (INT (y - ly)))) in
    let theta := fadd (mTheta s) dx in
    let phi := fadd (mPhi s) dy in
    let phi := Clamp phi (flit 0.1) (fsub TreeBillboardsApp.Pi (flit 0.1)) in
    set_camera theta phi (mRadius s) (x, y) s
  else if negb (Z.land btnState TreeBillboardsApp.MK_RBUTTON =? 0) then
    let dx := fmul (flit 0.05) (of_int (INT (x - lx))) in
    let dy := fmul (flit 0.05) (of_int (INT (y - ly))) in
    let radius := fadd (mRadius s) (fsub dx dy) in
    let radius := Clamp radius (flit 5) (flit 150) in
    set_camera (mTheta s) (mPhi s) radius (x, y) s
  else
    set_camera (mTheta s) (mPhi s) (mRadius s) (x, y) s.

(** A generator vertex copied into a coloured [Vertex]. *)
Definition paint (c : Colors) (m : GeometryGenerator.MeshData F)
    : list (Vertex.t F) :=
  map (fun v => Vertex.mk (GeometryGenerator.Position v) c)
      (GeometryGenerator.Vertices m).

(** [MyCastleApp::BuildShapeGeometry]. *)
Definition BuildShapeGeometry (m : GeneratedMeshes F) s : State F :=
  let boxVertexOffset := 0 in
  let gridVertexOffset := nVertices (box m) in
  let sphereVertexOffset := UINT (gridVertexOffset + nVertices (grid m)) in
  let cylinderVertexOffset := UINT (sphereVertexOffset + nVertices (sphere m)) in
  let coneVertexOffset := UINT (cylinderVertexOffset + nVertices (cylinder m)) in
  let Pyramid_flat_headVertexOffset :=
    UINT (coneVertexOffset + nVertices (cone m)) in
  let Pyramid_pointed_headVertexOffset :=
    UINT (Pyramid_flat_headVertexOffset + nVertices (Pyramid_flat_head m)) in
  let wedgeVertexOffset :=
    UINT (Pyramid_pointed_headVertexOffset + nVertices (Pyramid_pointed_head m)) in
  let pointed_cylinderVertexOffset :=
    UINT (wedgeVertexOffset + nVertices (wedge m)) in
  let gateVertexOffset :=
    UINT (pointed_cylinderVertexOffset + nVertices (pointed_cylinder m)) in
  let boxIndexOffset := 0 in
  let gridIndexOffset := nIndices (box m) in
  let sphereIndexOffset := UINT (gridIndexOffset + nIndices (grid m)) in
  let cylinderIndexOffset := UINT (sphereIndexOffset + nIndices (sphere m)) in
  let coneIndexOffset := UINT (cylinderIndexOffset + nIndices (cylinder m)) in
  let Pyramid_flat_headIndexOffset :=
    UINT (coneIndexOffset + nIndices (cone m)) in
  let Pyramid_pointed_headIndexOffset :=
    UINT (Pyramid_flat_headIndexOffset + nIndices (Pyramid_flat_head m)) in
  let wedgeIndexOffset :=
    UINT (Pyramid_pointed_headIndexOffset + nIndices (Pyramid_pointed_head m)) in
  let pointed_cylinderIndexOffset :=
    UINT (wedgeIndexOffset + nIndices (wedge m)) in
  let gateIndexOffset :=
    UINT (pointed_cylinderIndexOffset + nIndices (pointed_cylinder m)) in
  let boxSubmesh := submesh (nIndices (box m)) boxIndexOffset boxVertexOffset in
  let gridSubmesh := submesh (nIndices (grid m)) gridIndexOffset gridVertexOffset in
  let sphereSubmesh :=
    submesh (nIndices (sphere m)) sphereIndexOffset sphereVertexOffset in
  let cylinderSubmesh :=
    submesh (nIndices (cylinder m)) cylinderIndexOffset cylinderVertexOffset in
  let coneSubmesh := submesh (nIndices (cone m)) coneIndexOffset coneVertexOffset in
  let Pyramid_flat_headSubmesh :=
    submesh (nIndices (Pyramid_flat_head m)) Pyramid_flat_headIndexOffset
            Pyramid_flat_headVertexOffset in
  let Pyramid_pointed_headSubmesh :=
    submesh (nIndices (Pyramid_pointed_head m)) Pyramid_pointed_headIndexOffset
            Pyramid_pointed_headVertexOffset in
  let wedgeSubmesh :=
    submesh (nIndices (wedge m)) wedgeIndexOffset wedgeVertexOffset in
  let pointed_cylinderSubmesh :=
    submesh (nIndices (pointed_cylinder m)) pointed_cylinderIndexOffset
            pointed_cylinderVertexOffset in
  let gateSubmesh := submesh (nIndices (gate m)) gateIndexOffset gateVertexOffset in
  let vertices :=
    paint Gray (box m) ++ paint ForestGreen (grid m)
    ++ paint Crimson (sphere m) ++ paint SteelBlue (cylinder m)
    ++ paint Gold (cone m) ++ paint Red (Pyramid_flat_head m)
    ++ paint Tan (Pyramid_pointed_head m) ++ paint Chocolate (wedge m)
    ++ paint Pink (pointed_cylinder m) ++ paint Cyan (gate m) in
  let indices :=
    GeometryGenerator.GetIndices16 (box m)
    ++ GeometryGenerator.GetIndices16 (grid m)
    ++ GeometryGenerator.GetIndices16 (sphere m)
    ++ GeometryGenerator.GetIndices16 (cylinder m)
    ++ GeometryGenerator.GetIndices16 (cone m)
    ++ GeometryGenerator.GetIndices16 (Pyramid_flat_head m)
    ++ GeometryGenerator.GetIndices16 (Pyramid_pointed_head m)
    ++ GeometryGenerator.GetIndices16 (wedge m)
    ++ GeometryGenerator.GetIndices16 (pointed_cylinder m)
    ++ GeometryGenerator.GetIndices16 (gate m) in
  let vbByteSize := byte_size vertices Vertex.sizeof in
  let ibByteSize := byte_size indices 2 in
  let geo :=
    mkMeshGeometry "shapeGeo" (Some vertices) (Some indices)
      (Some (DefaultBuffer "shapeGeo" false))
      (Some (DefaultBuffer "shapeGeo" true))
      Vertex.sizeof vbByteSize DXGI_FORMAT_R16_UINT ibByteSize
      (<["gate" := gateSubmesh]>
       (<["pointed_cylinder" := pointed_cylinderSubmesh]>
        (<["wedge" := wedgeSubmesh]>
         (<["Pyramid_pointed_head" := Pyramid_pointed_headSubmesh]>
          (<["Pyramid_flat_head" := Pyramid_flat_headSubmesh]>
           (<["cone" := coneSubmesh]>
            (<["cylinder" := cylinderSubmesh]>
             (<["sphere" := sphereSubmesh]>
              (<["grid" := gridSubmesh]>
               (<["box" := boxSubmesh]> ∅)))))))))) in
  set_mGeometries (<["shapeGeo" := geo]> (mGeometries s)) s.

(** One render item of [BuildRenderItems]: [std::make_unique<RenderItem>()],
    the assignments to its members (with [objIndex++]), and
    [mAllRitems.push_back(std::move(item))]. *)
Definition new_ritem s (world : XMFLOAT4X4 F) (arg : string) (b : Builder F)
    : option (Builder F) :=
  g ← mGeometries s !! "shapeGeo";
  let p := length (b_heap b) in
  let ri :=
    RenderItem.mk world gNumFrameResources (UINT (b_objIndex b))
      (Some "shapeGeo") D3D_PRIMITIVE_TOPOLOGY_TRIANGLELIST
      (IndexCount (DrawArg g arg)) (StartIndexLocation (DrawArg g arg))
      (BaseVertexLocation (DrawArg g arg)) in
  Some (mkBuilder (b_heap b ++ [ri]) (b_objIndex b + 1) (b_all b ++ [p])).

Definition scaling (x y z : Q) : XMFLOAT4X4 F :=
  XMMatrixScaling (flit x) (flit y) (flit z).
Definition translation (x y z : Q) : XMFLOAT4X4 F :=
  XMMatrixTranslation (flit x) (flit y) (flit z).

(** One iteration of the tower loop. *)
Definition build_tower s (b : Builder F) (d : Q * Q) : option (Builder F) :=
  b ← new_ritem s (XMMatrixMultiply (scaling 2 2 2) (translation d.1 2 d.2))
        "cylinder" b;
  b ← new_ritem s (XMMatrixMultiply (scaling 2 1 2) (translation d.1 4.5 d.2))
        "Pyramid_flat_head" b;
  new_ritem s (translation d.1 6 d.2) "cone" b.

(** One iteration of the wall-fence loop. *)
Definition build_fence s (b : Builder F) (loc : Q) : option (Builder F) :=
  b ← new_ritem s (translation loc 3 7) "wedge" b;
  b ← new_ritem s (translation loc 3 (-7)) "Pyramid_pointed_head" b;
  b ← new_ritem s (XMMatrixMultiply (scaling 0.5 1 1) (translation (-7) 3 loc))
        "box" b;
  new_ritem s (XMMatrixMultiply (scaling 0.5 1 1) (translation 7 3 loc))
    "box" b.

(** [MyCastleApp::BuildRenderItems]. *)
Definition BuildRenderItems s : option (State F) :=
  let b := mkBuilder (heap s) 0 (mAllRitems s) in
  b ← new_ritem s Identity4x4 "grid" b;
  b ← TreeBillboardsApp.for_each (build_tower s) b
        [(7, 7); (7, -7); (-7, -7); (-7, 7)]%Q;
  let wall := scaling 14 3 1.5 in
  b ← new_ritem s (XMMatrixMultiply wall (translation 0 1 7)) "box" b;
  b ← new_ritem s (XMMatrixMultiply wall (translation 0 1 (-7))) "box" b;
  b ← new_ritem s
        (XMMatrixMultiply (XMMatrixMultiply wall (XMMatrixRotationY XM_PIDIV2))
                          (translation 6.5 1 0)) "box" b;
  b ← new_ritem s
        (XMMatrixMultiply (XMMatrixMultiply wall (XMMatrixRotationY XM_PIDIV2))
                          (translation (-6.5) 1 0)) "box" b;
  b ← TreeBillboardsApp.for_each (build_fence s) b [-4; -2; 2; 4]%Q;
  b ← new_ritem s (XMMatrixMultiply (scaling 0.5 1.5 0.5) (scaling 7.5 1.5 7.5))
        "pointed_cylinder" b;
  b ← new_ritem s (scaling 7.5 5 7.5) "sphere" b;
  b ← new_ritem s (XMMatrixMultiply (scaling 4 2 2) (translation 0 1 7))
        "gate" b;
  (* All the render items are opaque. *)
  Some (set_scene (b_heap b) (b_all b) (mOpaqueRitems s ++ b_all b) s).

(** [MyCastleApp::BuildFrameResources]. *)
Definition BuildFrameResources (uninit_obj : ObjectConstants.t F) s : State F :=
  let fr :=
    FrameResource.mk []
      (replicate (Z.to_nat (UINT (Z.of_nat (length (mAllRitems s))))) uninit_obj)
      0 in
  set_mFrameResources
    (mFrameResources s ++ replicate (Z.to_nat gNumFrameResources) fr) s.

(** [MyCastleApp::BuildDescriptorHeaps]: a heap of
    [(objCount + 1) * gNumFrameResources] descriptors, none created yet. *)
Definition BuildDescriptorHeaps s : State F :=
  let objCount := UINT (Z.of_nat (length (mOpaqueRitems s))) in
  let numDescriptors := UINT ((objCount + 1) * gNumFrameResources) in
  set_mCbvHeap (replicate (Z.to_nat numDescriptors) None)
               (UINT (objCount * gNumFrameResources)) s.

Definition objCBByteSize : Z := CalcConstantBufferByteSize ObjectConstants.sizeof.
Definition passCBByteSize : Z := CalcConstantBufferByteSize PassConstants_sizeof.

(** [md3dDevice->CreateConstantBufferView(&cbvDesc, handle)], the handle
    being the heap start offset by [heapIndex] descriptors. *)
Definition CreateConstantBufferView (cbvDesc : CBV) (heapIndex : Z)
    (cbvHeap : list (option CBV)) : list (option CBV) :=
  if heapIndex <? 0 then cbvHeap
  else <[Z.to_nat heapIndex := Some cbvDesc]> cbvHeap.

(** The view of object [i] of frame resource [frameIndex]. *)
Definition object_cbv (frameIndex i : Z) : CBV :=
  mkCBV (mkGpuAddress (UploadResource (Z.to_nat frameIndex) ObjectCBKind)
                      (UINT (i * objCBByteSize)))
        objCBByteSize.

(** The view of the pass constants of frame resource [frameIndex]. *)
Definition pass_cbv (frameIndex : Z) : CBV :=
  mkCBV (mkGpuAddress (UploadResource (Z.to_nat frameIndex) PassCBKind) 0)
        passCBByteSize.

(** [MyCastleApp::BuildConstantBufferViews].  Stops ([None]) when a frame
    resource it dereferences does not exist. *)
Definition BuildConstantBufferViews s : option (State F) :=
  let objCount := UINT (Z.of_nat (length (mOpaqueRitems s))) in
  if Z.of_nat (length (mFrameResources s)) <? gNumFrameResources then None
  else
    let cbvHeap :=
      foldl (fun cbvHeap frameIndex =>
               foldl (fun cbvHeap i =>
                        let heapIndex := INT (UINT (frameIndex * objCount + i)) in
                        CreateConstantBufferView (object_cbv frameIndex i)
                                                 heapIndex cbvHeap)
                     cbvHeap (seqZ 0 objCount))
            (mCbvHeap s) (seqZ 0 gNumFrameResources) in
    let cbvHeap :=
      foldl (fun cbvHeap frameIndex =>
               let heapIndex := INT (UINT (mPassCbvOffset s + frameIndex)) in
               CreateConstantBufferView (pass_cbv frameIndex) heapIndex cbvHeap)
            cbvHeap (seqZ 0 gNumFrameResources) in
    Some (set_mCbvHeap cbvHeap (mPassCbvOffset s) s).

(** The descriptor-heap index [DrawRenderItems] computes for a render
    item; [cbvHandle.Offset] takes it as an [INT]. *)
Definition cbvIndex s (ri : RenderItem.t F) : Z :=
  UINT (UINT (mCurrFrameResourceIndex s)
        * UINT (Z.of_nat (length (mOpaqueRitems s)))
        + RenderItem.ObjCBIndex ri).

(** The commands [DrawRenderItems] records for one render item. *)
Definition draw_item s (p : nat) : option (list Command) :=
  ri ← heap s !! p;
  g ← RenderItem.Geo ri;
  geo ← mGeometries s !! g;
  Some [ CmdIASetVertexBuffers (VertexBufferGPU geo) (VertexByteStride geo)
                               (VertexBufferByteSize geo);
         CmdIASetIndexBuffer (IndexBufferGPU geo) (IndexFormat geo)
                             (IndexBufferByteSize geo);
         CmdIASetPrimitiveTopology (RenderItem.PrimitiveType ri);
         CmdSetGraphicsRootDescriptorTable 0 (INT (cbvIndex s ri));
         CmdDrawIndexedInstanced (RenderItem.IndexCount ri) 1
           (RenderItem.StartIndexLocation ri)
           (RenderItem.BaseVertexLocation ri) 0 ].

(** [MyCastleApp::DrawRenderItems]. *)
Fixpoint DrawRenderItems s (ritems : list nat) : option (list Command) :=
  match ritems with
  | [] => Some []
  | p :: rest =>
      c ← draw_item s p;
      cs ← DrawRenderItems s rest;
      Some (c ++ cs)
  end.

(** The application object as its constructor leaves it. *)
Definition State_new : State F :=
  mkState [] None 0 [] [] [] ∅ [] 0 false
    (fmul (flit 1.5) XM_PI)
    (fmul (flit 0.2) XM_PI) (flit 15) (0, 0).

(** [MyCastleApp::Initialize], from [BuildShapeGeometry] to
    [BuildConstantBufferViews]. *)
Definition Initialize (m : GeneratedMeshes F)
    (uninit_obj : ObjectConstants.t F) : option (State F) :=
  let s := BuildShapeGeometry m State_new in
  s ← BuildRenderItems s;
  let s := BuildFrameResources uninit_obj s in
  let s := BuildDescriptorHeaps s in
  BuildConstantBufferViews s.

End Methods.

(** What the environment supplies to one frame of the castle: whether the
    key [1] is held when [GetAsyncKeyState] polls it, and how far the GPU
    gets. *)
Record FrameInput := mkFrameInput {
  key_1 : bool;        (* [GetAsyncKeyState('1') & 0x8000] *)
  gpu_before : nat;    (* fence points retired before [GetCompletedValue] *)
  gpu_during : nat;    (* fence points retired past the awaited one *)
}.

Section Frames.
Context {F : Type} `{FloatOps F}.
Implicit Type s : State F.

Definition set_mIsWireframe (b : bool) s : State F :=
  mkState (mFrameResources s) (mCurrFrameResource s)
    (mCurrFrameResourceIndex s) (heap s) (mAllRitems s) (mOpaqueRitems s)
    (mGeometries s) (mCbvHeap s) (mPassCbvOffset s) b (mTheta s) (mPhi s)
    (mRadius s) (mLastMousePos s).
Definition set_current (k : option nat) (i : Z) s : State F :=
  mkState (mFrameResources s) k i (heap s) (mAllRitems s) (mOpaqueRitems s)
    (mGeometries s) (mCbvHeap s) (mPassCbvOffset s) (mIsWireframe s)
    (mTheta s) (mPhi s) (mRadius s) (mLastMousePos s).
Definition set_heap x s : State F :=
  mkState (mFrameResources s) (mCurrFrameResource s)
    (mCurrFrameResourceIndex s) x (mAllRitems s) (mOpaqueRitems s)
    (mGeometries s) (mCbvHeap s) (mPassCbvOffset s) (mIsWireframe s)
    (mTheta s) (mPhi s) (mRadius s) (mLastMousePos s).

(** [MyCastleApp::OnMouseDown]. *)
Definition OnMouseDown (btnState x y : Z) s : State F :=
  set_camera (mTheta s) (mPhi s) (mRadius s) (x, y) s.

(** [MyCastleApp::OnKeyboardInput]. *)
Definition OnKeyboardInput (i : FrameInput) s : State F :=
  if key_1 i then set_mIsWireframe true s else set_mIsWireframe false s.

(** The constants [UpdateObjectCBs] stores for a render item. *)
Definition objConstants (e : RenderItem.t F) : ObjectConstants.t F :=
  ObjectConstants.mk (XMMatrixTranspose (RenderItem.World e)).

(** [e->NumFramesDirty--]. *)
Definition decrement (e : RenderItem.t F) : RenderItem.t F :=
  RenderItem.mk (RenderItem.World e) (RenderItem.NumFramesDirty e - 1)
    (RenderItem.ObjCBIndex e) (RenderItem.Geo e) (RenderItem.PrimitiveType e)
    (RenderItem.IndexCount e) (RenderItem.StartIndexLocation e)
    (RenderItem.BaseVertexLocation e).

(** The loop of [UpdateObjectCBs] over [mAllRitems]. *)
Fixpoint UpdateObjectCBs_loop (ritems : list nat) (h : list (RenderItem.t F))
    (currObjectCB : list (ObjectConstants.t F))
    : option (list (RenderItem.t F) * list (ObjectConstants.t F)) :=
  match ritems with
  | [] => Some (h, currObjectCB)
  | p :: rest =>
      e ← h !! p;
      if 0 <? RenderItem.NumFramesDirty e then
        UpdateObjectCBs_loop rest (<[p := decrement e]> h)
          (CopyData (RenderItem.ObjCBIndex e) (objConstants e) currObjectCB)
      else UpdateObjectCBs_loop rest h currObjectCB
  end.

(** [MyCastleApp::UpdateObjectCBs]. *)
Definition UpdateObjectCBs s : option (State F) :=
  k ← mCurrFrameResource s;
  fr ← mFrameResources s !! k;
  r ← UpdateObjectCBs_loop (mAllRitems s) (heap s) (FrameResource.ObjectCB fr);
  Some (set_heap r.1
          (set_mFrameResources
             (<[k := FrameResource.mk (FrameResource.CmdListAlloc fr) r.2
                       (FrameResource.Fence fr)]> (mFrameResources s))
             s)).

(** The wait of [Update] on the fence of the frame resource it selected. *)
Definition WaitForFrameResource (i : FrameInput) (fence : Z) (g : Gpu)
    : option Gpu :=
  let g := gpu_run (gpu_before i) g in
  if negb (fence =? 0) && (CompletedValue g <? fence)
  then WaitForFence fence (gpu_during i) g
  else Some g.

(** [MyCastleApp::Update].  [UpdateCamera] and [UpdateMainPassCB] only
    write the eye position, the view matrix and the pass constants, which
    are not part of the state. *)
Definition Update (i : FrameInput) s (g : Gpu) : option (State F * Gpu) :=
  let s := OnKeyboardInput i s in
  let index := Z.rem (mCurrFrameResourceIndex s + 1) gNumFrameResources in
  fr ← mFrameResources s !! Z.to_nat index;
  let s := set_current (Some (Z.to_nat index)) index s in
  g ← WaitForFrameResource i (FrameResource.Fence fr) g;
  s ← UpdateObjectCBs s;
  Some (s, g).

(** The descriptor-heap index [Draw] computes for the pass constants;
    [passCbvHandle.Offset] takes it as an [INT]. *)
Definition passCbvIndex s : Z :=
  INT (UINT (mPassCbvOffset s + UINT (mCurrFrameResourceIndex s))).

(** The commands [Draw] records. *)
Definition Draw_commands s : option (list Command) :=
  opaque ← DrawRenderItems s (mOpaqueRitems s);
  Some ([ CmdReset (if mIsWireframe s then "opaque_wireframe" else "opaque");
          CmdRSSetViewports; CmdRSSetScissorRects;
          CmdResourceBarrier true; CmdClearRenderTargetView;
          CmdClearDepthStencilView; CmdOMSetRenderTargets;
          CmdSetDescriptorHeaps; CmdSetGraphicsRootSignature;
          CmdSetGraphicsRootDescriptorTable 1 (passCbvIndex s) ]
        ++ opaque
        ++ [ CmdResourceBarrier false; CmdClose ]).

(** [MyCastleApp::Draw], with [mCurrentFence] of [D3DApp]: the allocator
    of the current frame resource is reset and receives the commands of
    the frame; the frame resource is stamped with the advanced fence
    value, which is signalled on the queue. *)
Definition Draw s (mCurrentFence : Z) (g : Gpu)
    : option (State F * Z * Gpu) :=
  k ← mCurrFrameResource s;
  fr ← mFrameResources s !! k;
  cmds ← Draw_commands s;
  let fence := UINT64 (mCurrentFence + 1) in
  let fr := FrameResource.mk cmds (FrameResource.ObjectCB fr) fence in
  Some (set_mFrameResources (<[k := fr]> (mFrameResources s)) s, fence,
        Signal fence g).

(** One iteration of the message loop: [Update], then [Draw]. *)
Definition frame (i : FrameInput) (a : State F * Z * Gpu)
    : option (State F * Z * Gpu) :=
  sg ← Update i a.1.1 a.2;
  Draw sg.1 a.1.2 sg.2.

(** The frames of a run, one per input. *)
Fixpoint run (inputs : list FrameInput) (a : State F * Z * Gpu)
    : option (State F * Z * Gpu) :=
  match inputs with
  | [] => Some a
  | i :: rest => a ← frame i a; run rest a
  end.

(** [MyCastleApp::BuildRootSignature]: the description it serialises. *)
Definition BuildRootSignature : RootSignature :=
  let cbvTable0 := DescriptorTable D3D12_DESCRIPTOR_RANGE_TYPE_CBV 1 0 in
  let cbvTable1 := DescriptorTable D3D12_DESCRIPTOR_RANGE_TYPE_CBV 1 1 in
  mkRootSignature [cbvTable0; cbvTable1] [].

(** [MyCastleApp::BuildShadersAndInputLayout]. *)
Definition BuildShadersAndInputLayout (mShaders : gmap string Shader)
    : gmap string Shader * list D3D12_INPUT_ELEMENT_DESC :=
  let mShaders :=
    <["standardVS" := mkShader "Shaders\VS.hlsl" [] "VS" "vs_5_1"]> mShaders in
  let mShaders :=
    <["opaquePS" := mkShader "Shaders\PS.hlsl" [] "PS" "ps_5_1"]> mShaders in
  let mInputLayout :=
    [ mkInputElement "POSITION" 0 DXGI_FORMAT_R32G32B32_FLOAT 0;
      mkInputElement "COLOR" 0 DXGI_FORMAT_R32G32B32A32_FLOAT 12 ] in
  (mShaders, mInputLayout).

(** [MyCastleApp::BuildPSOs].  [mShaders[name]->GetBufferPointer()]
    dereferences the entry; the function stops ([None]) where the source
    would dereference a null pointer. *)
Definition BuildPSOs (mShaders : gmap string Shader)
    (mInputLayout : list D3D12_INPUT_ELEMENT_DESC)
    (mPSOs : gmap string PipelineState) : option (gmap string PipelineState) :=
  standardVS ← mShaders !! "standardVS";
  opaquePS ← mShaders !! "opaquePS";
  let opaquePsoDesc :=
    mkPipelineState mInputLayout standardVS None opaquePS
      D3D12_FILL_MODE_SOLID D3D12_CULL_MODE_BACK false
      D3D12_PRIMITIVE_TOPOLOGY_TYPE_TRIANGLE in
  let mPSOs := <["opaque" := opaquePsoDesc]> mPSOs in
  let opaqueWireframePsoDesc :=
    mkPipelineState (InputLayout opaquePsoDesc) (VS opaquePsoDesc)
      (GS opaquePsoDesc) (PS opaquePsoDesc) D3D12_FILL_MODE_WIREFRAME
      (CullMode opaquePsoDesc) (BlendEnable opaquePsoDesc)
      (PrimitiveTopologyType opaquePsoDesc) in
  Some (<["opaque_wireframe" := opaqueWireframePsoDesc]> mPSOs).

End Frames.

End MyCastleApp.

(** * Vocabulary of the properties *)

Section CameraVocabulary.
Context {F : Type} `{FloatOps F}.

(** The radius lies in [rMin, rMax] = [5, 150]. *)
Definition radius_ok (r : F) : Prop :=
  fleb (flit 5) r = true /\ fleb r (flit 150) = true.

(** The radius update of the right-drag branch of [OnMouseMove]: the
    radius moved by [delta], then clamped. *)
Definition zoom (r delta : F) : F :=
  Clamp (fadd r delta) (flit 5) (flit 150).

(** The zoom delta of a mouse move by [px], [py] pixels, each pixel
    counting [scale] units. *)
Definition zoom_delta (scale : Q) (px py : Z) : F :=
  fsub (fmul (flit scale) (of_int (INT px))) (fmul (flit scale) (of_int (INT py))).

(** The right button is held and the left one is not. *)
Definition right_drag (btnState : Z) : Prop :=
  Z.land btnState TreeBillboardsApp.MK_LBUTTON = 0 /\
  Z.land btnState TreeBillboardsApp.MK_RBUTTON <> 0.

(** [n] successive mouse-move events, each [px], [py] pixels further. *)
Definition repeat_move {St : Type} (move : Z -> Z -> Z -> St -> St)
    (pos : St -> Z * Z) (btnState px py : Z) (n : nat) (s : St) : St :=
  Nat.iter n (fun s => move btnState ((pos s).1 + px) ((pos s).2 + py) s) s.

(** What the camera clamp guarantees of a mouse-move handler [move] with
    radius member [radius]: the handler keeps the radius in range, and a
    right-drag whose delta would leave the range at the upper (lower)
    bound stays at that bound however often it is repeated. *)
Definition clamps_zoom {St : Type} (radius : St -> F) (pos : St -> Z * Z)
    (move : Z -> Z -> Z -> St -> St) (scale : Q) : Prop :=
  (forall s btnState x y,
      radius_ok (radius s) -> radius_ok (radius (move btnState x y s))) /\
  (forall s btnState px py n,
      right_drag btnState -> radius_ok (radius s) ->
      fltb (flit 150) (fadd (radius s) (zoom_delta scale px py)) = true ->
      radius (repeat_move move pos btnState px py (S n) s) = flit 150) /\
  (forall s btnState px py n,
      right_drag btnState -> radius_ok (radius s) ->
      fltb (fadd (radius s) (zoom_delta scale px py)) (flit 5) = true ->
      radius (repeat_move move pos btnState px py (S n) s) = flit 5).

End CameraVocabulary.

Section RingVocabulary.
Context {F W : Type}.
Import TreeBillboardsApp.

(** The ring and the GPU timeline agree: three frame resources, the ring
    index inside the ring, every stamped fence value at most the fence
    counter, which is the last value signalled, and the GPU no further
    than that. *)
Definition ring_ok (s : State F W) (g : Gpu) : Prop :=
  length (mFrameResources s) = 3%nat /\
  0 <= mCurrFrameResourceIndex s < gNumFrameResources /\
  0 <= CompletedValue g <= LastSignal g /\
  LastSignal g = mCurrentFence s /\
  Forall (fun fr => 0 <= FrameResource.Fence fr <= mCurrentFence s)
         (mFrameResources s).

(** The ring slot the next [Update] selects. *)
Definition next_slot (s : State F W) : nat :=
  Z.to_nat (Z.rem (mCurrFrameResourceIndex s + 1) gNumFrameResources).

(** [s'] differs from [s] in the ring at most in the buffers of slot [k]:
    the ring index, the fence counter and every stamped fence value are
    those of [s], and so is every other slot. *)
Definition ring_frame (k : nat) (s s' : State F W) : Prop :=
  mCurrFrameResource s' = mCurrFrameResource s /\
  mCurrFrameResourceIndex s' = mCurrFrameResourceIndex s /\
  mCurrentFence s' = mCurrentFence s /\
  FrameResource.Fence <$> mFrameResources s'
    = FrameResource.Fence <$> mFrameResources s /\
  (forall j, j <> k -> mFrameResources s' !! j = mFrameResources s !! j).

End RingVocabulary.

Section StatementVocabulary.
Context {F W : Type} `{FloatOps F} `{WavesOps F W}.
Import TreeBillboardsApp.

(** The GPU is done with ring slot [j]: the fence value last stamped on
    the slot has been reached by the completed value of the fence. *)
Definition slot_idle (sg : State F W * Gpu) (j : nat) : Prop :=
  exists fr, mFrameResources sg.1 !! j = Some fr /\
             FrameResource.Fence fr <= CompletedValue sg.2.

(** Statement [st], started in [sg], changes ring slot [j]: its command
    allocator, one of its buffers or its fence value. *)
Definition changes_slot (i : FrameInput F) (st : Statement)
    (sg : State F W * Gpu) (j : nat) : Prop :=
  exists sg', execute i st sg = Some sg' /\
              mFrameResources sg'.1 !! j <> mFrameResources sg.1 !! j.

(** The statements that record into the selected frame resource: the
    update phases and [Draw] up to the stamping of the new fence value. *)
Definition recording (st : Statement) : bool :=
  match st with
  | CycleFrameResource | AwaitFrameResource | SignalFence => false
  | _ => true
  end.

End StatementVocabulary.

Section SceneVocabulary.
Context {F W : Type} `{FloatOps F} `{WavesOps F W}.
Import TreeBillboardsApp.

(** One update-phase tick of a render item: the counter goes down by one
    when it is positive. *)
Definition tick_item (e : RenderItem.t F) : RenderItem.t F :=
  if 0 <? RenderItem.NumFramesDirty e
  then RenderItem.set_NumFramesDirty (RenderItem.NumFramesDirty e - 1) e
  else e.

(** The render items of the scene are sound: [mAllRitems] holds distinct
    addresses of live render items, whose constant-buffer indices are
    pairwise distinct and lie inside the object constant array of every
    frame resource. *)
Definition items_ok (s : State F W) : Prop :=
  NoDup (mAllRitems s) /\
  (forall p, p ∈ mAllRitems s -> is_Some (heap s !! p)) /\
  (forall p e k fr, p ∈ mAllRitems s -> heap s !! p = Some e ->
      mFrameResources s !! k = Some fr ->
      0 <= RenderItem.ObjCBIndex e
         < Z.of_nat (length (FrameResource.ObjectCB fr))) /\
  (forall p q e1 e2, p ∈ mAllRitems s -> q ∈ mAllRitems s ->
      heap s !! p = Some e1 -> heap s !! q = Some e2 ->
      RenderItem.ObjCBIndex e1 = RenderItem.ObjCBIndex e2 -> p = q).

(** The materials are sound: the water material exists, and the
    constant-buffer indices of the materials are pairwise distinct and lie
    inside the material constant array of every frame resource. *)
Definition materials_ok (s : State F W) : Prop :=
  is_Some (mMaterials s !! "water") /\
  (forall n m k fr, mMaterials s !! n = Some m ->
      mFrameResources s !! k = Some fr ->
      0 <= Material.MatCBIndex m
         < Z.of_nat (length (FrameResource.MaterialCB fr))) /\
  (forall n1 n2 m1 m2, mMaterials s !! n1 = Some m1 ->
      mMaterials s !! n2 = Some m2 ->
      Material.MatCBIndex m1 = Material.MatCBIndex m2 -> n1 = n2).

(** The object constants slot [k] of the ring holds at index [i]. *)
Definition object_constants (s : State F W) (k : nat) (i : Z)
    : option (ObjectConstants.t F) :=
  fr ← mFrameResources s !! k; FrameResource.ObjectCB fr !! Z.to_nat i.

(** The material constants slot [k] of the ring holds at index [i]. *)
Definition material_constants (s : State F W) (k : nat) (i : Z)
    : option (MaterialConstants.t F) :=
  fr ← mFrameResources s !! k; FrameResource.MaterialCB fr !! Z.to_nat i.

End SceneVocabulary.

(** A draw call of a command list: the pipeline state in effect and the
    object constants bound at root parameter 1 when
    [DrawIndexedInstanced] is recorded. *)
Record DrawCall := mkDrawCall { pso : string; object_cb : option GpuAddress }.

(** The draw calls of a command list, in the order of the list. *)
Fixpoint draw_calls_from (p : string) (obj : option GpuAddress)
    (cmds : list Command) : list DrawCall :=
  match cmds with
  | [] => []
  | CmdReset p' :: rest => draw_calls_from p' obj rest
  | CmdSetPipelineState p' :: rest => draw_calls_from p' obj rest
  | CmdSetGraphicsRootConstantBufferView root a :: rest =>
      draw_calls_from p (if root =? 1 then Some a else obj) rest
  | CmdDrawIndexedInstanced _ _ _ _ _ :: rest =>
      mkDrawCall p obj :: draw_calls_from p obj rest
  | _ :: rest => draw_calls_from p obj rest
  end.

Definition draw_calls (cmds : list Command) : list DrawCall :=
  draw_calls_from EmptyString None cmds.

Section DrawVocabulary.
Context {F W : Type}.
Import TreeBillboardsApp.

#[export] Instance RenderLayer_eq_dec : EqDecision RenderLayer.
Proof. solve_decision. Defined.

(** The pipeline state [Draw] selects for a layer, and the position of
    the layer in the draw order. *)
Definition pso_of (l : RenderLayer) : string :=
  match l with
  | Opaque => "opaque"
  | AlphaTested => "alphaTested"
  | AlphaTestedTreeSprites => "treeSprites"
  | Transparent => "transparent"
  end.
Definition draw_rank (l : RenderLayer) : nat :=
  match l with
  | Opaque => 0 | AlphaTested => 1 | AlphaTestedTreeSprites => 2
  | Transparent => 3
  end%nat.

(** Registration of render items in layers, in the given order: item [p]
    of a pair [(p, l)] is pushed onto layer [l]. *)
Definition register (regs : list (nat * RenderLayer))
    (layers : list (list nat)) : list (list nat) :=
  foldl (fun layers r => push_layer r.2 r.1 layers) layers regs.

(** The items registered in layer [l], in registration order. *)
Definition in_layer (l : RenderLayer) (regs : list (nat * RenderLayer))
    : list nat :=
  (filter (fun r => r.2 = l) regs).*1.

(** The items with their layers, layer after layer in the draw order. *)
Definition draw_sequence (regs : list (nat * RenderLayer))
    : list (RenderLayer * nat) :=
  (pair Opaque <$> in_layer Opaque regs)
  ++ (pair AlphaTested <$> in_layer AlphaTested regs)
  ++ (pair AlphaTestedTreeSprites <$> in_layer AlphaTestedTreeSprites regs)
  ++ (pair Transparent <$> in_layer Transparent regs).

(** The address of the object constants of a render item in frame
    resource [k]. *)
Definition object_address (k : nat) (ri : RenderItem.t F) : GpuAddress :=
  mkGpuAddress (UploadResource k ObjectCBKind)
               (UINT (RenderItem.ObjCBIndex ri * objCBByteSize)).

(** The draw call expected for item [p] of layer [l]. *)
Definition call_of (s : State F W) (k : nat) (lp : RenderLayer * nat)
    : option DrawCall :=
  ri ← heap s !! lp.2;
  Some (mkDrawCall (pso_of lp.1) (Some (object_address k ri))).

End DrawVocabulary.

Section WavesVocabulary.
Context {F W : Type} `{FloatOps F} `{WavesOps F W}.
Import TreeBillboardsApp.

(** The simulation integrated once per frame input, under the
    disturbance schedule of the inputs. *)
Definition simulate (inputs : list (FrameInput F)) (wt : W * F) : W * F :=
  foldl (fun wt i => step_waves i wt) wt inputs.

(** Modelled from the spec: "integrating from the initial state K times
    with the same disturbance schedule", with "one random interior-cell
    disturbance per elapsed 0.25s interval".  The schedule has one entry
    per frame: the time step of the frame and, in a frame in which a
    quarter second has elapsed since the time base, the three random
    draws of a disturbance; a disturbance moves the time base on by a
    quarter second. *)
Fixpoint disturbance_schedule (inputs : list (FrameInput F)) (base : F)
    : list (F * option (Z * Z * F)) :=
  match inputs with
  | [] => []
  | i :: rest =>
      if fleb (flit 0.25) (fsub (TotalTime (gt i)) base)
      then (DeltaTime (gt i), Some (rand_i i, rand_j i, rand_r i))
           :: disturbance_schedule rest (fadd base (flit 0.25))
      else (DeltaTime (gt i), None) :: disturbance_schedule rest base
  end.

(** The number of disturbances of a schedule, and the time base after [n]
    disturbances. *)
Definition disturbances (schedule : list (F * option (Z * Z * F))) : nat :=
  length (omap snd schedule).
Definition base_after (n : nat) (base : F) : F :=
  Nat.iter n (fun t => fadd t (flit 0.25)) base.

(** A disturbance of the wave state at the interior cell its draws
    select, rows and columns [4 .. count - 5], of a magnitude between 0.2
    and 0.5. *)
Definition disturb_interior (d : Z * Z * F) (w : W) : W :=
  Disturb (Rand 4 (RowCount w - 5) d.1.1) (Rand 4 (ColumnCount w - 5) d.1.2)
          (RandF (flit 0.2) (flit 0.5) d.2) w.

(** One entry of the schedule: the disturbance, if any, then one
    integration step; and the wave state integrated along a schedule. *)
Definition integrate_once (e : F * option (Z * Z * F)) (w : W) : W :=
  Waves_Update e.1 (from_option (fun d => disturb_interior d w) w e.2).
Definition integrate (schedule : list (F * option (Z * Z * F))) (w : W) : W :=
  foldl (fun w e => integrate_once e w) w schedule.

(** The vertices of a wave state, as [UpdateWaves] derives them. *)
Definition wave_vertices (w : W) : list (Vertex.t F) :=
  wave_vertex w <$> seqZ 0 (VertexCount w).

(** [mWavesRitem->Geo], the geometry of the waves. *)
Definition waves_geometry (s : State F W)
    : option (MeshGeometry (VertexBlob F)) :=
  p ← mWavesRitem s; ri ← heap s !! p; g ← RenderItem.Geo ri;
  mGeometries s !! g.

(** [mWavesRitem->Geo->VertexBufferGPU], the active vertex buffer of the
    waves. *)
Definition active_wave_buffer (s : State F W) : option Resource :=
  geo ← waves_geometry s; VertexBufferGPU geo.

(** Every frame resource has a wave vertex buffer of one element per wave
    vertex. *)
Definition waves_buffers_ok (s : State F W) : Prop :=
  forall k fr, mFrameResources s !! k = Some fr ->
    length (FrameResource.WavesVB fr) = Z.to_nat (VertexCount (mWaves s)).

(** The ring slot in use after [n] frames from ring index [index]. *)
Definition slot_after (index : Z) (n : nat) : nat :=
  Z.to_nat ((index + Z.of_nat n) mod gNumFrameResources).

End WavesVocabulary.

Section GeometryVocabulary.
Context {V : Type}.

(** A submesh stays inside the buffers of its geometry: its index range
    inside the index buffer, and every vertex it refers to, its base
    vertex added, inside the vertex buffer. *)
Definition submesh_valid (geo : MeshGeometry V) (sm : SubmeshGeometry) : Prop :=
  0 <= StartIndexLocation sm /\ 0 <= IndexCount sm /\
  StartIndexLocation sm + IndexCount sm <= index_count geo /\
  forall j, StartIndexLocation sm <= j
            < StartIndexLocation sm + IndexCount sm ->
    exists idx, indices_of geo !! Z.to_nat j = Some idx /\
                0 <= BaseVertexLocation sm + idx < vertex_count geo.

(** Every submesh of the table of a geometry is valid, and the index
    buffer has the size the geometry records. *)
Definition geometry_valid (geo : MeshGeometry V) : Prop :=
  index_count geo = Z.of_nat (length (indices_of geo)) /\
  forall name sm, DrawArgs geo !! name = Some sm -> submesh_valid geo sm.

End GeometryVocabulary.

(** The meshes [BuildShapeGeometry] concatenates, and those of
    [BuildBoxGeometry], in the order of their index ranges. *)
Definition castle_meshes {F : Type} (m : GeneratedMeshes F)
    : list (GeometryGenerator.MeshData F) :=
  [ box m; grid m; sphere m; cylinder m; cone m; Pyramid_flat_head m;
    Pyramid_pointed_head m; wedge m; pointed_cylinder m; gate m ].
Definition box_meshes {F : Type} (m : GeneratedMeshes F)
    : list (GeometryGenerator.MeshData F) :=
  [ box m; sphere m; cylinder m; cone m; Pyramid_flat_head m;
    Pyramid_pointed_head m; wedge m; pointed_cylinder m ].

(** The number of vertices and of indices of a list of meshes. *)
Definition vertices_in {F : Type} (ms : list (GeometryGenerator.MeshData F))
    : Z :=
  foldr (fun x acc => Z.of_nat (length (GeometryGenerator.Vertices x)) + acc)
        0 ms.
Definition indices_in {F : Type} (ms : list (GeometryGenerator.MeshData F))
    : Z :=
  foldr (fun x acc => Z.of_nat (length (GeometryGenerator.Indices32 x)) + acc)
        0 ms.

(** The byte sizes of the buffers of a list of meshes fit a [UINT]. *)
Definition buffers_fit {F : Type} (ms : list (GeometryGenerator.MeshData F))
    (vertex_size : Z) : Prop :=
  vertices_in ms * vertex_size < 2 ^ 32 /\ indices_in ms * 2 < 2 ^ 32.

Section LayerVocabulary.

(** Item [p] is in bucket [i] of the layer buckets. *)
Definition in_bucket (layers : list (list nat)) (i : nat) (p : nat) : Prop :=
  exists l, layers !! i = Some l /\ p ∈ l.

(** The buckets partition the render-item list: the list has no item
    twice, no bucket has an item twice, the items of the list are those of
    the buckets, and no item is in two buckets. *)
Definition layer_partition (layers : list (list nat)) (all : list nat) : Prop :=
  NoDup all /\
  Forall NoDup layers /\
  (forall p, p ∈ all <-> exists i, in_bucket layers i p) /\
  (forall p i j, in_bucket layers i p -> in_bucket layers j p -> i = j).

(** The containers a [BuildRenderItems] in progress has filled: with the
    render items created and not yet moved into [mAllRitems] ([pending]),
    the list holds every render item made so far once, and so do the
    layer buckets; the next constant-buffer index is the number of render
    items, and each render item has the index of its position. *)
Definition builder_ok {F : Type} (pending : list nat)
    (b : TreeBillboardsApp.Builder F) : Prop :=
  length (TreeBillboardsApp.b_layers b) = TreeBillboardsApp.RenderLayer_Count /\
  TreeBillboardsApp.b_all b ++ pending
    ≡ₚ seq 0 (length (TreeBillboardsApp.b_heap b)) /\
  concat (TreeBillboardsApp.b_layers b)
    ≡ₚ seq 0 (length (TreeBillboardsApp.b_heap b)) /\
  TreeBillboardsApp.b_objIndex b
    = Z.of_nat (length (TreeBillboardsApp.b_heap b)) /\
  forall p e, TreeBillboardsApp.b_heap b !! p = Some e ->
    TreeBillboardsApp.RenderItem.ObjCBIndex e = UINT (Z.of_nat p) /\
    TreeBillboardsApp.RenderItem.NumFramesDirty e = gNumFrameResources /\
    exists g, TreeBillboardsApp.RenderItem.Geo e = Some g.

(** The same for the castle, whose render items go into [mAllRitems] as
    they are made. *)
Definition castle_builder_ok {F : Type} (b : MyCastleApp.Builder F) : Prop :=
  MyCastleApp.b_all b = seq 0 (length (MyCastleApp.b_heap b)) /\
  MyCastleApp.b_objIndex b = Z.of_nat (length (MyCastleApp.b_heap b)) /\
  forall p e, MyCastleApp.b_heap b !! p = Some e ->
    MyCastleApp.RenderItem.ObjCBIndex e = UINT (Z.of_nat p).

End LayerVocabulary.

Section CompletionVocabulary.
Context {F W : Type} `{FloatOps F} `{WavesOps F W}.
Import TreeBillboardsApp.

(** Render item [p] can be drawn: it is live and its geometry and its
    material exist. *)
Definition drawable (s : State F W) (p : nat) : Prop :=
  exists ri g m,
    heap s !! p = Some ri /\
    RenderItem.Geo ri = Some g /\ is_Some (mGeometries s !! g) /\
    RenderItem.Mat ri = Some m /\ is_Some (mMaterials s !! m).

(** What a frame dereferences is there: the water material, the render
    items of [mAllRitems], what the render items of the layers point to,
    and the render item of the waves. *)
Definition scene_ok (s : State F W) : Prop :=
  is_Some (mMaterials s !! "water") /\
  (forall p, p ∈ mAllRitems s -> is_Some (heap s !! p)) /\
  (forall layer p, layer ∈ mRitemLayer s -> p ∈ layer -> drawable s p) /\
  exists p, mWavesRitem s = Some p /\ drawable s p.

(** The state is ready for the phases of a frame on frame resource [k]. *)
Definition ready (k : nat) (s : State F W) : Prop :=
  mCurrFrameResource s = Some k /\
  (k < length (mFrameResources s))%nat /\
  scene_ok s.

(** The render items made so far point to a geometry and to a material of
    [s]. *)
Definition built_drawable (s : State F W) (b : Builder F) : Prop :=
  forall p e, b_heap b !! p = Some e ->
    exists g m,
      RenderItem.Geo e = Some g /\ is_Some (mGeometries s !! g) /\
      RenderItem.Mat e = Some m /\ is_Some (mMaterials s !! m).

(** The materials [BuildRenderItems] names. *)
Definition scene_materials (s : State F W) : Prop :=
  Forall (fun n => is_Some (mMaterials s !! n))
    ["water"; "grass"; "bricks"; "wirefence"; "ice"; "testcolor";
     "checkboard"; "door"; "treeSprites"].

End CompletionVocabulary.

(** The descriptor-heap indices a command list binds as the descriptor
    table of root parameter [root], and the addresses it binds as the root
    constant-buffer view of root parameter [root], in the order of the
    list. *)
Fixpoint descriptor_tables (root : Z) (cmds : list Command) : list Z :=
  match cmds with
  | [] => []
  | CmdSetGraphicsRootDescriptorTable r h :: rest =>
      if r =? root then h :: descriptor_tables root rest
      else descriptor_tables root rest
  | _ :: rest => descriptor_tables root rest
  end.
Fixpoint root_views (root : Z) (cmds : list Command) : list GpuAddress :=
  match cmds with
  | [] => []
  | CmdSetGraphicsRootConstantBufferView r a :: rest =>
      if r =? root then a :: root_views root rest else root_views root rest
  | _ :: rest => root_views root rest
  end.

Section FlightVocabulary.
Context {F W : Type} `{FloatOps F} `{WavesOps F W}.
Import TreeBillboardsApp.

(** After [n] frames, the frame resource used [j] frames ago, for [j]
    below [n] and below the ring depth, still carries the fence value
    stamped on it then. *)
Definition ring_stamped (n : nat) (s : State F W) : Prop :=
  forall j fr, (j < 3)%nat -> (j < n)%nat ->
    mFrameResources s
      !! Z.to_nat ((mCurrFrameResourceIndex s - Z.of_nat j) mod 3) = Some fr ->
    FrameResource.Fence fr = mCurrentFence s - Z.of_nat j.

(** The draw calls of a frame are those of the render items of [order],
    one after the other. *)
Definition draws_in_order (s : State F W) (k : nat)
    (order : list (RenderLayer * nat)) (cmds : list Command) : Prop :=
  Forall2 (fun lp c => call_of s k lp = Some c) order (draw_calls cmds).

(** A render item, a material and a geometry without what the frames
    write of them: the dirty counters, the transform of the material, and
    the handle of the vertex buffer. *)
Definition static_item (e : RenderItem.t F) : RenderItem.t F :=
  RenderItem.set_NumFramesDirty 0 e.
Definition static_material (m : Material.t F) : Material.t F :=
  Material.set_MatTransform Identity4x4 (Material.set_NumFramesDirty 0 m).
Definition static_geometry_of (geo : MeshGeometry (VertexBlob F))
    : MeshGeometry (VertexBlob F) :=
  set_VertexBufferGPU None geo.

(** [s] has the scene of [s0]: the same containers, and the same render
    items, materials and geometries up to what the frames write. *)
Definition same_scene (s0 s : State F W) : Prop :=
  mAllRitems s = mAllRitems s0 /\
  mRitemLayer s = mRitemLayer s0 /\
  mWavesRitem s = mWavesRitem s0 /\
  (forall p, static_item <$> heap s !! p = static_item <$> heap s0 !! p) /\
  (forall n, static_material <$> mMaterials s !! n
             = static_material <$> mMaterials s0 !! n) /\
  (forall g, static_geometry_of <$> mGeometries s !! g
             = static_geometry_of <$> mGeometries s0 !! g).

(** The material, the geometry and the primitive topology of the render
    items [BuildRenderItems] puts into a layer. *)
Definition layer_kinds (l : RenderLayer)
    : list (string * string * D3D_PRIMITIVE_TOPOLOGY) :=
  let tri := D3D_PRIMITIVE_TOPOLOGY_TRIANGLELIST in
  match l with
  | Opaque => [("grass", "landGeo", tri)]
  | Transparent => [("water", "waterGeo", tri)]
  | AlphaTested =>
      [("bricks", "boxGeo", tri); ("wirefence", "boxGeo", tri);
       ("ice", "boxGeo", tri); ("testcolor", "boxGeo", tri);
       ("checkboard", "boxGeo", tri); ("door", "boxGeo", tri)]
  | AlphaTestedTreeSprites =>
      [("treeSprites", "treeSpritesGeo", D3D_PRIMITIVE_TOPOLOGY_POINTLIST)]
  end.

(** Render item [e] is of a kind of layer [l]. *)
Definition layer_kind (l : RenderLayer) (e : RenderItem.t F) : Prop :=
  exists m g,
    RenderItem.Mat e = Some m /\ RenderItem.Geo e = Some g /\
    (m, g, RenderItem.PrimitiveType e) ∈ layer_kinds l.

(** The render items a [BuildRenderItems] in progress has put into the
    layers are of the kinds of their layers. *)
Definition built_kinds (b : Builder F) : Prop :=
  length (b_layers b) = RenderLayer_Count /\
  forall l p, p ∈ default [] (b_layers b !! layer_index l) ->
    exists e, b_heap b !! p = Some e /\ layer_kind l e.

End FlightVocabulary.

(** The topology type a pipeline state must have for a primitive
    topology, and the size of the vertex an input layout describes. *)
Definition topology_type (t : D3D_PRIMITIVE_TOPOLOGY)
    : D3D12_PRIMITIVE_TOPOLOGY_TYPE :=
  match t with
  | D3D_PRIMITIVE_TOPOLOGY_POINTLIST => D3D12_PRIMITIVE_TOPOLOGY_TYPE_POINT
  | D3D_PRIMITIVE_TOPOLOGY_TRIANGLELIST => D3D12_PRIMITIVE_TOPOLOGY_TYPE_TRIANGLE
  end.
Definition layout_size (layout : list D3D12_INPUT_ELEMENT_DESC) : Z :=
  foldr (fun e n => Z.max (AlignedByteOffset e + format_bytes (el_Format e)) n)
        0 layout.

(** The elements of an input layout lie one after the other from offset 0. *)
Fixpoint layout_packed (offset : Z) (layout : list D3D12_INPUT_ELEMENT_DESC)
    : bool :=
  match layout with
  | [] => true
  | e :: rest =>
      (AlignedByteOffset e =? offset)
      && layout_packed (offset + format_bytes (el_Format e)) rest
  end.

(** The texture file that goes with a material: the material and the
    texture of the same name. *)
Definition material_texture (m : string) : option string :=
  match m with
  | "grass" => Some "../../Textures/grass.dds"
  | "water" => Some "../../Textures/water1.dds"
  | "wirefence" => Some "../../Textures/WireFence.dds"
  | "ice" => Some "../../Textures/ice.dds"
  | "bricks" => Some "../../Textures/bricks.dds"
  | "testcolor" => Some "../../Textures/testcolor.dds"
  | "door" => Some "../../Textures/door.dds"
  | "walls" => Some "../../Textures/walls.dds"
  | "checkboard" => Some "../../Textures/checkboard.dds"
  | "treeSprites" => Some "../../Textures/treeArray.dds"
  | _ => None
  end%string.

(** The view dimension the shaders of a primitive topology sample: the
    tree sprites, drawn as points, sample a texture array. *)
Definition sampled_dimension (t : D3D_PRIMITIVE_TOPOLOGY)
    : D3D12_SRV_DIMENSION :=
  match t with
  | D3D_PRIMITIVE_TOPOLOGY_POINTLIST => D3D12_SRV_DIMENSION_TEXTURE2DARRAY
  | D3D_PRIMITIVE_TOPOLOGY_TRIANGLELIST => D3D12_SRV_DIMENSION_TEXTURE2D
  end.

(** The root arguments of a command list agree with a root signature:
    every root argument is set after the root signature, with the call
    that goes with the type of its root parameter, and at every draw call
    every root parameter has its argument.  [bound] holds the root
    parameters set so far, [None] before the root signature is set. *)
Fixpoint root_arguments_ok (sig : list RootParameter) (bound : option (list Z))
    (cmds : list Command) : bool :=
  match cmds with
  | [] => true
  | CmdSetGraphicsRootSignature :: rest => root_arguments_ok sig (Some []) rest
  | CmdSetGraphicsRootDescriptorTable r _ :: rest =>
      match bound, sig !! Z.to_nat r with
      | Some b, Some (DescriptorTable _ _ _) =>
          (0 <=? r) && root_arguments_ok sig (Some (r :: b)) rest
      | _, _ => false
      end
  | CmdSetGraphicsRootConstantBufferView r _ :: rest =>
      match bound, sig !! Z.to_nat r with
      | Some b, Some (ConstantBufferView _) =>
          (0 <=? r) && root_arguments_ok sig (Some (r :: b)) rest
      | _, _ => false
      end
  | CmdDrawIndexedInstanced _ _ _ _ _ :: rest =>
      match bound with
      | Some b =>
          forallb (fun r => bool_decide (r ∈ b))
                  (seqZ 0 (Z.of_nat (length sig)))
          && root_arguments_ok sig bound rest
      | None => false
      end
  | _ :: rest => root_arguments_ok sig bound rest
  end.

(** The pipeline states [Initialize] builds: [BuildPSOs] on the shaders
    and the input layouts of [BuildShadersAndInputLayouts]. *)
Definition initial_pipeline_states : option (gmap string PipelineState) :=
  let r := TreeBillboardsApp.BuildShadersAndInputLayouts ∅ in
  TreeBillboardsApp.BuildPSOs r.1 r.2.1 r.2.2 ∅.

(** The same for the castle. *)
Definition castle_pipeline_states : option (gmap string PipelineState) :=
  let r := MyCastleApp.BuildShadersAndInputLayout ∅ in
  MyCastleApp.BuildPSOs r.1 r.2 ∅.

(** The vertex stride of the geometries of [Initialize]. *)
Definition geometry_stride (g : string) : Z :=
  if String.eqb g "treeSpritesGeo"
  then TreeBillboardsApp.TreeSpriteVertex.sizeof
  else TreeBillboardsApp.Vertex.sizeof.

(** The texture files in the order in which [BuildDescriptorHeaps] creates
    their views. *)
Definition texture_files : list string :=
  ["../../Textures/grass.dds"; "../../Textures/water1.dds";
   "../../Textures/WireFence.dds"; "../../Textures/ice.dds";
   "../../Textures/bricks.dds"; "../../Textures/testcolor.dds";
   "../../Textures/door.dds"; "../../Textures/walls.dds";
   "../../Textures/checkboard.dds"; "../../Textures/treeArray.dds"].

Section CurrentVocabulary.
Context {F W : Type} `{FloatOps F} `{WavesOps F W}.
Import TreeBillboardsApp.

(** Frame resource [k] holds the constants of every render item of
    [mAllRitems], and of every material but those of [except], as they
    are now. *)
Definition constants_written (except : list string) (s : State F W)
    (k : nat) : Prop :=
  (forall p e, p ∈ mAllRitems s -> heap s !! p = Some e ->
     object_constants s k (RenderItem.ObjCBIndex e)
     = Some (objConstants e)) /\
  (forall n m, n ∉ except -> mMaterials s !! n = Some m ->
     material_constants s k (Material.MatCBIndex m)
     = Some (matConstants m)).

(** The dirty counters after [n] frames, the water material apart. *)
Definition counters_at (n : nat) (s : State F W) : Prop :=
  (forall p e, p ∈ mAllRitems s -> heap s !! p = Some e ->
     RenderItem.NumFramesDirty e = Z.max 0 (3 - Z.of_nat n)) /\
  (forall x m, x <> "water" -> mMaterials s !! x = Some m ->
     Material.NumFramesDirty m = Z.max 0 (3 - Z.of_nat n)).

(** The frame resources [n] frames have used, from ring index 0. *)
Definition visited (n k : nat) : Prop :=
  (1 <= k <= n)%nat \/ (k = 0%nat /\ 3 <= n)%nat.

End CurrentVocabulary.

Section CastleVocabulary.
Context {F : Type} `{FloatOps F}.
Import MyCastleApp.

(** The ring of the castle and the GPU timeline agree; [fence] is
    [mCurrentFence]. *)
Definition castle_ring_ok (s : State F) (fence : Z) (g : Gpu) : Prop :=
  length (mFrameResources s) = 3%nat /\
  0 <= mCurrFrameResourceIndex s < gNumFrameResources /\
  0 <= CompletedValue g <= LastSignal g /\
  LastSignal g = fence /\
  Forall (fun fr => 0 <= FrameResource.Fence fr <= fence) (mFrameResources s).

(** The descriptors of the castle: per frame resource the views of the
    36 objects, then the views of the pass constants. *)
Definition castle_descriptors : list (option CBV) :=
  (f ← seqZ 0 3; (fun i => Some (object_cbv f i)) <$> seqZ 0 36)
  ++ ((fun f => Some (pass_cbv f)) <$> seqZ 0 3).

(** The scene of the castle: 36 render items, all opaque, the render item
    at address [p] a triangle list with the constant-buffer index [p] and
    the geometry of the shapes, which exists and has the stride of a
    vertex; an object constant array of 36 elements in every frame
    resource; the descriptors created. *)
Definition castle_scene (s : State F) : Prop :=
  length (heap s) = 36%nat /\
  mAllRitems s = seq 0 36 /\
  mOpaqueRitems s = seq 0 36 /\
  (forall p e, heap s !! p = Some e ->
     RenderItem.ObjCBIndex e = Z.of_nat p /\
     RenderItem.Geo e = Some "shapeGeo" /\
     RenderItem.PrimitiveType e = D3D_PRIMITIVE_TOPOLOGY_TRIANGLELIST) /\
  (exists geo, mGeometries s !! "shapeGeo" = Some geo /\
               VertexByteStride geo = Vertex.sizeof) /\
  Forall (fun fr => length (FrameResource.ObjectCB fr) = 36%nat)
         (mFrameResources s) /\
  mCbvHeap s = castle_descriptors /\
  mPassCbvOffset s = 108.

(** One pass of [UpdateObjectCBs] over a render item. *)
Definition castle_tick (e : RenderItem.t F) : RenderItem.t F :=
  if 0 <? RenderItem.NumFramesDirty e then decrement e else e.

(** After [n] frames every dirty counter is [max 0 (3 - n)]. *)
Definition castle_counters_at (n : nat) (s : State F) : Prop :=
  forall p e, heap s !! p = Some e ->
    RenderItem.NumFramesDirty e = Z.max 0 (3 - Z.of_nat n).

(** Frame resource [k] holds the object constants of every render
    item. *)
Definition castle_constants_written (s : State F) (k : nat) : Prop :=
  exists fr, mFrameResources s !! k = Some fr /\
    forall p e, heap s !! p = Some e ->
      FrameResource.ObjectCB fr !! p = Some (objConstants e).

(** The builder has made render items of the geometry of the shapes,
    dirty for every frame resource. *)
Definition castle_items_fresh (b : Builder F) : Prop :=
  forall p e, b_heap b !! p = Some e ->
    RenderItem.Geo e = Some "shapeGeo" /\
    RenderItem.PrimitiveType e = D3D_PRIMITIVE_TOPOLOGY_TRIANGLELIST /\
    RenderItem.NumFramesDirty e = gNumFrameResources.

End CastleVocabulary.

Section OrbitVocabulary.
Context {F : Type} `{FloatOps F}.

(** The polar angle lies in [0.1, Pi - 0.1]. *)
Definition phi_ok (phi : F) : Prop :=
  fleb (flit 0.1) phi = true /\
  fleb phi (fsub TreeBillboardsApp.Pi (flit 0.1)) = true.

(** The left button is held. *)
Definition left_drag (btnState : Z) : Prop :=
  Z.land btnState TreeBillboardsApp.MK_LBUTTON <> 0.

(** The angle of a mouse move by [pixels] pixels, a quarter of a degree
    each. *)
Definition orbit_angle (pixels : Z) : F :=
  TreeBillboardsApp.XMConvertToRadians
    (fmul (flit 0.25) (of_int (INT pixels))).

(** What the left-drag branch guarantees of the mouse handlers [down] and
    [move]: a button press stores the mouse position and leaves the camera
    as it is, so that the move that follows counts from the position of
    the press; a move stores the mouse position; a left-drag, whatever the
    other buttons, turns the azimuth by the angle of the move, leaves the
    polar angle in range, equal to the turned angle when that is in range,
    and does not touch the radius; without the left button the angles
    stay. *)
Definition clamps_orbit {St : Type} (theta phi radius : St -> F)
    (pos : St -> Z * Z) (down move : Z -> Z -> Z -> St -> St) : Prop :=
  (forall s btnState x y,
      pos (down btnState x y s) = (x, y) /\
      theta (down btnState x y s) = theta s /\
      phi (down btnState x y s) = phi s /\
      radius (down btnState x y s) = radius s) /\
  (forall s btnState x y, pos (move btnState x y s) = (x, y)) /\
  (forall s btnState x y, left_drag btnState ->
      phi_ok (phi (move btnState x y s)) /\
      theta (move btnState x y s)
        = fadd (theta s) (orbit_angle (x - (pos s).1)) /\
      radius (move btnState x y s) = radius s) /\
  (forall s btnState x y, left_drag btnState ->
      phi_ok (fadd (phi s) (orbit_angle (y - (pos s).2))) ->
      phi (move btnState x y s)
        = fadd (phi s) (orbit_angle (y - (pos s).2))) /\
  (forall s btnState x y, ~ left_drag btnState ->
      phi (move btnState x y s) = phi s /\
      theta (move btnState x y s) = theta s).

End OrbitVocabulary.

(** The vertex the input assembler fetches for index [j] of a draw call
    [DrawIndexedInstanced(IndexCount, 1, StartIndexLocation,
    BaseVertexLocation, 0)]: the element of the vertex buffer at the base
    vertex location plus the index read at the start index location plus
    [j]. *)
Definition fetch_vertex {V : Type} (vertices : list V) (indices : list Z)
    (sm : SubmeshGeometry) (j : nat) : option V :=
  idx ← indices !! (Z.to_nat (StartIndexLocation sm) + j)%nat;
  if BaseVertexLocation sm + idx <? 0 then None
  else vertices !! Z.to_nat (BaseVertexLocation sm + idx).

(** The shapes of the castle: the name of the submesh, the colour of the
    vertices and the generated mesh. *)
Definition castle_shapes {F : Type} (m : GeneratedMeshes F)
    : list (string * MyCastleApp.Colors * GeometryGenerator.MeshData F) :=
  [ ("box", MyCastleApp.Gray, box m);
    ("grid", MyCastleApp.ForestGreen, grid m);
    ("sphere", MyCastleApp.Crimson, sphere m);
    ("cylinder", MyCastleApp.SteelBlue, cylinder m);
    ("cone", MyCastleApp.Gold, cone m);
    ("Pyramid_flat_head", MyCastleApp.Red, Pyramid_flat_head m);
    ("Pyramid_pointed_head", MyCastleApp.Tan, Pyramid_pointed_head m);
    ("wedge", MyCastleApp.Chocolate, wedge m);
    ("pointed_cylinder", MyCastleApp.Pink, pointed_cylinder m);
    ("gate", MyCastleApp.Cyan, gate m) ].

(** The shapes of [BuildBoxGeometry] whose vertices lie where their
    submesh expects them. *)
Definition box_shapes {F : Type} (m : GeneratedMeshes F)
    : list (string * GeometryGenerator.MeshData F) :=
  [ ("box", box m); ("sphere", sphere m); ("cylinder", cylinder m);
    ("cone", cone m); ("pointed_cylinder", pointed_cylinder m) ].

(** The two triangles of the quad at row [i], column [j] of a grid of [n]
    columns, by the numbers of their vertices. *)
Definition quad_triangles (n i j : Z) : list Z :=
  [ i * n + j; i * n + j + 1; (i + 1) * n + j;
    (i + 1) * n + j; i * n + j + 1; (i + 1) * n + j + 1 ].

(** The triangles of a grid of [m] rows and [n] columns, quad after quad,
    row after row. *)
Definition grid_triangles (m n : Z) : list Z :=
  i ← seqZ 0 (m - 1); j ← seqZ 0 (n - 1); quad_triangles n i j.

(** * Example inputs *)

(** A rational stand-in for the library routines: sine and cosine by
    their series cut after two terms, normalisation by the square of the
    length. *)
#[export] Instance Q_FloatLib : FloatLib Q := {|
  fsinf := fun x => (x - x * x * x / 6)%Q;
  fcosf := fun x => (1 - x * x / 2)%Q;
  XMVector3Normalize := fun v =>
    let n := (x3 v * x3 v + y3 v * y3 v + z3 v * z3 v)%Q in
    mkXMFLOAT3 (x3 v / n)%Q (y3 v / n)%Q (z3 v / n)%Q;
|}.

(** A wave grid of nine rows and nine columns, one unit apart: a
    disturbance sets the height of a cell, a step halves every height. *)
Record ExampleWaves := mkExampleWaves { heights : list Q }.

#[export] Instance ExampleWaves_ops : WavesOps Q ExampleWaves := {|
  RowCount := fun _ => 9;
  ColumnCount := fun _ => 9;
  VertexCount := fun _ => 81;
  TriangleCount := fun _ => 128;
  Width := fun _ => 8%Q;
  Depth := fun _ => 8%Q;
  Position := fun w k =>
    mkXMFLOAT3 (inject_Z (k mod 9 - 4))
               (nth (Z.to_nat k) (heights w) 0%Q)
               (inject_Z (4 - k / 9));
  Normal := fun _ _ => mkXMFLOAT3 0%Q 1%Q 0%Q;
  Waves_Update := fun _ w =>
    mkExampleWaves (map (fun h => (h * (1 # 2))%Q) (heights w));
  Disturb := fun i j r w =>
    mkExampleWaves (<[Z.to_nat (i * 9 + j) := r]> (heights w));
|}.

(** A quad and a triangle as generated meshes. *)
Definition example_vertex (x z : Q) : GeometryGenerator.Vertex Q :=
  GeometryGenerator.mkVertex (mkXMFLOAT3 x 0%Q z) (mkXMFLOAT3 0%Q 1%Q 0%Q)
    (mkXMFLOAT3 1%Q 0%Q 0%Q) (mkXMFLOAT2 x z).
Definition example_quad : GeometryGenerator.MeshData Q :=
  GeometryGenerator.mkMeshData
    [example_vertex 0 0; example_vertex 1 0; example_vertex 1 1;
     example_vertex 0 1]
    [0; 1; 2; 0; 2; 3].
Definition example_triangle : GeometryGenerator.MeshData Q :=
  GeometryGenerator.mkMeshData
    [example_vertex 0 0; example_vertex 1 0; example_vertex 0 1] [0; 1; 2].
Definition example_meshes : GeneratedMeshes Q :=
  mkGeneratedMeshes example_quad example_quad example_triangle example_quad
    example_triangle example_quad example_triangle example_triangle
    example_quad example_quad.

(** The environment of an example run. *)
Definition example_input : TreeBillboardsApp.InitInput Q ExampleWaves :=
  TreeBillboardsApp.mkInitInput example_meshes
    (mkExampleWaves (replicate 81 0%Q))
    (fun i => (inject_Z (Z.of_nat i) / 20, 1 # 2)%Q) 0
    (example_vertex 0 0)
    (TreeBillboardsApp.TreeSpriteVertex.mk (mkXMFLOAT3 0 0 0)%Q
                                           (mkXMFLOAT2 0 0)%Q)
    (TreeBillboardsApp.ObjectConstants.mk Identity4x4 Identity4x4)
    (TreeBillboardsApp.MaterialConstants.mk (mkXMFLOAT4 0 0 0 0)%Q
       (mkXMFLOAT3 0 0 0)%Q 0%Q Identity4x4)
    (TreeBillboardsApp.Vertex.mk (mkXMFLOAT3 0 0 0)%Q (mkXMFLOAT3 0 0 0)%Q
                                 (mkXMFLOAT2 0 0)%Q).

(** The frame at time [t], a tenth of a second long, during which the
    GPU retires nothing it is not waited for. *)
Definition example_frame (t : Q) (r : Z) : TreeBillboardsApp.FrameInput Q :=
  TreeBillboardsApp.mkFrameInput (mkGameTimer t (1 # 10)%Q) r (r + 1)
    (1 # 4)%Q 0 0.
Definition example_frames : list (TreeBillboardsApp.FrameInput Q) :=
  [example_frame (1 # 10) 3; example_frame (3 # 10) 7; example_frame (1 # 2) 12].

Definition example_gpu : Gpu := mkGpu 0 0.

(** The state [Initialize] leaves on the example input, and the state and
    the GPU timeline after the example frames. *)
Definition example_state : TreeBillboardsApp.State Q ExampleWaves :=
  Eval vm_compute in
    default (TreeBillboardsApp.State_new example_input)
            (TreeBillboardsApp.Initialize example_input).
Definition example_run
    : TreeBillboardsApp.State Q ExampleWaves * Gpu :=
  Eval vm_compute in
    default (example_state, example_gpu)
            (TreeBillboardsApp.run example_frames
                                   (example_state, example_gpu)).

(** A fourth frame, during which the GPU does not advance by itself. *)
Definition example_next_frame : TreeBillboardsApp.FrameInput Q :=
  TreeBillboardsApp.mkFrameInput (mkGameTimer (7 # 10)%Q (1 # 10)%Q) 5 6
    (1 # 4)%Q 0 0.

(** The statements the fourth frame reaches, each with the state in which
    it starts, and the disturbance schedule of the example frames. *)
Definition example_steps
    : list (TreeBillboardsApp.Statement
            * (TreeBillboardsApp.State Q ExampleWaves * Gpu)) :=
  TreeBillboardsApp.trace example_next_frame
    TreeBillboardsApp.frame_statements (example_run.1, example_run.2).
Definition example_schedule : list (Q * option (Z * Z * Q)) :=
  [ ((1 # 10)%Q, None); ((1 # 10)%Q, Some (7, 8, (1 # 4)%Q));
    ((1 # 10)%Q, Some (12, 13, (1 # 4)%Q)) ].

(** The order in which [BuildRenderItems] registers its render items in
    the layers. *)
Definition example_registration
    : list (nat * TreeBillboardsApp.RenderLayer) :=
  [(0%nat, TreeBillboardsApp.Transparent); (1%nat, TreeBillboardsApp.Opaque)]
  ++ map (fun p => (p, TreeBillboardsApp.AlphaTested)) (seq 2 27)
  ++ [(29%nat, TreeBillboardsApp.AlphaTestedTreeSprites)].

(** The commands a draw of the example state from frame resource 1
    records; the example state when the fourth frame, which uses frame
    resource 1, reaches its wave update, and after that update. *)
Definition example_commands : list Command :=
  Eval vm_compute in
    default [] (TreeBillboardsApp.Draw_commands example_state 1).
Definition example_updating : TreeBillboardsApp.State Q ExampleWaves :=
  Eval vm_compute in
    TreeBillboardsApp.set_current (Some 1%nat) 1 example_run.1.
Definition example_rebuilt : TreeBillboardsApp.State Q ExampleWaves :=
  Eval vm_compute in
    default example_updating
            (TreeBillboardsApp.UpdateWaves example_next_frame
                                           example_updating).

(** The castle on the example meshes, before its descriptor heap is
    built. *)
Definition example_castle_scene : MyCastleApp.State Q :=
  Eval vm_compute in
  MyCastleApp.BuildFrameResources
    (MyCastleApp.ObjectConstants.mk Identity4x4)
    (default MyCastleApp.State_new
       (MyCastleApp.BuildRenderItems
          (MyCastleApp.BuildShapeGeometry example_meshes
                                          MyCastleApp.State_new))).

(** The castle after [BuildConstantBufferViews], and the commands of a
    draw of its render item 5. *)
Definition example_castle : MyCastleApp.State Q :=
  Eval vm_compute in
    default example_castle_scene
      (MyCastleApp.BuildConstantBufferViews
         (MyCastleApp.BuildDescriptorHeaps example_castle_scene)).
Definition example_castle_commands : list Command :=
  Eval vm_compute in default [] (MyCastleApp.draw_item example_castle 5).

(** The example run after the update phase of the fourth frame, the
    commands of a draw of the state the example frames leave, and the
    format and the array size of the example texture files. *)
Definition example_updated
    : TreeBillboardsApp.State Q ExampleWaves * Gpu :=
  Eval vm_compute in
    default example_run
            (TreeBillboardsApp.Update example_next_frame example_run.1
                                      example_run.2).
Definition example_run_commands : list Command :=
  Eval vm_compute in
    default [] (TreeBillboardsApp.Draw_commands example_run.1 0).
Definition example_dds (filename : string) : Z * Z :=
  (Z.of_nat (String.length filename),
   if String.eqb filename "../../Textures/treeArray.dds" then 3 else 1).

(** Frames of the castle: the key 1 is held in the second and the fifth;
    the GPU has completed the flush of [Initialize], fence value 1. *)
Definition example_castle_frames : list MyCastleApp.FrameInput :=
  [ MyCastleApp.mkFrameInput false 0 0; MyCastleApp.mkFrameInput true 1 0;
    MyCastleApp.mkFrameInput false 0 1; MyCastleApp.mkFrameInput false 0 0 ].
Definition example_castle_key : MyCastleApp.FrameInput :=
  MyCastleApp.mkFrameInput true 0 0.
Definition example_castle_gpu : Gpu := mkGpu 1 1.

(** The state the first example frame leaves. *)
Definition example_first
    : TreeBillboardsApp.State Q ExampleWaves * Gpu :=
  Eval vm_compute in
    default (example_state, example_gpu)
            (TreeBillboardsApp.frame (example_frame (1 # 10) 3)
                                     (example_state, example_gpu)).

(** * Properties *)

(** ** The rational instance satisfies the order laws *)

Lemma Qle_bool_false_lt (x y : Q) : Qle_bool x y = false -> (y < x)%Q.
Proof.
  intros Hf. apply Qnot_le_lt. intros Hle.
  apply Qle_bool_iff in Hle. congruence.
Qed.

Lemma Qlt_Qle_bool_false (x y : Q) : (y < x)%Q -> Qle_bool x y = false.
Proof.
  intros Hlt. destruct (Qle_bool x y) eqn:E; [|reflexivity].
  apply Qle_bool_iff in E. exfalso. exact (Qlt_not_le _ _ Hlt E).
Qed.

#[export] Instance Q_FloatOrder : FloatOrder Q.
Proof.
  split; cbn.
  - intros x. apply Qle_bool_iff. apply Qle_refl.
  - intros x y Hf. apply negb_false_iff in Hf. exact Hf.
  - intros x y Hlt. apply negb_true_iff in Hlt. apply Qle_bool_false_lt in Hlt.
    apply negb_false_iff, Qle_bool_iff. apply Qlt_le_weak. exact Hlt.
  - intros x y z Hlt Hle. apply negb_true_iff in Hlt.
    apply Qle_bool_false_lt in Hlt. apply Qle_bool_iff in Hle.
    apply negb_true_iff, Qlt_Qle_bool_false.
    eapply Qlt_le_trans; eassumption.
  - intros x y z Hle Hlt. apply negb_true_iff in Hlt.
    apply Qle_bool_false_lt in Hlt. apply Qle_bool_iff in Hle.
    apply negb_true_iff, Qlt_Qle_bool_false.
    eapply Qle_lt_trans; eassumption.
  - intros x y d Hle. apply Qle_bool_iff in Hle. apply Qle_bool_iff.
    apply Qplus_le_compat; [exact Hle | apply Qle_refl].
  - intros p q Hle. apply Qle_bool_iff. exact Hle.
Qed.

(** ** Camera radius *)

Section Camera.
Context {F : Type} `{FloatOrder F}.

Lemma bounds_ordered : fleb (flit 5) (flit 150) = true.
Proof. apply flit_mono. vm_compute. discriminate. Qed.

Lemma Clamp_radius_ok (x : F) : radius_ok (Clamp x (flit 5) (flit 150)).
Proof.
  unfold Clamp, radius_ok.
  destruct (fltb x (flit 5)) eqn:Hlo.
  - split; [apply fleb_refl | apply bounds_ordered].
  - destruct (fltb (flit 150) x) eqn:Hhi.
    + split; [apply bounds_ordered | apply fleb_refl].
    + split; apply fltb_false_fleb; assumption.
Qed.

Lemma Clamp_above (x : F) :
  fltb (flit 150) x = true -> Clamp x (flit 5) (flit 150) = flit 150.
Proof.
  intros Hhi. unfold Clamp.
  assert (Hlt : fltb (flit 5) x = true)
    by (eapply fleb_fltb_trans; [apply bounds_ordered | exact Hhi]).
  rewrite (fltb_asym _ _ Hlt), Hhi. reflexivity.
Qed.

Lemma Clamp_below (x : F) :
  fltb x (flit 5) = true -> Clamp x (flit 5) (flit 150) = flit 5.
Proof. intros Hlo. unfold Clamp. rewrite Hlo. reflexivity. Qed.

Lemma zoom_pinned_above (r delta : F) :
  fleb r (flit 150) = true ->
  fltb (flit 150) (fadd r delta) = true ->
  zoom r delta = flit 150 /\ fltb (flit 150) (fadd (flit 150) delta) = true.
Proof.
  intros Hr Hpush. split.
  - apply Clamp_above. exact Hpush.
  - eapply fltb_fleb_trans; [exact Hpush |].
    apply fadd_mono_l. exact Hr.
Qed.

Lemma zoom_pinned_below (r delta : F) :
  fleb (flit 5) r = true ->
  fltb (fadd r delta) (flit 5) = true ->
  zoom r delta = flit 5 /\ fltb (fadd (flit 5) delta) (flit 5) = true.
Proof.
  intros Hr Hpush. split.
  - apply Clamp_below. exact Hpush.
  - eapply fleb_fltb_trans; [| exact Hpush].
    apply fadd_mono_l. exact Hr.
Qed.

(** Repeating a zoom whose first application leaves the range stays at
    the bound. *)
Lemma zoom_iter_above (delta : F) (n : nat) (r : F) :
  fleb r (flit 150) = true ->
  fltb (flit 150) (fadd r delta) = true ->
  Nat.iter (S n) (fun r => zoom r delta) r = flit 150.
Proof.
  revert r. induction n as [|n IH]; intros r Hr Hpush.
  - simpl. apply zoom_pinned_above; assumption.
  - rewrite Nat.iter_succ_r.
    destruct (zoom_pinned_above r delta Hr Hpush) as [-> Hnext].
    apply IH; [apply fleb_refl | exact Hnext].
Qed.

Lemma zoom_iter_below (delta : F) (n : nat) (r : F) :
  fleb (flit 5) r = true ->
  fltb (fadd r delta) (flit 5) = true ->
  Nat.iter (S n) (fun r => zoom r delta) r = flit 5.
Proof.
  revert r. induction n as [|n IH]; intros r Hr Hpush.
  - simpl. apply zoom_pinned_below; assumption.
  - rewrite Nat.iter_succ_r.
    destruct (zoom_pinned_below r delta Hr Hpush) as [-> Hnext].
    apply IH; [apply fleb_refl | exact Hnext].
Qed.


(** A handler that updates the radius as the right-drag branch does
    clamps the zoom. *)
Lemma clamps_zoom_intro {St : Type} (radius : St -> F) (pos : St -> Z * Z)
    (move : Z -> Z -> Z -> St -> St) (scale : Q) :
  (forall s btnState x y, pos (move btnState x y s) = (x, y)) ->
  (forall s btnState x y,
      radius (move btnState x y s) = radius s \/
      radius (move btnState x y s) =
        zoom (radius s) (zoom_delta scale (x - (pos s).1) (y - (pos s).2))) ->
  (forall s btnState x y, right_drag btnState ->
      radius (move btnState x y s) =
        zoom (radius s) (zoom_delta scale (x - (pos s).1) (y - (pos s).2))) ->
  clamps_zoom radius pos move scale.
Proof.
  intros Hpos Hany Hright.
  assert (Hstep : forall s btnState px py, right_drag btnState ->
            radius (move btnState ((pos s).1 + px) ((pos s).2 + py) s)
            = zoom (radius s) (zoom_delta scale px py)).
  { intros s b px py Hb. rewrite (Hright _ _ _ _ Hb).
    rewrite !Z.add_simpl_l. reflexivity. }
  assert (Hiter : forall btnState px py n s, right_drag btnState ->
            radius (repeat_move move pos btnState px py n s)
            = Nat.iter n (fun r => zoom r (zoom_delta scale px py)) (radius s)).
  { intros b px py n s Hb. unfold repeat_move.
    induction n as [|n IH]; [reflexivity|].
    rewrite !Nat.iter_succ, (Hstep _ _ _ _ Hb), IH. reflexivity. }
  split; [|split].
  - intros s b x y Hr. destruct (Hany s b x y) as [-> | ->].
    + exact Hr.
    + apply Clamp_radius_ok.
  - intros s b px py n Hb [_ Hr] Hpush.
    rewrite (Hiter _ _ _ _ _ Hb). apply zoom_iter_above; assumption.
  - intros s b px py n Hb [Hr _] Hpush.
    rewrite (Hiter _ _ _ _ _ Hb). apply zoom_iter_below; assumption.
Qed.

(** C9.  Camera clamp.  In both applications [OnMouseMove] keeps a radius
    that lies in [5, 150] inside [5, 150], whatever the buttons and the
    mouse position; and a right-drag whose delta would carry the radius
    above 150 (below 5) leaves it at exactly 150 (exactly 5), however many
    times the same drag is repeated. *)
Theorem camera_zoom_clamped (W : Type) :
  clamps_zoom (St := TreeBillboardsApp.State F W) TreeBillboardsApp.mRadius
    TreeBillboardsApp.mLastMousePos TreeBillboardsApp.OnMouseMove 0.2
  /\ clamps_zoom (St := MyCastleApp.State F) MyCastleApp.mRadius
       MyCastleApp.mLastMousePos MyCastleApp.OnMouseMove 0.05.
Proof.
  split; apply clamps_zoom_intro.
  - intros s b x y. unfold TreeBillboardsApp.OnMouseMove.
    repeat case_match; reflexivity.
  - intros s b x y. unfold TreeBillboardsApp.OnMouseMove.
    repeat case_match; cbn; auto.
  - intros s b x y [Hl Hr]. unfold TreeBillboardsApp.OnMouseMove.
    rewrite Hl. apply Z.eqb_neq in Hr. rewrite Hr. reflexivity.
  - intros s b x y. unfold MyCastleApp.OnMouseMove.
    repeat case_match; reflexivity.
  - intros s b x y. unfold MyCastleApp.OnMouseMove.
    repeat case_match; cbn; auto.
  - intros s b x y [Hl Hr]. unfold MyCastleApp.OnMouseMove.
    rewrite Hl. apply Z.eqb_neq in Hr. rewrite Hr. reflexivity.
Qed.

End Camera.

(** ** The frame-resource ring *)

Section Ring.
Context {F W : Type} `{FloatOps F} `{WavesOps F W}.
Import TreeBillboardsApp.
Implicit Type s : State F W.

Lemma ring_frame_refl k s : ring_frame k s s.
Proof. repeat split. Qed.

Lemma ring_frame_trans k s1 s2 s3 :
  ring_frame k s1 s2 -> ring_frame k s2 s3 -> ring_frame k s1 s3.
Proof.
  intros (A1 & A2 & A3 & A4 & A5) (B1 & B2 & B3 & B4 & B5).
  repeat split; try congruence.
  intros j Hj. rewrite B5, A5 by exact Hj. reflexivity.
Qed.

(** Replacing a buffer of slot [k] keeps the ring frame. *)
Lemma ring_frame_insert k s (fr fr' : FrameResource.t F) s' :
  mFrameResources s !! k = Some fr ->
  FrameResource.Fence fr' = FrameResource.Fence fr ->
  mCurrFrameResource s' = mCurrFrameResource s ->
  mCurrFrameResourceIndex s' = mCurrFrameResourceIndex s ->
  mCurrentFence s' = mCurrentFence s ->
  mFrameResources s' = <[k := fr']> (mFrameResources s) ->
  ring_frame k s s'.
Proof.
  intros Hk Hf H1 H2 H3 Hfrs. unfold ring_frame. rewrite Hfrs.
  repeat split; try assumption.
  - rewrite list_fmap_insert, Hf.
    apply list_insert_id. rewrite list_lookup_fmap, Hk. reflexivity.
  - intros j Hj. apply list_lookup_insert_ne. congruence.
Qed.

Lemma AnimateMaterials_ring k gt s s' :
  AnimateMaterials gt s = Some s' -> ring_frame k s s'.
Proof.
  unfold AnimateMaterials. intros Hs.
  destruct (mMaterials s !! "water") as [w|]; [|discriminate].
  cbn in Hs. injection Hs as <-. repeat split.
Qed.

Lemma UpdateObjectCBs_ring k s s' :
  mCurrFrameResource s = Some k ->
  UpdateObjectCBs s = Some s' -> ring_frame k s s'.
Proof.
  unfold UpdateObjectCBs. intros Hk Hs. rewrite Hk in Hs. cbn in Hs.
  destruct (mFrameResources s !! k) as [fr|] eqn:Efr; [|discriminate].
  cbn in Hs.
  destruct (UpdateObjectCBs_loop _ _ _) as [r|] eqn:Er; [|discriminate].
  cbn in Hs. injection Hs as <-.
  eapply (ring_frame_insert k s fr (FrameResource.set_ObjectCB r.2 fr));
    [exact Efr | reflexivity ..].
Qed.

Lemma UpdateMaterialCBs_ring k s s' :
  mCurrFrameResource s = Some k ->
  UpdateMaterialCBs s = Some s' -> ring_frame k s s'.
Proof.
  unfold UpdateMaterialCBs. intros Hk Hs. rewrite Hk in Hs. cbn in Hs.
  destruct (mFrameResources s !! k) as [fr|] eqn:Efr; [|discriminate].
  cbn in Hs. injection Hs as <-.
  eapply (ring_frame_insert k s fr (FrameResource.set_MaterialCB _ fr));
    [exact Efr | reflexivity ..].
Qed.

Lemma UpdateWaves_ring k i s s' :
  mCurrFrameResource s = Some k ->
  UpdateWaves i s = Some s' -> ring_frame k s s'.
Proof.
  unfold UpdateWaves. intros Hk Hs. rewrite Hk in Hs. cbn in Hs.
  destruct (mFrameResources s !! k) as [fr|] eqn:Efr; [|discriminate].
  cbn in Hs.
  destruct (mWavesRitem s) as [p|]; [|discriminate]. cbn in Hs.
  destruct (heap s !! p) as [ri|]; [|discriminate]. cbn in Hs.
  destruct (RenderItem.Geo ri) as [gn|]; [|discriminate]. cbn in Hs.
  destruct (mGeometries s !! gn) as [geo|]; [|discriminate]. cbn in Hs.
  injection Hs as <-.
  eapply (ring_frame_insert k s fr (FrameResource.set_WavesVB _ fr));
    [exact Efr | reflexivity ..].
Qed.

Lemma UpdatePhases_ring k i s s' :
  mCurrFrameResource s = Some k ->
  UpdatePhases i s = Some s' -> ring_frame k s s'.
Proof.
  unfold UpdatePhases. intros Hk Hs.
  destruct (AnimateMaterials (gt i) s) as [s1|] eqn:E1; [|discriminate].
  cbn in Hs.
  destruct (UpdateObjectCBs s1) as [s2|] eqn:E2; [|discriminate].
  cbn in Hs.
  destruct (UpdateMaterialCBs s2) as [s3|] eqn:E3; [|discriminate].
  cbn in Hs.
  pose proof (AnimateMaterials_ring k _ _ _ E1) as R1.
  assert (K1 : mCurrFrameResource s1 = Some k) by (rewrite (proj1 R1); exact Hk).
  pose proof (UpdateObjectCBs_ring k _ _ K1 E2) as R2.
  assert (K2 : mCurrFrameResource s2 = Some k) by (rewrite (proj1 R2); exact K1).
  pose proof (UpdateMaterialCBs_ring k _ _ K2 E3) as R3.
  assert (K3 : mCurrFrameResource s3 = Some k) by (rewrite (proj1 R3); exact K2).
  pose proof (UpdateWaves_ring k _ _ _ K3 Hs) as R4.
  eauto using ring_frame_trans.
Qed.


(** The wait of [Update] returns, and when it does the GPU has completed
    the awaited fence value. *)
Lemma WaitForFrameResource_returns (i : FrameInput F) fence g :
  0 <= CompletedValue g <= LastSignal g ->
  0 <= fence <= LastSignal g ->
  exists g', WaitForFrameResource i fence g = Some g' /\
             fence <= CompletedValue g' /\
             0 <= CompletedValue g' <= LastSignal g' /\
             LastSignal g' = LastSignal g.
Proof.
  intros Hc Hf. unfold WaitForFrameResource, WaitForFence, gpu_run. cbn.
  destruct (negb (fence =? 0) && _) eqn:Hwait.
  - apply andb_true_iff in Hwait as [_ Hlt]. apply Z.ltb_lt in Hlt.
    destruct (fence <=? LastSignal g) eqn:Hle; [|apply Z.leb_gt in Hle; lia].
    eexists. split; [reflexivity|]. cbn. lia.
  - eexists. split; [reflexivity|]. cbn.
    apply andb_false_iff in Hwait as [Hz | Hge].
    + apply negb_false_iff, Z.eqb_eq in Hz. lia.
    + apply Z.ltb_ge in Hge. lia.
Qed.

Lemma Update_inv (i : FrameInput F) s g s' g' :
  Update i s g = Some (s', g') ->
  exists fr,
    mFrameResources s !! next_slot s = Some fr /\
    WaitForFrameResource i (FrameResource.Fence fr) g = Some g' /\
    UpdatePhases i
      (set_current (Some (next_slot s))
         (Z.rem (mCurrFrameResourceIndex s + 1) gNumFrameResources) s)
    = Some s'.
Proof.
  unfold Update, next_slot. intros Hu.
  destruct (mFrameResources s !! _) as [fr|] eqn:Efr; [|discriminate].
  cbn in Hu.
  destruct (WaitForFrameResource i _ g) as [g1|] eqn:Eg; [|discriminate].
  cbn in Hu.
  destruct (UpdatePhases i _) as [s1|] eqn:Es; [|discriminate].
  cbn in Hu. injection Hu as <- <-. eauto.
Qed.

Lemma Draw_inv s g s' g' :
  Draw s g = Some (s', g') ->
  exists k fr cmds,
    mCurrFrameResource s = Some k /\
    mFrameResources s !! k = Some fr /\
    Draw_commands s k = Some cmds /\
    s' = set_mCurrentFence (UINT64 (mCurrentFence s + 1))
           (set_mFrameResources
              (<[k := FrameResource.set_Fence (UINT64 (mCurrentFence s + 1))
                        (FrameResource.set_CmdListAlloc cmds fr)]>
                 (mFrameResources s)) s) /\
    g' = Signal (UINT64 (mCurrentFence s + 1)) g.
Proof.
  unfold Draw. intros Hd.
  destruct (mCurrFrameResource s) as [k|] eqn:Ek; [|discriminate]. cbn in Hd.
  destruct (mFrameResources s !! k) as [fr|] eqn:Efr; [|discriminate].
  cbn in Hd.
  destruct (Draw_commands s k) as [cmds|] eqn:Ec; [|discriminate].
  cbn in Hd. injection Hd as <- <-. eauto 10.
Qed.

Lemma next_slot_bounds s :
  0 <= mCurrFrameResourceIndex s < gNumFrameResources ->
  0 <= Z.rem (mCurrFrameResourceIndex s + 1) gNumFrameResources
     < gNumFrameResources /\
  (next_slot s < 3)%nat.
Proof.
  unfold next_slot, gNumFrameResources. intros Hi.
  rewrite Z.rem_mod_nonneg by lia.
  pose proof (Z.mod_pos_bound (mCurrFrameResourceIndex s + 1) 3 ltac:(lia)).
  lia.
Qed.

(** What [Update] does to the ring. *)
Lemma Update_ring (i : FrameInput F) s g s' g' :
  ring_ok s g ->
  Update i s g = Some (s', g') ->
  mCurrFrameResource s' = Some (next_slot s) /\
  mCurrFrameResourceIndex s'
    = Z.rem (mCurrFrameResourceIndex s + 1) gNumFrameResources /\
  mCurrentFence s' = mCurrentFence s /\
  FrameResource.Fence <$> mFrameResources s'
    = FrameResource.Fence <$> mFrameResources s /\
  (forall j, j <> next_slot s ->
             mFrameResources s' !! j = mFrameResources s !! j) /\
  ring_ok s' g'.
Proof.
  intros (Hlen & Hidx & Hc & Hsig & Hfences) Hu.
  destruct (Update_inv _ _ _ _ _ Hu) as (fr & Efr & Eg & Es).
  pose proof (fun Hk => UpdatePhases_ring (next_slot s) i _ _ Hk Es) as R.
  specialize (R eq_refl). destruct R as (R1 & R2 & R3 & R4 & R5).
  cbn in R1, R2, R3, R4, R5.
  assert (Hfr : 0 <= FrameResource.Fence fr <= LastSignal g).
  { rewrite Hsig. exact (Forall_lookup_1 _ _ _ _ Hfences Efr). }
  destruct (WaitForFrameResource_returns i _ g Hc Hfr)
    as (g2 & Eg2 & _ & Hc2 & Hs2).
  assert (g2 = g') by congruence. subst g2.
  repeat split; try assumption.
  - rewrite <- (length_fmap FrameResource.Fence), R4, length_fmap. exact Hlen.
  - rewrite R2. apply next_slot_bounds. exact Hidx.
  - rewrite R2. apply next_slot_bounds. exact Hidx.
  - lia.
  - lia.
  - rewrite R3. congruence.
  - rewrite R3.
    apply (Forall_fmap FrameResource.Fence (fun f => 0 <= f <= mCurrentFence s)).
    rewrite R4.
    apply (Forall_fmap FrameResource.Fence (fun f => 0 <= f <= mCurrentFence s)).
    exact Hfences.
Qed.

(** What [Draw] does to the ring. *)
Lemma Draw_ring s g s' g' k :
  ring_ok s g ->
  mCurrFrameResource s = Some k ->
  mCurrentFence s + 1 < 2 ^ 64 ->
  Draw s g = Some (s', g') ->
  mCurrentFence s' = mCurrentFence s + 1 /\
  (forall j, j <> k -> mFrameResources s' !! j = mFrameResources s !! j) /\
  ring_ok s' g'.
Proof.
  intros (Hlen & Hidx & Hc & Hsig & Hfences) Hk Hbound Hd.
  destruct (Draw_inv _ _ _ _ Hd) as (k' & fr & cmds & Ek & Efr & _ & -> & ->).
  assert (k' = k) by congruence. subst k'.
  assert (Hcf : 0 <= mCurrentFence s) by lia.
  assert (Hw : UINT64 (mCurrentFence s + 1) = mCurrentFence s + 1).
  { unfold UINT64. apply Z.mod_small. lia. }
  rewrite Hw. split; [reflexivity|]. split.
  { intros j Hj. cbn. apply list_lookup_insert_ne. congruence. }
  unfold ring_ok. cbn.
  split; [rewrite length_insert; exact Hlen|].
  split; [exact Hidx|]. split; [lia|]. split; [reflexivity|].
  apply Forall_insert; [|cbn; lia].
  eapply Forall_impl; [exact Hfences|]. cbn. intros; lia.
Qed.

(** A frame keeps the ring and the GPU timeline in agreement. *)
Lemma frame_ring_ok (i : FrameInput F) s g s' g' :
  ring_ok s g ->
  mCurrentFence s + 1 < 2 ^ 64 ->
  frame i (s, g) = Some (s', g') ->
  ring_ok s' g' /\ mCurrentFence s' = mCurrentFence s + 1.
Proof.
  intros Hok Hbound Hf. unfold frame in Hf. cbn in Hf.
  destruct (Update i s g) as [[s1 g1]|] eqn:Eu; [|discriminate]. cbn in Hf.
  destruct (Update_ring _ _ _ _ _ Hok Eu) as (K & _ & Hcf & _ & _ & Hok1).
  rewrite <- Hcf in Hbound.
  destruct (Draw_ring _ _ _ _ _ Hok1 K Hbound Hf) as (Hcf' & _ & Hok2).
  split; [exact Hok2 | lia].
Qed.

Lemma run_ring_ok (inputs : list (FrameInput F)) s g s' g' :
  ring_ok s g ->
  mCurrentFence s + Z.of_nat (length inputs) < 2 ^ 64 ->
  run inputs (s, g) = Some (s', g') ->
  ring_ok s' g' /\
  mCurrentFence s' = mCurrentFence s + Z.of_nat (length inputs).
Proof.
  revert s g. induction inputs as [|i rest IH]; intros s g Hok Hbound Hr.
  - cbn in Hr. injection Hr as <- <-. split; [exact Hok | cbn; lia].
  - cbn [run] in Hr. cbn [length] in Hbound.
    destruct (frame i (s, g)) as [[s1 g1]|] eqn:Ef; [|discriminate].
    cbn in Hr.
    assert (Hb1 : mCurrentFence s + 1 < 2 ^ 64) by lia.
    destruct (frame_ring_ok _ _ _ _ _ Hok Hb1 Ef) as (Hok1 & Hcf1).
    assert (Hb2 : mCurrentFence s1 + Z.of_nat (length rest) < 2 ^ 64) by lia.
    destruct (IH s1 g1 Hok1 Hb2 Hr) as (Hok' & Hcf').
    split; [exact Hok' | cbn [length]; lia].
Qed.

Lemma DrawRenderItems_frame_resources (l : list (FrameResource.t F)) s k items :
  DrawRenderItems (set_mFrameResources l s) k items = DrawRenderItems s k items.
Proof.
  induction items as [|p rest IH]; [reflexivity|].
  cbn [DrawRenderItems]. rewrite IH. reflexivity.
Qed.

Lemma Draw_commands_frame_resources (l : list (FrameResource.t F)) s k :
  Draw_commands (set_mFrameResources l s) k = Draw_commands s k.
Proof.
  unfold Draw_commands. rewrite !DrawRenderItems_frame_resources.
  reflexivity.
Qed.

(** [frame] executes the statements of [frame_statements] in order. *)
Lemma frame_statements_frame (i : FrameInput F) (sg : State F W * Gpu) :
  execute_all i frame_statements sg = frame i sg.
Proof.
  destruct sg as [s g].
  unfold frame, Update, frame_statements, update_statements, draw_statements.
  cbn [app execute_all execute fst snd].
  destruct (mFrameResources s !! _) as [fr|] eqn:Efr; [|reflexivity].
  cbn [mbind option_bind fst snd].
  change (mCurrFrameResource (set_current _ _ s))
    with (Some (Z.to_nat (Z.rem (mCurrFrameResourceIndex s + 1)
                                gNumFrameResources))).
  change (mFrameResources (set_current _ _ s)) with (mFrameResources s).
  cbn [mbind option_bind]. rewrite Efr. cbn [mbind option_bind].
  destruct (WaitForFrameResource i _ g) as [g1|]; [|reflexivity].
  cbn [mbind option_bind fst snd]. unfold UpdatePhases.
  destruct (AnimateMaterials (gt i) _) as [s1|]; [|reflexivity].
  cbn [mbind option_bind fst snd].
  destruct (UpdateObjectCBs s1) as [s2|]; [|reflexivity].
  cbn [mbind option_bind fst snd].
  destruct (UpdateMaterialCBs s2) as [s3|]; [|reflexivity].
  cbn [mbind option_bind fst snd].
  destruct (UpdateWaves i s3) as [s4|]; [|reflexivity].
  cbn [mbind option_bind fst snd]. unfold Draw.
  destruct (mCurrFrameResource s4) as [k|] eqn:Ek; [|reflexivity].
  cbn [mbind option_bind].
  destruct (mFrameResources s4 !! k) as [fr4|] eqn:Efr4; [|reflexivity].
  cbn [mbind option_bind fst snd].
  assert (Hlt : (k < length (mFrameResources s4))%nat)
    by (apply lookup_lt_is_Some; eauto).
  change (mCurrFrameResource (set_mFrameResources _ s4))
    with (mCurrFrameResource s4).
  rewrite Ek. cbn [mbind option_bind].
  change (mFrameResources (set_mFrameResources ?l s4)) with l.
  rewrite list_lookup_insert_eq by exact Hlt. cbn [mbind option_bind].
  rewrite Draw_commands_frame_resources.
  destruct (Draw_commands s4 k) as [cmds|]; [|reflexivity].
  cbn [mbind option_bind fst snd].
  change (mCurrFrameResource (set_mFrameResources _ _))
    with (mCurrFrameResource s4).
  rewrite Ek. cbn [mbind option_bind].
  change (mFrameResources (set_mFrameResources ?l _)) with l.
  rewrite list_insert_insert_eq.
  rewrite list_lookup_insert_eq by exact Hlt. cbn [mbind option_bind fst snd].
  rewrite list_insert_insert_eq. reflexivity.
Qed.

Lemma trace_app (i : FrameInput F) sts1 sts2 (sg : State F W * Gpu) :
  trace i (sts1 ++ sts2) sg
  = trace i sts1 sg ++ match execute_all i sts1 sg with
                       | Some sg' => trace i sts2 sg'
                       | None => []
                       end.
Proof.
  revert sg. induction sts1 as [|st rest IH]; intros sg; [reflexivity|].
  cbn [app trace execute_all]. f_equal.
  destruct (execute i st sg) as [sg'|]; [|reflexivity].
  cbn [mbind option_bind]. apply IH.
Qed.

Lemma trace_statements (i : FrameInput F) sts (sg : State F W * Gpu) :
  is_Some (execute_all i sts sg) -> (trace i sts sg).*1 = sts.
Proof.
  revert sg. induction sts as [|st rest IH]; intros sg Hs; [reflexivity|].
  cbn [trace execute_all] in *. cbn [fmap list_fmap fst]. f_equal.
  destruct (execute i st sg) as [sg'|]; [|destruct Hs; discriminate].
  cbn [mbind option_bind] in Hs. apply IH. exact Hs.
Qed.

(** A slot that is idle stays idle while its fence value and the
    completed value stay. *)
Lemma slot_idle_ring_frame k s s' g :
  ring_frame k s s' -> slot_idle (s, g) k -> slot_idle (s', g) k.
Proof.
  intros (_ & _ & _ & Hf & _) (fr & Hfr & Hle). cbn in Hfr, Hle.
  assert (Hk : (FrameResource.Fence <$> mFrameResources s') !! k
               = Some (FrameResource.Fence fr)).
  { rewrite Hf, list_lookup_fmap, Hfr. reflexivity. }
  rewrite list_lookup_fmap in Hk.
  destruct (mFrameResources s' !! k) as [fr'|] eqn:Efr'; [|discriminate].
  cbn in Hk. injection Hk as Hk. exists fr'. cbn. split; [exact Efr'|lia].
Qed.

(** What a statement between the wait and the stamping of the fence value
    does to the ring. *)
Lemma execute_ring_frame (i : FrameInput F) st s g s' g' k :
  recording st = true -> st <> StampFence ->
  mCurrFrameResource s = Some k ->
  execute i st (s, g) = Some (s', g') ->
  ring_frame k s s' /\ g' = g.
Proof.
  intros Hrec Hst Hk He.
  destruct st; try discriminate Hrec; try congruence; cbn [execute fst snd] in He.
  - destruct (AnimateMaterials (gt i) s) as [s1|] eqn:E; [|discriminate].
    cbn in He. injection He as <- <-.
    split; [eapply AnimateMaterials_ring; exact E | reflexivity].
  - destruct (UpdateObjectCBs s) as [s1|] eqn:E; [|discriminate].
    cbn in He. injection He as <- <-.
    split; [eapply UpdateObjectCBs_ring; eassumption | reflexivity].
  - destruct (UpdateMaterialCBs s) as [s1|] eqn:E; [|discriminate].
    cbn in He. injection He as <- <-.
    split; [eapply UpdateMaterialCBs_ring; eassumption | reflexivity].
  - injection He as <- <-. split; [apply ring_frame_refl | reflexivity].
  - destruct (UpdateWaves i s) as [s1|] eqn:E; [|discriminate].
    cbn in He. injection He as <- <-.
    split; [eapply UpdateWaves_ring; eassumption | reflexivity].
  - rewrite Hk in He. cbn in He.
    destruct (mFrameResources s !! k) as [fr|] eqn:Efr; [|discriminate].
    cbn in He. injection He as <- <-. split; [|reflexivity].
    eapply (ring_frame_insert k s fr (FrameResource.set_CmdListAlloc [] fr));
      [exact Efr | reflexivity ..].
  - rewrite Hk in He. cbn in He.
    destruct (mFrameResources s !! k) as [fr|] eqn:Efr; [|discriminate].
    cbn in He.
    destruct (Draw_commands s k) as [cmds|]; [|discriminate].
    cbn in He. injection He as <- <-. split; [|reflexivity].
    eapply (ring_frame_insert k s fr (FrameResource.set_CmdListAlloc cmds fr));
      [exact Efr | reflexivity ..].
Qed.

(** The selected slot is idle when each of these statements starts. *)
Lemma trace_recording (i : FrameInput F) sts s g k :
  Forall (fun st => recording st = true /\ st <> StampFence) sts ->
  mCurrFrameResource s = Some k -> slot_idle (s, g) k ->
  (forall st sg, (st, sg) ∈ trace i sts (s, g) ->
     mCurrFrameResource sg.1 = Some k /\ slot_idle sg k /\ sg.2 = g /\
     ring_frame k s sg.1) /\
  (forall sg, execute_all i sts (s, g) = Some sg ->
     mCurrFrameResource sg.1 = Some k /\ slot_idle sg k /\ sg.2 = g /\
     ring_frame k s sg.1).
Proof.
  intros Hsts. revert s. induction Hsts as [|st rest [Hrec Hst] _ IH];
    intros s Hk Hidle.
  - split.
    + intros st sg Hin. cbn in Hin. apply elem_of_nil in Hin. contradiction.
    + intros sg Hsg. cbn in Hsg. injection Hsg as <-. cbn.
      auto using ring_frame_refl.
  - cbn [trace execute_all].
    destruct (execute i st (s, g)) as [[s1 g1]|] eqn:E.
    + destruct (execute_ring_frame _ _ _ _ _ _ _ Hrec Hst Hk E) as [R ->].
      assert (Hk1 : mCurrFrameResource s1 = Some k)
        by (rewrite (proj1 R); exact Hk).
      pose proof (slot_idle_ring_frame _ _ _ _ R Hidle) as Hidle1.
      destruct (IH s1 Hk1 Hidle1) as [IHt IHe]. split.
      * intros st' sg Hin. apply elem_of_cons in Hin as [Heq | Hin].
        { injection Heq as -> ->. cbn. auto using ring_frame_refl. }
        destruct (IHt _ _ Hin) as (A & B & C & D).
        eauto using ring_frame_trans.
      * intros sg Hsg. cbn [mbind option_bind] in Hsg.
        destruct (IHe _ Hsg) as (A & B & C & D).
        eauto using ring_frame_trans.
    + split.
      * intros st' sg Hin. apply list_elem_of_singleton in Hin.
        injection Hin as -> ->. cbn. auto using ring_frame_refl.
      * intros sg Hsg. cbn in Hsg. discriminate.
Qed.

Lemma trace_prefix (i : FrameInput F) sts (sg : State F W * Gpu) :
  (trace i sts sg).*1 `prefix_of` sts.
Proof.
  revert sg. induction sts as [|st rest IH]; intros sg; [reflexivity|].
  cbn [trace fmap list_fmap fst].
  destruct (execute i st sg) as [sg'|].
  - apply prefix_cons, IH.
  - apply prefix_cons, prefix_nil.
Qed.

Lemma trace_cons (i : FrameInput F) st rest (sg sg' : State F W * Gpu) :
  execute i st sg = Some sg' ->
  trace i (st :: rest) sg = (st, sg) :: trace i rest sg'.
Proof. intros He. cbn [trace]. rewrite He. reflexivity. Qed.

Lemma changes_slot_inv (i : FrameInput F) st (sg sg' : State F W * Gpu) j :
  execute i st sg = Some sg' ->
  changes_slot i st sg j ->
  mFrameResources sg'.1 !! j <> mFrameResources sg.1 !! j.
Proof. intros He (sg2 & He2 & Hne). congruence. Qed.

(** C1.  No premature reuse.  A frame is the statements of [Update] and
    [Draw] in their order.  After any run of frames, the next frame first
    advances the ring index and selects ring slot [k]; then it waits: it
    blocks on the fence when the fence value stamped on the slot is
    nonzero and the completed value is below it, and either way the wait
    returns with that fence value completed.  Every statement that
    follows, up to the stamping of the new fence value (the update
    phases, the reset of the command allocator, the recording), starts
    with slot [k] selected and idle.  Whenever a statement of the frame
    changes a ring slot, the slot is [k], the statement is one of those,
    and the GPU has completed the fence value stamped on the slot when
    the statement starts.  The frame changes no other slot. *)
Theorem no_premature_reuse (inputs : list (FrameInput F)) (i : FrameInput F)
    s g s1 g1 :
  ring_ok s g ->
  mCurrentFence s + Z.of_nat (length inputs) + 1 < 2 ^ 64 ->
  run inputs (s, g) = Some (s1, g1) ->
  let k := next_slot s1 in
  let steps := trace i frame_statements (s1, g1) in
  frame i (s1, g1) = execute_all i frame_statements (s1, g1) /\
  steps.*1 `prefix_of` frame_statements /\
  (is_Some (frame i (s1, g1)) -> steps.*1 = frame_statements) /\
  (exists fr s2 g2,
     mFrameResources s1 !! k = Some fr /\
     execute i CycleFrameResource (s1, g1) = Some (s2, g1) /\
     mCurrFrameResource s2 = Some k /\
     mFrameResources s2 = mFrameResources s1 /\
     execute i AwaitFrameResource (s2, g1) = Some (s2, g2) /\
     WaitForFrameResource i (FrameResource.Fence fr) g1 = Some g2 /\
     (let g0 := gpu_run (gpu_before i) g1 in
      (FrameResource.Fence fr <> 0 /\
       CompletedValue g0 < FrameResource.Fence fr ->
       WaitForFence (FrameResource.Fence fr) (gpu_during i) g0 = Some g2) /\
      (FrameResource.Fence fr = 0 \/
       FrameResource.Fence fr <= CompletedValue g0 -> g2 = g0)) /\
     FrameResource.Fence fr <= CompletedValue g2) /\
  (forall st sg, (st, sg) ∈ steps ->
     (st <> CycleFrameResource -> mCurrFrameResource sg.1 = Some k) /\
     (recording st = true -> slot_idle sg k) /\
     (forall j, changes_slot i st sg j ->
                j = k /\ recording st = true /\ slot_idle sg j)) /\
  (forall sg, frame i (s1, g1) = Some sg ->
     forall j, j <> k -> mFrameResources sg.1 !! j = mFrameResources s1 !! j).
Proof.
  intros Hok Hbound Hrun k steps.
  assert (Hbound' : mCurrentFence s + Z.of_nat (length inputs) < 2 ^ 64) by lia.
  destruct (run_ring_ok _ _ _ _ _ Hok Hbound' Hrun) as (Hok1 & Hcf1).
  pose proof Hok1 as (Hlen & Hidx & Hc & Hsig & Hfences).
  destruct (lookup_lt_is_Some_2 (mFrameResources s1) k) as [fr Efr].
  { rewrite Hlen. apply next_slot_bounds. exact Hidx. }
  assert (Hfr : 0 <= FrameResource.Fence fr <= LastSignal g1).
  { rewrite Hsig. exact (Forall_lookup_1 _ _ _ _ Hfences Efr). }
  destruct (WaitForFrameResource_returns i _ g1 Hc Hfr)
    as (g2 & Eg2 & Hdone & _ & _).
  set (s2 := set_current (Some k)
               (Z.rem (mCurrFrameResourceIndex s1 + 1) gNumFrameResources) s1).
  assert (Ecycle : execute i CycleFrameResource (s1, g1) = Some (s2, g1)).
  { cbn [execute fst snd]. fold (next_slot s1). fold k. rewrite Efr.
    reflexivity. }
  assert (Eawait : execute i AwaitFrameResource (s2, g1) = Some (s2, g2)).
  { cbn [execute fst snd].
    change (mCurrFrameResource s2) with (Some k).
    change (mFrameResources s2) with (mFrameResources s1).
    cbn [mbind option_bind]. rewrite Efr. cbn [mbind option_bind].
    rewrite Eg2. reflexivity. }
  assert (Hidle2 : slot_idle (s2, g2) k) by (exists fr; split; assumption).
  set (middle := [CallAnimateMaterials; CallUpdateObjectCBs;
                  CallUpdateMaterialCBs; CallUpdateMainPassCB;
                  CallUpdateWaves; ResetCommandAllocator; RecordCommands]).
  assert (Hmiddle : Forall (fun st => recording st = true /\ st <> StampFence)
                           middle).
  { repeat (apply Forall_cons_2; [split; [reflexivity | discriminate]|]).
    apply Forall_nil_2. }
  destruct (trace_recording i middle s2 g2 k Hmiddle eq_refl Hidle2)
    as [Htrace Hall].
  assert (Esteps : steps
          = (CycleFrameResource, (s1, g1)) :: (AwaitFrameResource, (s2, g1))
            :: trace i middle (s2, g2)
            ++ match execute_all i middle (s2, g2) with
               | Some sg' => trace i [StampFence; SignalFence] sg'
               | None => []
               end).
  { unfold steps.
    change frame_statements
      with (CycleFrameResource :: AwaitFrameResource
            :: middle ++ [StampFence; SignalFence]).
    rewrite (trace_cons i _ _ _ _ Ecycle), (trace_cons i _ _ _ _ Eawait).
    rewrite trace_app. reflexivity. }
  split; [symmetry; apply frame_statements_frame|].
  split; [apply trace_prefix|].
  split.
  { intros Hs. apply trace_statements.
    rewrite frame_statements_frame. exact Hs. }
  split.
  { exists fr, s2, g2. split; [exact Efr|]. split; [exact Ecycle|].
    split; [reflexivity|]. split; [reflexivity|]. split; [exact Eawait|].
    split; [exact Eg2|]. split; [|exact Hdone].
    cbn zeta. unfold WaitForFrameResource in Eg2. split.
    - intros [Hnz Hlt].
      apply Z.eqb_neq in Hnz. apply Z.ltb_lt in Hlt.
      rewrite Hnz, Hlt in Eg2. exact Eg2.
    - intros Hor.
      assert (Hc0 : negb (FrameResource.Fence fr =? 0)
                    && (CompletedValue (gpu_run (gpu_before i) g1)
                          <? FrameResource.Fence fr) = false).
      { destruct Hor as [Hz | Hle].
        - apply Z.eqb_eq in Hz. rewrite Hz. reflexivity.
        - apply Z.ltb_ge in Hle. rewrite Hle. apply andb_false_r. }
      rewrite Hc0 in Eg2. congruence. }
  split.
  - intros st sg Hin. rewrite Esteps in Hin.
    apply elem_of_cons in Hin as [Heq | Hin].
    { injection Heq as -> ->. split; [congruence|].
      split; [discriminate|].
      intros j Hch. apply (changes_slot_inv _ _ _ _ _ Ecycle) in Hch.
      contradiction Hch. reflexivity. }
    apply elem_of_cons in Hin as [Heq | Hin].
    { injection Heq as -> ->. split; [reflexivity|].
      split; [discriminate|].
      intros j Hch. apply (changes_slot_inv _ _ _ _ _ Eawait) in Hch.
      contradiction Hch. reflexivity. }
    apply elem_of_app in Hin as [Hin | Hin].
    { destruct (Htrace _ _ Hin) as (Hk & Hidle & Hg & _).
      split; [intros _; exact Hk|]. split; [intros _; exact Hidle|].
      intros j (sg' & He & Hne).
      assert (Hst : recording st = true /\ st <> StampFence).
      { apply (list_elem_of_fmap_2 fst) in Hin.
        cbn in Hin.
        pose proof (trace_prefix i middle (s2, g2)) as [rest Hp].
        apply (proj1 (Forall_forall _ _) Hmiddle).
        rewrite Hp. apply elem_of_app. left. exact Hin. }
      destruct Hst as [Hrec Hst]. destruct sg as [sa ga], sg' as [sb gb].
      destruct (execute_ring_frame _ _ _ _ _ _ _ Hrec Hst Hk He)
        as [(_ & _ & _ & _ & Hother) _].
      destruct (decide (j = k)) as [-> | Hj].
      - auto.
      - cbn in Hne. rewrite Hother in Hne by exact Hj. contradiction. }
    destruct (execute_all i middle (s2, g2)) as [[s8 g8]|] eqn:E8;
      [|apply elem_of_nil in Hin; contradiction].
    destruct (Hall _ eq_refl) as (Hk8 & Hidle8 & Hg8 & _).
    cbn [fst snd] in Hk8, Hg8. subst g8.
    cbn [trace] in Hin.
    apply elem_of_cons in Hin as [Heq | Hin].
    { injection Heq as -> ->. split; [intros _; exact Hk8|].
      split; [intros _; exact Hidle8|].
      intros j (sg' & He & Hne). cbn [execute fst snd] in He.
      rewrite Hk8 in He. cbn in He.
      destruct (mFrameResources s8 !! k) as [fr8|]; [|discriminate].
      cbn in He. injection He as <-. cbn in Hne.
      destruct (decide (j = k)) as [-> | Hj].
      - auto.
      - rewrite list_lookup_insert_ne in Hne by congruence. contradiction. }
    destruct (execute i StampFence (s8, g2)) as [[s9 g9]|] eqn:E9;
      [|apply elem_of_nil in Hin; contradiction].
    apply list_elem_of_singleton in Hin. injection Hin as -> ->.
    cbn [execute fst snd] in E9. rewrite Hk8 in E9. cbn in E9.
    destruct (mFrameResources s8 !! k) as [fr8|]; [|discriminate].
    cbn in E9. injection E9 as <- <-.
    split; [intros _; exact Hk8|]. split; [discriminate|].
    intros j (sg' & He & Hne). cbn in He. injection He as <-.
    contradiction Hne. reflexivity.
  - intros [s3 g3] Hf j Hj. unfold frame in Hf. cbn [fst snd] in Hf.
    destruct (Update i s1 g1) as [[sa ga]|] eqn:Eu; [|discriminate].
    cbn in Hf.
    destruct (Update_ring _ _ _ _ _ Hok1 Eu)
      as (K & _ & Hcf & _ & Hother & Hok2).
    assert (Hb2 : mCurrentFence sa + 1 < 2 ^ 64) by lia.
    destruct (Draw_ring _ _ _ _ _ Hok2 K Hb2 Hf) as (_ & Hother' & _).
    cbn [fst]. rewrite Hother', Hother by exact Hj. reflexivity.
Qed.

End Ring.

(** ** The state a frame leaves *)

Section FrameEffect.
Context {F W : Type} `{FloatOps F} `{WavesOps F W}.
Import TreeBillboardsApp.
Implicit Type s : State F W.

Lemma AnimateMaterials_inv gt s s' :
  AnimateMaterials gt s = Some s' ->
  exists w, mMaterials s !! "water" = Some w /\
    s' = set_mMaterials (<["water" := scroll_water gt w]> (mMaterials s)) s.
Proof.
  unfold AnimateMaterials. intros Hs.
  destruct (mMaterials s !! "water") as [w|]; [|discriminate].
  cbn in Hs. injection Hs as <-. eauto.
Qed.

Lemma UpdateObjectCBs_inv s s' :
  UpdateObjectCBs s = Some s' ->
  exists k fr r,
    mCurrFrameResource s = Some k /\ mFrameResources s !! k = Some fr /\
    UpdateObjectCBs_loop (mAllRitems s) (heap s) (FrameResource.ObjectCB fr)
      = Some r /\
    s' = set_heap r.1
           (set_mFrameResources
              (<[k := FrameResource.set_ObjectCB r.2 fr]> (mFrameResources s)) s).
Proof.
  unfold UpdateObjectCBs. intros Hs.
  destruct (mCurrFrameResource s) as [k|]; [|discriminate]. cbn in Hs.
  destruct (mFrameResources s !! k) as [fr|] eqn:Efr; [|discriminate].
  cbn in Hs.
  destruct (UpdateObjectCBs_loop _ _ _) as [r|] eqn:Er; [|discriminate].
  cbn in Hs. injection Hs as <-. eauto 10.
Qed.

Lemma UpdateMaterialCBs_inv s s' :
  UpdateMaterialCBs s = Some s' ->
  exists k fr,
    mCurrFrameResource s = Some k /\ mFrameResources s !! k = Some fr /\
    s' = set_mMaterials (tick <$> mMaterials s)
           (set_mFrameResources
              (<[k := FrameResource.set_MaterialCB
                        (map_fold copy_material (FrameResource.MaterialCB fr)
                                  (mMaterials s)) fr]>
                 (mFrameResources s)) s).
Proof.
  unfold UpdateMaterialCBs. intros Hs.
  destruct (mCurrFrameResource s) as [k|]; [|discriminate]. cbn in Hs.
  destruct (mFrameResources s !! k) as [fr|] eqn:Efr; [|discriminate].
  cbn in Hs. injection Hs as <-. eauto 10.
Qed.

Lemma UpdateWaves_inv i s s' :
  UpdateWaves i s = Some s' ->
  exists k fr p ri gn geo,
    mCurrFrameResource s = Some k /\ mFrameResources s !! k = Some fr /\
    mWavesRitem s = Some p /\ heap s !! p = Some ri /\
    RenderItem.Geo ri = Some gn /\ mGeometries s !! gn = Some geo /\
    s' = set_mGeometries
           (<[gn := set_VertexBufferGPU (Some (UploadResource k WavesVBKind)) geo]>
              (mGeometries s))
           (set_mFrameResources
              (<[k := FrameResource.set_WavesVB
                        (copy_waves (step_waves i (mWaves s, t_base s)).1
                                    (FrameResource.WavesVB fr)) fr]>
                 (mFrameResources s))
              (set_waves (step_waves i (mWaves s, t_base s)).1
                         (step_waves i (mWaves s, t_base s)).2 s)).
Proof.
  unfold UpdateWaves. intros Hs.
  destruct (mCurrFrameResource s) as [k|]; [|discriminate]. cbn in Hs.
  destruct (mFrameResources s !! k) as [fr|] eqn:Efr; [|discriminate].
  cbn in Hs.
  destruct (mWavesRitem s) as [p|]; [|discriminate]. cbn in Hs.
  destruct (heap s !! p) as [ri|] eqn:Eri; [|discriminate]. cbn in Hs.
  destruct (RenderItem.Geo ri) as [gn|] eqn:Egn; [|discriminate]. cbn in Hs.
  destruct (mGeometries s !! gn) as [geo|] eqn:Egeo; [|discriminate].
  cbn in Hs. injection Hs as <-. eauto 15.
Qed.

Lemma UpdatePhases_inv i s s' :
  UpdatePhases i s = Some s' ->
  exists s1 s2 s3,
    AnimateMaterials (gt i) s = Some s1 /\ UpdateObjectCBs s1 = Some s2 /\
    UpdateMaterialCBs s2 = Some s3 /\ UpdateWaves i s3 = Some s'.
Proof.
  unfold UpdatePhases. intros Hs.
  destruct (AnimateMaterials (gt i) s) as [s1|] eqn:E1; [|discriminate].
  cbn in Hs.
  destruct (UpdateObjectCBs s1) as [s2|] eqn:E2; [|discriminate]. cbn in Hs.
  destruct (UpdateMaterialCBs s2) as [s3|] eqn:E3; [|discriminate].
  cbn in Hs. exists s1, s2, s3. auto.
Qed.

(** The state the update phases leave, member by member, given the
    selected slot [k]. *)
Lemma UpdatePhases_effect i s s' k :
  mCurrFrameResource s = Some k ->
  UpdatePhases i s = Some s' ->
  exists fr w r p ri gn geo,
    mFrameResources s !! k = Some fr /\
    mMaterials s !! "water" = Some w /\
    UpdateObjectCBs_loop (mAllRitems s) (heap s) (FrameResource.ObjectCB fr)
      = Some r /\
    mWavesRitem s = Some p /\ r.1 !! p = Some ri /\
    RenderItem.Geo ri = Some gn /\ mGeometries s !! gn = Some geo /\
    mFrameResources s'
      = <[k := FrameResource.mk (FrameResource.CmdListAlloc fr) r.2
                 (map_fold copy_material (FrameResource.MaterialCB fr)
                    (<["water" := scroll_water (gt i) w]> (mMaterials s)))
                 (copy_waves (step_waves i (mWaves s, t_base s)).1
                             (FrameResource.WavesVB fr))
                 (FrameResource.Fence fr)]> (mFrameResources s) /\
    mCurrFrameResource s' = Some k /\
    mCurrFrameResourceIndex s' = mCurrFrameResourceIndex s /\
    mCurrentFence s' = mCurrentFence s /\
    heap s' = r.1 /\
    mAllRitems s' = mAllRitems s /\
    mRitemLayer s' = mRitemLayer s /\
    mWavesRitem s' = mWavesRitem s /\
    mMaterials s' = tick <$> <["water" := scroll_water (gt i) w]> (mMaterials s) /\
    mGeometries s'
      = <[gn := set_VertexBufferGPU (Some (UploadResource k WavesVBKind)) geo]>
          (mGeometries s) /\
    mWaves s' = (step_waves i (mWaves s, t_base s)).1 /\
    t_base s' = (step_waves i (mWaves s, t_base s)).2.
Proof.
  intros Hk Hs.
  destruct (UpdatePhases_inv _ _ _ Hs) as (s1 & s2 & s3 & E1 & E2 & E3 & E4).
  destruct (AnimateMaterials_inv _ _ _ E1) as (w & Ew & ->).
  destruct (UpdateObjectCBs_inv _ _ E2) as (k2 & fr & r & Ek2 & Efr & Er & ->).
  cbn in Ek2, Efr, Er. assert (k2 = k) by congruence. subst k2.
  destruct (UpdateMaterialCBs_inv _ _ E3) as (k3 & fr3 & Ek3 & Efr3 & ->).
  cbn in Ek3, Efr3. assert (k3 = k) by congruence. subst k3.
  assert (Hlt : (k < length (mFrameResources s))%nat)
    by (apply lookup_lt_is_Some; eauto).
  rewrite list_lookup_insert_eq in Efr3 by exact Hlt.
  injection Efr3 as <-.
  destruct (UpdateWaves_inv _ _ _ E4)
    as (k4 & fr4 & p & ri & gn & geo & Ek4 & Efr4 & Ep & Eri & Egn & Egeo & ->).
  cbn in Ek4, Efr4, Ep, Eri, Egeo. assert (k4 = k) by congruence. subst k4.
  rewrite list_lookup_insert_eq in Efr4
    by (rewrite length_insert; exact Hlt).
  injection Efr4 as <-.
  exists fr, w, r, p, ri, gn, geo. cbn.
  rewrite !list_insert_insert_eq.
  repeat split; try assumption; try reflexivity.
Qed.

(** The state a whole frame leaves, member by member. *)
Lemma frame_effect i s g s' g' :
  frame i (s, g) = Some (s', g') ->
  exists fr w r p ri gn geo cmds g1,
    mFrameResources s !! next_slot s = Some fr /\
    WaitForFrameResource i (FrameResource.Fence fr) g = Some g1 /\
    mMaterials s !! "water" = Some w /\
    UpdateObjectCBs_loop (mAllRitems s) (heap s) (FrameResource.ObjectCB fr)
      = Some r /\
    mWavesRitem s = Some p /\ r.1 !! p = Some ri /\
    RenderItem.Geo ri = Some gn /\ mGeometries s !! gn = Some geo /\
    mFrameResources s'
      = <[next_slot s :=
            FrameResource.mk cmds r.2
              (map_fold copy_material (FrameResource.MaterialCB fr)
                 (<["water" := scroll_water (gt i) w]> (mMaterials s)))
              (copy_waves (step_waves i (mWaves s, t_base s)).1
                          (FrameResource.WavesVB fr))
              (UINT64 (mCurrentFence s + 1))]> (mFrameResources s) /\
    mCurrFrameResource s' = Some (next_slot s) /\
    mCurrFrameResourceIndex s'
      = Z.rem (mCurrFrameResourceIndex s + 1) gNumFrameResources /\
    mCurrentFence s' = UINT64 (mCurrentFence s + 1) /\
    heap s' = r.1 /\
    mAllRitems s' = mAllRitems s /\
    mRitemLayer s' = mRitemLayer s /\
    mWavesRitem s' = mWavesRitem s /\
    mMaterials s' = tick <$> <["water" := scroll_water (gt i) w]> (mMaterials s) /\
    mGeometries s'
      = <[gn := set_VertexBufferGPU
                  (Some (UploadResource (next_slot s) WavesVBKind)) geo]>
          (mGeometries s) /\
    mWaves s' = (step_waves i (mWaves s, t_base s)).1 /\
    t_base s' = (step_waves i (mWaves s, t_base s)).2 /\
    g' = Signal (UINT64 (mCurrentFence s + 1)) g1.
Proof.
  unfold frame. cbn. intros Hf.
  destruct (Update i s g) as [[s1 g1]|] eqn:Eu; [|discriminate]. cbn in Hf.
  destruct (Update_inv _ _ _ _ _ Eu) as (fr & Efr & Eg & Es).
  pose proof (fun Hk => UpdatePhases_effect i _ s1 (next_slot s) Hk Es) as R.
  specialize (R eq_refl).
  destruct R as (fr' & w & r & p & ri & gn & geo & Efr' & Ew & Er & Ep & Eri
                 & Egn & Egeo & R1 & R2 & R3 & R4 & R5 & R6 & R7 & R8 & R9
                 & R10 & R11 & R12).
  cbn in Efr', Ew, Er, Ep, Egeo, R1, R3, R4, R6, R7, R8, R9, R10, R11, R12.
  assert (fr' = fr) by congruence. subst fr'.
  destruct (Draw_inv _ _ _ _ Hf) as (k & frd & cmds & Ek & Efrd & _ & -> & ->).
  assert (k = next_slot s) by congruence. subst k.
  assert (Hlt : (next_slot s < length (mFrameResources s))%nat)
    by (apply lookup_lt_is_Some; eauto).
  rewrite R1, list_lookup_insert_eq in Efrd by exact Hlt.
  injection Efrd as <-.
  exists fr, w, r, p, ri, gn, geo, cmds, g1. cbn.
  rewrite R1, R4, list_insert_insert_eq.
  repeat split; try assumption; try reflexivity.
Qed.

End FrameEffect.

(** ** Dirty propagation *)

Section Dirty.
Context {F W : Type} `{FloatOps F} `{WavesOps F W}.
Import TreeBillboardsApp.
Implicit Type s : State F W.

Lemma CopyData_length {T : Type} (i : Z) (x : T) (buf : list T) :
  length (CopyData i x buf) = length buf.
Proof. unfold CopyData. case_match; [reflexivity | apply length_insert]. Qed.

Lemma CopyData_lookup_eq {T : Type} (i : Z) (x : T) (buf : list T) :
  0 <= i < Z.of_nat (length buf) ->
  CopyData i x buf !! Z.to_nat i = Some x.
Proof.
  intros Hi. unfold CopyData.
  destruct (i <? 0) eqn:E; [apply Z.ltb_lt in E; lia|].
  apply list_lookup_insert_eq. lia.
Qed.

Lemma CopyData_lookup_ne {T : Type} (i : Z) (x : T) (buf : list T) (n : nat) :
  0 <= i -> Z.to_nat i <> n -> CopyData i x buf !! n = buf !! n.
Proof.
  intros Hi Hn. unfold CopyData.
  destruct (i <? 0); [reflexivity|].
  apply list_lookup_insert_ne. exact Hn.
Qed.

Lemma tick_item_ObjCBIndex (e : RenderItem.t F) :
  RenderItem.ObjCBIndex (tick_item e) = RenderItem.ObjCBIndex e.
Proof. unfold tick_item. case_match; reflexivity. Qed.

Lemma tick_item_objConstants (e : RenderItem.t F) :
  objConstants (tick_item e) = objConstants e.
Proof. unfold tick_item. case_match; reflexivity. Qed.

(** The loop of [UpdateObjectCBs] runs to its end when every address is
    live. *)
Lemma UpdateObjectCBs_loop_total (ritems : list nat)
    (h : list (RenderItem.t F)) (cb : list (ObjectConstants.t F)) :
  (forall p, p ∈ ritems -> is_Some (h !! p)) ->
  is_Some (UpdateObjectCBs_loop ritems h cb).
Proof.
  revert h cb. induction ritems as [|p rest IH]; intros h cb Hlive.
  - eexists. reflexivity.
  - cbn. destruct (Hlive p ltac:(left)) as [e ->]. cbn.
    assert (Hrest : forall h' : list (RenderItem.t F), length h' = length h ->
              forall q, q ∈ rest -> is_Some (h' !! q)).
    { intros h' Hlen q Hq. apply lookup_lt_is_Some. rewrite Hlen.
      apply lookup_lt_is_Some. apply Hlive. right. exact Hq. }
    case_match; apply IH.
    + apply Hrest. apply length_insert.
    + apply Hrest. reflexivity.
Qed.

(** What the loop of [UpdateObjectCBs] does: every listed render item is
    ticked, nothing else in the store changes, a positive counter puts the
    item's constants at the item's index, and an index no such item owns
    keeps its contents. *)
Lemma UpdateObjectCBs_loop_spec (ritems : list nat)
    (h h' : list (RenderItem.t F)) (cb cb' : list (ObjectConstants.t F)) :
  NoDup ritems ->
  (forall p e, p ∈ ritems -> h !! p = Some e -> 0 <= RenderItem.ObjCBIndex e) ->
  UpdateObjectCBs_loop ritems h cb = Some (h', cb') ->
  length h' = length h /\ length cb' = length cb /\
  (forall q, q ∉ ritems -> h' !! q = h !! q) /\
  (forall p e, p ∈ ritems -> h !! p = Some e -> h' !! p = Some (tick_item e)) /\
  (forall n,
      (forall q e, q ∈ ritems -> h !! q = Some e ->
                   0 < RenderItem.NumFramesDirty e ->
                   Z.to_nat (RenderItem.ObjCBIndex e) <> n) ->
      cb' !! n = cb !! n) /\
  (forall p e, p ∈ ritems -> h !! p = Some e ->
      0 < RenderItem.NumFramesDirty e ->
      RenderItem.ObjCBIndex e < Z.of_nat (length cb) ->
      (forall q e2, q ∈ ritems -> q <> p -> h !! q = Some e2 ->
                    RenderItem.ObjCBIndex e2 <> RenderItem.ObjCBIndex e) ->
      cb' !! Z.to_nat (RenderItem.ObjCBIndex e) = Some (objConstants e)).
Proof.
  revert h cb. induction ritems as [|p rest IH]; intros h cb Hnd Hpos Hloop.
  - cbn in Hloop. injection Hloop as <- <-.
    repeat split; try reflexivity; intros; exfalso;
      eapply not_elem_of_nil; eassumption.
  - apply NoDup_cons in Hnd as [Hp Hnd].
    cbn in Hloop.
    destruct (h !! p) as [ep|] eqn:Ep; [|discriminate]. cbn in Hloop.
    set (h1 := if 0 <? RenderItem.NumFramesDirty ep
               then <[p := RenderItem.set_NumFramesDirty
                             (RenderItem.NumFramesDirty ep - 1) ep]> h
               else h).
    set (cb1 := if 0 <? RenderItem.NumFramesDirty ep
                then CopyData (RenderItem.ObjCBIndex ep) (objConstants ep) cb
                else cb).
    assert (Hloop1 : UpdateObjectCBs_loop rest h1 cb1 = Some (h', cb'))
      by (unfold h1, cb1; destruct (0 <? RenderItem.NumFramesDirty ep);
          exact Hloop).
    assert (Hh1 : forall q, q <> p -> h1 !! q = h !! q).
    { intros q Hq. unfold h1. case_match; [|reflexivity].
      apply list_lookup_insert_ne. congruence. }
    assert (Hh1p : h1 !! p = Some (tick_item ep)).
    { unfold h1, tick_item. case_match; [|exact Ep].
      apply list_lookup_insert_eq. apply lookup_lt_is_Some. eauto. }
    assert (Hlen1 : length h1 = length h)
      by (unfold h1; case_match; [apply length_insert | reflexivity]).
    assert (Hlencb1 : length cb1 = length cb)
      by (unfold cb1; case_match; [apply CopyData_length | reflexivity]).
    assert (Hrest : forall q, q ∈ rest -> q <> p)
      by (intros q Hq ->; contradiction).
    assert (Hpos1 : forall q e, q ∈ rest -> h1 !! q = Some e ->
                                0 <= RenderItem.ObjCBIndex e).
    { intros q e Hq He. rewrite Hh1 in He by auto.
      eapply Hpos; [right|]; eassumption. }
    assert (Hp0 : 0 <= RenderItem.ObjCBIndex ep)
      by (eapply Hpos; [left|eassumption]).
    destruct (IH h1 cb1 Hnd Hpos1 Hloop1) as (L1 & L2 & Hout & Hin & Hkeep & Hput).
    split; [congruence|]. split; [congruence|].
    split; [|split; [|split]].
    + intros q Hq. apply not_elem_of_cons in Hq as [Hqp Hq].
      rewrite Hout, Hh1 by assumption. reflexivity.
    + intros q e Hq He. apply elem_of_cons in Hq as [-> | Hq].
      * rewrite Hout by assumption. congruence.
      * apply Hin; [exact Hq|]. rewrite Hh1 by auto. exact He.
    + intros n Hn. rewrite Hkeep.
      * unfold cb1. destruct (0 <? RenderItem.NumFramesDirty ep) eqn:Ed;
          [|reflexivity].
        apply CopyData_lookup_ne; [exact Hp0|].
        apply (Hn p ep); [left | exact Ep | apply Z.ltb_lt; exact Ed].
      * intros q e Hq He. rewrite Hh1 in He by auto.
        apply (Hn q e); [right|]; assumption.
    + intros q e Hq He Hd Hlt Huniq.
      apply elem_of_cons in Hq as [-> | Hq].
      * assert (e = ep) by congruence. subst e.
        rewrite Hkeep.
        -- unfold cb1. apply Z.ltb_lt in Hd. rewrite Hd.
           apply CopyData_lookup_eq. lia.
        -- intros q e2 Hq He2 _. rewrite Hh1 in He2 by auto.
           pose proof (Huniq q e2 ltac:(right; exact Hq) (Hrest _ Hq) He2).
           pose proof (Hpos q e2 ltac:(right; exact Hq) He2). lia.
      * apply (Hput q e); try assumption.
        -- rewrite Hh1 by auto. exact He.
        -- lia.
        -- intros q2 e2 Hq2 Hne He2. rewrite Hh1 in He2 by auto.
           apply (Huniq q2 e2); [right|..]; assumption.
Qed.


Lemma tick_MatCBIndex (m : Material.t F) :
  Material.MatCBIndex (tick m) = Material.MatCBIndex m.
Proof. unfold tick. case_match; reflexivity. Qed.

Lemma tick_matConstants (m : Material.t F) :
  matConstants (tick m) = matConstants m.
Proof. unfold tick. case_match; reflexivity. Qed.

Lemma copy_material_length n (m : Material.t F) cb :
  length (copy_material n m cb) = length cb.
Proof. unfold copy_material. case_match; [apply CopyData_length | reflexivity]. Qed.

(** What the loop of [UpdateMaterialCBs] does to the constant buffer, in
    whatever order the map is traversed: a positive counter puts the
    material's constants at the material's index, and an index no such
    material owns keeps its contents. *)
Lemma copy_materials_spec (M : gmap string (Material.t F))
    (cb0 : list (MaterialConstants.t F)) :
  (forall n m, M !! n = Some m -> 0 <= Material.MatCBIndex m) ->
  length (map_fold copy_material cb0 M) = length cb0 /\
  (forall i,
      (forall n m, M !! n = Some m -> 0 < Material.NumFramesDirty m ->
                   Z.to_nat (Material.MatCBIndex m) <> i) ->
      map_fold copy_material cb0 M !! i = cb0 !! i) /\
  (forall n m, M !! n = Some m -> 0 < Material.NumFramesDirty m ->
      Material.MatCBIndex m < Z.of_nat (length cb0) ->
      (forall n2 m2, M !! n2 = Some m2 -> n2 <> n ->
                     Material.MatCBIndex m2 <> Material.MatCBIndex m) ->
      map_fold copy_material cb0 M !! Z.to_nat (Material.MatCBIndex m)
      = Some (matConstants m)).
Proof.
  apply (map_fold_weak_ind
           (fun r (M : gmap string (Material.t F)) =>
              (forall n m, M !! n = Some m -> 0 <= Material.MatCBIndex m) ->
              length r = length cb0 /\
              (forall i,
                  (forall n m, M !! n = Some m ->
                               0 < Material.NumFramesDirty m ->
                               Z.to_nat (Material.MatCBIndex m) <> i) ->
                  r !! i = cb0 !! i) /\
              (forall n m, M !! n = Some m -> 0 < Material.NumFramesDirty m ->
                  Material.MatCBIndex m < Z.of_nat (length cb0) ->
                  (forall n2 m2, M !! n2 = Some m2 -> n2 <> n ->
                                 Material.MatCBIndex m2 <> Material.MatCBIndex m) ->
                  r !! Z.to_nat (Material.MatCBIndex m) = Some (matConstants m)))).
  - intros _. split; [reflexivity|]. split; [reflexivity|].
    intros n m Hm. rewrite lookup_empty in Hm. discriminate.
  - intros n x M' r Hfresh IH Hpos.
    assert (Hsub : forall n2 m2, M' !! n2 = Some m2 ->
                                 <[n := x]> M' !! n2 = Some m2).
    { intros n2 m2 Hm2. rewrite lookup_insert_ne; [exact Hm2|].
      intros ->. congruence. }
    assert (Hx : <[n := x]> M' !! n = Some x) by apply lookup_insert_eq.
    destruct IH as (Hlen & Hkeep & Hput).
    { intros n2 m2 Hm2. apply (Hpos n2 m2). apply Hsub. exact Hm2. }
    assert (Hx0 : 0 <= Material.MatCBIndex x) by (apply (Hpos n x); exact Hx).
    split; [rewrite copy_material_length; exact Hlen|]. split.
    + intros i Hi. unfold copy_material.
      destruct (0 <? Material.NumFramesDirty x) eqn:Ed.
      * rewrite CopyData_lookup_ne.
        -- apply Hkeep. intros n2 m2 Hm2. apply (Hi n2 m2). apply Hsub. exact Hm2.
        -- exact Hx0.
        -- apply (Hi n x Hx). apply Z.ltb_lt. exact Ed.
      * apply Hkeep. intros n2 m2 Hm2. apply (Hi n2 m2). apply Hsub. exact Hm2.
    + intros n1 m Hm Hd Hlt Huniq.
      destruct (decide (n1 = n)) as [-> | Hne].
      * assert (m = x) by congruence. subst m.
        unfold copy_material. apply Z.ltb_lt in Hd. rewrite Hd.
        apply CopyData_lookup_eq. lia.
      * rewrite lookup_insert_ne in Hm by congruence.
        assert (Hm0 : 0 <= Material.MatCBIndex m)
          by (apply (Hpos n1 m); apply Hsub; exact Hm).
        assert (Hrm : r !! Z.to_nat (Material.MatCBIndex m)
                      = Some (matConstants m)).
        { apply (Hput n1 m Hm Hd Hlt). intros n2 m2 Hm2 Hn2.
          apply (Huniq n2 m2); [apply Hsub; exact Hm2 | exact Hn2]. }
        unfold copy_material.
        destruct (0 <? Material.NumFramesDirty x); [|exact Hrm].
        rewrite CopyData_lookup_ne; [exact Hrm | exact Hx0 |].
        pose proof (Huniq n x Hx ltac:(congruence)). lia.
Qed.


Lemma object_constants_insert s s' k (fr' : FrameResource.t F) :
  mFrameResources s' = <[k := fr']> (mFrameResources s) ->
  (k < length (mFrameResources s))%nat ->
  (forall i, object_constants s' k i
             = FrameResource.ObjectCB fr' !! Z.to_nat i) /\
  (forall j i, j <> k -> object_constants s' j i = object_constants s j i).
Proof.
  intros Hfrs Hk. unfold object_constants. rewrite Hfrs. split.
  - intros i. rewrite list_lookup_insert_eq by exact Hk. reflexivity.
  - intros j i Hj. rewrite list_lookup_insert_ne by congruence. reflexivity.
Qed.

Lemma material_constants_insert s s' k (fr' : FrameResource.t F) :
  mFrameResources s' = <[k := fr']> (mFrameResources s) ->
  (k < length (mFrameResources s))%nat ->
  (forall i, material_constants s' k i
             = FrameResource.MaterialCB fr' !! Z.to_nat i) /\
  (forall j i, j <> k -> material_constants s' j i = material_constants s j i).
Proof.
  intros Hfrs Hk. unfold material_constants. rewrite Hfrs. split.
  - intros i. rewrite list_lookup_insert_eq by exact Hk. reflexivity.
  - intros j i Hj. rewrite list_lookup_insert_ne by congruence. reflexivity.
Qed.

(** What one frame does to the render items and to the object constants
    of the ring. *)
Lemma frame_items (i : FrameInput F) s g s' g' :
  items_ok s ->
  frame i (s, g) = Some (s', g') ->
  mAllRitems s' = mAllRitems s /\
  (forall p e, p ∈ mAllRitems s -> heap s !! p = Some e ->
      heap s' !! p = Some (tick_item e)) /\
  (forall p e, p ∈ mAllRitems s -> heap s !! p = Some e ->
      0 < RenderItem.NumFramesDirty e ->
      object_constants s' (next_slot s) (RenderItem.ObjCBIndex e)
      = Some (objConstants e)) /\
  (forall p e, p ∈ mAllRitems s -> heap s !! p = Some e ->
      RenderItem.NumFramesDirty e <= 0 ->
      object_constants s' (next_slot s) (RenderItem.ObjCBIndex e)
      = object_constants s (next_slot s) (RenderItem.ObjCBIndex e)) /\
  (forall j idx, j <> next_slot s ->
      object_constants s' j idx = object_constants s j idx) /\
  items_ok s'.
Proof.
  intros (Hnd & Hlive & Hrange & Hinj) Hf.
  destruct (frame_effect _ _ _ _ _ Hf)
    as (fr & w & r & p0 & ri & gn & geo & cmds & g1 & Efr & _ & _ & Er & _ & _
        & _ & _ & Rfrs & _ & _ & _ & Rheap & Rall & _).
  destruct r as [h' cb']. cbn in Rfrs, Rheap.
  assert (Hlt : (next_slot s < length (mFrameResources s))%nat)
    by (apply lookup_lt_is_Some; eauto).
  assert (Hpos : forall p e, p ∈ mAllRitems s -> heap s !! p = Some e ->
                             0 <= RenderItem.ObjCBIndex e).
  { intros p e Hp He. apply (Hrange p e _ fr Hp He Efr). }
  destruct (UpdateObjectCBs_loop_spec _ _ _ _ _ Hnd Hpos Er)
    as (L1 & L2 & Hout & Hin & Hkeep & Hput).
  destruct (object_constants_insert s s' _ _ Rfrs Hlt) as (Hcur & Hother).
  cbn in Hcur.
  assert (Hheap : forall p e, p ∈ mAllRitems s -> heap s !! p = Some e ->
                              heap s' !! p = Some (tick_item e)).
  { intros p e Hp He. rewrite Rheap. apply Hin; assumption. }
  split; [exact Rall|]. split; [exact Hheap|]. split; [|split; [|split]].
  - intros p e Hp He Hd. rewrite Hcur. apply (Hput p e Hp He Hd).
    + apply (Hrange p e _ fr Hp He Efr).
    + intros q e2 Hq Hne He2 Heq. apply Hne. symmetry.
      apply (Hinj p q e e2); auto.
  - intros p e Hp He Hd. rewrite Hcur. unfold object_constants.
    rewrite Efr. cbn. apply Hkeep. intros q e2 Hq He2 Hd2 Heq.
    assert (RenderItem.ObjCBIndex e2 = RenderItem.ObjCBIndex e).
    { pose proof (Hpos q e2 Hq He2). pose proof (Hpos p e Hp He). lia. }
    assert (p = q) by (apply (Hinj p q e e2); auto).
    subst q. assert (e2 = e) by congruence. subst e2. lia.
  - exact Hother.
  - assert (Hback : forall p e', p ∈ mAllRitems s -> heap s' !! p = Some e' ->
              exists e, heap s !! p = Some e /\ e' = tick_item e).
    { intros p e' Hp He'. destruct (Hlive p Hp) as [e He].
      exists e. split; [exact He|]. rewrite (Hheap p e Hp He) in He'.
      congruence. }
    unfold items_ok. rewrite Rall. split; [exact Hnd|]. split; [|split].
    + intros p Hp. destruct (Hlive p Hp) as [e He]. rewrite (Hheap p e Hp He).
      eauto.
    + intros p e' k fr' Hp He' Hfr'.
      destruct (Hback p e' Hp He') as (e & He & ->).
      rewrite tick_item_ObjCBIndex.
      rewrite Rfrs in Hfr'.
      destruct (decide (k = next_slot s)) as [-> | Hk].
      * rewrite list_lookup_insert_eq in Hfr' by exact Hlt.
        injection Hfr' as <-. cbn. rewrite L2.
        apply (Hrange p e _ fr Hp He Efr).
      * rewrite list_lookup_insert_ne in Hfr' by congruence.
        apply (Hrange p e k fr' Hp He Hfr').
    + intros p q e1' e2' Hp Hq He1 He2 Heq.
      destruct (Hback p e1' Hp He1) as (e1 & E1 & ->).
      destruct (Hback q e2' Hq He2) as (e2 & E2 & ->).
      rewrite !tick_item_ObjCBIndex in Heq.
      apply (Hinj p q e1 e2); assumption.
Qed.

(** The next slot advances round-robin. *)
Lemma next_slot_cycle s s' :
  0 <= mCurrFrameResourceIndex s < gNumFrameResources ->
  mCurrFrameResourceIndex s'
    = Z.rem (mCurrFrameResourceIndex s + 1) gNumFrameResources ->
  next_slot s' = ((next_slot s + 1) mod 3)%nat /\
  next_slot s = Z.to_nat (mCurrFrameResourceIndex s') /\
  0 <= mCurrFrameResourceIndex s' < gNumFrameResources.
Proof.
  unfold next_slot, gNumFrameResources. intros Hi ->.
  assert (Hc : mCurrFrameResourceIndex s = 0 \/ mCurrFrameResourceIndex s = 1
               \/ mCurrFrameResourceIndex s = 2) by lia.
  destruct Hc as [-> | [-> | ->]]; vm_compute; repeat split; congruence.
Qed.


Lemma scroll_water_MatCBIndex gt (w : Material.t F) :
  Material.MatCBIndex (scroll_water gt w) = Material.MatCBIndex w.
Proof. reflexivity. Qed.

Lemma scroll_water_dirty gt (w : Material.t F) :
  Material.NumFramesDirty (scroll_water gt w) = gNumFrameResources.
Proof. reflexivity. Qed.

(** The materials after [AnimateMaterials] are those before it, the water
    material apart, with the same constant-buffer indices. *)
Lemma animated_lookup gt (M : gmap string (Material.t F)) w n m :
  M !! "water" = Some w ->
  <["water" := scroll_water gt w]> M !! n = Some m ->
  exists m0, M !! n = Some m0 /\
             Material.MatCBIndex m = Material.MatCBIndex m0 /\
             (n <> "water" -> m = m0).
Proof.
  intros Hw Hm. destruct (decide (n = "water")) as [-> | Hn].
  - rewrite lookup_insert_eq in Hm. injection Hm as <-.
    exists w. split; [exact Hw|]. split; [reflexivity | congruence].
  - rewrite lookup_insert_ne in Hm by congruence. exists m. auto.
Qed.

(** What one frame does to the materials and to the material constants of
    the ring. *)
Lemma frame_materials (i : FrameInput F) s g s' g' :
  materials_ok s ->
  frame i (s, g) = Some (s', g') ->
  exists w,
    mMaterials s !! "water" = Some w /\
    mMaterials s' = tick <$> <["water" := scroll_water (gt i) w]> (mMaterials s) /\
    (forall n m, <["water" := scroll_water (gt i) w]> (mMaterials s) !! n = Some m ->
        0 < Material.NumFramesDirty m ->
        material_constants s' (next_slot s) (Material.MatCBIndex m)
        = Some (matConstants m)) /\
    (forall n m, <["water" := scroll_water (gt i) w]> (mMaterials s) !! n = Some m ->
        Material.NumFramesDirty m <= 0 ->
        material_constants s' (next_slot s) (Material.MatCBIndex m)
        = material_constants s (next_slot s) (Material.MatCBIndex m)) /\
    (forall j idx, j <> next_slot s ->
        material_constants s' j idx = material_constants s j idx) /\
    materials_ok s'.
Proof.
  intros (Hwater & Hrange & Hinj) Hf.
  destruct (frame_effect _ _ _ _ _ Hf)
    as (fr & w & r & p0 & ri & gn & geo & cmds & g1 & Efr & _ & Ew & _ & _ & _
        & _ & _ & Rfrs & _ & _ & _ & _ & _ & _ & _ & Rmat & _).
  set (M1 := <["water" := scroll_water (gt i) w]> (mMaterials s)) in *.
  assert (Hlt : (next_slot s < length (mFrameResources s))%nat)
    by (apply lookup_lt_is_Some; eauto).
  assert (Hback : forall n m, M1 !! n = Some m ->
            exists m0, mMaterials s !! n = Some m0 /\
                       Material.MatCBIndex m = Material.MatCBIndex m0 /\
                       (n <> "water" -> m = m0))
    by (intros n m; apply animated_lookup; exact Ew).
  assert (Hrange1 : forall n m k fr', M1 !! n = Some m ->
            mFrameResources s !! k = Some fr' ->
            0 <= Material.MatCBIndex m
               < Z.of_nat (length (FrameResource.MaterialCB fr'))).
  { intros n m k fr' Hm Hfr'. destruct (Hback n m Hm) as (m0 & Hm0 & -> & _).
    apply (Hrange n m0 k fr' Hm0 Hfr'). }
  assert (Hinj1 : forall n1 n2 m1 m2, M1 !! n1 = Some m1 -> M1 !! n2 = Some m2 ->
            Material.MatCBIndex m1 = Material.MatCBIndex m2 -> n1 = n2).
  { intros n1 n2 m1 m2 H1' H2' Heq.
    destruct (Hback n1 m1 H1') as (a & Ha & Hia & _).
    destruct (Hback n2 m2 H2') as (b & Hb & Hib & _).
    apply (Hinj n1 n2 a b Ha Hb). congruence. }
  assert (Hpos1 : forall n m, M1 !! n = Some m -> 0 <= Material.MatCBIndex m).
  { intros n m Hm. apply (Hrange1 n m _ fr Hm Efr). }
  destruct (copy_materials_spec M1 (FrameResource.MaterialCB fr) Hpos1)
    as (Hlen & Hkeep & Hput).
  destruct (material_constants_insert s s' _ _ Rfrs Hlt) as (Hcur & Hother).
  cbn in Hcur.
  exists w. split; [exact Ew|]. split; [exact Rmat|].
  split; [|split; [|split]].
  - intros n m Hm Hd. fold M1 in Hm. rewrite Hcur. apply (Hput n m Hm Hd).
    + apply (Hrange1 n m _ fr Hm Efr).
    + intros n2 m2 Hm2 Hne Heq. apply Hne. apply (Hinj1 n2 n m2 m); auto.
  - intros n m Hm Hd. fold M1 in Hm. rewrite Hcur. unfold material_constants.
    rewrite Efr. cbn. apply Hkeep. intros n2 m2 Hm2 Hd2 Heq.
    assert (Material.MatCBIndex m2 = Material.MatCBIndex m).
    { pose proof (Hpos1 n2 m2 Hm2). pose proof (Hpos1 n m Hm). lia. }
    assert (n2 = n) by (apply (Hinj1 n2 n m2 m); auto).
    subst n2. assert (m2 = m) by congruence. subst m2. lia.
  - exact Hother.
  - assert (Hback' : forall n m', mMaterials s' !! n = Some m' ->
              exists m, M1 !! n = Some m /\ m' = tick m).
    { intros n m' Hm'. rewrite Rmat, lookup_fmap in Hm'.
      destruct (M1 !! n) as [m|]; [|discriminate].
      cbn in Hm'. injection Hm' as <-. eauto. }
    unfold materials_ok. split; [|split].
    + rewrite Rmat, lookup_fmap. unfold M1. rewrite lookup_insert_eq.
      cbn. eauto.
    + intros n m' k fr' Hm' Hfr'.
      destruct (Hback' n m' Hm') as (m & Hm & ->). rewrite tick_MatCBIndex.
      rewrite Rfrs in Hfr'.
      destruct (decide (k = next_slot s)) as [-> | Hk].
      * rewrite list_lookup_insert_eq in Hfr' by exact Hlt.
        injection Hfr' as <-. cbn. rewrite Hlen.
        apply (Hrange1 n m _ fr Hm Efr).
      * rewrite list_lookup_insert_ne in Hfr' by congruence.
        apply (Hrange1 n m k fr' Hm Hfr').
    + intros n1 n2 m1' m2' H1' H2' Heq.
      destruct (Hback' n1 m1' H1') as (m1 & E1 & ->).
      destruct (Hback' n2 m2' H2') as (m2 & E2 & ->).
      rewrite !tick_MatCBIndex in Heq.
      apply (Hinj1 n1 n2 m1 m2); assumption.
Qed.


Lemma frame_slot (i : FrameInput F) s g s' g' :
  0 <= mCurrFrameResourceIndex s < gNumFrameResources ->
  frame i (s, g) = Some (s', g') ->
  next_slot s' = ((next_slot s + 1) mod 3)%nat /\
  (next_slot s < 3)%nat /\
  mCurrFrameResource s' = Some (next_slot s) /\
  0 <= mCurrFrameResourceIndex s' < gNumFrameResources.
Proof.
  intros Hi Hf.
  destruct (frame_effect _ _ _ _ _ Hf)
    as (fr & w & r & p0 & ri & gn & geo & cmds & g1 & _ & _ & _ & _ & _ & _
        & _ & _ & _ & Rcur & Ridx & _).
  destruct (next_slot_cycle s s' Hi Ridx) as (Hn & _ & Hi').
  repeat split; try assumption; try apply Hi'.
  apply next_slot_bounds. exact Hi.
Qed.

Lemma run3_inv (i1 i2 i3 : FrameInput F) (sg sg' : State F W * Gpu) :
  run [i1; i2; i3] sg = Some sg' ->
  exists sa sb,
    frame i1 sg = Some sa /\ frame i2 sa = Some sb /\ frame i3 sb = Some sg'.
Proof.
  cbn [run]. intros Hr.
  destruct (frame i1 sg) as [sa|] eqn:E1; [|discriminate]. cbn in Hr.
  destruct (frame i2 sa) as [sb|] eqn:E2; [|discriminate]. cbn in Hr.
  destruct (frame i3 sb) as [sc|] eqn:E3; [|discriminate]. cbn in Hr.
  injection Hr as <-. exists sa, sb. auto.
Qed.

(** Three successive slots of a ring of three are all its slots. *)
Lemma three_slots (ka k : nat) :
  (ka < 3)%nat -> (k < 3)%nat ->
  k = ka \/ k = ((ka + 1) mod 3)%nat \/ k = ((((ka + 1) mod 3) + 1) mod 3)%nat.
Proof.
  intros Ha Hk.
  destruct ka as [|[|[|?]]]; [| | |lia];
    destruct k as [|[|[|?]]]; cbn; lia.
Qed.

Lemma three_slots_distinct (ka : nat) :
  (ka < 3)%nat ->
  ka <> ((ka + 1) mod 3)%nat /\
  ((ka + 1) mod 3)%nat <> ((((ka + 1) mod 3) + 1) mod 3)%nat /\
  ka <> ((((ka + 1) mod 3) + 1) mod 3)%nat.
Proof.
  intros Ha. destruct ka as [|[|[|?]]]; [| | |lia]; cbn; lia.
Qed.

Lemma tick_item_pos (e : RenderItem.t F) :
  0 < RenderItem.NumFramesDirty e ->
  tick_item e
  = RenderItem.set_NumFramesDirty (RenderItem.NumFramesDirty e - 1) e.
Proof. intros Hd. unfold tick_item. apply Z.ltb_lt in Hd. rewrite Hd. reflexivity. Qed.

Lemma tick_item_settled (e : RenderItem.t F) :
  RenderItem.NumFramesDirty e <= 0 -> tick_item e = e.
Proof.
  intros Hd. unfold tick_item.
  destruct (0 <? RenderItem.NumFramesDirty e) eqn:E; [|reflexivity].
  apply Z.ltb_lt in E. lia.
Qed.

Lemma tick_pos (m : Material.t F) :
  0 < Material.NumFramesDirty m ->
  tick m = Material.set_NumFramesDirty (Material.NumFramesDirty m - 1) m.
Proof. intros Hd. unfold tick. apply Z.ltb_lt in Hd. rewrite Hd. reflexivity. Qed.

Lemma tick_settled (m : Material.t F) :
  Material.NumFramesDirty m <= 0 -> tick m = m.
Proof.
  intros Hd. unfold tick.
  destruct (0 <? Material.NumFramesDirty m) eqn:E; [|reflexivity].
  apply Z.ltb_lt in E. lia.
Qed.

(** The slots three successive frames select are pairwise distinct and
    are all the slots of the ring. *)
Lemma three_frames_slots (i1 i2 i3 : FrameInput F) s g sa ga sb gb s' g' :
  0 <= mCurrFrameResourceIndex s < gNumFrameResources ->
  frame i1 (s, g) = Some (sa, ga) ->
  frame i2 (sa, ga) = Some (sb, gb) ->
  frame i3 (sb, gb) = Some (s', g') ->
  next_slot s <> next_slot sa /\ next_slot sa <> next_slot sb /\
  next_slot s <> next_slot sb /\
  forall k, (k < 3)%nat ->
            k = next_slot s \/ k = next_slot sa \/ k = next_slot sb.
Proof.
  intros Hidx Fa Fb Fc.
  destruct (frame_slot _ _ _ _ _ Hidx Fa) as (Nb & Ha3 & _ & Hidxa).
  destruct (frame_slot _ _ _ _ _ Hidxa Fb) as (Nc & _ & _ & Hidxb).
  destruct (three_slots_distinct _ Ha3) as (Dab & Dbc & Dac).
  rewrite <- Nb in Dab, Dbc, Dac. rewrite <- Nc in Dbc, Dac.
  repeat split; try assumption.
  intros k Hk. rewrite Nc, Nb. apply three_slots; assumption.
Qed.

(** A render item marked dirty for the whole ring is settled, and in
    every slot, after three frames. *)
Lemma item_settles_after_three (i1 i2 i3 : FrameInput F) s g s' g' p e :
  0 <= mCurrFrameResourceIndex s < gNumFrameResources ->
  items_ok s ->
  run [i1; i2; i3] (s, g) = Some (s', g') ->
  p ∈ mAllRitems s -> heap s !! p = Some e ->
  RenderItem.NumFramesDirty e = gNumFrameResources ->
  heap s' !! p = Some (RenderItem.set_NumFramesDirty 0 e) /\
  forall k, (k < 3)%nat ->
    object_constants s' k (RenderItem.ObjCBIndex e) = Some (objConstants e).
Proof.
  intros Hidx Hitems Hrun Hp He Hd. unfold gNumFrameResources in Hd.
  destruct (run3_inv _ _ _ _ _ Hrun) as ([sa ga] & [sb gb] & Fa & Fb & Fc).
  destruct (three_frames_slots _ _ _ _ _ _ _ _ _ _ _ Hidx Fa Fb Fc)
    as (Dab & Dbc & Dac & Hslots).
  destruct (frame_items _ _ _ _ _ Hitems Fa)
    as (Alla & Ta & Pa & _ & _ & Hitemsa).
  destruct (frame_items _ _ _ _ _ Hitemsa Fb)
    as (Allb & Tb & Pb & _ & Ob & Hitemsb).
  destruct (frame_items _ _ _ _ _ Hitemsb Fc)
    as (_ & Tc & Pc & _ & Oc & _).
  assert (Hpa : p ∈ mAllRitems sa) by (rewrite Alla; exact Hp).
  assert (Hpb : p ∈ mAllRitems sb) by (rewrite Allb; exact Hpa).
  pose proof (Ta p e Hp He) as Ea.
  rewrite tick_item_pos, Hd in Ea by lia. cbn in Ea.
  pose proof (Tb p _ Hpa Ea) as Eb.
  rewrite tick_item_pos in Eb by (cbn; lia). cbn in Eb.
  pose proof (Tc p _ Hpb Eb) as Ec.
  rewrite tick_item_pos in Ec by (cbn; lia). cbn in Ec.
  split; [exact Ec|]. intros k Hk.
  assert (Ca := Pa p e Hp He). assert (Cb := Pb p _ Hpa Ea).
  assert (Cc := Pc p _ Hpb Eb). cbn in Cb, Cc.
  destruct (Hslots k Hk) as [-> | [-> | ->]].
  - rewrite Oc, Ob by congruence. apply Ca. lia.
  - rewrite Oc by congruence. apply Cb. lia.
  - apply Cc. lia.
Qed.

(** A material that is not animated and is marked dirty for the whole
    ring is settled, and in every slot, after three frames. *)
Lemma material_settles_after_three (i1 i2 i3 : FrameInput F) s g s' g' n m :
  0 <= mCurrFrameResourceIndex s < gNumFrameResources ->
  materials_ok s ->
  run [i1; i2; i3] (s, g) = Some (s', g') ->
  mMaterials s !! n = Some m -> n <> "water" ->
  Material.NumFramesDirty m = gNumFrameResources ->
  mMaterials s' !! n = Some (Material.set_NumFramesDirty 0 m) /\
  forall k, (k < 3)%nat ->
    material_constants s' k (Material.MatCBIndex m) = Some (matConstants m).
Proof.
  intros Hidx Hmats Hrun Hm Hn Hd. unfold gNumFrameResources in Hd.
  destruct (run3_inv _ _ _ _ _ Hrun) as ([sa ga] & [sb gb] & Fa & Fb & Fc).
  destruct (three_frames_slots _ _ _ _ _ _ _ _ _ _ _ Hidx Fa Fb Fc)
    as (Dab & Dbc & Dac & Hslots).
  destruct (frame_materials _ _ _ _ _ Hmats Fa)
    as (wa & Ewa & Ma & Pa & _ & _ & Hmatsa).
  destruct (frame_materials _ _ _ _ _ Hmatsa Fb)
    as (wb & Ewb & Mb & Pb & _ & Ob & Hmatsb).
  destruct (frame_materials _ _ _ _ _ Hmatsb Fc)
    as (wc & Ewc & Mc & Pc & _ & Oc & _).
  assert (Hstep : forall (M : gmap string (Material.t F)) gt w x,
            M !! n = Some x ->
            (tick <$> <["water" := scroll_water gt w]> M) !! n = Some (tick x)).
  { intros M gt0 w x Hx.
    rewrite lookup_fmap, lookup_insert_ne, Hx by congruence. reflexivity. }
  assert (Hin : forall (M : gmap string (Material.t F)) gt w x,
            M !! n = Some x ->
            <["water" := scroll_water gt w]> M !! n = Some x).
  { intros M gt0 w x Hx. rewrite lookup_insert_ne by congruence. exact Hx. }
  pose proof (Hstep _ (gt i1) wa _ Hm) as Ea. rewrite <- Ma in Ea.
  rewrite tick_pos, Hd in Ea by lia. cbn in Ea.
  pose proof (Hstep _ (gt i2) wb _ Ea) as Eb. rewrite <- Mb in Eb.
  rewrite tick_pos in Eb by (cbn; lia). cbn in Eb.
  pose proof (Hstep _ (gt i3) wc _ Eb) as Ec. rewrite <- Mc in Ec.
  rewrite tick_pos in Ec by (cbn; lia). cbn in Ec.
  split; [exact Ec|]. intros k Hk.
  assert (Ca := Pa n m (Hin _ _ _ _ Hm)).
  assert (Cb := Pb n _ (Hin _ _ _ _ Ea)).
  assert (Cc := Pc n _ (Hin _ _ _ _ Eb)). cbn in Cb, Cc.
  destruct (Hslots k Hk) as [-> | [-> | ->]].
  - rewrite Oc, Ob by congruence. apply Ca. lia.
  - rewrite Oc by congruence. apply Cb. lia.
  - apply Cc. lia.
Qed.

(** C2.  Dirty propagation completeness.  A render item, or a material
    that is not animated, whose dirty counter has just been set to the
    ring depth 3 has, after exactly three frames, its (transposed)
    constants at its fixed index in every one of the three ring slots and
    a dirty counter of 0.  On each frame the update phase writes the
    constants into the current slot and decrements the counter when the
    counter is positive, and does neither when it is not. *)
Theorem dirty_propagation_complete (i1 i2 i3 : FrameInput F) s g s' g' :
  0 <= mCurrFrameResourceIndex s < gNumFrameResources ->
  items_ok s -> materials_ok s ->
  run [i1; i2; i3] (s, g) = Some (s', g') ->
  (forall p e, p ∈ mAllRitems s -> heap s !! p = Some e ->
      RenderItem.NumFramesDirty e = gNumFrameResources ->
      heap s' !! p = Some (RenderItem.set_NumFramesDirty 0 e) /\
      forall k, (k < 3)%nat ->
        object_constants s' k (RenderItem.ObjCBIndex e) = Some (objConstants e)) /\
  (forall n m, mMaterials s !! n = Some m -> n <> "water" ->
      Material.NumFramesDirty m = gNumFrameResources ->
      mMaterials s' !! n = Some (Material.set_NumFramesDirty 0 m) /\
      forall k, (k < 3)%nat ->
        material_constants s' k (Material.MatCBIndex m) = Some (matConstants m)) /\
  (forall (i : FrameInput F) s0 g0 s1 g1 p e,
      items_ok s0 -> frame i (s0, g0) = Some (s1, g1) ->
      p ∈ mAllRitems s0 -> heap s0 !! p = Some e ->
      (0 < RenderItem.NumFramesDirty e ->
       heap s1 !! p
         = Some (RenderItem.set_NumFramesDirty
                   (RenderItem.NumFramesDirty e - 1) e) /\
       object_constants s1 (next_slot s0) (RenderItem.ObjCBIndex e)
         = Some (objConstants e)) /\
      (RenderItem.NumFramesDirty e <= 0 ->
       heap s1 !! p = Some e /\
       object_constants s1 (next_slot s0) (RenderItem.ObjCBIndex e)
         = object_constants s0 (next_slot s0) (RenderItem.ObjCBIndex e))) /\
  (forall (i : FrameInput F) s0 g0 s1 g1 n m,
      materials_ok s0 -> frame i (s0, g0) = Some (s1, g1) ->
      mMaterials s0 !! n = Some m -> n <> "water" ->
      (0 < Material.NumFramesDirty m ->
       mMaterials s1 !! n
         = Some (Material.set_NumFramesDirty (Material.NumFramesDirty m - 1) m) /\
       material_constants s1 (next_slot s0) (Material.MatCBIndex m)
         = Some (matConstants m)) /\
      (Material.NumFramesDirty m <= 0 ->
       mMaterials s1 !! n = Some m /\
       material_constants s1 (next_slot s0) (Material.MatCBIndex m)
         = material_constants s0 (next_slot s0) (Material.MatCBIndex m))).
Proof.
  intros Hidx Hitems Hmats Hrun.
  split; [|split; [|split]].
  - intros p e Hp He Hd.
    apply (item_settles_after_three i1 i2 i3 s g s' g'); assumption.
  - intros n m Hm Hn Hd.
    apply (material_settles_after_three i1 i2 i3 s g s' g'); assumption.
  - intros i s0 g0 s1 g1 p e Hok Hf Hp He.
    destruct (frame_items _ _ _ _ _ Hok Hf) as (_ & T & P & K & _ & _).
    pose proof (T p e Hp He) as Hnext.
    split; intros Hd.
    + rewrite tick_item_pos in Hnext by exact Hd. eauto.
    + rewrite tick_item_settled in Hnext by exact Hd. eauto.
  - intros i s0 g0 s1 g1 n m Hok Hf Hm Hn.
    destruct (frame_materials _ _ _ _ _ Hok Hf) as (w & Ew & M & P & K & _ & _).
    assert (Hin : <["water" := scroll_water (gt i) w]> (mMaterials s0) !! n
                  = Some m) by (rewrite lookup_insert_ne by congruence; exact Hm).
    assert (Hnext : mMaterials s1 !! n = Some (tick m))
      by (rewrite M, lookup_fmap, Hin; reflexivity).
    split; intros Hd.
    + rewrite tick_pos in Hnext by exact Hd. eauto.
    + rewrite tick_settled in Hnext by exact Hd. eauto.
Qed.

(** C10.  The water material never settles.  [AnimateMaterials] sets the
    dirty counter of the water material to the ring depth before
    [UpdateMaterialCBs] runs, so every frame copies the constants of the
    water material into the current ring slot and leaves its counter at 2;
    the counter is positive after every run of frames that starts with a
    positive counter.  A material that is not animated and whose counter
    is 3 reaches 0 after three frames. *)
Theorem water_material_never_settles (inputs : list (FrameInput F)) s g s' g' :
  0 <= mCurrFrameResourceIndex s < gNumFrameResources ->
  materials_ok s ->
  run inputs (s, g) = Some (s', g') ->
  (forall w, mMaterials s !! "water" = Some w ->
     0 < Material.NumFramesDirty w ->
     exists w', mMaterials s' !! "water" = Some w' /\
                0 < Material.NumFramesDirty w') /\
  (forall (i : FrameInput F) s0 g0 s1 g1,
     materials_ok s0 -> frame i (s0, g0) = Some (s1, g1) ->
     exists w,
       mMaterials s0 !! "water" = Some w /\
       Material.NumFramesDirty (scroll_water (gt i) w) = gNumFrameResources /\
       mMaterials s1 !! "water"
         = Some (Material.set_NumFramesDirty 2 (scroll_water (gt i) w)) /\
       material_constants s1 (next_slot s0) (Material.MatCBIndex w)
         = Some (matConstants (scroll_water (gt i) w))) /\
  (forall (i1 i2 i3 : FrameInput F) s0 g0 s3 g3 n m,
     0 <= mCurrFrameResourceIndex s0 < gNumFrameResources ->
     materials_ok s0 ->
     run [i1; i2; i3] (s0, g0) = Some (s3, g3) ->
     mMaterials s0 !! n = Some m -> n <> "water" ->
     Material.NumFramesDirty m = gNumFrameResources ->
     exists m', mMaterials s3 !! n = Some m' /\ Material.NumFramesDirty m' = 0).
Proof.
  intros Hidx Hmats Hrun.
  assert (Hframe : forall (i : FrameInput F) s0 g0 s1 g1,
     materials_ok s0 -> frame i (s0, g0) = Some (s1, g1) ->
     exists w,
       mMaterials s0 !! "water" = Some w /\
       Material.NumFramesDirty (scroll_water (gt i) w) = gNumFrameResources /\
       mMaterials s1 !! "water"
         = Some (Material.set_NumFramesDirty 2 (scroll_water (gt i) w)) /\
       material_constants s1 (next_slot s0) (Material.MatCBIndex w)
         = Some (matConstants (scroll_water (gt i) w))).
  { intros i s0 g0 s1 g1 Hok Hf.
    destruct (frame_materials _ _ _ _ _ Hok Hf) as (w & Ew & M & P & _ & _ & _).
    exists w. split; [exact Ew|]. split; [reflexivity|]. split.
    - rewrite M, lookup_fmap, lookup_insert_eq. reflexivity.
    - rewrite <- (scroll_water_MatCBIndex (gt i) w).
      apply (P "water"); [apply lookup_insert_eq | cbn; lia]. }
  split; [|split].
  - revert s g Hidx Hmats Hrun.
    induction inputs as [|i rest IH]; intros s g Hidx Hmats Hrun w Hw Hd.
    + cbn in Hrun. injection Hrun as <- <-. eauto.
    + cbn [run] in Hrun.
      destruct (frame i (s, g)) as [[s1 g1]|] eqn:Ef; [|discriminate].
      cbn in Hrun.
      destruct (Hframe _ _ _ _ _ Hmats Ef) as (w0 & _ & _ & Ew1 & _).
      destruct (frame_materials _ _ _ _ _ Hmats Ef) as (_ & _ & _ & _ & _ & _ & Hok1).
      destruct (frame_slot _ _ _ _ _ Hidx Ef) as (_ & _ & _ & Hidx1).
      apply (IH s1 g1 Hidx1 Hok1 Hrun _ Ew1). cbn. lia.
  - exact Hframe.
  - intros i1 i2 i3 s0 g0 s3 g3 n m Hidx0 Hmats0 Hrun0 Hm Hn Hd.
    destruct (material_settles_after_three _ _ _ _ _ _ _ _ _ Hidx0 Hmats0 Hrun0
                Hm Hn Hd) as (E & _).
    eauto.
Qed.

End Dirty.

(** ** The frames complete *)

Section Totality.
Context {F W : Type} `{FloatOps F} `{WavesOps F W}.
Import TreeBillboardsApp.
Implicit Type s : State F W.

(** A state that keeps the lists and what the render items point to keeps
    [scene_ok]. *)
Lemma scene_ok_ext s s' :
  (forall m, is_Some (mMaterials s !! m) -> is_Some (mMaterials s' !! m)) ->
  (forall g, is_Some (mGeometries s !! g) -> is_Some (mGeometries s' !! g)) ->
  (forall q, RenderItem.Geo <$> heap s' !! q = RenderItem.Geo <$> heap s !! q) ->
  (forall q, RenderItem.Mat <$> heap s' !! q = RenderItem.Mat <$> heap s !! q) ->
  mAllRitems s' = mAllRitems s -> mRitemLayer s' = mRitemLayer s ->
  mWavesRitem s' = mWavesRitem s ->
  scene_ok s -> scene_ok s'.
Proof.
  intros Hmat Hgeo HG HM Hall Hlayers Hwaves (Hwater & Hlive & Hdraw & Hw).
  assert (Hd : forall p, drawable s p -> drawable s' p).
  { intros p (ri & g & m & Hri & Hg & Hgs & Hm & Hms).
    specialize (HG p). specialize (HM p). rewrite Hri in HG, HM.
    destruct (heap s' !! p) as [ri'|] eqn:Hri'; [|discriminate].
    cbn in HG, HM. exists ri', g, m.
    split; [exact Hri'|]. split; [congruence|]. split; [auto|].
    split; [congruence | auto]. }
  split; [auto|]. split.
  - intros p Hp. rewrite Hall in Hp. destruct (Hlive p Hp) as [e He].
    specialize (HG p). rewrite He in HG.
    destruct (heap s' !! p); [eauto | discriminate].
  - split.
    + intros layer p Hl Hp. rewrite Hlayers in Hl. eauto.
    + destruct Hw as (p & Hp & Hdp). exists p. split; [congruence | auto].
Qed.

(** The loop of [UpdateObjectCBs] changes dirty counters only. *)
Lemma UpdateObjectCBs_loop_fields (ritems : list nat)
    (h h' : list (RenderItem.t F)) (cb cb' : list (ObjectConstants.t F)) :
  UpdateObjectCBs_loop ritems h cb = Some (h', cb') ->
  forall q,
    RenderItem.Geo <$> h' !! q = RenderItem.Geo <$> h !! q /\
    RenderItem.Mat <$> h' !! q = RenderItem.Mat <$> h !! q.
Proof.
  revert h cb. induction ritems as [|p rest IH]; intros h cb Hloop q.
  - cbn in Hloop. injection Hloop as <- <-. split; reflexivity.
  - cbn [UpdateObjectCBs_loop] in Hloop.
    destruct (h !! p) as [e|] eqn:He; [|discriminate]. cbn in Hloop.
    destruct (0 <? RenderItem.NumFramesDirty e).
    + destruct (IH _ _ Hloop q) as [HG HM]. rewrite HG, HM.
      destruct (decide (p = q)) as [->|Hne].
      * rewrite list_lookup_insert_eq by (apply lookup_lt_is_Some; eauto).
        rewrite He. split; reflexivity.
      * rewrite list_lookup_insert_ne by exact Hne. split; reflexivity.
    + exact (IH _ _ Hloop q).
Qed.

Lemma AnimateMaterials_total gt s k :
  ready k s -> exists s', AnimateMaterials gt s = Some s' /\ ready k s'.
Proof.
  intros (Hk & Hlt & Hscene). pose proof Hscene as ([w Hw] & _).
  unfold AnimateMaterials. rewrite Hw. cbn. eexists. split; [reflexivity|].
  split; [exact Hk|]. split; [exact Hlt|].
  eapply scene_ok_ext; [| | | | | | | exact Hscene]; try reflexivity.
  - intros m Hm. cbn. apply lookup_insert_is_Some.
    destruct (decide ("water" = m)); [left | right]; auto.
  - intros g Hg. exact Hg.
Qed.

Lemma UpdateObjectCBs_total s k :
  ready k s -> exists s', UpdateObjectCBs s = Some s' /\ ready k s'.
Proof.
  intros (Hk & Hlt & Hscene). pose proof Hscene as (_ & Hlive & _).
  destruct (lookup_lt_is_Some_2 _ _ Hlt) as [fr Hfr].
  destruct (UpdateObjectCBs_loop_total (mAllRitems s) (heap s)
              (FrameResource.ObjectCB fr) Hlive) as [[h' cb'] Hloop].
  unfold UpdateObjectCBs. rewrite Hk. cbn. rewrite Hfr. cbn.
  rewrite Hloop. cbn. eexists. split; [reflexivity|].
  split; [exact Hk|]. split; [cbn; rewrite length_insert; exact Hlt|].
  eapply scene_ok_ext; [| | | | | | | exact Hscene]; try reflexivity; cbn.
  - auto.
  - auto.
  - intros q. apply (UpdateObjectCBs_loop_fields _ _ _ _ _ Hloop q).
  - intros q. apply (UpdateObjectCBs_loop_fields _ _ _ _ _ Hloop q).
Qed.

Lemma UpdateMaterialCBs_total s k :
  ready k s -> exists s', UpdateMaterialCBs s = Some s' /\ ready k s'.
Proof.
  intros (Hk & Hlt & Hscene).
  destruct (lookup_lt_is_Some_2 _ _ Hlt) as [fr Hfr].
  unfold UpdateMaterialCBs. rewrite Hk. cbn. rewrite Hfr. cbn.
  eexists. split; [reflexivity|].
  split; [exact Hk|]. split; [cbn; rewrite length_insert; exact Hlt|].
  eapply scene_ok_ext; [| | | | | | | exact Hscene]; try reflexivity; cbn.
  - intros m [x Hm]. rewrite lookup_fmap, Hm. cbn. eauto.
  - auto.
Qed.

Lemma UpdateWaves_total i s k :
  ready k s -> exists s', UpdateWaves i s = Some s' /\ ready k s'.
Proof.
  intros (Hk & Hlt & Hscene).
  pose proof Hscene
    as (_ & _ & _ & p & Hp & ri & g & m & Hri & Hg & [geo Hgeo] & _).
  destruct (lookup_lt_is_Some_2 _ _ Hlt) as [fr Hfr].
  unfold UpdateWaves. rewrite Hk. cbn. rewrite Hfr. cbn. rewrite Hp. cbn.
  rewrite Hri. cbn. rewrite Hg. cbn. rewrite Hgeo. cbn.
  eexists. split; [reflexivity|].
  split; [exact Hk|]. split; [cbn; rewrite length_insert; exact Hlt|].
  eapply scene_ok_ext; [| | | | | | | exact Hscene]; try reflexivity; cbn.
  - auto.
  - intros g' Hg'. apply lookup_insert_is_Some.
    destruct (decide (g = g')); [left | right]; auto.
Qed.

Lemma UpdatePhases_total i s k :
  ready k s -> exists s', UpdatePhases i s = Some s' /\ ready k s'.
Proof.
  intros Hr. unfold UpdatePhases.
  destruct (AnimateMaterials_total (gt i) s k Hr) as (s1 & -> & Hr1). cbn.
  destruct (UpdateObjectCBs_total s1 k Hr1) as (s2 & -> & Hr2). cbn.
  destruct (UpdateMaterialCBs_total s2 k Hr2) as (s3 & -> & Hr3). cbn.
  exact (UpdateWaves_total i s3 k Hr3).
Qed.

Lemma DrawRenderItems_total s k (ritems : list nat) :
  (forall p, p ∈ ritems -> drawable s p) ->
  is_Some (DrawRenderItems s k ritems).
Proof.
  induction ritems as [|p rest IH]; intros Hd; cbn; [eauto|].
  destruct (Hd p ltac:(left)) as (ri & g & m & Hri & Hg & [geo Hgeo] & Hm
                                  & [mat Hmat]).
  unfold draw_item. rewrite Hri. cbn. rewrite Hg. cbn. rewrite Hgeo. cbn.
  rewrite Hm. cbn. rewrite Hmat. cbn.
  destruct IH as [cs ->]; [intros q Hq; apply Hd; right; exact Hq|].
  cbn. eauto.
Qed.

Lemma layer_items_drawable s (l : RenderLayer) p :
  scene_ok s -> p ∈ layer_items s l -> drawable s p.
Proof.
  intros (_ & _ & Hdraw & _) Hp. unfold layer_items in Hp.
  destruct (mRitemLayer s !! layer_index l) as [layer|] eqn:Hl;
    [|cbn in Hp; apply elem_of_nil in Hp; contradiction].
  cbn in Hp. apply (Hdraw layer p); [|exact Hp].
  eapply list_elem_of_lookup_2. exact Hl.
Qed.

Lemma Draw_total s g k :
  ready k s -> exists s' g', Draw s g = Some (s', g') /\ scene_ok s'.
Proof.
  intros (Hk & Hlt & Hscene).
  destruct (lookup_lt_is_Some_2 _ _ Hlt) as [fr Hfr].
  unfold Draw. rewrite Hk. cbn. rewrite Hfr. cbn. unfold Draw_commands.
  destruct (DrawRenderItems_total s k (layer_items s Opaque)) as [c0 ->];
    [intros p; apply layer_items_drawable; exact Hscene|]. cbn.
  destruct (DrawRenderItems_total s k (layer_items s AlphaTested)) as [c1 ->];
    [intros p; apply layer_items_drawable; exact Hscene|]. cbn.
  destruct (DrawRenderItems_total s k (layer_items s AlphaTestedTreeSprites))
    as [c2 ->]; [intros p; apply layer_items_drawable; exact Hscene|]. cbn.
  destruct (DrawRenderItems_total s k (layer_items s Transparent)) as [c3 ->];
    [intros p; apply layer_items_drawable; exact Hscene|]. cbn.
  do 2 eexists. split; [reflexivity|].
  eapply scene_ok_ext; [| | | | | | | exact Hscene]; try reflexivity; auto.
Qed.

(** A frame completes from a state in which the ring and the scene are
    sound, and leaves such a state. *)
Lemma frame_total (i : FrameInput F) s g :
  ring_ok s g -> scene_ok s ->
  exists s' g', frame i (s, g) = Some (s', g') /\ scene_ok s'.
Proof.
  intros Hring Hscene. pose proof Hring as (Hlen & Hidx & Hc & Hsig & Hfences).
  assert (Hslot : (next_slot s < length (mFrameResources s))%nat)
    by (rewrite Hlen; apply next_slot_bounds; exact Hidx).
  destruct (lookup_lt_is_Some_2 _ _ Hslot) as [fr Hfr].
  assert (Hfence : 0 <= FrameResource.Fence fr <= LastSignal g).
  { rewrite Hsig. exact (Forall_lookup_1 _ _ _ _ Hfences Hfr). }
  destruct (WaitForFrameResource_returns i _ g Hc Hfence) as (g1 & Hwait & _).
  destruct (UpdatePhases_total i
              (set_current (Some (next_slot s))
                 (Z.rem (mCurrFrameResourceIndex s + 1) gNumFrameResources) s)
              (next_slot s)) as (s1 & Hphases & Hr1).
  { split; [reflexivity|]. split; [exact Hslot | exact Hscene]. }
  destruct (Draw_total s1 g1 (next_slot s) Hr1) as (s2 & g2 & Hdraw & Hs2).
  exists s2, g2. split; [|exact Hs2].
  unfold frame, Update. cbn [fst snd]. fold (next_slot s).
  rewrite Hfr. cbn. rewrite Hwait. cbn. rewrite Hphases. cbn. exact Hdraw.
Qed.

(** Every run of frames completes; the fence counter is assumed not to
    wrap. *)
Lemma run_total (inputs : list (FrameInput F)) s g :
  ring_ok s g -> scene_ok s ->
  mCurrentFence s + Z.of_nat (length inputs) < 2 ^ 64 ->
  exists s' g', run inputs (s, g) = Some (s', g') /\
                ring_ok s' g' /\ scene_ok s'.
Proof.
  revert s g. induction inputs as [|i rest IH]; intros s g Hring Hscene Hb.
  - exists s, g. auto.
  - destruct (frame_total i s g Hring Hscene) as (s1 & g1 & Hframe & Hs1).
    destruct (frame_ring_ok i s g s1 g1 Hring) as [Hring1 Hf1];
      [cbn [length] in Hb; lia | exact Hframe |].
    destruct (IH s1 g1 Hring1 Hs1) as (s' & g' & Hrun & Hok);
      [cbn [length] in Hb; lia|].
    exists s', g'. split; [|exact Hok].
    cbn [run]. rewrite Hframe. cbn. exact Hrun.
Qed.

End Totality.

(** ** Draw order *)

Section DrawOrder.
Context {F W : Type} `{FloatOps F} `{WavesOps F W}.
Import TreeBillboardsApp.
Implicit Type s : State F W.

Lemma draw_item_calls s k l p c (obj : option GpuAddress) rest :
  draw_item s k p = Some c ->
  exists call obj',
    call_of s k (l, p) = Some call /\
    draw_calls_from (pso_of l) obj (c ++ rest)
    = call :: draw_calls_from (pso_of l) obj' rest.
Proof.
  unfold draw_item, call_of. cbn. intros Hc.
  destruct (heap s !! p) as [ri|]; [|discriminate]. cbn in Hc.
  destruct (RenderItem.Geo ri) as [g|]; [|discriminate]. cbn in Hc.
  destruct (mGeometries s !! g) as [geo|]; [|discriminate]. cbn in Hc.
  destruct (RenderItem.Mat ri) as [m|]; [|discriminate]. cbn in Hc.
  destruct (mMaterials s !! m) as [mat|]; [|discriminate]. cbn in Hc.
  injection Hc as <-. cbn. eauto.
Qed.

Lemma DrawRenderItems_calls s k l ritems cs :
  DrawRenderItems s k ritems = Some cs ->
  exists calls,
    Forall2 (fun lp c => call_of s k lp = Some c) (pair l <$> ritems) calls /\
    forall obj rest, exists obj',
      draw_calls_from (pso_of l) obj (cs ++ rest)
      = calls ++ draw_calls_from (pso_of l) obj' rest.
Proof.
  revert cs. induction ritems as [|p ps IH]; intros cs Hcs.
  - cbn in Hcs. injection Hcs as <-. exists []. split; [constructor|].
    intros obj rest. exists obj. reflexivity.
  - cbn in Hcs.
    destruct (draw_item s k p) as [c|] eqn:Ec; [|discriminate]. cbn in Hcs.
    destruct (DrawRenderItems s k ps) as [cs'|]; [|discriminate].
    cbn in Hcs. injection Hcs as <-.
    destruct (IH cs' eq_refl) as (calls & Hcalls & Hscan).
    destruct (draw_item_calls s k l p c None [] Ec) as (call & _ & Hcall & _).
    exists (call :: calls). split; [constructor; assumption|].
    intros obj rest. rewrite <- app_assoc.
    destruct (draw_item_calls s k l p c obj (cs' ++ rest) Ec)
      as (call' & obj1 & Hcall' & ->).
    assert (call' = call) by congruence. subst call'.
    destruct (Hscan obj1 rest) as (obj2 & ->). exists obj2. reflexivity.
Qed.

(** Pushing onto a layer appends to that layer and to no other. *)
Lemma push_layer_items (l l' : RenderLayer) p (layers : list (list nat)) :
  length layers = RenderLayer_Count ->
  length (push_layer l' p layers) = RenderLayer_Count /\
  default [] (push_layer l' p layers !! layer_index l)
  = default [] (layers !! layer_index l) ++ (if decide (l' = l) then [p] else []).
Proof.
  unfold RenderLayer_Count. intros Hlen. unfold push_layer.
  split; [rewrite length_insert; exact Hlen|].
  destruct (decide (l' = l)) as [-> | Hne].
  - rewrite list_lookup_insert_eq; [reflexivity|].
    rewrite Hlen. destruct l; cbn; lia.
  - rewrite list_lookup_insert_ne, app_nil_r; [reflexivity|].
    destruct l, l'; cbn; congruence.
Qed.

Lemma register_items (l : RenderLayer) regs (layers : list (list nat)) :
  length layers = RenderLayer_Count ->
  default [] (register regs layers !! layer_index l)
  = default [] (layers !! layer_index l) ++ in_layer l regs.
Proof.
  revert layers. induction regs as [|[p l'] regs IH]; intros layers Hlen.
  - cbn. rewrite app_nil_r. reflexivity.
  - change (register ((p, l') :: regs) layers)
      with (register regs (push_layer l' p layers)).
    destruct (push_layer_items l l' p layers Hlen) as (Hlen' & Hl).
    rewrite (IH _ Hlen'). rewrite Hl, <- app_assoc. f_equal.
    unfold in_layer. rewrite filter_cons. cbn.
    destruct (decide (l' = l)); reflexivity.
Qed.

Lemma draw_sequence_sorted regs :
  StronglySorted (fun a b : RenderLayer * nat => (draw_rank a.1 <= draw_rank b.1)%nat)
                 (draw_sequence regs).
Proof.
  assert (Hconst : forall (l : RenderLayer) (ps : list nat),
            StronglySorted
              (fun a b : RenderLayer * nat => (draw_rank a.1 <= draw_rank b.1)%nat)
              (pair l <$> ps)).
  { intros l ps. induction ps as [|p ps IH]; cbn; constructor; [exact IH|].
    apply Forall_fmap, Forall_true. cbn. intros; lia. }
  assert (Hin : forall (l : RenderLayer) (ps : list nat) (x : RenderLayer * nat),
            x ∈ pair l <$> ps -> x.1 = l).
  { intros l ps x Hx. apply list_elem_of_fmap in Hx as (p & -> & _). reflexivity. }
  unfold draw_sequence.
  repeat (apply StronglySorted_app_2; [| apply Hconst |]); try apply Hconst;
    intros x1 x2 H1' H2'; apply Hin in H1';
    repeat (apply elem_of_app in H2' as [H2' | H2']);
    apply Hin in H2'; rewrite H1', H2'; cbn; lia.
Qed.

Lemma layers_partition (regs : list (nat * RenderLayer)) :
  filter (fun r => r.2 = Opaque) regs
  ++ filter (fun r => r.2 = AlphaTested) regs
  ++ filter (fun r => r.2 = AlphaTestedTreeSprites) regs
  ++ filter (fun r => r.2 = Transparent) regs ≡ₚ regs.
Proof.
  induction regs as [|[p l] regs IH]; [reflexivity|].
  rewrite !filter_cons. cbn [snd].
  destruct l; repeat (case_decide; try congruence);
    cbn [app]; rewrite <- ?Permutation_middle; apply perm_skip; exact IH.
Qed.

Lemma in_layer_pairs (l : RenderLayer) (regs : list (nat * RenderLayer)) :
  (fun lp : RenderLayer * nat => (lp.2, lp.1)) <$> (pair l <$> in_layer l regs)
  = filter (fun r => r.2 = l) regs.
Proof.
  unfold in_layer. induction regs as [|[p l'] regs IH]; [reflexivity|].
  rewrite filter_cons. cbn [snd].
  destruct (decide (l' = l)) as [-> | Hne]; [|exact IH].
  cbn. f_equal. exact IH.
Qed.

Lemma draw_sequence_permutation (regs : list (nat * RenderLayer)) :
  (fun lp : RenderLayer * nat => (lp.2, lp.1)) <$> draw_sequence regs ≡ₚ regs.
Proof.
  unfold draw_sequence. rewrite !fmap_app, !in_layer_pairs.
  apply layers_partition.
Qed.

(** C3.  Draw ordering.  Whatever the order in which render items were
    registered in the four layers, the draw calls of the command list that
    [Draw] records are those of the registered items, one call per item,
    each under the pipeline state of its layer and bound to its object
    constants in the current frame resource, with every Opaque item before
    every AlphaTested item, these before every tree-sprite item, and these
    before every Transparent item. *)
Theorem draw_order (regs : list (nat * RenderLayer)) s k cmds :
  mRitemLayer s = register regs (replicate RenderLayer_Count []) ->
  Draw_commands s k = Some cmds ->
  Forall2 (fun lp c => call_of s k lp = Some c)
          (draw_sequence regs) (draw_calls cmds) /\
  StronglySorted
    (fun a b : RenderLayer * nat => (draw_rank a.1 <= draw_rank b.1)%nat)
    (draw_sequence regs) /\
  (fun lp : RenderLayer * nat => (lp.2, lp.1)) <$> draw_sequence regs ≡ₚ regs.
Proof.
  intros Hreg Hd.
  split; [|split; [apply draw_sequence_sorted | apply draw_sequence_permutation]].
  assert (Hitems : forall l, layer_items s l = in_layer l regs).
  { intros l. unfold layer_items. rewrite Hreg, register_items.
    - destruct l; reflexivity.
    - apply length_replicate. }
  unfold Draw_commands in Hd. rewrite !Hitems in Hd.
  destruct (DrawRenderItems s k (in_layer Opaque regs)) as [c0|] eqn:E0;
    [|discriminate]. cbn in Hd.
  destruct (DrawRenderItems s k (in_layer AlphaTested regs)) as [c1|] eqn:E1;
    [|discriminate]. cbn in Hd.
  destruct (DrawRenderItems s k (in_layer AlphaTestedTreeSprites regs))
    as [c2|] eqn:E2; [|discriminate]. cbn in Hd.
  destruct (DrawRenderItems s k (in_layer Transparent regs)) as [c3|] eqn:E3;
    [|discriminate]. cbn in Hd.
  injection Hd as <-.
  destruct (DrawRenderItems_calls s k Opaque _ _ E0) as (k0 & F0 & S0).
  destruct (DrawRenderItems_calls s k AlphaTested _ _ E1) as (k1 & F1 & S1).
  destruct (DrawRenderItems_calls s k AlphaTestedTreeSprites _ _ E2)
    as (k2 & F2 & S2).
  destruct (DrawRenderItems_calls s k Transparent _ _ E3) as (k3 & F3 & S3).
  unfold draw_calls. cbn [draw_calls_from app Z.eqb Pos.eqb].
  destruct (S0 None (CmdSetPipelineState "alphaTested" :: c1
                     ++ CmdSetPipelineState "treeSprites" :: c2
                     ++ CmdSetPipelineState "transparent" :: c3
                     ++ [CmdResourceBarrier false; CmdClose])) as (o0 & R0).
  cbn [pso_of] in R0. rewrite R0. cbn [draw_calls_from].
  destruct (S1 o0 (CmdSetPipelineState "treeSprites" :: c2
                   ++ CmdSetPipelineState "transparent" :: c3
                   ++ [CmdResourceBarrier false; CmdClose])) as (o1 & R1).
  cbn [pso_of] in R1. rewrite R1. cbn [draw_calls_from].
  destruct (S2 o1 (CmdSetPipelineState "transparent" :: c3
                   ++ [CmdResourceBarrier false; CmdClose])) as (o2 & R2).
  cbn [pso_of] in R2. rewrite R2. cbn [draw_calls_from].
  destruct (S3 o2 [CmdResourceBarrier false; CmdClose]) as (o3 & R3).
  cbn [pso_of] in R3. rewrite R3. cbn [draw_calls_from]. rewrite app_nil_r.
  unfold draw_sequence. repeat apply Forall2_app; assumption.
Qed.

End DrawOrder.

(** ** The dynamic wave buffer *)

Section WaveBuffer.
Context {F W : Type} `{FloatOps F} `{WavesGrid F W}.
Import TreeBillboardsApp.
Implicit Type s : State F W.

(** A copy loop that fills the first [j] elements of a buffer. *)
Lemma foldl_CopyData_prefix {T : Type} (f : Z -> T) (j : nat) (vb : list T) :
  (j <= length vb)%nat ->
  foldl (fun vb i => CopyData i (f i) vb) vb (seqZ 0 (Z.of_nat j))
  = (f <$> seqZ 0 (Z.of_nat j)) ++ drop j vb.
Proof.
  induction j as [|j IH]; intros Hj.
  - cbn. rewrite drop_0. reflexivity.
  - rewrite seqZ_S, foldl_app, fmap_app. cbn [foldl fmap list_fmap].
    rewrite IH by lia. rewrite Z.add_0_l.
    unfold CopyData. destruct (Z.of_nat j <? 0) eqn:E;
      [apply Z.ltb_lt in E; lia|].
    rewrite Nat2Z.id.
    assert (Hlen : length (f <$> seqZ 0 (Z.of_nat j)) = j)
      by (rewrite length_fmap, length_seqZ; lia).
    rewrite insert_app_r_alt by lia. rewrite Hlen, Nat.sub_diag.
    destruct (drop j vb) as [|y rest] eqn:Ed.
    { apply (f_equal length) in Ed. rewrite length_drop in Ed. cbn in Ed. lia. }
    cbn. rewrite <- app_assoc. cbn. do 2 f_equal.
    assert (Hd : drop (S j) vb = drop 1 (drop j vb))
      by (rewrite drop_drop; f_equal; lia).
    rewrite Hd, Ed. reflexivity.
Qed.

(** The copy loop of [UpdateWaves] leaves the vertices of the wave state
    in a buffer of the right size. *)
Lemma copy_waves_all (w : W) (vb : list (Vertex.t F)) :
  length vb = Z.to_nat (VertexCount w) ->
  copy_waves w vb = wave_vertices w.
Proof.
  intros Hlen. unfold copy_waves, wave_vertices.
  destruct (Z_le_gt_dec 0 (VertexCount w)) as [Hn | Hn].
  - rewrite <- (Z2Nat.id (VertexCount w)) by exact Hn.
    rewrite foldl_CopyData_prefix by lia.
    rewrite drop_ge by lia. apply app_nil_r.
  - assert (Hnil : seqZ 0 (VertexCount w) = [])
      by (apply length_zero_iff_nil; rewrite length_seqZ; lia).
    rewrite Hnil. cbn. apply length_zero_iff_nil. lia.
Qed.

Lemma step_waves_count (i : FrameInput F) (wt : W * F) :
  VertexCount (step_waves i wt).1 = VertexCount wt.1.
Proof.
  unfold step_waves. cbn. rewrite waves_update_count.
  case_match; cbn; [apply waves_disturb_count | reflexivity].
Qed.

Lemma slot_after_S (index : Z) (n : nat) :
  0 <= index ->
  Z.rem (Z.of_nat (slot_after index n) + 1) gNumFrameResources
  = Z.of_nat (slot_after index (S n)).
Proof.
  unfold slot_after, gNumFrameResources. intros Hi.
  pose proof (Z.mod_pos_bound (index + Z.of_nat n) 3 ltac:(lia)).
  pose proof (Z.mod_pos_bound (index + Z.of_nat (S n)) 3 ltac:(lia)).
  rewrite !Z2Nat.id by lia. rewrite Z.rem_mod_nonneg by lia.
  rewrite Z.add_mod_idemp_l by lia. f_equal. lia.
Qed.

(** What one frame does to the waves. *)
Lemma frame_waves (i : FrameInput F) s g s' g' :
  waves_buffers_ok s ->
  frame i (s, g) = Some (s', g') ->
  (mWaves s', t_base s') = step_waves i (mWaves s, t_base s) /\
  active_wave_buffer s' = Some (UploadResource (next_slot s) WavesVBKind) /\
  (exists fr, mFrameResources s' !! next_slot s = Some fr /\
              FrameResource.WavesVB fr = wave_vertices (mWaves s')) /\
  waves_buffers_ok s'.
Proof.
  intros Hok Hf.
  destruct (frame_effect _ _ _ _ _ Hf)
    as (fr & w & r & p & ri & gn & geo & cmds & g1 & Efr & _ & _ & _ & Ep & Eri
        & Egn & Egeo & Rfrs & _ & _ & _ & Rheap & _ & _ & Rwr & _ & Rgeo & Rw
        & Rt & _).
  assert (Hlt : (next_slot s < length (mFrameResources s))%nat)
    by (apply lookup_lt_is_Some; eauto).
  assert (Hcount : VertexCount (mWaves s') = VertexCount (mWaves s))
    by (rewrite Rw; apply (step_waves_count i (mWaves s, t_base s))).
  assert (Hvb : copy_waves (step_waves i (mWaves s, t_base s)).1
                           (FrameResource.WavesVB fr)
                = wave_vertices (mWaves s')).
  { rewrite <- Rw. apply copy_waves_all. rewrite Hcount. eapply Hok. exact Efr. }
  split; [|split; [|split]].
  - rewrite Rw, Rt. destruct (step_waves i (mWaves s, t_base s)). reflexivity.
  - unfold active_wave_buffer, waves_geometry.
    rewrite Rwr, Ep. cbn. rewrite Rheap, Eri. cbn. rewrite Egn. cbn.
    rewrite Rgeo, lookup_insert_eq. reflexivity.
  - eexists. split.
    + rewrite Rfrs. apply list_lookup_insert_eq. exact Hlt.
    + exact Hvb.
  - intros k fr' Hfr'. rewrite Hcount. rewrite Rfrs in Hfr'.
    destruct (decide (k = next_slot s)) as [-> | Hk].
    + rewrite list_lookup_insert_eq in Hfr' by exact Hlt.
      injection Hfr' as <-.
      transitivity (length (wave_vertices (mWaves s')));
        [exact (f_equal length Hvb)|].
      unfold wave_vertices.
      rewrite length_fmap, length_seqZ, Hcount. reflexivity.
    + rewrite list_lookup_insert_ne in Hfr' by congruence.
      eapply Hok. exact Hfr'.
Qed.


Lemma slot_after_next s :
  0 <= mCurrFrameResourceIndex s < gNumFrameResources ->
  next_slot s = slot_after (mCurrFrameResourceIndex s) 1.
Proof.
  unfold next_slot, slot_after, gNumFrameResources. intros Hi.
  rewrite Z.rem_mod_nonneg by lia. reflexivity.
Qed.

Lemma slot_after_shift (index : Z) (n : nat) :
  0 <= index ->
  slot_after (Z.rem (index + 1) gNumFrameResources) n = slot_after index (S n).
Proof.
  unfold slot_after, gNumFrameResources. intros Hi.
  rewrite Z.rem_mod_nonneg by lia.
  rewrite Z.add_mod_idemp_l by lia. do 2 f_equal. lia.
Qed.

Lemma slot_after_round_robin (index : Z) (n : nat) :
  0 <= index ->
  slot_after index (S n) = ((slot_after index n + 1) mod 3)%nat /\
  (slot_after index n < 3)%nat.
Proof.
  unfold slot_after, gNumFrameResources. intros Hi.
  pose proof (Z.mod_pos_bound (index + Z.of_nat n) 3 ltac:(lia)) as Hb.
  split; [|lia].
  replace (index + Z.of_nat (S n)) with ((index + Z.of_nat n) + 1) by lia.
  rewrite <- Z.add_mod_idemp_l by lia.
  set (r := (index + Z.of_nat n) mod 3) in *.
  assert (Hr : r = 0 \/ r = 1 \/ r = 2) by lia.
  destruct Hr as [-> | [-> | ->]]; reflexivity.
Qed.

(** What a run of frames does to the waves. *)
Lemma run_waves (inputs : list (FrameInput F)) s g s' g' :
  0 <= mCurrFrameResourceIndex s < gNumFrameResources ->
  waves_buffers_ok s ->
  run inputs (s, g) = Some (s', g') ->
  (mWaves s', t_base s') = simulate inputs (mWaves s, t_base s) /\
  waves_buffers_ok s' /\
  (inputs <> [] ->
   let k := slot_after (mCurrFrameResourceIndex s) (length inputs) in
   mCurrFrameResourceIndex s' = Z.of_nat k /\
   mCurrFrameResource s' = Some k /\
   active_wave_buffer s' = Some (UploadResource k WavesVBKind) /\
   exists fr, mFrameResources s' !! k = Some fr /\
              FrameResource.WavesVB fr = wave_vertices (mWaves s')).
Proof.
  revert s g. induction inputs as [|i rest IH]; intros s g Hidx Hok Hrun.
  - cbn in Hrun. injection Hrun as <- <-.
    split; [reflexivity|]. split; [exact Hok|]. intros Hne. congruence.
  - cbn [run] in Hrun.
    destruct (frame i (s, g)) as [[s1 g1]|] eqn:Ef; [|discriminate].
    cbn in Hrun.
    destruct (frame_waves _ _ _ _ _ Hok Ef) as (Hw1 & Hact1 & Hvb1 & Hok1).
    destruct (frame_effect _ _ _ _ _ Ef)
      as (fr & w & r & p & ri & gn & geo & cmds & g1' & _ & _ & _ & _ & _ & _
          & _ & _ & _ & Rcur & Ridx & _).
    assert (Hidx1 : 0 <= mCurrFrameResourceIndex s1 < gNumFrameResources)
      by (rewrite Ridx; apply next_slot_bounds; exact Hidx).
    destruct (IH s1 g1 Hidx1 Hok1 Hrun) as (Hw & Hok' & Hlast).
    split; [|split; [exact Hok'|]].
    + rewrite Hw, Hw1. reflexivity.
    + intros _. cbn zeta. destruct rest as [|i2 rest'].
      * cbn in Hrun. injection Hrun as <- <-. cbn [length].
        rewrite <- slot_after_next by exact Hidx.
        repeat split; try assumption.
        rewrite Ridx. unfold next_slot.
        rewrite Z2Nat.id; [reflexivity|]. apply next_slot_bounds. exact Hidx.
      * specialize (Hlast ltac:(discriminate)). cbn zeta in Hlast.
        rewrite Ridx, slot_after_shift in Hlast by lia. exact Hlast.
Qed.

Lemma disturbance_schedule_length (inputs : list (FrameInput F)) base :
  length (disturbance_schedule inputs base) = length inputs.
Proof.
  revert base. induction inputs as [|i rest IH]; intros base; [reflexivity|].
  cbn [disturbance_schedule]. case_match; cbn [length]; rewrite IH; reflexivity.
Qed.

Lemma base_after_S (n : nat) (base : F) :
  base_after (S n) base = base_after n (fadd base (flit 0.25)).
Proof.
  unfold base_after.
  exact (Nat.iter_succ_r n (fun t => fadd t (flit 0.25)) base).
Qed.

(** The simulation of the frames is the integration along their
    disturbance schedule. *)
Lemma simulate_integrate (inputs : list (FrameInput F)) (w : W) base :
  simulate inputs (w, base)
  = (integrate (disturbance_schedule inputs base) w,
     base_after (disturbances (disturbance_schedule inputs base)) base).
Proof.
  revert w base. induction inputs as [|i rest IH]; intros w base;
    [reflexivity|].
  unfold simulate in *. cbn [foldl disturbance_schedule].
  unfold step_waves at 2. cbn [fst snd].
  destruct (fleb (flit 0.25) (fsub (TotalTime (gt i)) base)); cbn [fst snd].
  - rewrite IH. unfold disturbances. cbn [omap list_omap snd length].
    rewrite base_after_S. reflexivity.
  - rewrite IH. reflexivity.
Qed.

(** The [n]-th entry of the schedule, from the state and the time base
    the entries before it leave. *)
Lemma integrate_step (inputs : list (FrameInput F)) (w0 : W) base0 n i :
  inputs !! n = Some i ->
  let schedule := disturbance_schedule inputs base0 in
  let w := integrate (take n schedule) w0 in
  let base := base_after (disturbances (take n schedule)) base0 in
  if fleb (flit 0.25) (fsub (TotalTime (gt i)) base)
  then disturbances (take (S n) schedule) = S (disturbances (take n schedule))
       /\ integrate (take (S n) schedule) w0
          = Waves_Update (DeltaTime (gt i))
              (Disturb (Rand 4 (RowCount w - 5) (rand_i i))
                       (Rand 4 (ColumnCount w - 5) (rand_j i))
                       (RandF (flit 0.2) (flit 0.5) (rand_r i)) w)
  else disturbances (take (S n) schedule) = disturbances (take n schedule)
       /\ integrate (take (S n) schedule) w0
          = Waves_Update (DeltaTime (gt i)) w.
Proof.
  revert inputs w0 base0. induction n as [|n IH]; intros inputs w0 base0 Hi.
  - destruct inputs as [|i0 rest]; [discriminate|].
    cbn in Hi. injection Hi as ->. cbn zeta.
    cbn [disturbance_schedule]. rewrite take_0.
    change (base_after (disturbances []) base0) with base0.
    change (integrate [] w0) with w0.
    destruct (fleb (flit 0.25) (fsub (TotalTime (gt i)) base0));
      split; reflexivity.
  - destruct inputs as [|i0 rest]; [discriminate|].
    cbn [lookup list_lookup] in Hi. specialize (IH rest).
    cbn zeta. cbn [disturbance_schedule].
    destruct (fleb (flit 0.25) (fsub (TotalTime (gt i0)) base0)).
    + specialize (IH (integrate_once (DeltaTime (gt i0),
                                      Some (rand_i i0, rand_j i0, rand_r i0))
                                     w0)
                     (fadd base0 (flit 0.25)) Hi).
      cbn zeta in IH. rewrite !firstn_cons.
      unfold disturbances in *. cbn [omap list_omap snd length].
      rewrite base_after_S. unfold integrate in *. cbn [foldl].
      destruct (fleb _ _); destruct IH as [IH1 IH2];
        (split; [rewrite IH1; reflexivity | exact IH2]).
    + specialize (IH (integrate_once (DeltaTime (gt i0), None) w0) base0 Hi).
      cbn zeta in IH. rewrite !firstn_cons.
      unfold disturbances in *. cbn [omap list_omap snd length].
      unfold integrate in *. cbn [foldl]. exact IH.
Qed.

Lemma Rand_interior (n r : Z) :
  0 <= r -> 9 <= n -> 4 <= Rand 4 (n - 5) r <= n - 5.
Proof.
  intros Hr Hn. unfold Rand. rewrite Z.rem_mod_nonneg by lia.
  pose proof (Z.mod_pos_bound r (n - 5 - 4 + 1) ltac:(lia)). lia.
Qed.

(** C4.  Wave buffer rotation.  After [K >= 1] frames from ring index
    [index] the current ring slot is [(index + K) mod 3], so over
    consecutive frames the slots follow one another round-robin (from the
    initial index 0: 1, 2, 0, 1, ...), and the active vertex buffer of the
    wave geometry is the wave vertex buffer of that slot.  The wave state
    is the initial state integrated [K] times along the disturbance
    schedule of the frames: frame [n] finds the state and the time base
    its predecessors leave; when a quarter second has elapsed since the
    time base it disturbs the state at the cell its draws select, which
    lies at least four cells from the border of a grid of nine or more
    rows and columns, with a magnitude between 0.2 and 0.5, and moves the
    time base on by a quarter second; then it integrates once, by the
    time step of the frame.  The buffer of the current slot holds the
    vertices of that state, each with the texture coordinates
    [0.5 + x / width] and [0.5 - z / depth] of its position. *)
Theorem wave_buffer_rotation (inputs : list (FrameInput F)) s g s' g' :
  0 <= mCurrFrameResourceIndex s < gNumFrameResources ->
  waves_buffers_ok s ->
  inputs <> [] ->
  run inputs (s, g) = Some (s', g') ->
  let K := length inputs in
  let k := slot_after (mCurrFrameResourceIndex s) K in
  let schedule := disturbance_schedule inputs (t_base s) in
  mCurrFrameResource s' = Some k /\
  slot_after (mCurrFrameResourceIndex s) (S K) = ((k + 1) mod 3)%nat /\
  active_wave_buffer s' = Some (UploadResource k WavesVBKind) /\
  length schedule = K /\
  mWaves s' = integrate schedule (mWaves s) /\
  t_base s' = base_after (disturbances schedule) (t_base s) /\
  (forall n i, inputs !! n = Some i ->
     let w := integrate (take n schedule) (mWaves s) in
     let base := base_after (disturbances (take n schedule)) (t_base s) in
     if fleb (flit 0.25) (fsub (TotalTime (gt i)) base)
     then disturbances (take (S n) schedule)
          = S (disturbances (take n schedule)) /\
          integrate (take (S n) schedule) (mWaves s)
          = Waves_Update (DeltaTime (gt i))
              (Disturb (Rand 4 (RowCount w - 5) (rand_i i))
                       (Rand 4 (ColumnCount w - 5) (rand_j i))
                       (RandF (flit 0.2) (flit 0.5) (rand_r i)) w) /\
          (0 <= rand_i i -> 9 <= RowCount w ->
           4 <= Rand 4 (RowCount w - 5) (rand_i i) <= RowCount w - 5) /\
          (0 <= rand_j i -> 9 <= ColumnCount w ->
           4 <= Rand 4 (ColumnCount w - 5) (rand_j i) <= ColumnCount w - 5)
     else disturbances (take (S n) schedule)
          = disturbances (take n schedule) /\
          integrate (take (S n) schedule) (mWaves s)
          = Waves_Update (DeltaTime (gt i)) w) /\
  (exists fr,
     mFrameResources s' !! k = Some fr /\
     FrameResource.WavesVB fr = wave_vertices (integrate schedule (mWaves s)) /\
     length (FrameResource.WavesVB fr) = Z.to_nat (VertexCount (mWaves s')) /\
     forall j v, FrameResource.WavesVB fr !! j = Some v ->
       let w := integrate schedule (mWaves s) in
       Vertex.Pos v = Position w (Z.of_nat j) /\
       Vertex.Normal v = Normal w (Z.of_nat j) /\
       x2 (Vertex.TexC v)
         = fadd (flit 0.5) (fdiv (x3 (Vertex.Pos v)) (Width w)) /\
       y2 (Vertex.TexC v)
         = fsub (flit 0.5) (fdiv (z3 (Vertex.Pos v)) (Depth w))).
Proof.
  intros Hidx Hok Hne Hrun K k schedule.
  destruct (run_waves _ _ _ _ _ Hidx Hok Hrun) as (Hw & Hok' & Hlast).
  destruct (Hlast Hne) as (Ri & Rc & Ra & fr & Efr & Evb).
  rewrite simulate_integrate in Hw. injection Hw as Hw Ht.
  fold schedule in Hw, Ht.
  split; [exact Rc|]. split; [apply slot_after_round_robin; lia|].
  split; [exact Ra|].
  split; [apply disturbance_schedule_length|].
  split; [exact Hw|]. split; [exact Ht|]. split.
  - intros n i Hi. cbn zeta.
    pose proof (integrate_step inputs (mWaves s) (t_base s) n i Hi) as Hstep.
    cbn zeta in Hstep. fold schedule in Hstep.
    destruct (fleb _ _); [|exact Hstep].
    destruct Hstep as [Hd Hint].
    split; [exact Hd|]. split; [exact Hint|].
    split; intros; apply Rand_interior; assumption.
  - exists fr. split; [exact Efr|]. rewrite <- Hw.
    split; [exact Evb|]. split.
    + rewrite Evb. unfold wave_vertices. rewrite length_fmap, length_seqZ.
      reflexivity.
    + intros j v Hv. rewrite Evb in Hv. unfold wave_vertices in Hv.
      rewrite list_lookup_fmap in Hv.
      destruct (seqZ 0 (VertexCount (mWaves s')) !! j) as [z|] eqn:Ez;
        [|discriminate].
      apply lookup_seqZ in Ez as [-> _]. cbn in Hv. injection Hv as <-.
      rewrite Z.add_0_l. repeat split.
Qed.

(** C7.  The per-frame rebuild of the wave vertices.  [UpdateWaves]
    writes every wave vertex into the wave vertex buffer of the current
    frame resource and points the vertex buffer of the wave geometry at
    that buffer; the index buffer, the index format, the vertex stride and
    the submesh table of the geometry are what they were, and so are the
    other geometries, the other buffers of the frame resource and the
    other frame resources. *)
Theorem waves_rebuild_vertices_only (i : FrameInput F) s s' k :
  waves_buffers_ok s ->
  mCurrFrameResource s = Some k ->
  UpdateWaves i s = Some s' ->
  exists p ri gn geo geo' fr fr',
    mWavesRitem s = Some p /\ heap s !! p = Some ri /\
    RenderItem.Geo ri = Some gn /\
    mGeometries s !! gn = Some geo /\ mGeometries s' !! gn = Some geo' /\
    VertexBufferGPU geo' = Some (UploadResource k WavesVBKind) /\
    IndexBufferCPU geo' = IndexBufferCPU geo /\
    IndexBufferGPU geo' = IndexBufferGPU geo /\
    IndexFormat geo' = IndexFormat geo /\
    IndexBufferByteSize geo' = IndexBufferByteSize geo /\
    VertexByteStride geo' = VertexByteStride geo /\
    VertexBufferByteSize geo' = VertexBufferByteSize geo /\
    VertexBufferCPU geo' = VertexBufferCPU geo /\
    DrawArgs geo' = DrawArgs geo /\
    (forall g2, g2 <> gn -> mGeometries s' !! g2 = mGeometries s !! g2) /\
    mFrameResources s !! k = Some fr /\ mFrameResources s' !! k = Some fr' /\
    FrameResource.WavesVB fr' = wave_vertices (mWaves s') /\
    FrameResource.ObjectCB fr' = FrameResource.ObjectCB fr /\
    FrameResource.MaterialCB fr' = FrameResource.MaterialCB fr /\
    FrameResource.CmdListAlloc fr' = FrameResource.CmdListAlloc fr /\
    FrameResource.Fence fr' = FrameResource.Fence fr /\
    (forall j, j <> k -> mFrameResources s' !! j = mFrameResources s !! j) /\
    heap s' = heap s /\ mMaterials s' = mMaterials s /\
    mAllRitems s' = mAllRitems s /\ mRitemLayer s' = mRitemLayer s.
Proof.
  intros Hok Hk Hu.
  destruct (UpdateWaves_inv _ _ _ Hu)
    as (k' & fr & p & ri & gn & geo & Ek & Efr & Ep & Eri & Egn & Egeo & ->).
  assert (k' = k) by congruence. subst k'.
  assert (Hlt : (k < length (mFrameResources s))%nat)
    by (apply lookup_lt_is_Some; eauto).
  exists p, ri, gn, geo,
    (set_VertexBufferGPU (Some (UploadResource k WavesVBKind)) geo), fr,
    (FrameResource.set_WavesVB
       (copy_waves (step_waves i (mWaves s, t_base s)).1
                   (FrameResource.WavesVB fr)) fr).
  repeat split; try assumption; try reflexivity.
  - apply lookup_insert_eq.
  - intros g2 Hg2. apply lookup_insert_ne. congruence.
  - apply list_lookup_insert_eq. exact Hlt.
  - apply (copy_waves_all (step_waves i (mWaves s, t_base s)).1).
    rewrite (step_waves_count i (mWaves s, t_base s)). eapply Hok. exact Efr.
  - intros j Hj. apply list_lookup_insert_ne. congruence.
Qed.

End WaveBuffer.

(** ** Descriptor-heap indices *)

Section Descriptors.
Context {F : Type} `{FloatOps F} `{FloatLib F}.
Import MyCastleApp.

Lemma INT_UINT_small (x : Z) : 0 <= x < 2 ^ 31 -> INT (UINT x) = x.
Proof.
  intros Hx. unfold INT, UINT.
  rewrite (Z.mod_small x) by lia. rewrite Z.mod_small by lia. lia.
Qed.

Lemma INT_small (x : Z) : 0 <= x < 2 ^ 31 -> INT x = x.
Proof. intros Hx. unfold INT. rewrite Z.mod_small by lia. lia. Qed.

Lemma UINT_small (x : Z) : 0 <= x < 2 ^ 32 -> UINT x = x.
Proof. intros Hx. unfold UINT. apply Z.mod_small. lia. Qed.

Lemma CreateConstantBufferView_length d i (h : list (option CBV)) :
  length (CreateConstantBufferView d i h) = length h.
Proof.
  unfold CreateConstantBufferView. case_match; [reflexivity|].
  apply length_insert.
Qed.

(** The views the inner loop of [BuildConstantBufferViews] creates for
    frame resource [f]: objects [0 .. m) at [f * n + i]. *)
Lemma object_views_of_frame (f n : Z) (m : nat) (h : list (option CBV)) :
  0 <= f -> 0 <= n -> f * n + n < 2 ^ 31 -> Z.of_nat m <= n ->
  (Z.to_nat (f * n + n) <= length h)%nat ->
  let h' :=
    foldl (fun cbvHeap i =>
             CreateConstantBufferView (object_cbv f i)
               (INT (UINT (f * n + i))) cbvHeap)
          h (seqZ 0 (Z.of_nat m)) in
  length h' = length h /\
  forall j : nat,
    h' !! j = if decide (f * n <= Z.of_nat j < f * n + Z.of_nat m)
              then Some (Some (object_cbv f (Z.of_nat j - f * n)))
              else h !! j.
Proof.
  intros Hf Hn Hsmall Hm Hlen. induction m as [|m IH].
  - cbn. split; [reflexivity|]. intros j. case_decide; [lia|reflexivity].
  - cbn zeta in *. rewrite seqZ_S, foldl_app. cbn [foldl].
    destruct (IH ltac:(lia)) as [IHlen IHj]. rewrite Z.add_0_l.
    rewrite INT_UINT_small by nia.
    split; [rewrite CreateConstantBufferView_length; exact IHlen|].
    intros j. unfold CreateConstantBufferView at 1.
    destruct (f * n + Z.of_nat m <? 0) eqn:E; [apply Z.ltb_lt in E; nia|].
    rewrite list_lookup_insert, IHlen.
    destruct (decide (Z.to_nat (f * n + Z.of_nat m) = j
                      /\ (Z.to_nat (f * n + Z.of_nat m) < length h)%nat))
      as [[<- _]|Hne].
    + rewrite decide_True by lia. do 3 f_equal. lia.
    + rewrite IHj. repeat case_decide; try reflexivity; try lia.
Qed.

(** The views the object loops of [BuildConstantBufferViews] create for
    the first [k] frame resources. *)
Lemma object_views (n : Z) (k : nat) (h : list (option CBV)) :
  0 <= n -> Z.of_nat k * n < 2 ^ 31 ->
  (Z.to_nat (Z.of_nat k * n) <= length h)%nat ->
  let h' :=
    foldl (fun cbvHeap frameIndex =>
             foldl (fun cbvHeap i =>
                      CreateConstantBufferView (object_cbv frameIndex i)
                        (INT (UINT (frameIndex * n + i))) cbvHeap)
                   cbvHeap (seqZ 0 n))
          h (seqZ 0 (Z.of_nat k)) in
  length h' = length h /\
  (forall f i, 0 <= f < Z.of_nat k -> 0 <= i < n ->
     h' !! Z.to_nat (f * n + i) = Some (Some (object_cbv f i))) /\
  (forall j : nat, Z.of_nat k * n <= Z.of_nat j -> h' !! j = h !! j).
Proof.
  intros Hn. induction k as [|k IH]; intros Hsmall Hlen.
  - cbn. split; [reflexivity|]. split; [lia|reflexivity].
  - cbn zeta in *. rewrite seqZ_S, foldl_app. cbn [foldl].
    rewrite Z.add_0_l.
    destruct (IH ltac:(nia) ltac:(nia)) as (IHlen & IHin & IHout).
    set (h1 := foldl _ h (seqZ 0 (Z.of_nat k))) in *.
    assert (Hm := object_views_of_frame (Z.of_nat k) n (Z.to_nat n) h1).
    rewrite Z2Nat.id in Hm by lia.
    destruct (Hm ltac:(lia) Hn ltac:(nia) ltac:(lia)
                 ltac:(rewrite IHlen; nia)) as [Hlen' Hj].
    split; [lia|]. split.
    + intros f i Hf Hi. rewrite Hj.
      destruct (decide (f = Z.of_nat k)) as [->|Hne].
      * rewrite decide_True by lia. do 3 f_equal. lia.
      * rewrite decide_False by nia. apply IHin; lia.
    + intros j Hjk. rewrite Hj. rewrite decide_False by nia.
      apply IHout. nia.
Qed.

(** The pass views are created behind the object views. *)
Lemma pass_views_above (off : Z) (k : nat) (h : list (option CBV)) (j : nat) :
  0 <= off -> off + Z.of_nat k < 2 ^ 31 -> Z.of_nat j < off ->
  foldl (fun cbvHeap frameIndex =>
           CreateConstantBufferView (pass_cbv frameIndex)
             (INT (UINT (off + frameIndex))) cbvHeap)
        h (seqZ 0 (Z.of_nat k)) !! j = h !! j.
Proof.
  intros Hoff Hsmall Hj. induction k as [|k IH]; [reflexivity|].
  rewrite seqZ_S, foldl_app. cbn [foldl]. rewrite Z.add_0_l.
  rewrite INT_UINT_small by lia. unfold CreateConstantBufferView at 1.
  destruct (off + Z.of_nat k <? 0) eqn:E; [apply Z.ltb_lt in E; lia|].
  rewrite list_lookup_insert_ne by lia. apply IH. lia.
Qed.

(** A pair of a frame and an object has a heap index of its own. *)
Lemma heap_index_injective (n f i f' i' : Z) :
  0 <= i < n -> 0 <= i' < n -> f * n + i = f' * n + i' -> f = f' /\ i = i'.
Proof.
  intros Hi Hi' He.
  assert (f = f') as ->.
  { destruct (Z.lt_trichotomy f f') as [Hlt | [Heq | Hgt]]; [|exact Heq|].
    - assert ((f + 1) * n <= f' * n) by nia. lia.
    - assert ((f' + 1) * n <= f * n) by nia. lia. }
  split; [reflexivity | lia].
Qed.

Lemma objCBByteSize_256 : objCBByteSize = 256.
Proof. reflexivity. Qed.

(** What [BuildConstantBufferViews] leaves in a heap made by
    [BuildDescriptorHeaps]. *)
Lemma BuildConstantBufferViews_spec (s0 : State F) :
  let n := Z.of_nat (length (mOpaqueRitems s0)) in
  n * objCBByteSize < 2 ^ 32 ->
  (3 <= length (mFrameResources s0))%nat ->
  exists s1,
    BuildConstantBufferViews (BuildDescriptorHeaps s0) = Some s1 /\
    mOpaqueRitems s1 = mOpaqueRitems s0 /\
    length (mCbvHeap s1) = Z.to_nat ((n + 1) * gNumFrameResources) /\
    forall f i, 0 <= f < gNumFrameResources -> 0 <= i < n ->
      mCbvHeap s1 !! Z.to_nat (f * n + i) = Some (Some (object_cbv f i)).
Proof.
  intros n Hsmall Hfr. rewrite objCBByteSize_256 in Hsmall.
  unfold BuildConstantBufferViews, BuildDescriptorHeaps, gNumFrameResources.
  cbn [mFrameResources mOpaqueRitems mCbvHeap mPassCbvOffset set_mCbvHeap].
  fold n. rewrite (UINT_small n) by lia.
  rewrite (UINT_small ((n + 1) * 3)), (UINT_small (n * 3)) by lia.
  destruct (Z.of_nat (length (mFrameResources s0)) <? 3) eqn:E;
    [apply Z.ltb_lt in E; lia|].
  eexists. split; [reflexivity|].
  cbn [mOpaqueRitems mCbvHeap set_mCbvHeap].
  split; [reflexivity|].
  set (h0 := replicate (Z.to_nat ((n + 1) * 3)) (@None CBV)).
  assert (Hh0 : length h0 = Z.to_nat ((n + 1) * 3))
    by (unfold h0; apply length_replicate).
  destruct (object_views n 3 h0 ltac:(lia) ltac:(lia) ltac:(lia))
    as (Hlen & Hin & _).
  change (Z.of_nat 3) with 3 in *. cbn zeta in Hlen, Hin.
  set (h1 := foldl _ h0 (seqZ 0 3)) in *.
  split.
  - transitivity (length h1); [|lia].
    clear. generalize h1. generalize (seqZ 0 3).
    induction l as [|x l IH]; intros h; [reflexivity|].
    cbn [foldl]. rewrite IH. apply CreateConstantBufferView_length.
  - intros f i Hf Hi.
    assert (Hbelow : Z.of_nat (Z.to_nat (f * n + i)) < n * 3) by nia.
    pose proof (pass_views_above (n * 3) 3 h1 _ ltac:(lia) ltac:(lia) Hbelow)
      as Hpass.
    change (Z.of_nat 3) with 3 in Hpass. rewrite Hpass. apply Hin; lia.
Qed.

(** C8.  The descriptor of the object constants of a draw.  In the castle
    application [BuildConstantBufferViews] creates the view of object [i]
    of frame resource [f] at heap index [f * n + i], [n] the number of
    render items, and different pairs get different indices;
    [DrawRenderItems] binds, for a render item, the descriptor at
    [mCurrFrameResourceIndex * n + ObjCBIndex], where the view created
    at startup is that of the object constants of this item in the
    current frame resource.  In the tree-billboards application the object
    constants are bound by address: that of element [ObjCBIndex] of the
    object constant buffer of the frame resource drawn from. *)
Theorem descriptor_index_matches_view (s0 : State F) :
  let n := Z.of_nat (length (mOpaqueRitems s0)) in
  n * objCBByteSize < 2 ^ 32 ->
  (3 <= length (mFrameResources s0))%nat ->
  (exists s1,
    BuildConstantBufferViews (BuildDescriptorHeaps s0) = Some s1 /\
    (forall f i, 0 <= f < gNumFrameResources -> 0 <= i < n ->
       mCbvHeap s1 !! Z.to_nat (f * n + i) = Some (Some (object_cbv f i))) /\
    (forall f i f' i', 0 <= f -> 0 <= f' -> 0 <= i < n -> 0 <= i' < n ->
       f * n + i = f' * n + i' -> f = f' /\ i = i') /\
    forall (sd : State F) p ri cmds,
      mCbvHeap sd = mCbvHeap s1 ->
      mOpaqueRitems sd = mOpaqueRitems s0 ->
      0 <= mCurrFrameResourceIndex sd < gNumFrameResources ->
      heap sd !! p = Some ri ->
      0 <= RenderItem.ObjCBIndex ri < n ->
      draw_item sd p = Some cmds ->
      let k := mCurrFrameResourceIndex sd in
      let h := k * n + RenderItem.ObjCBIndex ri in
      descriptor_tables 0 cmds = [h] /\
      mCbvHeap sd !! Z.to_nat h
        = Some (Some (mkCBV (mkGpuAddress
                               (UploadResource (Z.to_nat k) ObjectCBKind)
                               (RenderItem.ObjCBIndex ri * objCBByteSize))
                            objCBByteSize))) /\
  (forall (W : Type) (s : TreeBillboardsApp.State F W) k p ri cmds,
     TreeBillboardsApp.heap s !! p = Some ri ->
     0 <= TreeBillboardsApp.RenderItem.ObjCBIndex ri
          * TreeBillboardsApp.objCBByteSize < 2 ^ 32 ->
     TreeBillboardsApp.draw_item s k p = Some cmds ->
     root_views 1 cmds
       = [mkGpuAddress (UploadResource k ObjectCBKind)
            (TreeBillboardsApp.RenderItem.ObjCBIndex ri
             * TreeBillboardsApp.objCBByteSize)]).
Proof.
  intros n Hsmall Hfr. split.
  - destruct (BuildConstantBufferViews_spec s0 Hsmall Hfr)
      as (s1 & Hb & _ & _ & Hviews).
    fold n in Hviews. exists s1. split; [exact Hb|]. split; [exact Hviews|].
    split; [intros; eapply heap_index_injective; eassumption|].
    intros sd p ri cmds Hheap Hopq Hidx Hri Hobj Hdraw k h.
    rewrite objCBByteSize_256 in *. unfold gNumFrameResources in *.
    unfold draw_item in Hdraw. rewrite Hri in Hdraw. cbn in Hdraw.
    destruct (RenderItem.Geo ri) as [gname|]; [|discriminate]. cbn in Hdraw.
    destruct (mGeometries sd !! gname) as [geo|]; [|discriminate].
    cbn in Hdraw. injection Hdraw as <-.
    assert (Hcbv : cbvIndex sd ri = h).
    { unfold cbvIndex. rewrite Hopq. fold n. fold k.
      rewrite (UINT_small k), (UINT_small n) by lia.
      apply UINT_small. subst h. nia. }
    split.
    + cbn. rewrite Hcbv. rewrite INT_small by (subst h; nia). reflexivity.
    + rewrite Hheap. subst h. rewrite Hviews by (unfold gNumFrameResources; lia).
      unfold object_cbv. rewrite objCBByteSize_256.
      rewrite UINT_small by lia. reflexivity.
  - intros W s k p ri cmds Hri Hsm Hdraw.
    unfold TreeBillboardsApp.draw_item in Hdraw. rewrite Hri in Hdraw.
    cbn in Hdraw.
    destruct (TreeBillboardsApp.RenderItem.Geo ri) as [gname|]; [|discriminate].
    cbn in Hdraw.
    destruct (TreeBillboardsApp.mGeometries s !! gname) as [geo|];
      [|discriminate].
    cbn in Hdraw.
    destruct (TreeBillboardsApp.RenderItem.Mat ri) as [m|]; [|discriminate].
    cbn in Hdraw.
    destruct (TreeBillboardsApp.mMaterials s !! m) as [mat|]; [|discriminate].
    cbn in Hdraw. injection Hdraw as <-. cbn.
    rewrite UINT_small by exact Hsm. reflexivity.
Qed.

End Descriptors.

(** ** Submesh ranges *)

Section Submesh.
Context {F W : Type} `{FloatOps F} `{FloatLib F} `{WavesGrid F W}.

Lemma uint16_t_le (x : Z) : 0 <= x -> 0 <= uint16_t x <= x.
Proof.
  intros Hx. unfold uint16_t.
  pose proof (Z.mod_pos_bound x (2 ^ 16) ltac:(lia)).
  pose proof (Z.mod_le x (2 ^ 16) Hx ltac:(lia)). lia.
Qed.

(** The 16-bit indices of a well-formed mesh refer to its vertices. *)
Lemma GetIndices16_in_range (m : GeometryGenerator.MeshData F) :
  GeometryGenerator.well_formed m ->
  Forall (fun idx => 0 <= idx
                     < Z.of_nat (length (GeometryGenerator.Vertices m)))
         (GeometryGenerator.GetIndices16 m).
Proof.
  unfold GeometryGenerator.well_formed, GeometryGenerator.GetIndices16.
  intros Hwf. rewrite Forall_map. eapply Forall_impl; [exact Hwf|].
  intros x Hx. cbn beta in Hx.
  assert (Hx0 : 0 <= x) by lia. pose proof (uint16_t_le x Hx0). lia.
Qed.

(** A submesh that covers the segment [seg] of the index buffer, whose
    indices stay below [nv], with [nv] vertices behind its base vertex. *)
Lemma segment_valid {V : Type} (geo : MeshGeometry V)
    (pre seg post : list Z) (sm : SubmeshGeometry) (nv : Z) :
  indices_of geo = pre ++ seg ++ post ->
  index_count geo = Z.of_nat (length (indices_of geo)) ->
  Forall (fun idx => 0 <= idx < nv) seg ->
  StartIndexLocation sm = Z.of_nat (length pre) ->
  IndexCount sm = Z.of_nat (length seg) ->
  0 <= BaseVertexLocation sm ->
  BaseVertexLocation sm + nv <= vertex_count geo ->
  submesh_valid geo sm.
Proof.
  intros Hind Hcount Hseg Hstart Hic Hbase Hnv.
  unfold submesh_valid. rewrite Hcount, Hind, Hstart, Hic.
  rewrite !length_app. repeat split; try lia.
  intros j Hj.
  destruct (lookup_lt_is_Some_2 seg (Z.to_nat j - length pre))
    as [idx Hidx]; [lia|].
  exists idx. split.
  - rewrite lookup_app_r by lia. rewrite lookup_app_l by lia. exact Hidx.
  - pose proof (Forall_lookup_1 _ _ _ _ Hseg Hidx) as Hr. cbn in Hr. lia.
Qed.

Lemma byte_size_count {T : Type} (v : list T) (sizeof : Z) :
  0 < sizeof -> Z.of_nat (length v) * sizeof < 2 ^ 32 ->
  byte_size v sizeof / sizeof = Z.of_nat (length v).
Proof.
  intros Hs Hfit. unfold byte_size.
  rewrite (UINT_small (Z.of_nat (length v))) by nia.
  rewrite UINT_small by nia. apply Z.div_mul. lia.
Qed.

(** Splits a lookup in a submesh table into the entries of the table. *)
Ltac table_cases H :=
  repeat (apply lookup_insert_Some in H as [[<- <-] | [_ H]]);
  [.. | rewrite lookup_empty in H; discriminate H].

(** An entry of a submesh table is there. *)
Ltac table_entry :=
  repeat (rewrite lookup_insert_ne by discriminate);
  rewrite lookup_insert_eq; eexists; reflexivity.

(** Closes the equation between a concatenation and its segments. *)
Ltac segments := cbn [app]; rewrite <- ?app_assoc, ?app_nil_r; reflexivity.

(** Removes the conversions of values that fit. *)
Ltac no_wrap :=
  repeat match goal with
         | |- context [UINT ?x] => rewrite (UINT_small x) by lia
         | |- context [INT ?x] => rewrite (INT_small x) by lia
         end.

(** Sizes of concatenated buffers. *)
Ltac sizes :=
  cbn [StartIndexLocation IndexCount BaseVertexLocation submesh];
  unfold nIndices, nVertices, GeometryGenerator.GetIndices16,
    MyCastleApp.paint;
  rewrite ?length_app, ?length_map, ?length_imap; cbn [length];
  no_wrap; try lia.

(** Finds the segment of the index buffer a submesh of a concatenated
    geometry covers. *)
Ltac seg_search geo Hic pre l :=
  lazymatch l with
  | ?a ++ ?rest =>
      first [ solve [ eapply (segment_valid geo pre a rest);
                      [segments | exact Hic | eassumption | sizes ..] ]
            | seg_search geo Hic (pre ++ a) rest ]
  | ?a =>
      solve [ eapply (segment_valid geo pre a []);
              [segments | exact Hic | eassumption | sizes ..] ]
  end.
Ltac find_segment geo Hic :=
  let l := eval cbv [geo indices_of TreeBillboardsApp.static_geometry
                     IndexBufferCPU from_option id] in (indices_of geo) in
  seg_search geo Hic (@nil Z) l.

Lemma BuildBoxGeometry_valid (inp : TreeBillboardsApp.InitInput F W)
    (s : TreeBillboardsApp.State F W) :
  Forall GeometryGenerator.well_formed
         (box_meshes (TreeBillboardsApp.meshes inp)) ->
  buffers_fit (box_meshes (TreeBillboardsApp.meshes inp))
              TreeBillboardsApp.Vertex.sizeof ->
  exists geo,
    TreeBillboardsApp.mGeometries (TreeBillboardsApp.BuildBoxGeometry inp s)
      !! "boxGeo" = Some geo /\
    geometry_valid geo /\
    Forall (fun name => is_Some (DrawArgs geo !! name))
      ["box"; "sphere"; "cylinder"; "cone"; "Pyramid_flat_head";
       "Pyramid_pointed_head"; "wedge"; "pointed_cylinder"] /\
    vertex_count geo = vertices_in (box_meshes (TreeBillboardsApp.meshes inp)).
Proof.
  intros Hwf [Hv Hi].
  unfold TreeBillboardsApp.BuildBoxGeometry.
  cbn [TreeBillboardsApp.mGeometries TreeBillboardsApp.set_mGeometries].
  rewrite lookup_insert_eq. eexists. split; [reflexivity|].
  unfold box_meshes, vertices_in, indices_in in *. cbn [foldr] in *.
  unfold TreeBillboardsApp.Vertex.sizeof in *.
  repeat (apply Forall_cons_1 in Hwf as [?%GetIndices16_in_range Hwf]).
  clear Hwf.
  set (m := TreeBillboardsApp.meshes inp) in *.
  set (geo := TreeBillboardsApp.static_geometry _ _ _ _ _ _).
  assert (Hic : index_count geo = Z.of_nat (length (indices_of geo))).
  { unfold index_count, geo, TreeBillboardsApp.static_geometry.
    unfold indices_of. cbn [IndexBufferByteSize IndexBufferCPU from_option id].
    apply byte_size_count; [lia|]. sizes. }
  assert (Hvc : vertex_count geo
                = vertices_in (box_meshes m)).
  { unfold vertex_count, geo, TreeBillboardsApp.static_geometry.
    cbn [VertexBufferByteSize VertexByteStride].
    rewrite byte_size_count by (sizes).
    unfold box_meshes, vertices_in. cbn [foldr]. sizes. }
  pose proof Hvc as Hcount.
  unfold box_meshes, vertices_in in Hvc. cbn [foldr] in Hvc.
  split; [|split; [|exact Hcount]].
  - split; [exact Hic|]. intros name sm Hsm.
    unfold geo, TreeBillboardsApp.static_geometry in Hsm.
    cbn [DrawArgs] in Hsm. table_cases Hsm.
    all: find_segment geo Hic.
  - unfold geo, TreeBillboardsApp.static_geometry. cbn [DrawArgs].
    repeat (apply Forall_cons_2 || apply Forall_nil_2); table_entry.
Qed.

Lemma BuildShapeGeometry_valid (m : GeneratedMeshes F)
    (s : MyCastleApp.State F) :
  Forall GeometryGenerator.well_formed (castle_meshes m) ->
  buffers_fit (castle_meshes m) MyCastleApp.Vertex.sizeof ->
  exists geo,
    MyCastleApp.mGeometries (MyCastleApp.BuildShapeGeometry m s)
      !! "shapeGeo" = Some geo /\
    geometry_valid geo /\
    Forall (fun name => is_Some (DrawArgs geo !! name))
      ["box"; "grid"; "sphere"; "cylinder"; "cone"; "Pyramid_flat_head";
       "Pyramid_pointed_head"; "wedge"; "pointed_cylinder"; "gate"] /\
    vertex_count geo = vertices_in (castle_meshes m).
Proof.
  intros Hwf [Hv Hi].
  unfold MyCastleApp.BuildShapeGeometry.
  cbn [MyCastleApp.mGeometries MyCastleApp.set_mGeometries].
  rewrite lookup_insert_eq. eexists. split; [reflexivity|].
  unfold castle_meshes, vertices_in, indices_in in *. cbn [foldr] in *.
  unfold MyCastleApp.Vertex.sizeof in *.
  repeat (apply Forall_cons_1 in Hwf as [?%GetIndices16_in_range Hwf]).
  clear Hwf.
  set (geo := mkMeshGeometry _ _ _ _ _ _ _ _ _ _).
  assert (Hic : index_count geo = Z.of_nat (length (indices_of geo))).
  { unfold index_count, geo.
    unfold indices_of. cbn [IndexBufferByteSize IndexBufferCPU from_option id].
    apply byte_size_count; [lia|]. sizes. }
  assert (Hvc : vertex_count geo = vertices_in (castle_meshes m)).
  { unfold vertex_count, geo.
    cbn [VertexBufferByteSize VertexByteStride].
    unfold MyCastleApp.Vertex.sizeof.
    rewrite byte_size_count by (sizes).
    unfold castle_meshes, vertices_in. cbn [foldr]. sizes. }
  pose proof Hvc as Hcount.
  unfold castle_meshes, vertices_in in Hvc. cbn [foldr] in Hvc.
  split; [|split; [|exact Hcount]].
  - split; [exact Hic|]. intros name sm Hsm.
    unfold geo in Hsm. cbn [DrawArgs] in Hsm. table_cases Hsm.
    all: find_segment geo Hic.
  - unfold geo. cbn [DrawArgs].
    repeat (apply Forall_cons_2 || apply Forall_nil_2); table_entry.
Qed.

(** A submesh that covers the whole index buffer, from base vertex 0. *)
Lemma whole_valid {V : Type} (geo : MeshGeometry V) :
  index_count geo = Z.of_nat (length (indices_of geo)) ->
  index_count geo < 2 ^ 32 ->
  Forall (fun idx => 0 <= idx < vertex_count geo) (indices_of geo) ->
  submesh_valid geo
    (submesh (UINT (Z.of_nat (length (indices_of geo)))) 0 0).
Proof.
  intros Hic Hfit Hall.
  eapply (segment_valid geo [] (indices_of geo) []);
    [segments | exact Hic | exact Hall | sizes ..].
Qed.

Lemma BuildLandGeometry_valid (inp : TreeBillboardsApp.InitInput F W)
    (s : TreeBillboardsApp.State F W) :
  GeometryGenerator.well_formed (grid (TreeBillboardsApp.meshes inp)) ->
  buffers_fit [grid (TreeBillboardsApp.meshes inp)]
              TreeBillboardsApp.Vertex.sizeof ->
  exists geo,
    TreeBillboardsApp.mGeometries (TreeBillboardsApp.BuildLandGeometry inp s)
      !! "landGeo" = Some geo /\
    geometry_valid geo /\ is_Some (DrawArgs geo !! "grid") /\
    vertex_count geo = vertices_in [grid (TreeBillboardsApp.meshes inp)].
Proof.
  intros Hwf%GetIndices16_in_range [Hv Hi].
  unfold TreeBillboardsApp.BuildLandGeometry.
  cbn [TreeBillboardsApp.mGeometries TreeBillboardsApp.set_mGeometries].
  rewrite lookup_insert_eq. eexists. split; [reflexivity|].
  unfold vertices_in, indices_in in *. cbn [foldr] in *.
  unfold TreeBillboardsApp.Vertex.sizeof in *.
  set (m := TreeBillboardsApp.meshes inp) in *.
  set (geo := TreeBillboardsApp.static_geometry _ _ _ _ _ _).
  assert (Hic : index_count geo = Z.of_nat (length (indices_of geo))).
  { unfold index_count, geo, TreeBillboardsApp.static_geometry.
    unfold indices_of. cbn [IndexBufferByteSize IndexBufferCPU from_option id].
    apply byte_size_count; [lia|]. sizes. }
  assert (Hvc : vertex_count geo
                = Z.of_nat (length (GeometryGenerator.Vertices (grid m)))).
  { unfold vertex_count, geo, TreeBillboardsApp.static_geometry.
    cbn [VertexBufferByteSize VertexByteStride].
    rewrite byte_size_count by (sizes). sizes. }
  split; [|split; [unfold geo, TreeBillboardsApp.static_geometry;
                   cbn [DrawArgs]; table_entry
                  | rewrite Hvc; unfold vertices_in; cbn [foldr]; lia]].
  split; [exact Hic|]. intros name sm Hsm.
  unfold geo, TreeBillboardsApp.static_geometry in Hsm.
  cbn [DrawArgs] in Hsm. table_cases Hsm.
  apply (whole_valid geo Hic).
  - rewrite Hic. unfold geo, indices_of, TreeBillboardsApp.static_geometry.
    cbn [IndexBufferCPU from_option id]. sizes.
  - rewrite Hvc. exact Hwf.
Qed.

Lemma BuildTreeSpritesGeometry_valid (inp : TreeBillboardsApp.InitInput F W)
    (s : TreeBillboardsApp.State F W) :
  exists geo,
    TreeBillboardsApp.mGeometries
      (TreeBillboardsApp.BuildTreeSpritesGeometry inp s)
      !! "treeSpritesGeo" = Some geo /\
    geometry_valid geo /\ is_Some (DrawArgs geo !! "points") /\
    vertex_count geo = 20.
Proof.
  unfold TreeBillboardsApp.BuildTreeSpritesGeometry.
  cbn [TreeBillboardsApp.mGeometries TreeBillboardsApp.set_mGeometries].
  rewrite lookup_insert_eq. eexists. split; [reflexivity|].
  set (geo := TreeBillboardsApp.static_geometry _ _ _ _ _ _).
  assert (Hic : index_count geo = Z.of_nat (length (indices_of geo)))
    by reflexivity.
  assert (Hvc : vertex_count geo = 20) by reflexivity.
  split; [|split; [unfold geo, TreeBillboardsApp.static_geometry;
                   cbn [DrawArgs]; table_entry
                  | exact Hvc]].
  split; [exact Hic|]. intros name sm Hsm.
  unfold geo, TreeBillboardsApp.static_geometry in Hsm.
  cbn [DrawArgs] in Hsm. table_cases Hsm.
  apply (whole_valid geo Hic).
  - rewrite Hic. cbn. lia.
  - rewrite Hvc. unfold geo, indices_of, TreeBillboardsApp.static_geometry.
    cbn [IndexBufferCPU from_option id].
    repeat (apply Forall_cons_2; [lia|]). apply Forall_nil_2.
Qed.

(** A loop keeps what each of its iterations keeps. *)
Lemma foldl_preserves {A B : Type} (P : A -> Prop) (f : A -> B -> A)
    (l : list B) (a : A) :
  (forall a x, x ∈ l -> P a -> P (f a x)) -> P a -> P (foldl f a l).
Proof.
  revert a. induction l as [|x l IH]; intros a Hstep Ha; [exact Ha|].
  cbn [foldl]. apply IH.
  - intros a' y Hy. apply Hstep. right. exact Hy.
  - apply Hstep; [left|exact Ha].
Qed.

(** The quads of the wave grid refer to vertices of the grid. *)
Lemma write_quad_in_range (m n i j : Z) (acc : list Z * Z) (len : nat) :
  0 <= i < m - 1 -> 0 <= j < n - 1 ->
  length acc.1 = len /\ Forall (fun idx => 0 <= idx < m * n) acc.1 ->
  length (TreeBillboardsApp.write_quad n i j acc).1 = len /\
  Forall (fun idx => 0 <= idx < m * n)
         (TreeBillboardsApp.write_quad n i j acc).1.
Proof.
  intros Hi Hj [Hlen Hall].
  unfold TreeBillboardsApp.write_quad, TreeBillboardsApp.quad_indices.
  cbn [map imap foldl]. unfold compose. cbn [fst snd].
  rewrite !length_insert. split; [exact Hlen|].
  repeat (apply Forall_insert;
          [| match goal with
             | |- _ <= uint16_t ?x < _ =>
                 assert (0 <= x) by nia; pose proof (uint16_t_le x); nia
             end ]).
  exact Hall.
Qed.

Lemma wave_indices_in_range (w : W) :
  length (TreeBillboardsApp.wave_indices w)
    = Z.to_nat (3 * TriangleCount w) /\
  Forall (fun idx => 0 <= idx < VertexCount w)
         (TreeBillboardsApp.wave_indices w).
Proof.
  unfold TreeBillboardsApp.wave_indices. rewrite waves_vertex_count.
  pose proof (waves_rows_pos w). pose proof (waves_cols_pos w).
  apply (foldl_preserves
           (fun acc : list Z * Z =>
              length acc.1 = Z.to_nat (3 * TriangleCount w) /\
              Forall (fun idx => 0 <= idx < RowCount w * ColumnCount w) acc.1)).
  - intros acc i Hi%elem_of_seqZ Hacc.
    apply (foldl_preserves
             (fun acc : list Z * Z =>
                length acc.1 = Z.to_nat (3 * TriangleCount w) /\
                Forall (fun idx => 0 <= idx < RowCount w * ColumnCount w)
                       acc.1)); [|exact Hacc].
    intros acc' j Hj%elem_of_seqZ Hacc'.
    apply write_quad_in_range; [lia | lia | exact Hacc'].
  - cbn [fst]. split; [apply length_replicate|].
    apply Forall_replicate. nia.
Qed.

Lemma BuildWavesGeometry_valid (s : TreeBillboardsApp.State F W) :
  exists geo,
    TreeBillboardsApp.mGeometries (TreeBillboardsApp.BuildWavesGeometry s)
      !! "waterGeo" = Some geo /\
    geometry_valid geo /\ is_Some (DrawArgs geo !! "grid") /\
    vertex_count geo = VertexCount (TreeBillboardsApp.mWaves s).
Proof.
  unfold TreeBillboardsApp.BuildWavesGeometry.
  cbn [TreeBillboardsApp.mGeometries TreeBillboardsApp.set_mGeometries].
  rewrite lookup_insert_eq. eexists. split; [reflexivity|].
  set (w := TreeBillboardsApp.mWaves s).
  destruct (wave_indices_in_range w) as [Hlen Hall].
  pose proof (waves_rows_pos w). pose proof (waves_cols_pos w).
  pose proof (waves_vertex_count w) as Hvn.
  pose proof (waves_triangle_count w) as Htn.
  pose proof (waves_fits_16 w) as H16.
  assert (Htri : 0 <= 3 * TriangleCount w < 6 * 65535) by nia.
  set (geo := mkMeshGeometry _ _ _ _ _ _ _ _ _ _).
  assert (Hic : index_count geo = Z.of_nat (length (indices_of geo))).
  { unfold index_count, geo.
    unfold indices_of. cbn [IndexBufferByteSize IndexBufferCPU from_option id].
    apply byte_size_count; [lia|]. rewrite Hlen. lia. }
  assert (Hvc : vertex_count geo = VertexCount w).
  { unfold vertex_count, geo.
    cbn [VertexBufferByteSize VertexByteStride].
    unfold TreeBillboardsApp.Vertex.sizeof.
    rewrite UINT_small by nia. apply Z.div_mul. lia. }
  split; [|split; [unfold geo; cbn [DrawArgs]; table_entry | exact Hvc]].
  split; [exact Hic|]. intros name sm Hsm.
  unfold geo in Hsm. cbn [DrawArgs] in Hsm. table_cases Hsm.
  apply (whole_valid geo Hic).
  - rewrite Hic. unfold geo, indices_of.
    cbn [IndexBufferCPU from_option id]. rewrite Hlen. lia.
  - rewrite Hvc. exact Hall.
Qed.

(** C6.  Submesh range validity.  When the generated meshes are well
    formed and the byte sizes of the concatenated buffers fit a [UINT],
    every submesh recorded by [MyCastleApp::BuildShapeGeometry], by
    [TreeBillboardsApp::BuildBoxGeometry], and by the routines that build
    the land, the waves and the tree sprites, has its index range inside
    the index buffer of its geometry, and every index of that range, the
    base vertex added, is below the number of vertices of the geometry. *)
Theorem submesh_ranges_valid (inp : TreeBillboardsApp.InitInput F W)
    (s1 : MyCastleApp.State F) (s2 : TreeBillboardsApp.State F W) :
  let m := TreeBillboardsApp.meshes inp in
  Forall GeometryGenerator.well_formed (castle_meshes m) ->
  buffers_fit (castle_meshes m) MyCastleApp.Vertex.sizeof ->
  buffers_fit (box_meshes m) TreeBillboardsApp.Vertex.sizeof ->
  buffers_fit [grid m] TreeBillboardsApp.Vertex.sizeof ->
  (exists geo,
     MyCastleApp.mGeometries (MyCastleApp.BuildShapeGeometry m s1)
       !! "shapeGeo" = Some geo /\
     geometry_valid geo /\
     Forall (fun name => is_Some (DrawArgs geo !! name))
       ["box"; "grid"; "sphere"; "cylinder"; "cone"; "Pyramid_flat_head";
        "Pyramid_pointed_head"; "wedge"; "pointed_cylinder"; "gate"] /\
     vertex_count geo = vertices_in (castle_meshes m)) /\
  (exists geo,
     TreeBillboardsApp.mGeometries (TreeBillboardsApp.BuildBoxGeometry inp s2)
       !! "boxGeo" = Some geo /\
     geometry_valid geo /\
     Forall (fun name => is_Some (DrawArgs geo !! name))
       ["box"; "sphere"; "cylinder"; "cone"; "Pyramid_flat_head";
        "Pyramid_pointed_head"; "wedge"; "pointed_cylinder"] /\
     vertex_count geo = vertices_in (box_meshes m)) /\
  (exists geo,
     TreeBillboardsApp.mGeometries (TreeBillboardsApp.BuildLandGeometry inp s2)
       !! "landGeo" = Some geo /\
     geometry_valid geo /\ is_Some (DrawArgs geo !! "grid") /\
     vertex_count geo = vertices_in [grid m]) /\
  (exists geo,
     TreeBillboardsApp.mGeometries (TreeBillboardsApp.BuildWavesGeometry s2)
       !! "waterGeo" = Some geo /\
     geometry_valid geo /\ is_Some (DrawArgs geo !! "grid") /\
     vertex_count geo = VertexCount (TreeBillboardsApp.mWaves s2)) /\
  (exists geo,
     TreeBillboardsApp.mGeometries
       (TreeBillboardsApp.BuildTreeSpritesGeometry inp s2)
       !! "treeSpritesGeo" = Some geo /\
     geometry_valid geo /\ is_Some (DrawArgs geo !! "points") /\
     vertex_count geo = 20).
Proof.
  intros m Hwf Hcastle Hbox Hgrid.
  split; [apply BuildShapeGeometry_valid; assumption|].
  split.
  { apply BuildBoxGeometry_valid; [|exact Hbox].
    unfold castle_meshes in Hwf. unfold box_meshes. fold m.
    repeat match goal with
           | Hf : Forall _ (_ :: _) |- _ => apply Forall_cons_1 in Hf as [? Hf]
           end.
    repeat (apply Forall_cons_2; [assumption|]). apply Forall_nil_2. }
  split.
  { apply BuildLandGeometry_valid; [|exact Hgrid].
    eapply (Forall_lookup_1 _ _ 1%nat); [exact Hwf|reflexivity]. }
  split; [apply BuildWavesGeometry_valid|].
  apply BuildTreeSpritesGeometry_valid.
Qed.

End Submesh.

(** ** Layer buckets *)

Section Layers.
Context {F W : Type} `{FloatOps F} `{FloatLib F} `{WavesOps F W}.

Lemma in_bucket_cons (l : list nat) (layers : list (list nat)) i p :
  in_bucket (l :: layers) i p <->
  match i with O => p ∈ l | S i' => in_bucket layers i' p end.
Proof.
  unfold in_bucket. destruct i as [|i]; cbn.
  - split; [intros (l' & [= <-] & Hp); exact Hp | intros Hp; eauto].
  - reflexivity.
Qed.

Lemma elem_of_concat_bucket (layers : list (list nat)) p :
  p ∈ concat layers <-> exists i, in_bucket layers i p.
Proof.
  induction layers as [|l layers IH]; cbn [concat].
  - split; [intros Hp%elem_of_nil; contradiction|].
    intros (i & l & Hl & _). rewrite lookup_nil in Hl. discriminate.
  - rewrite elem_of_app, IH. split.
    + intros [Hp | (i & Hi)].
      * exists 0%nat. apply in_bucket_cons. exact Hp.
      * exists (S i). apply in_bucket_cons. exact Hi.
    + intros (i & Hi). apply in_bucket_cons in Hi.
      destruct i as [|i]; [left; exact Hi | right; eauto].
Qed.

Lemma NoDup_concat_buckets (layers : list (list nat)) :
  NoDup (concat layers) ->
  Forall NoDup layers /\
  forall p i j, in_bucket layers i p -> in_bucket layers j p -> i = j.
Proof.
  induction layers as [|l layers IH]; cbn [concat]; intros Hnd.
  - split; [constructor|]. intros p i j (l & Hl & _).
    rewrite lookup_nil in Hl. discriminate.
  - apply NoDup_app in Hnd as (Hl & Hdisj & Hrest).
    destruct (IH Hrest) as [Hall Huniq]. split; [constructor; assumption|].
    intros p i j Hi%in_bucket_cons Hj%in_bucket_cons.
    destruct i as [|i], j as [|j]; [reflexivity | | |].
    + exfalso. apply (Hdisj p Hi). apply elem_of_concat_bucket. eauto.
    + exfalso. apply (Hdisj p Hj). apply elem_of_concat_bucket. eauto.
    + f_equal. eapply Huniq; eassumption.
Qed.

(** Buckets whose concatenation is the duplicate-free list partition it. *)
Lemma layer_partition_intro (layers : list (list nat)) (all : list nat) :
  NoDup all -> concat layers ≡ₚ all -> layer_partition layers all.
Proof.
  intros Hnd Hperm.
  assert (Hc : NoDup (concat layers)) by (rewrite Hperm; exact Hnd).
  destruct (NoDup_concat_buckets layers Hc) as [Hall Huniq].
  split; [exact Hnd|]. split; [exact Hall|]. split; [|exact Huniq].
  intros p. rewrite <- elem_of_concat_bucket, Hperm. reflexivity.
Qed.

Lemma concat_insert_snoc (layers : list (list nat)) (i : nat)
    (l : list nat) (p : nat) :
  layers !! i = Some l ->
  concat (<[i := l ++ [p]]> layers) ≡ₚ concat layers ++ [p].
Proof.
  revert i. induction layers as [|l0 layers IH]; intros i Hi.
  - rewrite lookup_nil in Hi. discriminate.
  - destruct i as [|i]; cbn in Hi |- *.
    + injection Hi as ->. rewrite <- !app_assoc.
      apply Permutation_app_head, Permutation_app_comm.
    + rewrite (IH i Hi), app_assoc. reflexivity.
Qed.

Lemma concat_push_layer (l : TreeBillboardsApp.RenderLayer) p
    (layers : list (list nat)) :
  length layers = TreeBillboardsApp.RenderLayer_Count ->
  concat (TreeBillboardsApp.push_layer l p layers) ≡ₚ concat layers ++ [p].
Proof.
  intros Hlen. unfold TreeBillboardsApp.push_layer.
  destruct (lookup_lt_is_Some_2 layers (TreeBillboardsApp.layer_index l))
    as [x Hx].
  { rewrite Hlen. unfold TreeBillboardsApp.RenderLayer_Count.
    destruct l; cbn; lia. }
  rewrite Hx. cbn. apply concat_insert_snoc. exact Hx.
Qed.

End Layers.

(** ** Scene assembly *)

Section SceneAssembly.
Context {F W : Type} `{FloatOps F} `{FloatLib F} `{WavesOps F W}.
Import TreeBillboardsApp.

Lemma new_ritem_ok (s : State F W) world tex mat geo prim arg l
    (pending : list nat) (b b' : Builder F) (p : nat) :
  builder_ok pending b ->
  new_ritem s world tex mat geo prim arg l b = Some (p, b') ->
  builder_ok (pending ++ [p]) b' /\
  length (b_heap b') = S (length (b_heap b)) /\
  p = length (b_heap b).
Proof.
  intros (Hlen & Hall & Hlayers & Hidx & Hitems) Hnew.
  unfold new_ritem in Hnew.
  destruct (mGeometries s !! geo) as [g|]; [|discriminate].
  cbn in Hnew. injection Hnew as <- <-.
  unfold builder_ok. cbn [b_heap b_layers b_all b_objIndex].
  rewrite length_app. cbn [length]. split; [|split; [lia|reflexivity]].
  replace (length (b_heap b) + 1)%nat with (S (length (b_heap b))) by lia.
  rewrite seq_S. cbn [Nat.add].
  split; [apply push_layer_items; [exact Opaque | exact Hlen]|].
  split; [rewrite app_assoc, Hall; reflexivity|].
  split; [rewrite concat_push_layer, Hlayers by exact Hlen; reflexivity|].
  split; [lia|].
  intros q e Hq. apply lookup_snoc_Some in Hq as [[_ Hq] | [-> <-]].
  - apply Hitems. exact Hq.
  - cbn. rewrite Hidx. eauto.
Qed.

Lemma push_all_ok (ps rest pending : list nat) (b : Builder F) :
  builder_ok pending b -> pending ≡ₚ ps ++ rest ->
  builder_ok rest (push_all ps b).
Proof.
  intros (Hlen & Hall & Hlayers & Hidx & Hitems) Hperm.
  unfold push_all, builder_ok. cbn [b_heap b_layers b_all b_objIndex].
  split; [exact Hlen|]. split; [|auto].
  rewrite <- app_assoc, <- Hperm. exact Hall.
Qed.

Lemma build_tower_ok (s : State F W) (pending : list nat)
    (b b' : Builder F) (d : Q * Q) :
  builder_ok pending b -> build_tower s b d = Some b' ->
  builder_ok pending b' /\ length (b_heap b') = (length (b_heap b) + 3)%nat.
Proof.
  intros I0 Hrun. unfold build_tower in Hrun.
  destruct (new_ritem s _ _ _ _ _ _ _ b) as [[p1 b1]|] eqn:E1;
    [|discriminate].
  cbn [mbind option_bind] in Hrun.
  destruct (new_ritem s _ _ _ _ _ _ _ b1) as [[p2 b2]|] eqn:E2;
    [|discriminate].
  cbn [mbind option_bind] in Hrun.
  destruct (new_ritem s _ _ _ _ _ _ _ b2) as [[p3 b3]|] eqn:E3;
    [|discriminate].
  cbn [mbind option_bind] in Hrun. injection Hrun as <-.
  destruct (new_ritem_ok _ _ _ _ _ _ _ _ _ _ _ _ I0 E1) as (I1 & L1 & _).
  destruct (new_ritem_ok _ _ _ _ _ _ _ _ _ _ _ _ I1 E2) as (I2 & L2 & _).
  destruct (new_ritem_ok _ _ _ _ _ _ _ _ _ _ _ _ I2 E3) as (I3 & L3 & _).
  split; [|cbn [push_all b_heap]; lia].
  apply (push_all_ok _ _ _ _ I3). rewrite <- !app_assoc. cbn [app].
  apply Permutation_app_comm.
Qed.

Lemma build_fence_ok (s : State F W) (pending : list nat)
    (b b' : Builder F) (loc : Q) :
  builder_ok pending b -> build_fence s b loc = Some b' ->
  builder_ok pending b' /\ length (b_heap b') = (length (b_heap b) + 2)%nat.
Proof.
  intros I0 Hrun. unfold build_fence in Hrun.
  destruct (new_ritem s _ _ _ _ _ _ _ b) as [[p1 b1]|] eqn:E1;
    [|discriminate].
  cbn [mbind option_bind] in Hrun.
  destruct (new_ritem s _ _ _ _ _ _ _ b1) as [[p2 b2]|] eqn:E2;
    [|discriminate].
  cbn [mbind option_bind] in Hrun. injection Hrun as <-.
  destruct (new_ritem_ok _ _ _ _ _ _ _ _ _ _ _ _ I0 E1) as (I1 & L1 & _).
  destruct (new_ritem_ok _ _ _ _ _ _ _ _ _ _ _ _ I1 E2) as (I2 & L2 & _).
  split; [|cbn [push_all b_heap]; lia].
  apply (push_all_ok _ _ _ _ I2). rewrite <- !app_assoc. cbn [app].
  apply Permutation_app_comm.
Qed.

(** A loop whose iterations keep an invariant and make [k] render items
    each. *)
Lemma for_each_ok {A B : Type} (P : B -> Prop) (size : B -> nat) (k : nat)
    (body : B -> A -> option B) (l : list A) (b b' : B) :
  (forall b x b', P b -> body b x = Some b' ->
                  P b' /\ size b' = (size b + k)%nat) ->
  P b -> for_each body b l = Some b' ->
  P b' /\ size b' = (size b + k * length l)%nat.
Proof.
  intros Hbody. revert b. induction l as [|x l IH]; intros b Hb Hrun.
  - cbn in Hrun. injection Hrun as <-. split; [exact Hb | cbn; lia].
  - cbn [for_each] in Hrun.
    destruct (body b x) as [b1|] eqn:E; [|discriminate].
    cbn [mbind option_bind] in Hrun.
    destruct (Hbody _ _ _ Hb E) as [Hb1 L1].
    destruct (IH _ Hb1 Hrun) as [Hb' L']. split; [exact Hb'|].
    cbn [length]. lia.
Qed.

(** Brings the head of the left list of a permutation goal to the front
    of the right list. *)
Ltac split_at x r k :=
  lazymatch r with
  | x :: ?t => k (@nil nat) t
  | ?y :: ?t => split_at x t ltac:(fun l1 l2 => k (y :: l1) l2)
  end.
Ltac perm :=
  repeat match goal with
         | |- [] ≡ₚ [] => reflexivity
         | |- ?x :: ?l ≡ₚ ?r =>
             split_at x r
               ltac:(fun l1 l2 =>
                       apply (@Permutation_cons_app nat l l1 l2 x); cbn [app])
         end.

(** One render item of [BuildRenderItems], in a hypothesis on its
    result. *)
Ltac ritem Hrun I0 I1 L1 P1 :=
  let E := fresh "E" in
  match type of Hrun with
  | context [new_ritem ?s ?w ?t ?m ?g ?pr ?a ?l ?b] =>
      destruct (new_ritem s w t m g pr a l b) as [[? ?]|] eqn:E;
      [|discriminate Hrun];
      cbn [mbind option_bind] in Hrun;
      destruct (new_ritem_ok _ _ _ _ _ _ _ _ _ _ _ _ I0 E) as (I1 & L1 & P1);
      clear E
  end.

Lemma BuildRenderItems_ok (s s' : State F W) :
  heap s = [] -> mAllRitems s = [] ->
  mRitemLayer s = replicate RenderLayer_Count [] ->
  BuildRenderItems s = Some s' ->
  exists b, builder_ok [] b /\ length (b_heap b) = 30%nat /\
    s' = set_scene (b_heap b) (b_all b) (b_layers b) (Some 0%nat) s.
Proof.
  intros Hheap Hall Hlayers Hrun. unfold BuildRenderItems in Hrun.
  rewrite Hheap, Hall, Hlayers in Hrun.
  set (b0 := mkBuilder _ _ _ _) in Hrun.
  assert (I0 : builder_ok [] b0).
  { unfold builder_ok, b0. cbn. repeat split; try reflexivity.
    all: rewrite lookup_nil in *; discriminate. }
  assert (L0 : length (b_heap b0) = 0%nat) by reflexivity.
  ritem Hrun I0 I1 L1 P1. ritem Hrun I1 I2 L2 P2.
  destruct (for_each (build_tower s) _ _) as [b3|] eqn:E3; [|discriminate].
  cbn [mbind option_bind] in Hrun.
  destruct (for_each_ok _ (fun b : Builder F => length (b_heap b)) 3 _ _ _ _
              (fun b x b' => build_tower_ok s _ b b' x) I2 E3) as [I3 L3].
  destruct (for_each (build_fence s) _ _) as [b4|] eqn:E4; [|discriminate].
  cbn [mbind option_bind] in Hrun.
  destruct (for_each_ok _ (fun b : Builder F => length (b_heap b)) 2 _ _ _ _
              (fun b x b' => build_fence_ok s _ b b' x) I3 E4) as [I4 L4].
  ritem Hrun I4 I5 L5 P5. ritem Hrun I5 I6 L6 P6. ritem Hrun I6 I7 L7 P7.
  ritem Hrun I7 I8 L8 P8. ritem Hrun I8 I9 L9 P9.
  ritem Hrun I9 I10 L10 P10. ritem Hrun I10 I11 L11 P11.
  ritem Hrun I11 I12 L12 P12.
  injection Hrun as <-. subst n. rewrite L0 in *.
  match goal with
  | |- context [b_all ?b ++ ?ps] => exists (push_all ps b)
  end.
  split; [|split].
  - eapply (push_all_ok _ [] _ _ I12). cbn [app]. perm.
  - cbn [push_all b_heap length] in *. lia.
  - reflexivity.
Qed.

Lemma new_ritem_total (s : State F W) world tex mat geo prim arg l
    (b : Builder F) :
  is_Some (mGeometries s !! geo) ->
  is_Some (new_ritem s world tex mat geo prim arg l b).
Proof. intros [g Hg]. unfold new_ritem. rewrite Hg. cbn. eauto. Qed.

Lemma for_each_total {A B : Type} (body : B -> A -> option B) (l : list A)
    (b : B) :
  (forall b x, is_Some (body b x)) -> is_Some (for_each body b l).
Proof.
  intros Hbody. revert b. induction l as [|x l IH]; intros b; cbn; [eauto|].
  destruct (Hbody b x) as [b' ->]. cbn. apply IH.
Qed.

(** One render item of [BuildRenderItems], in a goal on its result. *)
Ltac ritem_total :=
  match goal with
  | |- context [new_ritem ?s ?w ?t ?m ?g ?pr ?a ?l ?b] =>
      let E := fresh "E" in
      destruct (new_ritem_total s w t m g pr a l b) as [[? ?] E];
      [assumption|]; rewrite E; clear E; cbn [mbind option_bind]
  end.

(** [BuildRenderItems] completes when the four geometries it draws from
    have been built. *)
Lemma BuildRenderItems_total (s : State F W) :
  is_Some (mGeometries s !! "waterGeo") ->
  is_Some (mGeometries s !! "landGeo") ->
  is_Some (mGeometries s !! "boxGeo") ->
  is_Some (mGeometries s !! "treeSpritesGeo") ->
  is_Some (BuildRenderItems s).
Proof.
  intros Hwater Hland Hbox Htree. unfold BuildRenderItems.
  do 2 ritem_total.
  match goal with
  | |- context [for_each (build_tower s) ?b ?l] =>
      destruct (for_each_total (build_tower s) l b) as [? ->]
  end.
  { intros bt d. unfold build_tower. do 3 ritem_total. eauto. }
  cbn [mbind option_bind].
  match goal with
  | |- context [for_each (build_fence s) ?b ?l] =>
      destruct (for_each_total (build_fence s) l b) as [? ->]
  end.
  { intros bf loc. unfold build_fence. do 2 ritem_total. eauto. }
  cbn [mbind option_bind].
  do 8 ritem_total. eauto.
Qed.

(** The geometries [Initialize] has built when it reaches
    [BuildRenderItems]. *)
Lemma Initialize_geometries (inp : InitInput F W) :
  let s := BuildMaterials
             (BuildTreeSpritesGeometry inp
                (BuildBoxGeometry inp
                   (BuildWavesGeometry
                      (BuildLandGeometry inp (State_new inp))))) in
  is_Some (mGeometries s !! "waterGeo") /\
  is_Some (mGeometries s !! "landGeo") /\
  is_Some (mGeometries s !! "boxGeo") /\
  is_Some (mGeometries s !! "treeSpritesGeo") /\
  heap s = [] /\ mAllRitems s = [] /\
  mRitemLayer s = replicate RenderLayer_Count [] /\
  mFrameResources s = [] /\ mCurrFrameResourceIndex s = 0 /\
  mCurrentFence s = fence0 inp /\ mWaves s = waves0 inp /\
  size (mMaterials s) = 10%nat.
Proof.
  cbn zeta.
  unfold BuildMaterials, BuildTreeSpritesGeometry, BuildBoxGeometry,
    BuildWavesGeometry, BuildLandGeometry, State_new.
  cbn [mGeometries set_mGeometries set_mMaterials heap mAllRitems mRitemLayer
       mFrameResources mCurrFrameResourceIndex mCurrentFence mWaves
       mMaterials].
  repeat split; try reflexivity.
  all: repeat (rewrite lookup_insert_ne by discriminate);
       rewrite lookup_insert_eq; eauto.
Qed.

(** The state [Initialize] returns. *)
Lemma Initialize_spec (inp : InitInput F W) :
  exists s b,
    Initialize inp = Some s /\
    builder_ok [] b /\ length (b_heap b) = 30%nat /\
    heap s = b_heap b /\ mAllRitems s = b_all b /\
    mRitemLayer s = b_layers b /\ mWavesRitem s = Some 0%nat /\
    mFrameResources s
      = replicate 3
          (FrameResource.mk []
             (replicate 30 (uninit_obj inp)) (replicate 10 (uninit_mat inp))
             (replicate (Z.to_nat (VertexCount (waves0 inp)))
                        (uninit_vertex inp))
             0) /\
    mCurrFrameResourceIndex s = 0 /\ mCurrentFence s = fence0 inp /\
    mWaves s = waves0 inp /\
    mMaterials s = mMaterials (BuildMaterials (State_new inp)) /\
    mGeometries s
      = mGeometries (BuildTreeSpritesGeometry inp
                       (BuildBoxGeometry inp
                          (BuildWavesGeometry
                             (BuildLandGeometry inp (State_new inp))))).
Proof.
  destruct (Initialize_geometries inp)
    as (Hwater & Hland & Hbox & Htree & Hheap & Hall & Hlayers & Hfr & Hidx
        & Hfence & Hwaves & Hsize).
  cbn zeta in *. unfold Initialize.
  set (s0 := BuildMaterials _) in *.
  destruct (BuildRenderItems_total s0 Hwater Hland Hbox Htree) as [s1 Hs1].
  rewrite Hs1. cbn [mbind option_bind].
  destruct (BuildRenderItems_ok s0 s1 Hheap Hall Hlayers Hs1)
    as (b & Hb & Hlen & ->).
  exists (BuildFrameResources inp
            (set_scene (b_heap b) (b_all b) (b_layers b) (Some 0%nat) s0)), b.
  split; [reflexivity|]. split; [exact Hb|]. split; [exact Hlen|].
  assert (Hcount : length (b_all b) = 30%nat).
  { destruct Hb as (_ & Hperm & _). rewrite app_nil_r in Hperm.
    rewrite Hperm, length_seq. exact Hlen. }
  unfold BuildFrameResources.
  cbn [heap mAllRitems mRitemLayer mWavesRitem mFrameResources
       mCurrFrameResourceIndex mCurrentFence mWaves mMaterials mGeometries
       set_mFrameResources set_scene].
  rewrite Hfr, Hidx, Hfence, Hwaves, Hsize, Hcount.
  repeat split; reflexivity.
Qed.

Lemma Initialize_items_ok (inp : InitInput F W) (s : State F W) :
  Initialize inp = Some s -> items_ok s.
Proof.
  intros Hs. destruct (Initialize_spec inp) as (s' & b & Hs' & Hspec).
  assert (s' = s) by congruence. subst s'.
  destruct Hspec as (Hb & Hlen & Hheap & Hall & _ & _ & Hfr & _).
  destruct Hb as (_ & Hperm & _ & _ & Hitems).
  rewrite app_nil_r, Hlen in Hperm.
  assert (Hin : forall p, p ∈ mAllRitems s -> (p < 30)%nat).
  { intros p Hp. rewrite Hall, Hperm in Hp. apply elem_of_seq in Hp. lia. }
  unfold items_ok. rewrite Hheap, Hfr.
  split; [rewrite Hall, Hperm; apply NoDup_seq|].
  split; [intros p Hp; apply lookup_lt_is_Some_2; rewrite Hlen; auto|].
  split.
  - intros p e k fr Hp He Hk.
    apply lookup_replicate in Hk as [-> _]. cbn [FrameResource.ObjectCB].
    rewrite length_replicate. destruct (Hitems p e He) as (-> & _).
    pose proof (Hin p Hp). rewrite UINT_small by lia. lia.
  - intros p q e1 e2 Hp Hq He1 He2 Heq.
    destruct (Hitems p e1 He1) as (Hi1 & _).
    destruct (Hitems q e2 He2) as (Hi2 & _).
    pose proof (Hin p Hp). pose proof (Hin q Hq).
    rewrite Hi1, Hi2, !UINT_small in Heq by lia. lia.
Qed.

Lemma Initialize_materials_ok (inp : InitInput F W) (s : State F W) :
  Initialize inp = Some s -> materials_ok s.
Proof.
  intros Hs. destruct (Initialize_spec inp) as (s' & b & Hs' & Hspec).
  assert (s' = s) by congruence. subst s'.
  destruct Hspec as (_ & _ & _ & _ & _ & _ & Hfr & _ & _ & _ & Hmat & _).
  unfold materials_ok. rewrite Hmat, Hfr. clear Hmat Hfr Hs Hs'.
  unfold BuildMaterials, State_new. cbn [mMaterials set_mMaterials].
  set (names := ["grass"; "water"; "wirefence"; "ice"; "bricks"; "testcolor";
                 "door"; "walls"; "checkboard"; "treeSprites"]).
  match goal with
  | |- is_Some (?M !! _) /\ _ =>
      assert (Hname : forall n m, M !! n = Some m ->
                0 <= Material.MatCBIndex m < 10 /\
                names !! Z.to_nat (Material.MatCBIndex m) = Some n)
  end.
  { intros n m Hn.
    repeat (apply lookup_insert_Some in Hn as [[<- <-] | [_ Hn]]);
      [.. | rewrite lookup_empty in Hn; discriminate Hn];
      (split; [cbn [Material.MatCBIndex material]; lia | reflexivity]). }
  split.
  { repeat (rewrite lookup_insert_ne by discriminate).
    rewrite lookup_insert_eq. eauto. }
  split.
  - intros n m k fr Hn Hk. apply lookup_replicate in Hk as [-> _].
    cbn [FrameResource.MaterialCB]. rewrite length_replicate.
    destruct (Hname n m Hn) as [Hr _]. lia.
  - intros n1 n2 m1 m2 Hn1 Hn2 Heq.
    destruct (Hname n1 m1 Hn1) as [_ H1'].
    destruct (Hname n2 m2 Hn2) as [_ H2'].
    rewrite Heq, H2' in H1'. injection H1' as ->. reflexivity.
Qed.

Lemma Initialize_ring_ok (inp : InitInput F W) (s : State F W) (g : Gpu) :
  Initialize inp = Some s ->
  0 <= CompletedValue g <= LastSignal g -> LastSignal g = fence0 inp ->
  ring_ok s g.
Proof.
  intros Hs Hg Hlast. destruct (Initialize_spec inp) as (s' & b & Hs' & Hspec).
  assert (s' = s) by congruence. subst s'.
  destruct Hspec as (_ & _ & _ & _ & _ & _ & Hfr & Hidx & Hfence & _).
  unfold ring_ok. rewrite Hfr, Hidx, Hfence. unfold gNumFrameResources.
  repeat split; try lia.
  apply Forall_replicate. cbn. lia.
Qed.

Lemma Initialize_waves_ok (inp : InitInput F W) (s : State F W) :
  Initialize inp = Some s -> waves_buffers_ok s.
Proof.
  intros Hs. destruct (Initialize_spec inp) as (s' & b & Hs' & Hspec).
  assert (s' = s) by congruence. subst s'.
  destruct Hspec as (_ & _ & _ & _ & _ & _ & Hfr & _ & _ & Hw & _).
  intros k fr Hk. rewrite Hfr in Hk. apply lookup_replicate in Hk as [-> _].
  cbn. rewrite length_replicate, Hw. reflexivity.
Qed.

End SceneAssembly.

(** ** The scene [Initialize] builds can be drawn *)

Section SceneDrawable.
Context {F W : Type} `{FloatOps F} `{FloatLib F} `{WavesOps F W}.
Import TreeBillboardsApp.

Lemma new_ritem_drawable (s : State F W) world tex mat geo prim arg l
    (b b' : Builder F) (p : nat) :
  is_Some (mMaterials s !! mat) ->
  built_drawable s b ->
  new_ritem s world tex mat geo prim arg l b = Some (p, b') ->
  built_drawable s b'.
Proof.
  intros [m Hm] Hb Hnew. unfold new_ritem in Hnew.
  destruct (mGeometries s !! geo) as [g|] eqn:Hg; [|discriminate].
  cbn in Hnew. injection Hnew as <- <-.
  intros q e Hq. cbn [b_heap] in Hq.
  apply lookup_snoc_Some in Hq as [[_ Hq] | [_ <-]].
  - exact (Hb q e Hq).
  - exists geo, mat. cbn [RenderItem.Geo RenderItem.Mat].
    unfold ptr_to. rewrite Hg, Hm. eauto.
Qed.

Lemma scene_material (s : State F W) (n : string) :
  scene_materials s ->
  n ∈ ["water"; "grass"; "bricks"; "wirefence"; "ice"; "testcolor";
       "checkboard"; "door"; "treeSprites"] ->
  is_Some (mMaterials s !! n).
Proof. intros Hs Hn. exact (proj1 (Forall_forall _ _) Hs n Hn). Qed.

(** One render item, in a hypothesis on the result of a builder. *)
Ltac ritem_drawable Hrun Hmats I0 I1 :=
  let E := fresh "E" in
  match type of Hrun with
  | context [new_ritem ?s ?w ?t ?m ?g ?pr ?a ?l ?b] =>
      destruct (new_ritem s w t m g pr a l b) as [[? ?]|] eqn:E;
      [|discriminate Hrun];
      cbn [mbind option_bind] in Hrun;
      assert (I1 := new_ritem_drawable _ _ _ _ _ _ _ _ _ _ _
                      (scene_material s m Hmats ltac:(set_solver)) I0 E);
      clear E
  end.

Lemma build_tower_drawable (s : State F W) (b b' : Builder F) (d : Q * Q) :
  scene_materials s -> built_drawable s b -> build_tower s b d = Some b' ->
  built_drawable s b'.
Proof.
  intros Hmats I0 Hrun. unfold build_tower in Hrun.
  ritem_drawable Hrun Hmats I0 I1. ritem_drawable Hrun Hmats I1 I2.
  ritem_drawable Hrun Hmats I2 I3.
  injection Hrun as <-. exact I3.
Qed.

Lemma build_fence_drawable (s : State F W) (b b' : Builder F) (loc : Q) :
  scene_materials s -> built_drawable s b -> build_fence s b loc = Some b' ->
  built_drawable s b'.
Proof.
  intros Hmats I0 Hrun. unfold build_fence in Hrun.
  ritem_drawable Hrun Hmats I0 I1. ritem_drawable Hrun Hmats I1 I2.
  injection Hrun as <-. exact I2.
Qed.

Lemma for_each_keeps {A B : Type} (P : B -> Prop)
    (body : B -> A -> option B) (l : list A) (b b' : B) :
  (forall b x b', P b -> body b x = Some b' -> P b') ->
  P b -> for_each body b l = Some b' -> P b'.
Proof.
  intros Hbody. revert b. induction l as [|x l IH]; intros b Hb Hrun.
  - cbn in Hrun. injection Hrun as <-. exact Hb.
  - cbn [for_each] in Hrun.
    destruct (body b x) as [b1|] eqn:E; [|discriminate].
    cbn [mbind option_bind] in Hrun. eauto.
Qed.

Lemma BuildRenderItems_drawable (s s' : State F W) :
  scene_materials s -> heap s = [] ->
  BuildRenderItems s = Some s' ->
  forall p e, heap s' !! p = Some e ->
    exists g m,
      RenderItem.Geo e = Some g /\ is_Some (mGeometries s !! g) /\
      RenderItem.Mat e = Some m /\ is_Some (mMaterials s !! m).
Proof.
  intros Hmats Hheap Hrun. unfold BuildRenderItems in Hrun.
  rewrite Hheap in Hrun.
  set (b0 := mkBuilder _ _ _ _) in Hrun.
  assert (I0 : built_drawable s b0).
  { intros p e Hp. cbn in Hp. rewrite lookup_nil in Hp. discriminate. }
  ritem_drawable Hrun Hmats I0 I1. ritem_drawable Hrun Hmats I1 I2.
  destruct (for_each (build_tower s) _ _) as [b3|] eqn:E3; [|discriminate].
  cbn [mbind option_bind] in Hrun.
  assert (I3 := for_each_keeps _ _ _ _ _
                  (fun b x b' => build_tower_drawable s b b' x Hmats) I2 E3).
  destruct (for_each (build_fence s) _ _) as [b4|] eqn:E4; [|discriminate].
  cbn [mbind option_bind] in Hrun.
  assert (I4 := for_each_keeps _ _ _ _ _
                  (fun b x b' => build_fence_drawable s b b' x Hmats) I3 E4).
  ritem_drawable Hrun Hmats I4 I5. ritem_drawable Hrun Hmats I5 I6.
  ritem_drawable Hrun Hmats I6 I7. ritem_drawable Hrun Hmats I7 I8.
  ritem_drawable Hrun Hmats I8 I9. ritem_drawable Hrun Hmats I9 I10.
  ritem_drawable Hrun Hmats I10 I11. ritem_drawable Hrun Hmats I11 I12.
  injection Hrun as <-. exact I12.
Qed.

Lemma BuildMaterials_scene_materials (s : State F W) :
  scene_materials (BuildMaterials s).
Proof.
  unfold scene_materials, BuildMaterials. cbn [mMaterials set_mMaterials].
  repeat (apply Forall_cons; split;
          [repeat (rewrite lookup_insert_ne by discriminate);
           rewrite lookup_insert_eq; eauto|]).
  apply Forall_nil_2.
Qed.

(** The scene [BuildRenderItems] and [BuildFrameResources] leave has what
    a frame dereferences. *)
Lemma built_scene_ok (inp : InitInput F W) (s0 s1 : State F W) :
  scene_materials s0 -> heap s0 = [] -> mAllRitems s0 = [] ->
  mRitemLayer s0 = replicate RenderLayer_Count [] ->
  BuildRenderItems s0 = Some s1 ->
  scene_ok (BuildFrameResources inp s1).
Proof.
  intros Hmats Hheap0 Hall0 Hlayers0 Hs1.
  pose proof (BuildRenderItems_drawable s0 s1 Hmats Hheap0 Hs1) as Hitems.
  destruct (BuildRenderItems_ok s0 s1 Hheap0 Hall0 Hlayers0 Hs1)
    as (b & Hb & Hlen & ->).
  destruct Hb as (_ & Hperm & Hconcat & _ & _).
  rewrite app_nil_r, Hlen in Hperm. rewrite Hlen in Hconcat.
  cbn [heap set_scene] in Hitems.
  assert (Hd : forall p, (p < 30)%nat ->
            drawable (BuildFrameResources inp
                        (set_scene (b_heap b) (b_all b) (b_layers b)
                                   (Some 0%nat) s0)) p).
  { intros p Hp.
    destruct (lookup_lt_is_Some_2 (b_heap b) p) as [e He];
      [rewrite Hlen; exact Hp|].
    destruct (Hitems p e He) as (g & m & HG & HGs & HM & HMs).
    exists e, g, m. auto. }
  split; [exact (scene_material s0 "water" Hmats ltac:(set_solver))|].
  split.
  { intros p Hp. cbn in Hp. rewrite Hperm in Hp. apply elem_of_seq in Hp.
    destruct (Hd p ltac:(lia)) as (e & _ & _ & He & _). eauto. }
  split.
  { intros layer p Hl Hp. cbn in Hl. apply Hd.
    assert (Hin : p ∈ concat (b_layers b)).
    { apply list_elem_of_In, in_concat. exists layer.
      split; apply list_elem_of_In; assumption. }
    rewrite Hconcat in Hin. apply elem_of_seq in Hin. lia. }
  exists 0%nat. split; [reflexivity | apply Hd; lia].
Qed.

(** The scene of [Initialize] has what a frame dereferences. *)
Lemma Initialize_scene_ok (inp : InitInput F W) (s : State F W) :
  Initialize inp = Some s -> scene_ok s.
Proof.
  destruct (Initialize_geometries inp)
    as (Hwater & Hland & Hbox & Htree & Hheap0 & Hall0 & Hlayers0 & _).
  cbn zeta in *. unfold Initialize.
  set (s0 := BuildMaterials _) in *.
  destruct (BuildRenderItems_total s0 Hwater Hland Hbox Htree) as [s1 Hs1].
  rewrite Hs1. cbn [mbind option_bind]. intros Hs. injection Hs as <-.
  apply (built_scene_ok inp s0 s1); try assumption.
  apply BuildMaterials_scene_materials.
Qed.

(** X1.  The frames complete.  [Initialize] returns a state, and from
    that state every run of frames completes while the fence counter does
    not wrap: no frame dereferences a null pointer or indexes a container
    out of its range, and the run leaves the ring and the scene as a frame
    needs them. *)
Theorem frames_complete (inp : InitInput F W) (inputs : list (FrameInput F))
    (g : Gpu) :
  0 <= CompletedValue g <= LastSignal g -> LastSignal g = fence0 inp ->
  fence0 inp + Z.of_nat (length inputs) < 2 ^ 64 ->
  exists s s' g',
    Initialize inp = Some s /\ run inputs (s, g) = Some (s', g') /\
    ring_ok s' g' /\ scene_ok s'.
Proof.
  intros Hg Hlast Hbound.
  destruct (Initialize_spec inp) as (s & b & Hs & _ & _ & _ & _ & _ & _ & _
                                     & _ & Hfence & _).
  destruct (run_total inputs s g) as (s' & g' & Hrun & Hok).
  - exact (Initialize_ring_ok inp s g Hs Hg Hlast).
  - exact (Initialize_scene_ok inp s Hs).
  - rewrite Hfence. exact Hbound.
  - exists s, s', g'. split; [exact Hs|]. split; [exact Hrun | exact Hok].
Qed.

End SceneDrawable.

Section CastleLayers.
Context {F : Type} `{FloatOps F} `{FloatLib F}.
Import MyCastleApp.

Lemma castle_new_ritem_ok (s : State F) world arg (b b' : Builder F) :
  castle_builder_ok b -> new_ritem s world arg b = Some b' ->
  castle_builder_ok b' /\ length (b_heap b') = S (length (b_heap b)).
Proof.
  intros (Hall & Hidx & Hitems) Hnew. unfold new_ritem in Hnew.
  destruct (mGeometries s !! "shapeGeo") as [g|]; [|discriminate].
  cbn in Hnew. injection Hnew as <-.
  unfold castle_builder_ok. cbn [b_heap b_all b_objIndex].
  rewrite length_app. cbn [length]. split; [|lia].
  replace (length (b_heap b) + 1)%nat with (S (length (b_heap b))) by lia.
  rewrite seq_S, Hall. cbn [Nat.add]. split; [reflexivity|].
  split; [lia|].
  intros q e Hq. apply lookup_snoc_Some in Hq as [[_ Hq] | [-> <-]].
  - apply Hitems. exact Hq.
  - cbn. rewrite Hidx. reflexivity.
Qed.

Lemma castle_new_ritem_total (s : State F) world arg (b : Builder F) :
  is_Some (mGeometries s !! "shapeGeo") -> is_Some (new_ritem s world arg b).
Proof. intros [g Hg]. unfold new_ritem. rewrite Hg. cbn. eauto. Qed.

(** One render item of the castle, in a hypothesis on the result. *)
Ltac castle_ritem Hrun I0 L0 :=
  let E := fresh "E" in
  let I1 := fresh "I" in
  let L1 := fresh "L" in
  match type of Hrun with
  | context [new_ritem ?s ?w ?a ?b] =>
      destruct (new_ritem s w a b) as [?|] eqn:E; [|discriminate Hrun];
      cbn [mbind option_bind] in Hrun;
      destruct (castle_new_ritem_ok _ _ _ _ _ I0 E) as (I1 & L1);
      rewrite L0 in L1; clear E I0 L0; rename I1 into I0; rename L1 into L0
  end.

(** One render item of the castle, in a goal on the result. *)
Ltac castle_ritem_total :=
  match goal with
  | |- context [new_ritem ?s ?w ?a ?b] =>
      let E := fresh "E" in
      destruct (castle_new_ritem_total s w a b) as [? E];
      [assumption|]; rewrite E; clear E; cbn [mbind option_bind]
  end.

Lemma castle_BuildRenderItems_ok (s s' : State F) :
  heap s = [] -> mAllRitems s = [] -> mOpaqueRitems s = [] ->
  BuildRenderItems s = Some s' ->
  exists b, castle_builder_ok b /\ length (b_heap b) = 36%nat /\
    s' = set_scene (b_heap b) (b_all b) (b_all b) s.
Proof.
  intros Hheap Hall Hopq Hrun. unfold BuildRenderItems in Hrun.
  rewrite Hheap, Hall, Hopq in Hrun.
  cbn [TreeBillboardsApp.for_each] in Hrun.
  unfold build_tower, build_fence in Hrun.
  set (b0 := mkBuilder _ _ _) in Hrun.
  assert (I : castle_builder_ok b0).
  { unfold castle_builder_ok, b0. cbn. repeat split; try reflexivity.
    intros p e Hp. rewrite lookup_nil in Hp. discriminate. }
  assert (L : length (b_heap b0) = 0%nat) by reflexivity.
  clearbody b0.
  do 36 castle_ritem Hrun I L.
  injection Hrun as <-. eexists. split; [exact I|]. split; [exact L|].
  reflexivity.
Qed.

Lemma castle_BuildRenderItems_total (s : State F) :
  is_Some (mGeometries s !! "shapeGeo") -> is_Some (BuildRenderItems s).
Proof.
  intros Hgeo. unfold BuildRenderItems.
  cbn [TreeBillboardsApp.for_each]. unfold build_tower, build_fence.
  do 36 castle_ritem_total. eauto.
Qed.

(** The state [Initialize] returns. *)
Lemma castle_Initialize_spec (m : GeneratedMeshes F)
    (uninit_obj : ObjectConstants.t F) :
  exists s b,
    Initialize m uninit_obj = Some s /\
    castle_builder_ok b /\ length (b_heap b) = 36%nat /\
    heap s = b_heap b /\ mAllRitems s = b_all b /\
    mOpaqueRitems s = b_all b /\
    length (mFrameResources s) = 3%nat /\ mCurrFrameResourceIndex s = 0.
Proof.
  unfold Initialize.
  set (s0 := BuildShapeGeometry m State_new).
  assert (Hgeo : is_Some (mGeometries s0 !! "shapeGeo")).
  { unfold s0, BuildShapeGeometry. cbn [mGeometries set_mGeometries].
    rewrite lookup_insert_eq. eauto. }
  destruct (castle_BuildRenderItems_total s0 Hgeo) as [s1 Hs1].
  rewrite Hs1. cbn [mbind option_bind].
  destruct (castle_BuildRenderItems_ok s0 s1 eq_refl eq_refl eq_refl Hs1)
    as (b & Hb & Hlen & ->).
  assert (Hcount : length (b_all b) = 36%nat).
  { destruct Hb as (-> & _). rewrite length_seq. exact Hlen. }
  set (s2 := BuildFrameResources uninit_obj _).
  assert (Hopq : mOpaqueRitems s2 = b_all b) by reflexivity.
  assert (Hfr : length (mFrameResources s2) = 3%nat) by reflexivity.
  destruct (BuildConstantBufferViews_spec s2) as (s3 & Hs3 & Hopq3 & _).
  { rewrite Hopq, Hcount. reflexivity. }
  { rewrite Hfr. lia. }
  exists s3, b. split; [exact Hs3|]. split; [exact Hb|]. split; [exact Hlen|].
  unfold BuildConstantBufferViews in Hs3.
  destruct (_ <? _) in Hs3; [discriminate|]. injection Hs3 as <-.
  repeat split; reflexivity.
Qed.

End CastleLayers.

Section Partition.
Context {F W : Type} `{FloatOps F} `{FloatLib F} `{WavesOps F W}.

Lemma builder_ok_partition (b : TreeBillboardsApp.Builder F) :
  builder_ok [] b ->
  layer_partition (TreeBillboardsApp.b_layers b) (TreeBillboardsApp.b_all b) /\
  concat (TreeBillboardsApp.b_layers b) ≡ₚ TreeBillboardsApp.b_all b /\
  forall p, p ∈ TreeBillboardsApp.b_all b
            <-> is_Some (TreeBillboardsApp.b_heap b !! p).
Proof.
  intros (_ & Hall & Hlayers & _). rewrite app_nil_r in Hall.
  assert (Hperm : concat (TreeBillboardsApp.b_layers b)
                  ≡ₚ TreeBillboardsApp.b_all b)
    by (rewrite Hall, Hlayers; reflexivity).
  split; [|split; [exact Hperm|]].
  - apply layer_partition_intro; [|exact Hperm].
    rewrite Hall. apply NoDup_seq.
  - intros p. rewrite Hall, elem_of_seq, lookup_lt_is_Some. lia.
Qed.

Lemma castle_builder_ok_partition (b : MyCastleApp.Builder F) :
  castle_builder_ok b ->
  layer_partition [MyCastleApp.b_all b] (MyCastleApp.b_all b) /\
  forall p, p ∈ MyCastleApp.b_all b
            <-> is_Some (MyCastleApp.b_heap b !! p).
Proof.
  intros (Hall & _). split.
  - apply layer_partition_intro; [rewrite Hall; apply NoDup_seq|].
    cbn. rewrite app_nil_r. reflexivity.
  - intros p. rewrite Hall, elem_of_seq, lookup_lt_is_Some. lia.
Qed.

(** C5.  Layer partition.  [Initialize] of the tree-billboards
    application completes and leaves thirty render items, each of them in
    [mAllRitems] once and in exactly one of the four layer buckets, once;
    the buckets together hold the items of [mAllRitems] and nothing else.
    The same holds of every completed [BuildRenderItems] that starts from
    empty containers.  In the castle application the one bucket is
    [mOpaqueRitems], which holds the thirty-six render items of
    [mAllRitems]. *)
Theorem layer_partition_after_assembly :
  (forall inp : TreeBillboardsApp.InitInput F W,
     exists s,
       TreeBillboardsApp.Initialize inp = Some s /\
       layer_partition (TreeBillboardsApp.mRitemLayer s)
                       (TreeBillboardsApp.mAllRitems s) /\
       concat (TreeBillboardsApp.mRitemLayer s)
         ≡ₚ TreeBillboardsApp.mAllRitems s /\
       length (TreeBillboardsApp.mRitemLayer s)
         = TreeBillboardsApp.RenderLayer_Count /\
       length (TreeBillboardsApp.mAllRitems s) = 30%nat /\
       forall p, p ∈ TreeBillboardsApp.mAllRitems s
                 <-> is_Some (TreeBillboardsApp.heap s !! p)) /\
  (forall s s' : TreeBillboardsApp.State F W,
     TreeBillboardsApp.heap s = [] ->
     TreeBillboardsApp.mAllRitems s = [] ->
     TreeBillboardsApp.mRitemLayer s
       = replicate TreeBillboardsApp.RenderLayer_Count [] ->
     TreeBillboardsApp.BuildRenderItems s = Some s' ->
     layer_partition (TreeBillboardsApp.mRitemLayer s')
                     (TreeBillboardsApp.mAllRitems s') /\
     concat (TreeBillboardsApp.mRitemLayer s')
       ≡ₚ TreeBillboardsApp.mAllRitems s') /\
  (forall (m : GeneratedMeshes F) (u : MyCastleApp.ObjectConstants.t F),
     exists s,
       MyCastleApp.Initialize m u = Some s /\
       layer_partition [MyCastleApp.mOpaqueRitems s]
                       (MyCastleApp.mAllRitems s) /\
       MyCastleApp.mOpaqueRitems s = MyCastleApp.mAllRitems s /\
       length (MyCastleApp.mAllRitems s) = 36%nat /\
       forall p, p ∈ MyCastleApp.mAllRitems s
                 <-> is_Some (MyCastleApp.heap s !! p)) /\
  (forall s s' : MyCastleApp.State F,
     MyCastleApp.heap s = [] -> MyCastleApp.mAllRitems s = [] ->
     MyCastleApp.mOpaqueRitems s = [] ->
     MyCastleApp.BuildRenderItems s = Some s' ->
     layer_partition [MyCastleApp.mOpaqueRitems s']
                     (MyCastleApp.mAllRitems s')).
Proof.
  split; [|split; [|split]].
  - intros inp. destruct (Initialize_spec inp)
      as (s & b & Hs & Hb & Hlen & Hheap & Hall & Hlayers & _).
    exists s. split; [exact Hs|]. rewrite Hheap, Hall, Hlayers.
    destruct (builder_ok_partition b Hb) as (Hpart & Hperm & Hin).
    split; [exact Hpart|]. split; [exact Hperm|].
    split; [apply Hb|]. split; [|exact Hin].
    destruct Hb as (_ & Hp & _). rewrite app_nil_r in Hp.
    rewrite Hp, length_seq. exact Hlen.
  - intros s s' Hheap Hall Hlayers Hrun.
    destruct (BuildRenderItems_ok s s' Hheap Hall Hlayers Hrun)
      as (b & Hb & _ & ->).
    destruct (builder_ok_partition b Hb) as (Hpart & Hperm & _).
    split; assumption.
  - intros m u. destruct (castle_Initialize_spec m u)
      as (s & b & Hs & Hb & Hlen & Hheap & Hall & Hopq & _).
    exists s. split; [exact Hs|]. rewrite Hheap, Hall, Hopq.
    destruct (castle_builder_ok_partition b Hb) as (Hpart & Hin).
    split; [exact Hpart|]. split; [reflexivity|]. split; [|exact Hin].
    destruct Hb as (-> & _). rewrite length_seq. exact Hlen.
  - intros s s' Hheap Hall Hopq Hrun.
    destruct (castle_BuildRenderItems_ok s s' Hheap Hall Hopq Hrun)
      as (b & Hb & _ & ->).
    apply (castle_builder_ok_partition b Hb).
Qed.

End Partition.

(** ** What the frames leave unchanged *)

Section SameScene.
Context {F W : Type} `{FloatOps F} `{WavesOps F W}.
Import TreeBillboardsApp.
Implicit Type s : State F W.

Lemma same_scene_refl s : same_scene s s.
Proof. repeat split. Qed.

Lemma same_scene_trans s1 s2 s3 :
  same_scene s1 s2 -> same_scene s2 s3 -> same_scene s1 s3.
Proof.
  intros (A1 & L1 & W1 & I1 & M1 & G1) (A2 & L2 & W2 & I2 & M2 & G2).
  split; [congruence|]. split; [congruence|]. split; [congruence|].
  split; [|split].
  - intros p. rewrite I2. apply I1.
  - intros n. rewrite M2. apply M1.
  - intros g. rewrite G2. apply G1.
Qed.

Lemma same_scene_length s0 s :
  same_scene s0 s -> length (heap s) = length (heap s0).
Proof.
  intros (_ & _ & _ & Hitems & _).
  destruct (Nat.lt_trichotomy (length (heap s)) (length (heap s0)))
    as [Hlt | [Heq | Hgt]]; [exfalso | exact Heq | exfalso].
  - specialize (Hitems (length (heap s))).
    rewrite (lookup_ge_None_2 (heap s)) in Hitems by lia.
    destruct (lookup_lt_is_Some_2 (heap s0) _ Hlt) as [e He].
    rewrite He in Hitems. discriminate.
  - specialize (Hitems (length (heap s0))).
    rewrite (lookup_ge_None_2 (heap s0)) in Hitems by lia.
    destruct (lookup_lt_is_Some_2 (heap s) _ Hgt) as [e He].
    rewrite He in Hitems. discriminate.
Qed.

Lemma UpdateObjectCBs_loop_static (ritems : list nat)
    (h h' : list (RenderItem.t F)) (cb cb' : list (ObjectConstants.t F)) :
  UpdateObjectCBs_loop ritems h cb = Some (h', cb') ->
  forall q, static_item <$> h' !! q = static_item <$> h !! q.
Proof.
  revert h cb. induction ritems as [|p rest IH]; intros h cb Hloop q.
  - cbn in Hloop. injection Hloop as <- <-. reflexivity.
  - cbn [UpdateObjectCBs_loop] in Hloop.
    destruct (h !! p) as [e|] eqn:He; [|discriminate]. cbn in Hloop.
    destruct (0 <? RenderItem.NumFramesDirty e).
    + rewrite (IH _ _ Hloop q).
      destruct (decide (p = q)) as [->|Hne].
      * rewrite list_lookup_insert_eq by (apply lookup_lt_is_Some; eauto).
        rewrite He. reflexivity.
      * rewrite list_lookup_insert_ne by exact Hne. reflexivity.
    + exact (IH _ _ Hloop q).
Qed.

Lemma static_material_tick (m : Material.t F) :
  static_material (tick m) = static_material m.
Proof. unfold tick. case_match; reflexivity. Qed.

Lemma frame_same_scene (i : FrameInput F) s g s' g' :
  frame i (s, g) = Some (s', g') -> same_scene s s'.
Proof.
  intros Hframe.
  destruct (frame_effect _ _ _ _ _ Hframe)
    as (fr & w & r & p & ri & gn & geo & cmds & g1 & _ & _ & Hw & Hloop & _
        & _ & _ & Hgeo & _ & _ & _ & _ & Hheap & Hall & Hlayers & Hwaves
        & Hmat & Hgeos & _).
  split; [exact Hall|]. split; [exact Hlayers|]. split; [exact Hwaves|].
  split; [|split].
  - intros q. rewrite Hheap. destruct r as [h' cb'].
    exact (UpdateObjectCBs_loop_static _ _ _ _ _ Hloop q).
  - intros n. rewrite Hmat, lookup_fmap.
    destruct (decide (n = "water")) as [->|Hne].
    + rewrite lookup_insert_eq, Hw. cbn [fmap option_fmap option_map].
      rewrite static_material_tick. reflexivity.
    + rewrite lookup_insert_ne by congruence.
      destruct (mMaterials s !! n) as [m|]; [|reflexivity].
      cbn [fmap option_fmap option_map]. rewrite static_material_tick.
      reflexivity.
  - intros g2. rewrite Hgeos.
    destruct (decide (g2 = gn)) as [->|Hne].
    + rewrite lookup_insert_eq, Hgeo. reflexivity.
    + rewrite lookup_insert_ne by congruence. reflexivity.
Qed.

Lemma run_same_scene (inputs : list (FrameInput F)) s g s' g' :
  run inputs (s, g) = Some (s', g') -> same_scene s s'.
Proof.
  revert s g. induction inputs as [|i rest IH]; intros s g Hrun.
  - cbn in Hrun. injection Hrun as <- <-. apply same_scene_refl.
  - cbn [run] in Hrun.
    destruct (frame i (s, g)) as [[s1 g1]|] eqn:Hframe; [|discriminate].
    cbn in Hrun.
    exact (same_scene_trans _ _ _ (frame_same_scene _ _ _ _ _ Hframe)
             (IH _ _ Hrun)).
Qed.

(** X4.  What the frames leave unchanged.  Over a run of frames the list
    of render items, the layer buckets and the render item of the waves
    stay as they are; a render item changes in its dirty counter only, a
    material in its dirty counter and its transform only, and a geometry
    in the handle of its vertex buffer only: no frame adds, removes or
    moves a render item, and none changes a submesh range, a material
    index or a texture index. *)
Theorem frames_keep_scene (inputs : list (FrameInput F)) s g s' g' :
  run inputs (s, g) = Some (s', g') ->
  mAllRitems s' = mAllRitems s /\
  mRitemLayer s' = mRitemLayer s /\
  mWavesRitem s' = mWavesRitem s /\
  length (heap s') = length (heap s) /\
  (forall p e', heap s' !! p = Some e' ->
     exists e, heap s !! p = Some e /\
       e' = RenderItem.set_NumFramesDirty (RenderItem.NumFramesDirty e') e) /\
  (forall n m', mMaterials s' !! n = Some m' ->
     exists m, mMaterials s !! n = Some m /\
       m' = Material.set_MatTransform (Material.MatTransform m')
              (Material.set_NumFramesDirty (Material.NumFramesDirty m') m)) /\
  (forall n geo', mGeometries s' !! n = Some geo' ->
     exists geo, mGeometries s !! n = Some geo /\
       geo' = set_VertexBufferGPU (VertexBufferGPU geo') geo).
Proof.
  intros Hrun.
  destruct (run_same_scene inputs s g s' g' Hrun)
    as (Hall & Hlayers & Hwaves & Hitems & Hmats & Hgeos).
  split; [exact Hall|]. split; [exact Hlayers|]. split; [exact Hwaves|].
  split; [|split; [|split]].
  - exact (same_scene_length s s' (run_same_scene inputs s g s' g' Hrun)).
  - intros p e' He'. specialize (Hitems p). rewrite He' in Hitems.
    destruct (heap s !! p) as [e|]; [|discriminate].
    exists e. split; [reflexivity|].
    cbn in Hitems. injection Hitems as Hst.
    destruct e', e. unfold static_item, RenderItem.set_NumFramesDirty in *.
    cbn in *. congruence.
  - intros n m' Hm'. specialize (Hmats n). rewrite Hm' in Hmats.
    destruct (mMaterials s !! n) as [m|]; [|discriminate].
    exists m. split; [reflexivity|].
    cbn in Hmats. injection Hmats as Hst.
    destruct m', m.
    unfold static_material, Material.set_MatTransform,
      Material.set_NumFramesDirty in *.
    cbn in *. congruence.
  - intros n geo' Hgeo'. specialize (Hgeos n). rewrite Hgeo' in Hgeos.
    destruct (mGeometries s !! n) as [geo|]; [|discriminate].
    exists geo. split; [reflexivity|].
    cbn in Hgeos. injection Hgeos as Hst.
    destruct geo', geo. unfold static_geometry_of, set_VertexBufferGPU in *.
    cbn in *. congruence.
Qed.

End SameScene.

(** ** Frames in flight *)

Section Flight.
Context {F W : Type} `{FloatOps F} `{WavesOps F W}.
Import TreeBillboardsApp.
Implicit Type s : State F W.

Lemma ring_slot_cases (idx : Z) (j : nat) :
  0 <= idx < 3 -> (j < 2)%nat ->
  Z.to_nat ((Z.rem (idx + 1) 3 - Z.of_nat (S j)) mod 3)
  = Z.to_nat ((idx - Z.of_nat j) mod 3) /\
  Z.to_nat ((idx - Z.of_nat j) mod 3) <> Z.to_nat (Z.rem (idx + 1) 3) /\
  Z.to_nat (Z.rem (idx + 1) 3 mod 3) = Z.to_nat (Z.rem (idx + 1) 3).
Proof.
  intros Hidx Hj.
  assert (Hi : idx = 0 \/ idx = 1 \/ idx = 2) by lia.
  assert (Hj' : j = 0%nat \/ j = 1%nat) by lia.
  destruct Hi as [-> | [-> | ->]], Hj' as [-> | ->]; vm_compute;
    repeat split; discriminate.
Qed.

Lemma frame_stamped (i : FrameInput F) (n : nat) s g s' g' :
  ring_ok s g -> mCurrentFence s + 1 < 2 ^ 64 ->
  ring_stamped n s ->
  frame i (s, g) = Some (s', g') ->
  ring_stamped (S n) s'.
Proof.
  intros Hring Hb Hst Hframe.
  pose proof Hring as (Hlen & Hidx & _ & _ & Hfences).
  assert (Hf0 : 0 <= mCurrentFence s).
  { destruct (mFrameResources s) as [|fr l]; [discriminate Hlen|].
    apply Forall_cons in Hfences as [Hfr _]. lia. }
  destruct (frame_effect _ _ _ _ _ Hframe)
    as (fr & w & r & p & ri & gn & geo & cmds & g1 & Hfr & _ & _ & _ & _ & _
        & _ & _ & Hfrs & _ & Hidx' & Hfence' & _).
  assert (Hwrap : UINT64 (mCurrentFence s + 1) = mCurrentFence s + 1).
  { unfold UINT64. apply Z.mod_small. lia. }
  rewrite Hwrap in Hfrs, Hfence'.
  unfold gNumFrameResources in *.
  intros j fr' Hj3 Hjn Hlook. rewrite Hidx', Hfence' in *.
  rewrite Hfrs in Hlook. unfold next_slot, gNumFrameResources in Hlook.
  destruct j as [|j].
  - destruct (ring_slot_cases (mCurrFrameResourceIndex s) 0 Hidx ltac:(lia))
      as (_ & _ & Heq).
    change (Z.of_nat 0) with 0 in *. rewrite Z.sub_0_r in *.
    rewrite Heq, list_lookup_insert_eq in Hlook
      by (apply lookup_lt_is_Some; unfold next_slot, gNumFrameResources in Hfr;
          eauto).
    injection Hlook as <-. cbn. lia.
  - destruct (ring_slot_cases (mCurrFrameResourceIndex s) j Hidx ltac:(lia))
      as (Heq & Hne & _).
    rewrite Heq, list_lookup_insert_ne in Hlook by (intros E; apply Hne; auto).
    rewrite (Hst j fr' ltac:(lia) ltac:(lia) Hlook). lia.
Qed.

Lemma run_stamped (inputs : list (FrameInput F)) (n : nat) s g s' g' :
  ring_ok s g ->
  mCurrentFence s + Z.of_nat (length inputs) < 2 ^ 64 ->
  ring_stamped n s ->
  run inputs (s, g) = Some (s', g') ->
  ring_stamped (length inputs + n) s'.
Proof.
  revert n s g. induction inputs as [|i rest IH]; intros n s g Hring Hb Hst Hrun.
  - cbn in Hrun. injection Hrun as <- <-. exact Hst.
  - cbn [run] in Hrun. cbn [length] in Hb.
    destruct (frame i (s, g)) as [[s1 g1]|] eqn:Hframe; [|discriminate].
    cbn in Hrun.
    destruct (frame_ring_ok i s g s1 g1 Hring ltac:(lia) Hframe) as [Hr1 Hf1].
    pose proof (frame_stamped i n s g s1 g1 Hring ltac:(lia) Hst Hframe) as Hs1.
    pose proof (IH (S n) s1 g1 Hr1 ltac:(lia) Hs1 Hrun) as Hfin.
    cbn [length]. replace (S (length rest) + n)%nat
      with (length rest + S n)%nat by lia. exact Hfin.
Qed.

(** X2.  Frames in flight.  Every frame stamps its frame resource with the
    fence counter it has just advanced by one, and the stamp stays until
    the frame resource is used again three frames later; so when the
    update phase of a frame that follows three or more frames returns from
    its wait, the GPU has completed every frame but the last two. *)
Theorem frames_in_flight (inputs : list (FrameInput F)) (i : FrameInput F)
    s g s1 g1 s2 g2 :
  ring_ok s g ->
  mCurrentFence s + Z.of_nat (length inputs) + 1 < 2 ^ 64 ->
  run inputs (s, g) = Some (s1, g1) ->
  Update i s1 g1 = Some (s2, g2) ->
  mCurrentFence s1 = mCurrentFence s + Z.of_nat (length inputs) /\
  LastSignal g1 = mCurrentFence s1 /\
  ring_stamped (length inputs) s1 /\
  ((3 <= length inputs)%nat -> mCurrentFence s1 - 2 <= CompletedValue g2).
Proof.
  intros Hring Hb Hrun Hupd.
  destruct (run_ring_ok inputs s g s1 g1 Hring ltac:(lia) Hrun) as [Hr1 Hf1].
  assert (Hst0 : ring_stamped 0 s) by (intros j fr _ Hj; lia).
  pose proof (run_stamped inputs 0 s g s1 g1 Hring ltac:(lia) Hst0 Hrun) as Hst.
  rewrite Nat.add_0_r in Hst.
  split; [exact Hf1|]. split; [apply Hr1|]. split; [exact Hst|].
  intros Hn. pose proof Hr1 as (Hlen & Hidx & Hc & Hsig & Hfences).
  destruct (Update_inv i s1 g1 s2 g2 Hupd) as (fr & Hfr & Hwait & _).
  assert (Hfence : 0 <= FrameResource.Fence fr <= LastSignal g1).
  { rewrite Hsig. exact (Forall_lookup_1 _ _ _ _ Hfences Hfr). }
  destruct (WaitForFrameResource_returns i _ g1 Hc Hfence)
    as (g' & Hwait' & Hdone & _).
  rewrite Hwait in Hwait'. injection Hwait' as <-.
  enough (FrameResource.Fence fr = mCurrentFence s1 - 2) by lia.
  apply (Hst 2%nat fr ltac:(lia) ltac:(lia)).
  unfold next_slot, gNumFrameResources in Hfr.
  unfold gNumFrameResources in Hidx.
  destruct (ring_slot_cases (mCurrFrameResourceIndex s1) 1 Hidx ltac:(lia))
    as (_ & _ & _).
  assert (Hi : mCurrFrameResourceIndex s1 = 0 \/ mCurrFrameResourceIndex s1 = 1
               \/ mCurrFrameResourceIndex s1 = 2) by lia.
  destruct Hi as [E | [E | E]]; rewrite E in *; exact Hfr.
Qed.

End Flight.

(** ** Settled render items *)

Section Settled.
Context {F W : Type} `{FloatOps F} `{WavesOps F W}.
Import TreeBillboardsApp.
Implicit Type s : State F W.

Lemma tick_item_counter (e : RenderItem.t F) :
  0 <= RenderItem.NumFramesDirty e ->
  RenderItem.NumFramesDirty (tick_item e)
  = Z.max 0 (RenderItem.NumFramesDirty e - 1).
Proof.
  intros Hd. unfold tick_item.
  destruct (0 <? RenderItem.NumFramesDirty e) eqn:E; cbn; lia.
Qed.

(** X3.  Countdown of the dirty counter.  Over a run of [n] frames the
    dirty counter of a render item goes down by one per frame and stops at
    0, while its world matrix and its constant-buffer index stay; a render
    item whose counter is 0 is left as it is, and no frame writes the
    element of any object constant buffer that belongs to it. *)
Theorem dirty_countdown (inputs : list (FrameInput F)) s g s' g' p e :
  items_ok s ->
  run inputs (s, g) = Some (s', g') ->
  p ∈ mAllRitems s -> heap s !! p = Some e ->
  0 <= RenderItem.NumFramesDirty e ->
  (exists e',
     heap s' !! p = Some e' /\
     RenderItem.NumFramesDirty e'
       = Z.max 0 (RenderItem.NumFramesDirty e - Z.of_nat (length inputs)) /\
     RenderItem.ObjCBIndex e' = RenderItem.ObjCBIndex e /\
     objConstants e' = objConstants e) /\
  (RenderItem.NumFramesDirty e = 0 ->
   heap s' !! p = Some e /\
   forall k, object_constants s' k (RenderItem.ObjCBIndex e)
             = object_constants s k (RenderItem.ObjCBIndex e)).
Proof.
  revert s g e. induction inputs as [|i rest IH]; intros s g e Hok Hrun Hp He Hd.
  - cbn in Hrun. injection Hrun as <- <-. split.
    + exists e. cbn [length]. repeat split; [exact He | lia].
    + intros _. split; [exact He | reflexivity].
  - cbn [run] in Hrun.
    destruct (frame i (s, g)) as [[s1 g1]|] eqn:Hframe; [|discriminate].
    cbn in Hrun.
    destruct (frame_items i s g s1 g1 Hok Hframe)
      as (Hall & Htick & _ & Hkeep & Hother & Hok1).
    pose proof (Htick p e Hp He) as He1.
    assert (Hp1 : p ∈ mAllRitems s1) by (rewrite Hall; exact Hp).
    pose proof (tick_item_counter e Hd) as Hc.
    destruct (IH s1 g1 (tick_item e) Hok1 Hrun Hp1 He1 ltac:(lia))
      as ((e' & He' & Hn & Hidx & Hcon) & Hsettled).
    split.
    + exists e'. split; [exact He'|]. split; [cbn [length]; lia|].
      rewrite Hidx, Hcon, tick_item_ObjCBIndex, tick_item_objConstants. auto.
    + intros Hz.
      assert (Et : tick_item e = e) by (apply tick_item_settled; lia).
      rewrite Et in *.
      destruct (Hsettled Hz) as [Hh Hcb]. split; [exact Hh|].
      intros k. rewrite Hcb.
      destruct (decide (k = next_slot s)) as [-> | Hne].
      * apply Hkeep with p; [exact Hp | exact He | lia].
      * apply Hother. exact Hne.
Qed.

End Settled.

(** ** One draw call per render item *)

Section DrawnOnce.
Context {F W : Type} `{FloatOps F} `{FloatLib F} `{WavesOps F W}.
Import TreeBillboardsApp.
Implicit Type s : State F W.

(** The draw calls of the commands of [Draw], layer after layer. *)
Lemma Draw_commands_calls s k cmds :
  Draw_commands s k = Some cmds ->
  draws_in_order s k
    ((pair Opaque <$> layer_items s Opaque)
     ++ (pair AlphaTested <$> layer_items s AlphaTested)
     ++ (pair AlphaTestedTreeSprites <$> layer_items s AlphaTestedTreeSprites)
     ++ (pair Transparent <$> layer_items s Transparent))
    cmds.
Proof.
  intros Hd. unfold Draw_commands in Hd.
  destruct (DrawRenderItems s k (layer_items s Opaque)) as [c0|] eqn:E0;
    [|discriminate]. cbn in Hd.
  destruct (DrawRenderItems s k (layer_items s AlphaTested)) as [c1|] eqn:E1;
    [|discriminate]. cbn in Hd.
  destruct (DrawRenderItems s k (layer_items s AlphaTestedTreeSprites))
    as [c2|] eqn:E2; [|discriminate]. cbn in Hd.
  destruct (DrawRenderItems s k (layer_items s Transparent)) as [c3|] eqn:E3;
    [|discriminate]. cbn in Hd.
  injection Hd as <-.
  destruct (DrawRenderItems_calls s k Opaque _ _ E0) as (k0 & F0 & S0).
  destruct (DrawRenderItems_calls s k AlphaTested _ _ E1) as (k1 & F1 & S1).
  destruct (DrawRenderItems_calls s k AlphaTestedTreeSprites _ _ E2)
    as (k2 & F2 & S2).
  destruct (DrawRenderItems_calls s k Transparent _ _ E3) as (k3 & F3 & S3).
  unfold draws_in_order, draw_calls.
  cbn [draw_calls_from app Z.eqb Pos.eqb].
  destruct (S0 None (CmdSetPipelineState "alphaTested" :: c1
                     ++ CmdSetPipelineState "treeSprites" :: c2
                     ++ CmdSetPipelineState "transparent" :: c3
                     ++ [CmdResourceBarrier false; CmdClose])) as (o0 & R0).
  cbn [pso_of] in R0. rewrite R0. cbn [draw_calls_from].
  destruct (S1 o0 (CmdSetPipelineState "treeSprites" :: c2
                   ++ CmdSetPipelineState "transparent" :: c3
                   ++ [CmdResourceBarrier false; CmdClose])) as (o1 & R1).
  cbn [pso_of] in R1. rewrite R1. cbn [draw_calls_from].
  destruct (S2 o1 (CmdSetPipelineState "transparent" :: c3
                   ++ [CmdResourceBarrier false; CmdClose])) as (o2 & R2).
  cbn [pso_of] in R2. rewrite R2. cbn [draw_calls_from].
  destruct (S3 o2 [CmdResourceBarrier false; CmdClose]) as (o3 & R3).
  cbn [pso_of] in R3. rewrite R3. cbn [draw_calls_from]. rewrite app_nil_r.
  repeat apply Forall2_app; assumption.
Qed.

(** The four buckets in the draw order hold what the buckets hold. *)
Lemma draw_order_items s :
  length (mRitemLayer s) = RenderLayer_Count ->
  layer_items s Opaque ++ layer_items s AlphaTested
  ++ layer_items s AlphaTestedTreeSprites ++ layer_items s Transparent
  ≡ₚ concat (mRitemLayer s).
Proof.
  intros Hlen. unfold layer_items.
  destruct (mRitemLayer s) as [|l0 [|l1 [|l2 [|l3 [|l4 rest]]]]];
    try discriminate Hlen.
  cbn. rewrite app_nil_r.
  rewrite (Permutation_app_comm l1 (l2 ++ l3)), <- !app_assoc.
  reflexivity.
Qed.

Lemma snd_pair_fmap (l : RenderLayer) (ps : list nat) :
  (pair l <$> ps).*2 = ps.
Proof. induction ps as [|p ps IH]; [reflexivity | cbn; f_equal; exact IH]. Qed.

(** A render item keeps its constant-buffer index over a run. *)
Lemma same_scene_item (s0 s : State F W) p e0 :
  same_scene s0 s -> heap s0 !! p = Some e0 ->
  exists e, heap s !! p = Some e /\ static_item e = static_item e0.
Proof.
  intros (_ & _ & _ & Hitems & _) He0. specialize (Hitems p).
  rewrite He0 in Hitems. destruct (heap s !! p) as [e|]; [|discriminate].
  exists e. split; [reflexivity|]. cbn in Hitems. congruence.
Qed.

Lemma Forall2_calls s k (order : list (RenderLayer * nat))
    (calls : list DrawCall) :
  Forall2 (fun lp c => call_of s k lp = Some c) order calls ->
  length calls = length order /\
  object_cb <$> calls
  = (fun p => object_address k <$> heap s !! p) <$> order.*2.
Proof.
  induction 1 as [|lp c order calls Hc _ [IHl IHc]]; [split; reflexivity|].
  split; [cbn; lia|]. cbn [fmap list_fmap]. rewrite <- IHc. f_equal.
  unfold call_of in Hc.
  destruct (heap s !! lp.2) as [ri|]; [|discriminate].
  cbn in Hc. injection Hc as <-. reflexivity.
Qed.

(** X5.  One draw call per render item.  In every frame that follows
    [Initialize], [Draw] records exactly one draw call for each of the 30
    render items, and no two draw calls of the frame read the same element
    of the object constant buffer. *)
Theorem every_item_drawn_once (inp : InitInput F W)
    (inputs : list (FrameInput F)) (g g' : Gpu) (s0 s : State F W)
    (k : nat) (cmds : list Command) :
  Initialize inp = Some s0 ->
  run inputs (s0, g) = Some (s, g') ->
  Draw_commands s k = Some cmds ->
  exists order : list (RenderLayer * nat),
    draws_in_order s k order cmds /\
    order.*2 ≡ₚ mAllRitems s /\
    NoDup (mAllRitems s) /\
    length (draw_calls cmds) = 30%nat /\
    NoDup (object_cb <$> draw_calls cmds).
Proof.
  intros Hinit Hrun Hd.
  pose proof (run_same_scene inputs s0 g s g' Hrun) as Hsame.
  pose proof Hsame as (Hall & Hlayers & _).
  destruct (Initialize_spec inp) as (s0' & b & Hs0 & Hspec).
  rewrite Hinit in Hs0. injection Hs0 as <-.
  destruct Hspec as (Hb & Hlen & Hheap & Hall0 & Hlayers0 & _).
  destruct Hb as (Hl4 & Hperm & Hconcat & _ & Hidx).
  rewrite app_nil_r, Hlen in Hperm. rewrite Hlen in Hconcat.
  pose proof (Draw_commands_calls s k cmds Hd) as Hcalls.
  set (order := (pair Opaque <$> layer_items s Opaque) ++ _) in Hcalls.
  assert (Horder : order.*2 ≡ₚ seq 0 30).
  { subst order. rewrite !fmap_app, !snd_pair_fmap.
    rewrite draw_order_items by congruence.
    rewrite Hlayers, Hlayers0. exact Hconcat. }
  assert (Hnd : NoDup (mAllRitems s))
    by (rewrite Hall, Hall0, Hperm; apply NoDup_seq).
  destruct (Forall2_calls s k order _ Hcalls) as [Hn Hcb].
  exists order. split; [exact Hcalls|].
  split; [rewrite Hall, Hall0, Hperm; exact Horder|].
  split; [exact Hnd|].
  split; [rewrite Hn, <- (length_fmap snd), Horder; apply length_seq|].
  rewrite Hcb. apply NoDup_fmap_2_strong; [|rewrite Horder; apply NoDup_seq].
  intros p q Hp Hq Heq. rewrite Horder in Hp, Hq.
  apply elem_of_seq in Hp, Hq.
  assert (Hat : forall r, (r < 30)%nat ->
            exists e, heap s !! r = Some e
                      /\ RenderItem.ObjCBIndex e = Z.of_nat r).
  { intros r Hr.
    destruct (lookup_lt_is_Some_2 (heap s0) r) as [e0 He0];
      [rewrite Hheap, Hlen; exact Hr|].
    destruct (same_scene_item s0 s r e0 Hsame He0) as (e & He & Hi).
    exists e. split; [exact He|].
    change (RenderItem.ObjCBIndex e)
      with (RenderItem.ObjCBIndex (static_item e)).
    rewrite Hi. cbn [static_item RenderItem.set_NumFramesDirty
                     RenderItem.ObjCBIndex].
    rewrite Hheap in He0. destruct (Hidx r e0 He0) as (-> & _).
    apply UINT_small. lia. }
  destruct (Hat p ltac:(lia)) as (ep & Hep & Hip).
  destruct (Hat q ltac:(lia)) as (eq & Heq' & Hiq).
  rewrite Hep, Heq' in Heq. cbn in Heq. injection Heq as Heq.
  rewrite Hip, Hiq in Heq.
  change objCBByteSize with 256 in Heq.
  rewrite !UINT_small in Heq by lia. lia.
Qed.

End DrawnOnce.

(** ** The render items of the layers *)

Section LayerKinds.
Context {F W : Type} `{FloatOps F} `{FloatLib F} `{WavesOps F W}.
Import TreeBillboardsApp.
Implicit Type s : State F W.

Lemma new_ritem_kind s world tex mat geo prim arg l (b b' : Builder F) p :
  built_kinds b -> is_Some (mMaterials s !! mat) ->
  (mat, geo, prim) ∈ layer_kinds l ->
  new_ritem s world tex mat geo prim arg l b = Some (p, b') ->
  built_kinds b'.
Proof.
  intros [Hlen Hk] [m Hm] Hin Hnew. unfold new_ritem in Hnew.
  destruct (mGeometries s !! geo) as [g|]; [|discriminate].
  cbn in Hnew. injection Hnew as <- <-.
  split; [apply (push_layer_items Opaque l _ _ Hlen)|].
  intros l' q Hq. cbn [b_layers b_heap] in *.
  rewrite (proj2 (push_layer_items l' l _ _ Hlen)) in Hq.
  apply elem_of_app in Hq as [Hq | Hq].
  - destruct (Hk l' q Hq) as (e & He & Hkind). exists e.
    split; [apply lookup_app_l_Some; exact He | exact Hkind].
  - destruct (decide (l = l')) as [<-|]; [|inversion Hq].
    apply list_elem_of_singleton in Hq as ->.
    eexists. split; [apply list_lookup_middle; reflexivity|].
    exists mat, geo. cbn. unfold ptr_to. rewrite Hm. auto.
Qed.

(** One render item, in a hypothesis on the result of a builder. *)
Ltac ritem_kind Hrun Hmats I0 I1 :=
  let E := fresh "E" in
  match type of Hrun with
  | context [new_ritem ?s ?w ?t ?m ?g ?pr ?a ?l ?b] =>
      destruct (new_ritem s w t m g pr a l b) as [[? ?]|] eqn:E;
      [|discriminate Hrun];
      cbn [mbind option_bind] in Hrun;
      assert (I1 := new_ritem_kind s w t m g pr a l b _ _ I0
                      (scene_material s m Hmats ltac:(set_solver))
                      ltac:(cbn [layer_kinds]; set_solver) E);
      clear E
  end.

Lemma build_tower_kind s (b b' : Builder F) (d : Q * Q) :
  scene_materials s -> built_kinds b -> build_tower s b d = Some b' ->
  built_kinds b'.
Proof.
  intros Hmats I0 Hrun. unfold build_tower in Hrun.
  ritem_kind Hrun Hmats I0 I1. ritem_kind Hrun Hmats I1 I2.
  ritem_kind Hrun Hmats I2 I3.
  injection Hrun as <-. exact I3.
Qed.

Lemma build_fence_kind s (b b' : Builder F) (loc : Q) :
  scene_materials s -> built_kinds b -> build_fence s b loc = Some b' ->
  built_kinds b'.
Proof.
  intros Hmats I0 Hrun. unfold build_fence in Hrun.
  ritem_kind Hrun Hmats I0 I1. ritem_kind Hrun Hmats I1 I2.
  injection Hrun as <-. exact I2.
Qed.

Lemma BuildRenderItems_kinds s s' :
  scene_materials s -> heap s = [] ->
  mRitemLayer s = replicate RenderLayer_Count [] ->
  BuildRenderItems s = Some s' ->
  forall l p, p ∈ layer_items s' l ->
    exists e, heap s' !! p = Some e /\ layer_kind l e.
Proof.
  intros Hmats Hheap Hlayers Hrun. unfold BuildRenderItems in Hrun.
  rewrite Hheap, Hlayers in Hrun.
  set (b0 := mkBuilder _ _ _ _) in Hrun.
  assert (I0 : built_kinds b0).
  { split; [reflexivity|]. intros l p Hp. destruct l; inversion Hp. }
  ritem_kind Hrun Hmats I0 I1. ritem_kind Hrun Hmats I1 I2.
  destruct (for_each (build_tower s) _ _) as [b3|] eqn:E3; [|discriminate].
  cbn [mbind option_bind] in Hrun.
  assert (I3 := for_each_keeps _ _ _ _ _
                  (fun b x b' => build_tower_kind s b b' x Hmats) I2 E3).
  destruct (for_each (build_fence s) _ _) as [b4|] eqn:E4; [|discriminate].
  cbn [mbind option_bind] in Hrun.
  assert (I4 := for_each_keeps _ _ _ _ _
                  (fun b x b' => build_fence_kind s b b' x Hmats) I3 E4).
  ritem_kind Hrun Hmats I4 I5. ritem_kind Hrun Hmats I5 I6.
  ritem_kind Hrun Hmats I6 I7. ritem_kind Hrun Hmats I7 I8.
  ritem_kind Hrun Hmats I8 I9. ritem_kind Hrun Hmats I9 I10.
  ritem_kind Hrun Hmats I10 I11. ritem_kind Hrun Hmats I11 I12.
  injection Hrun as <-. exact (proj2 I12).
Qed.

Lemma Initialize_kinds (inp : InitInput F W) (s : State F W) :
  Initialize inp = Some s ->
  forall l p, p ∈ layer_items s l ->
    exists e, heap s !! p = Some e /\ layer_kind l e.
Proof.
  destruct (Initialize_geometries inp)
    as (Hwater & Hland & Hbox & Htree & Hheap0 & Hall0 & Hlayers0 & _).
  cbn zeta in *. unfold Initialize.
  set (s0 := BuildMaterials _) in *.
  destruct (BuildRenderItems_total s0 Hwater Hland Hbox Htree) as [s1 Hs1].
  rewrite Hs1. cbn [mbind option_bind]. intros Hs. injection Hs as <-.
  apply (BuildRenderItems_kinds s0 s1); try assumption.
  apply BuildMaterials_scene_materials.
Qed.

(** Every render item of a layer keeps its kind over a run. *)
Lemma same_scene_kind (s0 s : State F W) l p :
  same_scene s0 s ->
  (exists e, heap s0 !! p = Some e /\ layer_kind l e) ->
  exists e, heap s !! p = Some e /\ layer_kind l e.
Proof.
  intros (_ & _ & _ & Hitems & _) (e0 & He0 & m & g & Hm & Hg & Hin).
  specialize (Hitems p). rewrite He0 in Hitems.
  destruct (heap s !! p) as [e|]; [|discriminate].
  assert (Hst : static_item e = static_item e0)
    by (cbn [fmap option_fmap option_map] in Hitems; congruence).
  exists e. split; [reflexivity|]. exists m, g.
  assert (Em : RenderItem.Mat e = RenderItem.Mat e0)
    by exact (f_equal RenderItem.Mat Hst).
  assert (Eg : RenderItem.Geo e = RenderItem.Geo e0)
    by exact (f_equal RenderItem.Geo Hst).
  assert (Ep : RenderItem.PrimitiveType e = RenderItem.PrimitiveType e0)
    by exact (f_equal RenderItem.PrimitiveType Hst).
  rewrite Em, Eg, Ep. auto.
Qed.

(** The tree sprites are the point lists. *)
Lemma kind_cases (l : RenderLayer) (m g : string)
    (t : D3D_PRIMITIVE_TOPOLOGY) :
  (m, g, t) ∈ layer_kinds l ->
  (l = AlphaTestedTreeSprites /\ m = "treeSprites" /\ g = "treeSpritesGeo"
   /\ t = D3D_PRIMITIVE_TOPOLOGY_POINTLIST)
  \/ (l <> AlphaTestedTreeSprites /\ m <> "treeSprites"
      /\ g ∈ ["waterGeo"; "landGeo"; "boxGeo"]
      /\ t = D3D_PRIMITIVE_TOPOLOGY_TRIANGLELIST).
Proof.
  destruct l; cbn [layer_kinds]; intros Hin;
    rewrite ?elem_of_cons, ?elem_of_nil in Hin;
    repeat (destruct Hin as [Hin | Hin]); try contradiction;
    apply pair_equal_spec in Hin as [Hin ->];
    apply pair_equal_spec in Hin as [-> ->];
    first [ left; repeat split; reflexivity
          | right; split; [discriminate|]; split; [discriminate|];
            split; [rewrite !elem_of_cons; auto | reflexivity] ].
Qed.

Lemma in_some_layer s p :
  length (mRitemLayer s) = RenderLayer_Count ->
  p ∈ concat (mRitemLayer s) -> exists l, p ∈ layer_items s l.
Proof.
  intros Hlen Hp. unfold layer_items.
  destruct (mRitemLayer s) as [|l0 [|l1 [|l2 [|l3 [|l4 rest]]]]];
    try discriminate Hlen.
  cbn in Hp. rewrite app_nil_r in Hp.
  rewrite !elem_of_app in Hp. destruct Hp as [Hp | [Hp | [Hp | Hp]]].
  - exists Opaque. exact Hp.
  - exists Transparent. exact Hp.
  - exists AlphaTested. exact Hp.
  - exists AlphaTestedTreeSprites. exact Hp.
Qed.

(** The render items of [Initialize], each in a layer and of its kind. *)
Lemma Initialize_item_layers (inp : InitInput F W) (s : State F W) :
  Initialize inp = Some s ->
  length (heap s) = 30%nat /\
  forall p, (p < 30)%nat ->
    exists l e, p ∈ layer_items s l /\ heap s !! p = Some e /\ layer_kind l e.
Proof.
  intros Hinit. pose proof (Initialize_kinds inp s Hinit) as Hkinds.
  destruct (Initialize_spec inp) as (s' & b & Hs & Hspec).
  rewrite Hinit in Hs. injection Hs as <-.
  destruct Hspec as (Hb & Hlen & Hheap & _ & Hlayers & _).
  destruct Hb as (Hl4 & _ & Hconcat & _).
  rewrite Hlen in Hconcat. rewrite <- Hlayers in Hl4, Hconcat.
  split; [rewrite Hheap; exact Hlen|].
  intros p Hp.
  destruct (in_some_layer s p Hl4) as [l Hl];
    [rewrite Hconcat; apply elem_of_seq; lia|].
  destruct (Hkinds l p Hl) as (e & He & Hk). eauto.
Qed.

(** The layer and the kind of a render item in a frame that follows
    [Initialize]. *)
Lemma reached_item_kind (inp : InitInput F W) (inputs : list (FrameInput F))
    (g g' : Gpu) (s0 s : State F W) :
  Initialize inp = Some s0 ->
  run inputs (s0, g) = Some (s, g') ->
  length (heap s) = 30%nat /\
  forall p e, heap s !! p = Some e ->
    exists l, p ∈ layer_items s l /\ layer_kind l e.
Proof.
  intros Hinit Hrun.
  pose proof (run_same_scene inputs s0 g s g' Hrun) as Hsame.
  pose proof Hsame as (_ & Hlayers & _).
  assert (Hitems : forall l, layer_items s l = layer_items s0 l)
    by (intros l; unfold layer_items; rewrite Hlayers; reflexivity).
  destruct (Initialize_item_layers inp s0 Hinit) as [Hlen Hall].
  pose proof (same_scene_length s0 s Hsame) as Hlen'.
  split; [congruence|].
  intros p e He.
  assert (Hp : (p < 30)%nat)
    by (rewrite <- Hlen, <- Hlen'; apply lookup_lt_is_Some; eauto).
  destruct (Hall p Hp) as (l & e0 & Hl & He0 & Hk).
  exists l. split; [rewrite Hitems; exact Hl|].
  destruct (same_scene_kind s0 s l p Hsame) as (e' & He' & Hk'); [eauto|].
  congruence.
Qed.

(** X6.  The render items of the layers.  In every frame that follows
    [Initialize], every one of the 30 render items is in a layer, and
    what a layer holds is of the kind of the layer: the opaque layer holds
    the land only, the transparent layer the water only, and the layer of
    the tree sprites point lists of the tree-sprite geometry with the
    tree-sprite material only; every alpha-tested render item is a
    triangle list of [boxGeo]. *)
Theorem layer_contents (inp : InitInput F W) (inputs : list (FrameInput F))
    (g g' : Gpu) (s0 s : State F W) :
  Initialize inp = Some s0 ->
  run inputs (s0, g) = Some (s, g') ->
  length (heap s) = 30%nat /\
  (forall p e, heap s !! p = Some e ->
     exists l, p ∈ layer_items s l /\ layer_kind l e) /\
  (forall l p, p ∈ layer_items s l ->
     exists e, heap s !! p = Some e /\ layer_kind l e).
Proof.
  intros Hinit Hrun.
  destruct (reached_item_kind inp inputs g g' s0 s Hinit Hrun) as [Hlen Hk].
  split; [exact Hlen|]. split; [exact Hk|].
  pose proof (run_same_scene inputs s0 g s g' Hrun) as Hsame.
  pose proof Hsame as (_ & Hlayers & _).
  intros l p Hp.
  apply (same_scene_kind s0 s l p Hsame).
  apply (Initialize_kinds inp s0 Hinit l p).
  unfold layer_items in *. rewrite <- Hlayers. exact Hp.
Qed.

End LayerKinds.

(** ** Materials and textures *)

Section Textures.
Context {F W : Type} `{FloatOps F} `{FloatLib F} `{WavesOps F W}.
Import TreeBillboardsApp.
Implicit Type s : State F W.
Variable dds : string -> Z * Z.

(** The views of the heap [BuildDescriptorHeaps] fills. *)
Lemma texture_views :
  exists srvHeap,
    BuildDescriptorHeaps (LoadTextures dds ∅) = Some srvHeap /\
    length srvHeap = 10%nat /\
    forall i, (i < 10)%nat ->
      exists view,
        srvHeap !! i = Some (Some view) /\
        texture_files !! i = Some (tex_file (srv_Resource view)) /\
        srv_Format (srv_Desc view) = (dds (tex_file (srv_Resource view))).1 /\
        ViewDimension (srv_Desc view)
          = (if (i =? 9)%nat then D3D12_SRV_DIMENSION_TEXTURE2DARRAY
             else D3D12_SRV_DIMENSION_TEXTURE2D) /\
        MostDetailedMip (srv_Desc view) = 0 /\
        MipLevels (srv_Desc view) = 2 ^ 32 - 1.
Proof.
  destruct (BuildDescriptorHeaps (LoadTextures dds ∅)) as [srvHeap|] eqn:E;
    [|vm_compute in E; discriminate E].
  exists srvHeap. split; [reflexivity|]. split.
  { assert (Hl : length <$> BuildDescriptorHeaps (LoadTextures dds ∅)
                 = Some 10%nat) by (vm_compute; reflexivity).
    rewrite E in Hl. cbn in Hl. congruence. }
  intros i Hi.
  assert (Hv : exists view,
             BuildDescriptorHeaps (LoadTextures dds ∅) ≫= (fun h => h !! i)
             = Some (Some view) /\
             texture_files !! i = Some (tex_file (srv_Resource view)) /\
             srv_Format (srv_Desc view)
               = (dds (tex_file (srv_Resource view))).1 /\
             ViewDimension (srv_Desc view)
               = (if (i =? 9)%nat then D3D12_SRV_DIMENSION_TEXTURE2DARRAY
                  else D3D12_SRV_DIMENSION_TEXTURE2D) /\
             MostDetailedMip (srv_Desc view) = 0 /\
             MipLevels (srv_Desc view) = 2 ^ 32 - 1).
  { do 10 (destruct i as [|i];
           [eexists; split; [vm_compute; reflexivity|]; repeat split|]).
    lia. }
  destruct Hv as (view & Hq & Hprops). rewrite E in Hq.
  exists view. split; [exact Hq | exact Hprops].
Qed.

(** The texture index of each material of [Initialize]. *)
Lemma Initialize_material_slots (inp : InitInput F W) (s : State F W) :
  Initialize inp = Some s ->
  forall n m, mMaterials s !! n = Some m ->
    0 <= Material.DiffuseSrvHeapIndex m < 10 /\
    material_texture n
      = texture_files !! Z.to_nat (Material.DiffuseSrvHeapIndex m) /\
    (Material.DiffuseSrvHeapIndex m = 9 <-> n = "treeSprites").
Proof.
  intros Hinit. destruct (Initialize_spec inp) as (s' & b & Hs & Hspec).
  rewrite Hinit in Hs. injection Hs as <-.
  destruct Hspec as (_ & _ & _ & _ & _ & _ & _ & _ & _ & _ & Hmat & _).
  rewrite Hmat. clear Hmat Hinit.
  unfold BuildMaterials, State_new. cbn [mMaterials set_mMaterials].
  intros n m Hn.
  repeat (apply lookup_insert_Some in Hn as [[<- <-] | [_ Hn]]);
    [.. | rewrite lookup_empty in Hn; discriminate Hn];
    cbn [Material.DiffuseSrvHeapIndex material];
    (split; [lia|]); (split; [reflexivity|]);
    split; first [reflexivity | discriminate].
Qed.

(** X7.  Materials and textures.  [BuildDescriptorHeaps] finds the ten
    textures it dereferences among those of [LoadTextures] (without them it
    dereferences a null pointer) and fills the ten descriptors of its heap.
    In every frame that follows [Initialize], the descriptor that
    [DrawRenderItems] binds for a render item is the view of the texture
    that goes with the material of the render item, in the format of the
    texture; it is a view of a texture array for the tree sprites, which
    are drawn as points, and of a 2D texture for every other render
    item. *)
Theorem material_textures (inp : InitInput F W)
    (inputs : list (FrameInput F)) (g g' : Gpu) (s0 s : State F W)
    (k p : nat) (cmds : list Command) :
  Initialize inp = Some s0 ->
  run inputs (s0, g) = Some (s, g') ->
  draw_item s k p = Some cmds ->
  BuildDescriptorHeaps ∅ = None /\
  exists srvHeap e m mat view,
    BuildDescriptorHeaps (LoadTextures dds ∅) = Some srvHeap /\
    length srvHeap = 10%nat /\
    heap s !! p = Some e /\ RenderItem.Mat e = Some m /\
    mMaterials s !! m = Some mat /\
    descriptor_tables 0 cmds = [Material.DiffuseSrvHeapIndex mat] /\
    srvHeap !! Z.to_nat (Material.DiffuseSrvHeapIndex mat)
      = Some (Some view) /\
    material_texture m = Some (tex_file (srv_Resource view)) /\
    srv_Format (srv_Desc view) = (dds (tex_file (srv_Resource view))).1 /\
    ViewDimension (srv_Desc view)
      = sampled_dimension (RenderItem.PrimitiveType e).
Proof.
  intros Hinit Hrun Hdraw. split; [reflexivity|].
  destruct texture_views as (srvHeap & Hheap & Hlen & Hviews).
  pose proof (run_same_scene inputs s0 g s g' Hrun) as Hsame.
  destruct (reached_item_kind inp inputs g g' s0 s Hinit Hrun) as [_ Hkind].
  unfold draw_item in Hdraw.
  destruct (heap s !! p) as [e|] eqn:He; [|discriminate]. cbn in Hdraw.
  destruct (RenderItem.Geo e) as [gn|] eqn:Hg; [|discriminate]. cbn in Hdraw.
  destruct (mGeometries s !! gn) as [geo|]; [|discriminate]. cbn in Hdraw.
  destruct (RenderItem.Mat e) as [m|] eqn:Hm; [|discriminate]. cbn in Hdraw.
  destruct (mMaterials s !! m) as [mat|] eqn:Hmat; [|discriminate].
  cbn in Hdraw. injection Hdraw as <-.
  destruct Hsame as (_ & _ & _ & _ & Hmats & _). specialize (Hmats m).
  rewrite Hmat in Hmats.
  destruct (mMaterials s0 !! m) as [mat0|] eqn:Hmat0; [|discriminate].
  assert (Hst : static_material mat = static_material mat0)
    by (cbn [fmap option_fmap option_map] in Hmats; congruence).
  assert (Hidx : Material.DiffuseSrvHeapIndex mat
                 = Material.DiffuseSrvHeapIndex mat0)
    by exact (f_equal Material.DiffuseSrvHeapIndex Hst).
  destruct (Initialize_material_slots inp s0 Hinit m mat0 Hmat0)
    as (Hrange & Hfile & Htree).
  rewrite <- Hidx in Hrange, Hfile, Htree.
  destruct (Hviews (Z.to_nat (Material.DiffuseSrvHeapIndex mat)) ltac:(lia))
    as (view & Hview & Hvfile & Hfmt & Hdim & _).
  exists srvHeap, e, m, mat, view.
  split; [exact Hheap|]. split; [exact Hlen|].
  split; [first [reflexivity | exact He]|].
  split; [first [reflexivity | exact Hm]|].
  split; [first [reflexivity | exact Hmat]|]. split; [reflexivity|].
  split; [exact Hview|]. split; [congruence|]. split; [exact Hfmt|].
  rewrite Hdim.
  destruct (Hkind p e He) as (l & _ & m' & g2 & Hm' & _ & Hin).
  rewrite Hm in Hm'. injection Hm' as <-.
  destruct (kind_cases l m g2 _ Hin) as [(_ & -> & _ & ->) | (_ & Nm & _ & ->)].
  - assert (E9 : Material.DiffuseSrvHeapIndex mat = 9) by (apply Htree; reflexivity).
    rewrite E9. reflexivity.
  - assert (N9 : Material.DiffuseSrvHeapIndex mat <> 9)
      by (intros E9; apply Htree in E9; contradiction).
    destruct (Nat.eqb_spec (Z.to_nat (Material.DiffuseSrvHeapIndex mat)) 9);
      [lia | reflexivity].
Qed.

End Textures.

(** ** Pipeline states and render items *)

Section Pipeline.
Context {F W : Type} `{FloatOps F} `{FloatLib F} `{WavesOps F W}.
Import TreeBillboardsApp.
Implicit Type s : State F W.

Lemma Initialize_strides (inp : InitInput F W) (s : State F W) :
  Initialize inp = Some s ->
  forall g, g ∈ ["waterGeo"; "landGeo"; "boxGeo"; "treeSpritesGeo"] ->
    exists geo, mGeometries s !! g = Some geo /\
                VertexByteStride geo = geometry_stride g.
Proof.
  intros Hinit. destruct (Initialize_spec inp) as (s' & b & Hs & Hspec).
  rewrite Hinit in Hs. injection Hs as <-.
  destruct Hspec as (_ & _ & _ & _ & _ & _ & _ & _ & _ & _ & _ & Hgeo).
  rewrite Hgeo. clear Hgeo Hinit.
  unfold BuildTreeSpritesGeometry, BuildBoxGeometry, BuildWavesGeometry,
    BuildLandGeometry, State_new.
  cbn [mGeometries set_mGeometries].
  intros g Hg. rewrite !elem_of_cons in Hg.
  destruct Hg as [-> | [-> | [-> | [-> | Hg]]]];
    [.. | inversion Hg];
    repeat (rewrite lookup_insert_ne by discriminate);
    rewrite lookup_insert_eq; eexists; (split; [reflexivity|]); reflexivity.
Qed.

Lemma same_scene_stride (s0 s : State F W) g geo0 :
  same_scene s0 s -> mGeometries s0 !! g = Some geo0 ->
  exists geo, mGeometries s !! g = Some geo /\
              VertexByteStride geo = VertexByteStride geo0.
Proof.
  intros (_ & _ & _ & _ & _ & Hgeos) Hg0. specialize (Hgeos g).
  rewrite Hg0 in Hgeos. destruct (mGeometries s !! g) as [geo|]; [|discriminate].
  exists geo. split; [reflexivity|].
  assert (Hst : static_geometry_of geo = static_geometry_of geo0)
    by (cbn [fmap option_fmap option_map] in Hgeos; congruence).
  exact (f_equal VertexByteStride Hst).
Qed.

(** The pipeline state of each layer. *)
Lemma pipeline_states_built :
  exists mPSOs,
    initial_pipeline_states = Some mPSOs /\
    forall l, exists pso,
      mPSOs !! pso_of l = Some pso /\
      PrimitiveTopologyType pso
        = (if decide (l = AlphaTestedTreeSprites)
           then D3D12_PRIMITIVE_TOPOLOGY_TYPE_POINT
           else D3D12_PRIMITIVE_TOPOLOGY_TYPE_TRIANGLE) /\
      layout_packed 0 (InputLayout pso) = true /\
      layout_size (InputLayout pso)
        = (if decide (l = AlphaTestedTreeSprites)
           then TreeSpriteVertex.sizeof else Vertex.sizeof) /\
      (BlendEnable pso = true <-> l = Transparent) /\
      (is_Some (GS pso) <-> l = AlphaTestedTreeSprites).
Proof.
  destruct initial_pipeline_states as [mPSOs|] eqn:E;
    [|vm_compute in E; discriminate E].
  exists mPSOs. split; [reflexivity|]. intros l.
  assert (Hl : exists pso,
             initial_pipeline_states ≫= (fun m => m !! pso_of l) = Some pso /\
             PrimitiveTopologyType pso
               = (if decide (l = AlphaTestedTreeSprites)
                  then D3D12_PRIMITIVE_TOPOLOGY_TYPE_POINT
                  else D3D12_PRIMITIVE_TOPOLOGY_TYPE_TRIANGLE) /\
             layout_packed 0 (InputLayout pso) = true /\
             layout_size (InputLayout pso)
               = (if decide (l = AlphaTestedTreeSprites)
                  then TreeSpriteVertex.sizeof else Vertex.sizeof) /\
             (BlendEnable pso = true <-> l = Transparent) /\
             (is_Some (GS pso) <-> l = AlphaTestedTreeSprites)).
  { destruct l; eexists; (split; [vm_compute; reflexivity|]);
      (split; [reflexivity|]); (split; [reflexivity|]);
      (split; [reflexivity|]); cbn [BlendEnable GS]; split; split;
      first [ reflexivity | discriminate | intros [x Hx]; discriminate Hx
            | (intros _; eexists; reflexivity) ]. }
  destruct Hl as (pso & Hq & Hprops). rewrite E in Hq.
  exists pso. split; [exact Hq | exact Hprops].
Qed.

(** X8.  Pipeline states and render items.  [BuildPSOs] finds every
    shader it dereferences among those of [BuildShadersAndInputLayouts],
    and builds the four pipeline states [Draw] selects.  In every frame
    that follows [Initialize], the pipeline state [Draw] selects for a
    layer has the topology type of the primitive topology of every render
    item of the layer, and an input layout that is packed and as large as
    the vertex stride of the geometry of the render item; only the
    pipeline state of the transparent layer blends, and only the one of
    the tree sprites has a geometry shader. *)
Theorem pipeline_matches_items (inp : InitInput F W)
    (inputs : list (FrameInput F)) (g g' : Gpu) (s0 s : State F W) :
  Initialize inp = Some s0 ->
  run inputs (s0, g) = Some (s, g') ->
  exists mPSOs,
    initial_pipeline_states = Some mPSOs /\
    forall l p, p ∈ layer_items s l ->
      exists e gn geo pso,
        heap s !! p = Some e /\ RenderItem.Geo e = Some gn /\
        mGeometries s !! gn = Some geo /\
        mPSOs !! pso_of l = Some pso /\
        PrimitiveTopologyType pso
          = topology_type (RenderItem.PrimitiveType e) /\
        layout_packed 0 (InputLayout pso) = true /\
        layout_size (InputLayout pso) = VertexByteStride geo /\
        (BlendEnable pso = true <-> l = Transparent) /\
        (is_Some (GS pso) <-> l = AlphaTestedTreeSprites).
Proof.
  intros Hinit Hrun.
  pose proof (run_same_scene inputs s0 g s g' Hrun) as Hsame.
  pose proof Hsame as (_ & Hlayers & _).
  destruct pipeline_states_built as (mPSOs & Hbuilt & Hpso).
  exists mPSOs. split; [exact Hbuilt|].
  intros l p Hp.
  assert (Hp0 : p ∈ layer_items s0 l)
    by (unfold layer_items in *; rewrite <- Hlayers; exact Hp).
  destruct (same_scene_kind s0 s l p Hsame (Initialize_kinds inp s0 Hinit l p Hp0))
    as (e & He & m & gn & Hm & Hg & Hin).
  assert (Hk : (l = AlphaTestedTreeSprites /\ gn = "treeSpritesGeo"
                /\ RenderItem.PrimitiveType e = D3D_PRIMITIVE_TOPOLOGY_POINTLIST)
               \/ (l <> AlphaTestedTreeSprites
                   /\ gn ∈ ["waterGeo"; "landGeo"; "boxGeo"]
                   /\ RenderItem.PrimitiveType e
                      = D3D_PRIMITIVE_TOPOLOGY_TRIANGLELIST)).
  { destruct (kind_cases l m gn _ Hin) as [(Hl & _ & Hx & Ht) | (Hl & _ & Hx & Ht)];
      [left | right]; auto. }
  assert (Hgn : gn ∈ ["waterGeo"; "landGeo"; "boxGeo"; "treeSpritesGeo"])
    by (destruct Hk as [(_ & -> & _) | (_ & Hx & _)];
        rewrite !elem_of_cons in *; tauto).
  destruct (Initialize_strides inp s0 Hinit gn Hgn) as (geo0 & Hgeo0 & Hstride0).
  destruct (same_scene_stride s0 s gn geo0 Hsame Hgeo0) as (geo & Hgeo & Hstride).
  destruct (Hpso l) as (pso & Hq & Htop & Hpacked & Hsize & Hblend & Hgs).
  exists e, gn, geo, pso.
  split; [exact He|]. split; [exact Hg|]. split; [exact Hgeo|].
  split; [exact Hq|]. rewrite Htop, Hsize, Hstride, Hstride0.
  split; [|split; [exact Hpacked|split; [|split; [exact Hblend | exact Hgs]]]].
  - destruct Hk as [(-> & _ & ->) | (Hl & _ & ->)]; [reflexivity|].
    destruct (decide (l = AlphaTestedTreeSprites)); [contradiction | reflexivity].
  - destruct Hk as [(-> & -> & _) | (Hl & Hx & _)]; [reflexivity|].
    destruct (decide (l = AlphaTestedTreeSprites)); [contradiction|].
    rewrite !elem_of_cons in Hx.
    destruct Hx as [-> | [-> | [-> | Hx]]]; [reflexivity.. | inversion Hx].
Qed.

End Pipeline.

(** ** Root arguments *)

Section RootArguments.
Context {F W : Type} `{FloatOps F} `{WavesOps F W}.

Lemma draw_item_root_arguments (s : TreeBillboardsApp.State F W) k p c
    (b : list Z) (rest : list Command) :
  2 ∈ b -> TreeBillboardsApp.draw_item s k p = Some c ->
  root_arguments_ok (Parameters TreeBillboardsApp.BuildRootSignature)
                    (Some b) (c ++ rest)
  = root_arguments_ok (Parameters TreeBillboardsApp.BuildRootSignature)
                      (Some (3 :: 1 :: 0 :: b)) rest.
Proof.
  intros Hb Hc. unfold TreeBillboardsApp.draw_item in Hc.
  destruct (TreeBillboardsApp.heap s !! p) as [ri|]; [|discriminate].
  cbn in Hc.
  destruct (TreeBillboardsApp.RenderItem.Geo ri) as [g|]; [|discriminate].
  cbn in Hc.
  destruct (TreeBillboardsApp.mGeometries s !! g) as [geo|]; [|discriminate].
  cbn in Hc.
  destruct (TreeBillboardsApp.RenderItem.Mat ri) as [m|]; [|discriminate].
  cbn in Hc.
  destruct (TreeBillboardsApp.mMaterials s !! m) as [mat|]; [|discriminate].
  cbn in Hc. injection Hc as <-.
  cbn [app root_arguments_ok Z.leb Z.compare andb].
  set (sig := Parameters TreeBillboardsApp.BuildRootSignature).
  change (sig !! Z.to_nat 0)
    with (Some (DescriptorTable D3D12_DESCRIPTOR_RANGE_TYPE_SRV 1 0)).
  change (sig !! Z.to_nat 1) with (Some (ConstantBufferView 0)).
  change (sig !! Z.to_nat 3) with (Some (ConstantBufferView 2)).
  change (seqZ 0 (Z.of_nat (length sig))) with [0; 1; 2; 3].
  cbn [forallb andb].
  rewrite !bool_decide_eq_true_2 by (rewrite !elem_of_cons; auto).
  reflexivity.
Qed.

Lemma DrawRenderItems_root_arguments (s : TreeBillboardsApp.State F W) k
    (ritems : list nat) cs (b : list Z) (rest : list Command) :
  2 ∈ b -> TreeBillboardsApp.DrawRenderItems s k ritems = Some cs ->
  exists b', 2 ∈ b' /\
    root_arguments_ok (Parameters TreeBillboardsApp.BuildRootSignature)
                      (Some b) (cs ++ rest)
    = root_arguments_ok (Parameters TreeBillboardsApp.BuildRootSignature)
                        (Some b') rest.
Proof.
  revert cs b. induction ritems as [|p ps IH]; intros cs b Hb Hcs.
  - cbn in Hcs. injection Hcs as <-. exists b. split; [exact Hb | reflexivity].
  - cbn [TreeBillboardsApp.DrawRenderItems] in Hcs.
    destruct (TreeBillboardsApp.draw_item s k p) as [c|] eqn:Hc;
      [|discriminate].
    cbn in Hcs.
    destruct (TreeBillboardsApp.DrawRenderItems s k ps) as [cs'|];
      [|discriminate].
    cbn in Hcs. injection Hcs as <-.
    rewrite <- app_assoc, (draw_item_root_arguments s k p c b _ Hb Hc).
    apply IH; [|reflexivity]. rewrite !elem_of_cons. auto.
Qed.

Lemma castle_draw_item_root_arguments (s : MyCastleApp.State F) p c
    (b : list Z) (rest : list Command) :
  1 ∈ b -> MyCastleApp.draw_item s p = Some c ->
  root_arguments_ok (Parameters MyCastleApp.BuildRootSignature)
                    (Some b) (c ++ rest)
  = root_arguments_ok (Parameters MyCastleApp.BuildRootSignature)
                      (Some (0 :: b)) rest.
Proof.
  intros Hb Hc. unfold MyCastleApp.draw_item in Hc.
  destruct (MyCastleApp.heap s !! p) as [ri|]; [|discriminate].
  cbn in Hc.
  destruct (MyCastleApp.RenderItem.Geo ri) as [g|]; [|discriminate].
  cbn in Hc.
  destruct (MyCastleApp.mGeometries s !! g) as [geo|]; [|discriminate].
  cbn in Hc. injection Hc as <-.
  cbn [app root_arguments_ok Z.leb Z.compare andb].
  set (sig := Parameters MyCastleApp.BuildRootSignature).
  change (sig !! Z.to_nat 0)
    with (Some (DescriptorTable D3D12_DESCRIPTOR_RANGE_TYPE_CBV 1 0)).
  change (seqZ 0 (Z.of_nat (length sig))) with [0; 1].
  cbn [forallb andb].
  rewrite !bool_decide_eq_true_2 by (rewrite !elem_of_cons; auto).
  reflexivity.
Qed.

Lemma castle_DrawRenderItems_root_arguments (s : MyCastleApp.State F)
    (ritems : list nat) cs (b : list Z) (rest : list Command) :
  1 ∈ b -> MyCastleApp.DrawRenderItems s ritems = Some cs ->
  exists b', 1 ∈ b' /\
    root_arguments_ok (Parameters MyCastleApp.BuildRootSignature)
                      (Some b) (cs ++ rest)
    = root_arguments_ok (Parameters MyCastleApp.BuildRootSignature)
                        (Some b') rest.
Proof.
  revert cs b. induction ritems as [|p ps IH]; intros cs b Hb Hcs.
  - cbn in Hcs. injection Hcs as <-. exists b. split; [exact Hb | reflexivity].
  - cbn [MyCastleApp.DrawRenderItems] in Hcs.
    destruct (MyCastleApp.draw_item s p) as [c|] eqn:Hc; [|discriminate].
    cbn in Hcs.
    destruct (MyCastleApp.DrawRenderItems s ps) as [cs'|]; [|discriminate].
    cbn in Hcs. injection Hcs as <-.
    rewrite <- app_assoc, (castle_draw_item_root_arguments s p c b _ Hb Hc).
    apply IH; [|reflexivity]. rewrite !elem_of_cons. auto.
Qed.

(** X9.  Root arguments.  The commands [Draw] records agree with the
    root signature [BuildRootSignature] describes, in both applications:
    every root argument is set after the root signature, a descriptor
    table where the root parameter is a descriptor table and a root
    constant buffer view where it is one, and at every draw call each
    root parameter of the signature has its argument. *)
Theorem root_arguments_bound :
  (forall (s : TreeBillboardsApp.State F W) k cmds,
     TreeBillboardsApp.Draw_commands s k = Some cmds ->
     root_arguments_ok (Parameters TreeBillboardsApp.BuildRootSignature)
                       None cmds = true) /\
  (forall (s : MyCastleApp.State F) cmds,
     MyCastleApp.Draw_commands s = Some cmds ->
     root_arguments_ok (Parameters MyCastleApp.BuildRootSignature)
                       None cmds = true).
Proof.
  split.
  - intros s k cmds Hd. unfold TreeBillboardsApp.Draw_commands in Hd.
    destruct (TreeBillboardsApp.DrawRenderItems s k
                (TreeBillboardsApp.layer_items s TreeBillboardsApp.Opaque))
      as [c0|] eqn:E0; [|discriminate]. cbn in Hd.
    destruct (TreeBillboardsApp.DrawRenderItems s k
                (TreeBillboardsApp.layer_items s TreeBillboardsApp.AlphaTested))
      as [c1|] eqn:E1; [|discriminate]. cbn in Hd.
    destruct (TreeBillboardsApp.DrawRenderItems s k
                (TreeBillboardsApp.layer_items s
                   TreeBillboardsApp.AlphaTestedTreeSprites))
      as [c2|] eqn:E2; [|discriminate]. cbn in Hd.
    destruct (TreeBillboardsApp.DrawRenderItems s k
                (TreeBillboardsApp.layer_items s TreeBillboardsApp.Transparent))
      as [c3|] eqn:E3; [|discriminate]. cbn in Hd.
    injection Hd as <-.
    cbn [app root_arguments_ok].
    change (Parameters TreeBillboardsApp.BuildRootSignature !! Z.to_nat 2)
      with (Some (ConstantBufferView 1)).
    cbn [Z.leb Z.compare andb].
    destruct (DrawRenderItems_root_arguments s k _ c0 [2]
                (CmdSetPipelineState "alphaTested" :: c1
                 ++ CmdSetPipelineState "treeSprites" :: c2
                 ++ CmdSetPipelineState "transparent" :: c3
                 ++ [CmdResourceBarrier false; CmdClose])
                ltac:(rewrite elem_of_cons; auto) E0) as (b0 & Hb0 & ->).
    cbn [root_arguments_ok].
    destruct (DrawRenderItems_root_arguments s k _ c1 b0
                (CmdSetPipelineState "treeSprites" :: c2
                 ++ CmdSetPipelineState "transparent" :: c3
                 ++ [CmdResourceBarrier false; CmdClose]) Hb0 E1)
      as (b1 & Hb1 & ->).
    cbn [root_arguments_ok].
    destruct (DrawRenderItems_root_arguments s k _ c2 b1
                (CmdSetPipelineState "transparent" :: c3
                 ++ [CmdResourceBarrier false; CmdClose]) Hb1 E2)
      as (b2 & Hb2 & ->).
    cbn [root_arguments_ok].
    destruct (DrawRenderItems_root_arguments s k _ c3 b2
                [CmdResourceBarrier false; CmdClose] Hb2 E3)
      as (b3 & Hb3 & ->).
    reflexivity.
  - intros s cmds Hd. unfold MyCastleApp.Draw_commands in Hd.
    destruct (MyCastleApp.DrawRenderItems s (MyCastleApp.mOpaqueRitems s))
      as [c0|] eqn:E0; [|discriminate]. cbn in Hd.
    injection Hd as <-.
    cbn [app root_arguments_ok].
    change (Parameters MyCastleApp.BuildRootSignature !! Z.to_nat 1)
      with (Some (DescriptorTable D3D12_DESCRIPTOR_RANGE_TYPE_CBV 1 1)).
    cbn [Z.leb Z.compare andb].
    destruct (castle_DrawRenderItems_root_arguments s _ c0 [1]
                [CmdResourceBarrier false; CmdClose]
                ltac:(rewrite elem_of_cons; auto) E0) as (b0 & Hb0 & ->).
    reflexivity.
Qed.

End RootArguments.

(** ** The constants a frame draws with *)

Section Current.
Context {F W : Type} `{FloatOps F} `{FloatLib F} `{WavesOps F W}.
Import TreeBillboardsApp.
Implicit Type s : State F W.

Lemma tick_counter (m : Material.t F) :
  0 <= Material.NumFramesDirty m ->
  Material.NumFramesDirty (tick m)
  = Z.max 0 (Material.NumFramesDirty m - 1).
Proof.
  intros Hd. unfold tick.
  destruct (0 <? Material.NumFramesDirty m) eqn:E; cbn; lia.
Qed.

Lemma frame_written (i : FrameInput F) (n : nat) s g s' g' :
  items_ok s -> materials_ok s ->
  frame i (s, g) = Some (s', g') ->
  counters_at n s ->
  counters_at (S n) s' /\
  (forall k, constants_written ["water"] s k ->
             constants_written ["water"] s' k) /\
  ((n < 3)%nat -> constants_written ["water"] s' (next_slot s)) /\
  (forall m, mMaterials s' !! "water" = Some m ->
     material_constants s' (next_slot s) (Material.MatCBIndex m)
     = Some (matConstants m)).
Proof.
  intros Hitems Hmats Hframe [Hci Hcm].
  destruct (frame_items i s g s' g' Hitems Hframe)
    as (Hall & Htick & Hw & Hkeep & Hother & _).
  destruct (frame_materials i s g s' g' Hmats Hframe)
    as (w & Hwater & Hmat' & Hmw & Hmkeep & Hmother & _).
  destruct Hitems as (_ & Hlive & _).
  assert (Hitem : forall p e', p ∈ mAllRitems s' -> heap s' !! p = Some e' ->
            exists e, p ∈ mAllRitems s /\ heap s !! p = Some e
                      /\ e' = tick_item e).
  { intros p e' Hp He'. rewrite Hall in Hp.
    destruct (Hlive p Hp) as [e He]. exists e.
    rewrite (Htick p e Hp He) in He'. injection He' as <-. auto. }
  assert (Hmaterial : forall x m', x <> "water" ->
            mMaterials s' !! x = Some m' ->
            exists m, mMaterials s !! x = Some m /\ m' = tick m
                      /\ <["water" := scroll_water (gt i) w]> (mMaterials s)
                           !! x = Some m).
  { intros x m' Hx Hm'. rewrite Hmat', lookup_fmap in Hm'.
    rewrite lookup_insert_ne in Hm' by congruence.
    destruct (mMaterials s !! x) as [m|] eqn:Hm; [|discriminate].
    cbn in Hm'. injection Hm' as <-. exists m.
    rewrite lookup_insert_ne by congruence. auto. }
  split; [|split; [|split]].
  - split.
    + intros p e' Hp He'. destruct (Hitem p e' Hp He') as (e & Hp0 & He & ->).
      pose proof (Hci p e Hp0 He) as Hd.
      rewrite tick_item_counter by lia. lia.
    + intros x m' Hx Hm'.
      destruct (Hmaterial x m' Hx Hm') as (m & Hm & -> & _).
      pose proof (Hcm x m Hx Hm) as Hd.
      rewrite tick_counter by lia. lia.
  - intros k [Hwi Hwm]. split.
    + intros p e' Hp He'. destruct (Hitem p e' Hp He') as (e & Hp0 & He & ->).
      rewrite tick_item_ObjCBIndex, tick_item_objConstants.
      destruct (decide (k = next_slot s)) as [-> | Hne].
      * destruct (Z_lt_le_dec 0 (RenderItem.NumFramesDirty e)) as [Hpos | Hz].
        -- exact (Hw p e Hp0 He Hpos).
        -- rewrite (Hkeep p e Hp0 He Hz). exact (Hwi p e Hp0 He).
      * rewrite (Hother k _ Hne). exact (Hwi p e Hp0 He).
    + intros x m' Hx Hm'.
      assert (Hx' : x <> "water") by (intros ->; apply Hx, list_elem_of_singleton; reflexivity).
      destruct (Hmaterial x m' Hx' Hm') as (m & Hm & -> & Hm0).
      rewrite tick_MatCBIndex, tick_matConstants.
      destruct (decide (k = next_slot s)) as [-> | Hne].
      * destruct (Z_lt_le_dec 0 (Material.NumFramesDirty m)) as [Hpos | Hz].
        -- exact (Hmw x m Hm0 Hpos).
        -- rewrite (Hmkeep x m Hm0 Hz). exact (Hwm x m Hx Hm).
      * rewrite (Hmother k _ Hne). exact (Hwm x m Hx Hm).
  - intros Hn. split.
    + intros p e' Hp He'. destruct (Hitem p e' Hp He') as (e & Hp0 & He & ->).
      rewrite tick_item_ObjCBIndex, tick_item_objConstants.
      apply (Hw p e Hp0 He). rewrite (Hci p e Hp0 He). lia.
    + intros x m' Hx Hm'.
      assert (Hx' : x <> "water") by (intros ->; apply Hx, list_elem_of_singleton; reflexivity).
      destruct (Hmaterial x m' Hx' Hm') as (m & Hm & -> & Hm0).
      rewrite tick_MatCBIndex, tick_matConstants.
      apply (Hmw x m Hm0). rewrite (Hcm x m Hx' Hm). lia.
  - intros m' Hm'. rewrite Hmat', lookup_fmap, lookup_insert_eq in Hm'.
    cbn [fmap option_fmap option_map] in Hm'. injection Hm' as <-.
    rewrite tick_MatCBIndex, tick_matConstants.
    apply (Hmw "water"); [apply lookup_insert_eq|].
    rewrite scroll_water_dirty. unfold gNumFrameResources. lia.
Qed.

Lemma mod3_cases (n : nat) :
  (n mod 3 = 0 \/ n mod 3 = 1 \/ n mod 3 = 2)%nat.
Proof. pose proof (Nat.mod_upper_bound n 3). lia. Qed.

Lemma visited_step (n k : nat) :
  (k < 3)%nat -> visited (S n) k ->
  (k = ((n + 1) mod 3)%nat /\ (n < 3)%nat) \/ visited n k.
Proof.
  unfold visited. intros Hk Hv.
  destruct (le_lt_dec 3 n) as [Hn | Hn].
  - right. destruct k; [right | left]; lia.
  - assert (Hc : n = 0%nat \/ n = 1%nat \/ n = 2%nat) by lia.
    destruct Hc as [-> | [-> | ->]]; cbn; lia.
Qed.

Lemma run_written (inputs : list (FrameInput F)) (n : nat) s g s' g' :
  items_ok s -> materials_ok s ->
  mCurrFrameResourceIndex s = Z.of_nat (n mod 3) ->
  counters_at n s ->
  (forall k, (k < 3)%nat -> visited n k -> constants_written ["water"] s k) ->
  run inputs (s, g) = Some (s', g') ->
  (forall k, (k < 3)%nat -> visited (length inputs + n) k ->
     constants_written ["water"] s' k) /\
  (inputs <> [] ->
   exists k, mCurrFrameResource s' = Some k /\ (k < 3)%nat /\
     visited (length inputs + n) k /\
     forall m, mMaterials s' !! "water" = Some m ->
       material_constants s' k (Material.MatCBIndex m)
       = Some (matConstants m)).
Proof.
  revert n s g.
  induction inputs as [|i rest IH]; intros n s g Hitems Hmats Hidx Hc Hv Hrun.
  - cbn in Hrun. injection Hrun as <- <-.
    split; [exact Hv | intros Hne; contradiction].
  - cbn [run] in Hrun.
    destruct (frame i (s, g)) as [[s1 g1]|] eqn:Hframe; [|discriminate].
    cbn in Hrun.
    assert (Hrange : 0 <= mCurrFrameResourceIndex s < gNumFrameResources).
    { rewrite Hidx. unfold gNumFrameResources.
      pose proof (Nat.mod_upper_bound n 3). lia. }
    destruct (frame_slot i s g s1 g1 Hrange Hframe)
      as (_ & Hlt & Hcur & Hrange1).
    destruct (frame_effect _ _ _ _ _ Hframe)
      as (fr & w & r & p & ri & gn & geo & cmds & g2 & _ & _ & _ & _ & _
          & _ & _ & _ & _ & _ & Hidx1 & _).
    assert (Hnext : next_slot s = ((n + 1) mod 3)%nat).
    { unfold next_slot. rewrite Hidx.
      rewrite <- (Nat.Div0.add_mod_idemp_l n 1 3).
      destruct (mod3_cases n) as [-> | [-> | ->]]; reflexivity. }
    assert (Hidx1' : mCurrFrameResourceIndex s1 = Z.of_nat (S n mod 3)).
    { rewrite Hidx1, Hidx. replace (S n) with (n + 1)%nat by lia.
      rewrite <- (Nat.Div0.add_mod_idemp_l n 1 3).
      destruct (mod3_cases n) as [-> | [-> | ->]]; reflexivity. }
    destruct (frame_written i n s g s1 g1 Hitems Hmats Hframe Hc)
      as (Hc1 & Hkeep & Hnew & Hwater).
    destruct (frame_items i s g s1 g1 Hitems Hframe) as (_ & _ & _ & _ & _ & Hi1).
    destruct (frame_materials i s g s1 g1 Hmats Hframe)
      as (w0 & _ & _ & _ & _ & _ & Hm1).
    assert (Hv1 : forall k, (k < 3)%nat -> visited (S n) k ->
              constants_written ["water"] s1 k).
    { intros k Hk Hvk.
      destruct (visited_step n k Hk Hvk) as [[-> Hn] | Hold].
      - rewrite <- Hnext. exact (Hnew Hn).
      - exact (Hkeep k (Hv k Hk Hold)). }
    destruct (IH (S n) s1 g1 Hi1 Hm1 Hidx1' Hc1 Hv1 Hrun) as [Hfin Hlast].
    replace (length (i :: rest) + n)%nat with (length rest + S n)%nat
      by (cbn [length]; lia).
    split; [exact Hfin|]. intros _.
    destruct rest as [|i2 rest2]; [|apply Hlast; discriminate].
    cbn in Hrun. injection Hrun as <- <-.
    exists (next_slot s). split; [exact Hcur|]. split; [exact Hlt|].
    split; [|exact Hwater].
    cbn [length Nat.add]. rewrite Hnext. unfold visited.
    destruct (le_lt_dec 3 (S n)) as [Hn | Hn].
    + pose proof (Nat.mod_upper_bound (n + 1) 3 ltac:(lia)).
      destruct ((n + 1) mod 3)%nat; [right | left]; lia.
    + assert (Hc0 : n = 0%nat \/ n = 1%nat) by lia.
      destruct Hc0 as [-> | ->]; cbn; lia.
Qed.

(** The dirty counters [Initialize] leaves. *)
Lemma Initialize_counters (inp : InitInput F W) s :
  Initialize inp = Some s -> counters_at 0 s.
Proof.
  intros Hinit. destruct (Initialize_spec inp) as (s' & b & Hs & Hspec).
  rewrite Hinit in Hs. injection Hs as <-.
  destruct Hspec as (Hb & _ & Hheap & _ & _ & _ & _ & _ & _ & _ & Hmat & _).
  destruct Hb as (_ & _ & _ & _ & Hitems).
  split.
  - intros p e _ He. rewrite Hheap in He.
    destruct (Hitems p e He) as (_ & -> & _). reflexivity.
  - intros x m _. rewrite Hmat. clear.
    unfold BuildMaterials, State_new. cbn [mMaterials set_mMaterials].
    intros Hx.
    repeat (apply lookup_insert_Some in Hx as [[<- <-] | [_ Hx]]);
      [.. | rewrite lookup_empty in Hx; discriminate Hx]; reflexivity.
Qed.

(** X10.  The constants a frame draws with.  In every frame that
    follows [Initialize], the frame resource the frame draws from holds,
    for every render item, the object constants of the render item, and
    for every material, the water with the transform of this frame
    included, the constants of the material: no draw call reads an
    element of a constant buffer that was not written, or one that is out
    of date. *)
Theorem drawn_constants_current (inp : InitInput F W)
    (inputs : list (FrameInput F)) (g g' : Gpu) (s0 s : State F W) :
  Initialize inp = Some s0 ->
  run inputs (s0, g) = Some (s, g') ->
  inputs <> [] ->
  exists k, mCurrFrameResource s = Some k /\ constants_written [] s k.
Proof.
  intros Hinit Hrun Hne.
  destruct (Initialize_spec inp) as (s' & b & Hs & Hspec).
  rewrite Hinit in Hs. injection Hs as <-.
  destruct Hspec as (_ & _ & _ & _ & _ & _ & _ & Hidx & _).
  destruct (run_written inputs 0 s0 g s g'
              (Initialize_items_ok inp s0 Hinit)
              (Initialize_materials_ok inp s0 Hinit)
              Hidx (Initialize_counters inp s0 Hinit)) as [Hall Hlast].
  { intros k _ [Hk | [_ Hk]]; lia. }
  { exact Hrun. }
  destruct (Hlast Hne) as (k & Hcur & Hk & Hv & Hwater).
  exists k. split; [exact Hcur|].
  destruct (Hall k Hk Hv) as [Hwi Hwm]. split; [exact Hwi|].
  intros x m _ Hm.
  destruct (decide (x = "water")) as [-> | Hx]; [exact (Hwater m Hm)|].
  apply (Hwm x m); [|exact Hm].
  intros Hin. apply list_elem_of_singleton in Hin. contradiction.
Qed.

End Current.

(** ** The frames of the castle *)

Section CastleFrames.
Context {F : Type} `{FloatOps F} `{FloatLib F}.
Import MyCastleApp.
Implicit Type s : State F.

Lemma castle_new_ritem_fresh s world arg (b b' : Builder F) :
  castle_items_fresh b -> new_ritem s world arg b = Some b' ->
  castle_items_fresh b'.
Proof.
  intros Hb Hnew. unfold new_ritem in Hnew.
  destruct (mGeometries s !! "shapeGeo") as [g|]; [|discriminate].
  cbn in Hnew. injection Hnew as <-.
  intros q e Hq. cbn [b_heap] in Hq.
  apply lookup_snoc_Some in Hq as [[_ Hq] | [_ <-]].
  - exact (Hb q e Hq).
  - repeat split; reflexivity.
Qed.

Ltac castle_ritem_fresh Hrun I0 :=
  let E := fresh "E" in
  let I1 := fresh "I" in
  match type of Hrun with
  | context [new_ritem ?s ?w ?a ?b] =>
      destruct (new_ritem s w a b) as [?|] eqn:E; [|discriminate Hrun];
      cbn [mbind option_bind] in Hrun;
      pose proof (castle_new_ritem_fresh _ _ _ _ _ I0 E) as I1;
      clear E I0; rename I1 into I0
  end.

Lemma castle_BuildRenderItems_fresh s s' :
  heap s = [] -> BuildRenderItems s = Some s' ->
  forall p e, heap s' !! p = Some e ->
    RenderItem.Geo e = Some "shapeGeo" /\
    RenderItem.PrimitiveType e = D3D_PRIMITIVE_TOPOLOGY_TRIANGLELIST /\
    RenderItem.NumFramesDirty e = gNumFrameResources.
Proof.
  intros Hheap Hrun. unfold BuildRenderItems in Hrun.
  rewrite Hheap in Hrun.
  cbn [TreeBillboardsApp.for_each] in Hrun.
  unfold build_tower, build_fence in Hrun.
  set (b0 := mkBuilder _ _ _) in Hrun.
  assert (I : castle_items_fresh b0).
  { intros p e Hp. unfold b0 in Hp. cbn in Hp. rewrite lookup_nil in Hp.
    discriminate. }
  clearbody b0.
  do 36 castle_ritem_fresh Hrun I.
  injection Hrun as <-. exact I.
Qed.

(** The descriptors [BuildConstantBufferViews] creates for 36 render
    items. *)
Lemma castle_views s0 :
  length (mOpaqueRitems s0) = 36%nat ->
  (3 <= length (mFrameResources s0))%nat ->
  exists s1,
    BuildConstantBufferViews (BuildDescriptorHeaps s0) = Some s1 /\
    mCbvHeap s1 = castle_descriptors /\ mPassCbvOffset s1 = 108.
Proof.
  intros Hn Hfr.
  unfold BuildConstantBufferViews, BuildDescriptorHeaps, gNumFrameResources.
  cbn [mFrameResources mOpaqueRitems mCbvHeap mPassCbvOffset set_mCbvHeap].
  rewrite Hn.
  destruct (Z.of_nat (length (mFrameResources s0)) <? 3) eqn:E;
    [apply Z.ltb_lt in E; lia|].
  eexists. split; [reflexivity|].
  cbn [mCbvHeap mPassCbvOffset set_mCbvHeap].
  split; vm_compute; reflexivity.
Qed.

(** The scene [Initialize] leaves. *)
Lemma castle_Initialize_scene (m : GeneratedMeshes F)
    (uninit_obj : ObjectConstants.t F) :
  exists s,
    Initialize m uninit_obj = Some s /\
    castle_scene s /\ castle_counters_at 0 s /\
    mCurrFrameResourceIndex s = 0 /\
    mFrameResources s
    = replicate 3 (FrameResource.mk [] (replicate 36 uninit_obj) 0).
Proof.
  unfold Initialize.
  set (s0 := BuildShapeGeometry m State_new).
  assert (Hgeo : is_Some (mGeometries s0 !! "shapeGeo")).
  { unfold s0, BuildShapeGeometry. cbn [mGeometries set_mGeometries].
    rewrite lookup_insert_eq. eauto. }
  destruct (castle_BuildRenderItems_total s0 Hgeo) as [s1 Hs1].
  rewrite Hs1. cbn [mbind option_bind].
  pose proof (castle_BuildRenderItems_fresh s0 s1 eq_refl Hs1) as Hfresh.
  destruct (castle_BuildRenderItems_ok s0 s1 eq_refl eq_refl eq_refl Hs1)
    as (b & (Hall & _ & Hidx) & Hlen & ->).
  rewrite Hlen in Hall.
  set (s2 := BuildFrameResources uninit_obj _).
  assert (Hopq : mOpaqueRitems s2 = seq 0 36) by (rewrite <- Hall; reflexivity).
  assert (Hfr : mFrameResources s2
                = replicate 3 (FrameResource.mk [] (replicate 36 uninit_obj) 0)).
  { unfold s2, BuildFrameResources.
    cbn [mFrameResources mAllRitems set_scene set_mFrameResources].
    rewrite Hall. reflexivity. }
  destruct (castle_views s2) as (s3 & Hs3 & Hviews & Hoff).
  { rewrite Hopq. reflexivity. }
  { rewrite Hfr. cbn. lia. }
  exists s3. split; [exact Hs3|].
  unfold BuildConstantBufferViews in Hs3.
  destruct (_ <? _) in Hs3; [discriminate|]. injection Hs3 as <-.
  cbn [mCbvHeap mPassCbvOffset set_mCbvHeap] in Hviews, Hoff.
  assert (Hitems : forall p e, b_heap b !! p = Some e ->
            RenderItem.ObjCBIndex e = Z.of_nat p /\
            RenderItem.Geo e = Some "shapeGeo" /\
            RenderItem.PrimitiveType e = D3D_PRIMITIVE_TOPOLOGY_TRIANGLELIST).
  { intros p e He. destruct (Hfresh p e He) as (Hg & Ht & _).
    split; [|split; [exact Hg | exact Ht]].
    rewrite (Hidx p e He). apply UINT_small.
    apply lookup_lt_Some in He. lia. }
  assert (Hstride : exists geo, mGeometries s0 !! "shapeGeo" = Some geo /\
                                VertexByteStride geo = Vertex.sizeof).
  { unfold s0, BuildShapeGeometry. cbn [mGeometries set_mGeometries].
    rewrite lookup_insert_eq. eexists. split; reflexivity. }
  split; [|split; [|split]].
  - split; [exact Hlen|]. split; [exact Hall|]. split; [exact Hopq|].
    split; [exact Hitems|]. split; [exact Hstride|].
    split; [|split; [exact Hviews | exact Hoff]].
    cbn [mFrameResources set_mCbvHeap BuildDescriptorHeaps]. rewrite Hfr.
    repeat constructor.
  - intros p e He. apply (Hfresh p e He).
  - reflexivity.
  - exact Hfr.
Qed.


Lemma castle_loop_spec (ps : list nat) (h : list (RenderItem.t F))
    (cb : list (ObjectConstants.t F)) :
  NoDup ps -> (forall p, p ∈ ps -> (p < length h)%nat) ->
  (forall p e, h !! p = Some e -> RenderItem.ObjCBIndex e = Z.of_nat p) ->
  length cb = length h ->
  exists h' cb',
    UpdateObjectCBs_loop ps h cb = Some (h', cb') /\
    length h' = length h /\ length cb' = length cb /\
    (forall p e, h !! p = Some e ->
       h' !! p = Some (if bool_decide (p ∈ ps) then castle_tick e else e)) /\
    (forall p e, h !! p = Some e ->
       cb' !! p = if bool_decide (p ∈ ps) && (0 <? RenderItem.NumFramesDirty e)
                  then Some (objConstants e) else cb !! p).
Proof.
  revert h cb. induction ps as [|p0 rest IH]; intros h cb Hnd Hin Hidx Hlen.
  - exists h, cb. split; [reflexivity|]. split; [reflexivity|].
    split; [reflexivity|]. split; intros p e He.
    + rewrite bool_decide_eq_false_2 by apply not_elem_of_nil. exact He.
    + rewrite bool_decide_eq_false_2 by apply not_elem_of_nil. reflexivity.
  - apply NoDup_cons in Hnd as [Hp0 Hnd].
    destruct (lookup_lt_is_Some_2 h p0) as [e0 He0];
      [apply Hin; left|].
    cbn [UpdateObjectCBs_loop]. rewrite He0. cbn [mbind option_bind].
    pose proof (Hidx p0 e0 He0) as Hi0.
    assert (Hrest : forall p, p ∈ rest -> (p < length h)%nat)
      by (intros p Hp; apply Hin; right; exact Hp).
    destruct (0 <? RenderItem.NumFramesDirty e0) eqn:Hd.
    + unfold CopyData. rewrite Hi0.
      destruct (Z.of_nat p0 <? 0) eqn:Hneg; [apply Z.ltb_lt in Hneg; lia|].
      rewrite Nat2Z.id.
      destruct (IH (<[p0 := decrement e0]> h) (<[p0 := objConstants e0]> cb)
                  Hnd) as (h' & cb' & Hloop & Hlh & Hlc & Hh & Hc).
      { intros p Hp. rewrite length_insert. apply Hrest. exact Hp. }
      { intros p e He. destruct (decide (p = p0)) as [-> | Hne].
        - rewrite list_lookup_insert_eq in He
            by (apply lookup_lt_is_Some; eauto).
          injection He as <-. exact Hi0.
        - rewrite list_lookup_insert_ne in He by congruence.
          exact (Hidx p e He). }
      { rewrite !length_insert. exact Hlen. }
      exists h', cb'. split; [exact Hloop|].
      rewrite !length_insert in *. split; [exact Hlh|]. split; [exact Hlc|].
      split; intros p e He.
      * destruct (decide (p = p0)) as [-> | Hne].
        -- rewrite He0 in He. injection He as <-.
           rewrite (Hh p0 (decrement e0))
             by (apply list_lookup_insert_eq, lookup_lt_is_Some; eauto).
           rewrite (bool_decide_eq_false_2 _ Hp0).
           rewrite bool_decide_eq_true_2 by left.
           unfold castle_tick. rewrite Hd. reflexivity.
        -- rewrite (Hh p e) by (rewrite list_lookup_insert_ne by congruence;
                                exact He).
           rewrite (bool_decide_ext (p ∈ p0 :: rest) (p ∈ rest)).
           ++ reflexivity.
           ++ rewrite elem_of_cons. tauto.
      * destruct (decide (p = p0)) as [-> | Hne].
        -- rewrite He0 in He. injection He as <-.
           rewrite (Hc p0 (decrement e0))
             by (apply list_lookup_insert_eq, lookup_lt_is_Some; eauto).
           rewrite (bool_decide_eq_false_2 _ Hp0).
           rewrite bool_decide_eq_true_2 by left.
           rewrite Hd. cbn [andb].
           apply list_lookup_insert_eq. rewrite Hlen.
           apply lookup_lt_is_Some. eauto.
        -- rewrite (Hc p e) by (rewrite list_lookup_insert_ne by congruence;
                                exact He).
           rewrite (bool_decide_ext (p ∈ p0 :: rest) (p ∈ rest))
             by (rewrite elem_of_cons; tauto).
           rewrite list_lookup_insert_ne by congruence. reflexivity.
    + destruct (IH h cb Hnd Hrest Hidx Hlen)
        as (h' & cb' & Hloop & Hlh & Hlc & Hh & Hc).
      exists h', cb'. split; [exact Hloop|].
      split; [exact Hlh|]. split; [exact Hlc|]. split; intros p e He.
      * destruct (decide (p = p0)) as [-> | Hne].
        -- rewrite He0 in He. injection He as <-.
           rewrite (Hh p0 e0 He0), (bool_decide_eq_false_2 _ Hp0).
           rewrite bool_decide_eq_true_2 by left.
           unfold castle_tick. rewrite Hd. reflexivity.
        -- rewrite (Hh p e He).
           rewrite (bool_decide_ext (p ∈ p0 :: rest) (p ∈ rest)).
           ++ reflexivity.
           ++ rewrite elem_of_cons. tauto.
      * destruct (decide (p = p0)) as [-> | Hne].
        -- rewrite He0 in He. injection He as <-.
           rewrite (Hc p0 e0 He0), (bool_decide_eq_false_2 _ Hp0).
           rewrite Hd, !andb_false_r. reflexivity.
        -- rewrite (Hc p e He).
           rewrite (bool_decide_ext (p ∈ p0 :: rest) (p ∈ rest))
             by (rewrite elem_of_cons; tauto).
           reflexivity.
Qed.

(** [DrawRenderItems] on render items that have their geometry and the
    constant-buffer index of their address. *)
Lemma castle_DrawRenderItems_spec s (ps : list nat) :
  (forall p, p ∈ ps -> exists e g geo,
      heap s !! p = Some e /\ RenderItem.ObjCBIndex e = Z.of_nat p /\
      RenderItem.Geo e = Some g /\ mGeometries s !! g = Some geo) ->
  exists cs,
    DrawRenderItems s ps = Some cs /\
    descriptor_tables 0 cs
    = (fun p => INT (UINT (UINT (mCurrFrameResourceIndex s)
                           * UINT (Z.of_nat (length (mOpaqueRitems s)))
                           + Z.of_nat p))) <$> ps /\
    descriptor_tables 1 cs = [] /\
    forall pso obj rest,
      draw_calls_from pso obj (cs ++ rest)
      = replicate (length ps) (mkDrawCall pso obj)
        ++ draw_calls_from pso obj rest.
Proof.
  induction ps as [|p rest IH]; intros Hps.
  - exists []. repeat split; reflexivity.
  - destruct (Hps p ltac:(left)) as (e & g & geo & He & Hi & Hg & Hgeo).
    destruct IH as (cs & Hcs & Ht0 & Ht1 & Hcalls).
    { intros q Hq. apply Hps. right. exact Hq. }
    cbn [DrawRenderItems]. unfold draw_item.
    rewrite He. cbn [mbind option_bind]. rewrite Hg. cbn [mbind option_bind].
    rewrite Hgeo. cbn [mbind option_bind]. rewrite Hcs.
    cbn [mbind option_bind]. eexists. split; [reflexivity|].
    cbn [app descriptor_tables draw_calls_from Z.eqb fmap list_fmap
         length replicate].
    rewrite Ht0, Ht1. unfold cbvIndex. rewrite Hi.
    split; [reflexivity|]. split; [reflexivity|].
    intros pso obj rest'. rewrite Hcalls. reflexivity.
Qed.


Lemma castle_wait_returns (i : FrameInput) (fence : Z) (g : Gpu) :
  0 <= CompletedValue g <= LastSignal g -> 0 <= fence <= LastSignal g ->
  exists g',
    WaitForFrameResource i fence g = Some g' /\
    fence <= CompletedValue g' /\
    0 <= CompletedValue g' <= LastSignal g' /\
    LastSignal g' = LastSignal g.
Proof.
  intros Hg Hf. unfold WaitForFrameResource, WaitForFence, gpu_run.
  cbn [CompletedValue LastSignal].
  destruct (negb (fence =? 0)
            && (Z.min (CompletedValue g + Z.of_nat (gpu_before i))
                      (LastSignal g) <? fence)) eqn:E.
  - destruct (fence <=? LastSignal g) eqn:E'; [|apply Z.leb_gt in E'; lia].
    eexists. split; [reflexivity|]. cbn [CompletedValue LastSignal]. lia.
  - eexists. split; [reflexivity|]. cbn [CompletedValue LastSignal].
    apply andb_false_iff in E as [E | E].
    + apply negb_false_iff, Z.eqb_eq in E. lia.
    + apply Z.ltb_ge in E. lia.
Qed.

Lemma castle_tick_fields (e : RenderItem.t F) :
  RenderItem.ObjCBIndex (castle_tick e) = RenderItem.ObjCBIndex e /\
  RenderItem.Geo (castle_tick e) = RenderItem.Geo e /\
  RenderItem.PrimitiveType (castle_tick e) = RenderItem.PrimitiveType e /\
  objConstants (castle_tick e) = objConstants e /\
  (0 <= RenderItem.NumFramesDirty e ->
   RenderItem.NumFramesDirty (castle_tick e)
   = Z.max 0 (RenderItem.NumFramesDirty e - 1)).
Proof.
  unfold castle_tick.
  destruct (0 <? RenderItem.NumFramesDirty e) eqn:E; cbn;
    repeat split; try reflexivity; lia.
Qed.

(** One frame of the castle. *)
Lemma castle_frame_spec (i : FrameInput) (n : nat) s (f : Z) (g : Gpu) :
  castle_ring_ok s f g -> castle_scene s -> castle_counters_at n s ->
  f + 1 < 2 ^ 64 ->
  let k := Z.to_nat (Z.rem (mCurrFrameResourceIndex s + 1) gNumFrameResources) in
  exists s' g' fr0 fr cmds,
    frame i (s, f, g) = Some (s', f + 1, g') /\
    castle_ring_ok s' (f + 1) g' /\ castle_scene s' /\
    castle_counters_at (S n) s' /\
    (k < 3)%nat /\
    mCurrFrameResource s' = Some k /\
    mCurrFrameResourceIndex s' = Z.of_nat k /\
    mIsWireframe s' = key_1 i /\
    mFrameResources s !! k = Some fr0 /\
    FrameResource.Fence fr0 <= CompletedValue g' /\
    mFrameResources s' = <[k := fr]> (mFrameResources s) /\
    FrameResource.CmdListAlloc fr = cmds /\
    FrameResource.Fence fr = f + 1 /\
    (forall p e, heap s !! p = Some e ->
       heap s' !! p = Some (castle_tick e) /\
       FrameResource.ObjectCB fr !! p
       = if 0 <? RenderItem.NumFramesDirty e then Some (objConstants e)
         else FrameResource.ObjectCB fr0 !! p) /\
    head cmds = Some (CmdReset (if key_1 i then "opaque_wireframe"
                                else "opaque")) /\
    descriptor_tables 1 cmds = [108 + Z.of_nat k] /\
    descriptor_tables 0 cmds
    = (fun p => 36 * Z.of_nat k + Z.of_nat p) <$> seq 0 36 /\
    draw_calls cmds
    = replicate 36 (mkDrawCall (if key_1 i then "opaque_wireframe"
                                else "opaque") None).
Proof.
  intros (Hlen & Hidx & Hg & Hsig & Hfences)
         (Hheap & Hall & Hopq & Hitems & Hgeo & Hcbs & Hviews & Hoff) Hcount Hf k.
  unfold gNumFrameResources in *.
  assert (Hk : (k < 3)%nat).
  { unfold k. assert (Hc : mCurrFrameResourceIndex s = 0
                          \/ mCurrFrameResourceIndex s = 1
                          \/ mCurrFrameResourceIndex s = 2) by lia.
    destruct Hc as [-> | [-> | ->]]; vm_compute; lia. }
  assert (Hkz : Z.rem (mCurrFrameResourceIndex s + 1) 3 = Z.of_nat k).
  { unfold k. rewrite Z2Nat.id; [reflexivity|].
    rewrite Z.rem_mod_nonneg by lia. apply Z.mod_pos_bound. lia. }
  destruct (lookup_lt_is_Some_2 (mFrameResources s) k) as [fr0 Hfr0];
    [lia|].
  pose proof (Forall_lookup_1 _ _ _ _ Hfences Hfr0) as Hfence0.
  pose proof (Forall_lookup_1 _ _ _ _ Hcbs Hfr0) as Hcb0.
  cbn beta in Hfence0, Hcb0.
  destruct (castle_wait_returns i (FrameResource.Fence fr0) g Hg
              ltac:(lia)) as (g1 & Hwait & Hdone & Hg1 & Hsig1).
  destruct (castle_loop_spec (seq 0 36) (heap s) (FrameResource.ObjectCB fr0)
              (NoDup_seq 0 36)) as (h' & cb' & Hloop & Hlh & Hlc & Hh & Hc).
  { intros p Hp. apply elem_of_seq in Hp. lia. }
  { intros p e He. apply (Hitems p e He). }
  { lia. }
  assert (Hin : forall p e, heap s !! p = Some e -> p ∈ seq 0 36).
  { intros p e He. apply elem_of_seq. apply lookup_lt_Some in He. lia. }
  assert (Hh' : forall p e, heap s !! p = Some e ->
            h' !! p = Some (castle_tick e)).
  { intros p e He. rewrite (Hh p e He).
    rewrite bool_decide_eq_true_2 by exact (Hin p e He). reflexivity. }
  assert (Hc' : forall p e, heap s !! p = Some e ->
            cb' !! p = if 0 <? RenderItem.NumFramesDirty e
                       then Some (objConstants e)
                       else FrameResource.ObjectCB fr0 !! p).
  { intros p e He. rewrite (Hc p e He).
    rewrite bool_decide_eq_true_2 by exact (Hin p e He). reflexivity. }
  assert (Hitems' : forall p e', h' !! p = Some e' ->
            exists e, heap s !! p = Some e /\ e' = castle_tick e).
  { intros p e' He'.
    destruct (lookup_lt_is_Some_2 (heap s) p) as [e He];
      [rewrite <- Hlh; apply lookup_lt_is_Some; eauto|].
    exists e. split; [exact He|]. rewrite (Hh' p e He) in He'.
    congruence. }
  set (su := set_heap h'
               (set_mFrameResources
                  (<[k := FrameResource.mk (FrameResource.CmdListAlloc fr0)
                            cb' (FrameResource.Fence fr0)]>
                     (mFrameResources s))
                  (set_current (Some k) (Z.of_nat k)
                     (set_mIsWireframe (key_1 i) s)))).
  assert (Hupd : Update i s g = Some (su, g1)).
  { unfold Update.
    assert (Hkey : OnKeyboardInput i s = set_mIsWireframe (key_1 i) s)
      by (unfold OnKeyboardInput; destruct (key_1 i); reflexivity).
    rewrite Hkey. unfold gNumFrameResources.
    cbn [mCurrFrameResourceIndex set_mIsWireframe mFrameResources].
    rewrite Hkz, Nat2Z.id, Hfr0. cbn [mbind option_bind].
    rewrite Hwait. cbn [mbind option_bind].
    unfold UpdateObjectCBs.
    cbn [mCurrFrameResource set_current set_mIsWireframe mFrameResources
         mAllRitems heap mbind option_bind].
    rewrite Hfr0. cbn [mbind option_bind]. rewrite Hall, Hloop.
    reflexivity. }
  destruct (castle_DrawRenderItems_spec su (seq 0 36))
    as (cs & Hcs & Ht0 & Ht1 & Hcalls).
  { intros p Hp. apply elem_of_seq in Hp.
    destruct (lookup_lt_is_Some_2 (heap s) p) as [e He]; [lia|].
    destruct (Hitems p e He) as (Hi & He' & _).
    destruct (castle_tick_fields e) as (Hti & Htg & _).
    destruct Hgeo as (geo & Hgeo' & _).
    exists (castle_tick e), "shapeGeo", geo.
    split; [exact (Hh' p e He)|]. split; [congruence|].
    split; [congruence | exact Hgeo']. }
  set (pso := if key_1 i then "opaque_wireframe" else "opaque") in *.
  set (cmds := [ CmdReset pso; CmdRSSetViewports; CmdRSSetScissorRects;
                 CmdResourceBarrier true; CmdClearRenderTargetView;
                 CmdClearDepthStencilView; CmdOMSetRenderTargets;
                 CmdSetDescriptorHeaps; CmdSetGraphicsRootSignature;
                 CmdSetGraphicsRootDescriptorTable 1 (108 + Z.of_nat k) ]
               ++ cs ++ [ CmdResourceBarrier false; CmdClose ]).
  assert (Hpass : passCbvIndex su = 108 + Z.of_nat k).
  { unfold passCbvIndex.
    cbn [su mPassCbvOffset mCurrFrameResourceIndex set_heap
         set_mFrameResources set_current set_mIsWireframe].
    rewrite Hoff.
    assert (Hc3 : (k = 0 \/ k = 1 \/ k = 2)%nat) by lia.
    destruct Hc3 as [-> | [-> | ->]]; reflexivity. }
  assert (Hdc : Draw_commands su = Some cmds).
  { unfold Draw_commands.
    cbn [su mOpaqueRitems set_heap set_mFrameResources set_current
         set_mIsWireframe].
    rewrite Hopq. fold su. rewrite Hcs. cbn [mbind option_bind].
    rewrite Hpass.
    cbn [su mIsWireframe set_heap set_mFrameResources set_current
         set_mIsWireframe].
    reflexivity. }
  set (fr := FrameResource.mk cmds cb' (f + 1)).
  assert (Hwrap : UINT64 (f + 1) = f + 1)
    by (unfold UINT64; apply Z.mod_small; lia).
  set (s' := set_mFrameResources (<[k := fr]> (mFrameResources su)) su).
  assert (Hframe : frame i (s, f, g) = Some (s', f + 1, Signal (f + 1) g1)).
  { unfold frame. cbn [fst snd]. rewrite Hupd. cbn [mbind option_bind fst snd].
    unfold Draw.
    cbn [su mCurrFrameResource set_heap set_mFrameResources set_current
         set_mIsWireframe mbind option_bind mFrameResources].
    rewrite list_lookup_insert_eq by (apply lookup_lt_is_Some; eauto).
    cbn [mbind option_bind]. fold su. rewrite Hdc. cbn [mbind option_bind].
    cbn [FrameResource.ObjectCB]. rewrite Hwrap. reflexivity. }
  assert (Hfrs : mFrameResources s' = <[k := fr]> (mFrameResources s)).
  { cbn [s' su mFrameResources set_heap set_mFrameResources set_current
         set_mIsWireframe].
    apply list_insert_insert_eq. }
  exists s', (Signal (f + 1) g1), fr0, fr, cmds.
  split; [exact Hframe|].
  split.
  { split; [rewrite Hfrs, length_insert; exact Hlen|].
    split; [cbn; unfold gNumFrameResources; lia|]. split; [cbn; lia|].
    split; [reflexivity|].
    rewrite Hfrs. apply Forall_insert.
    - eapply Forall_impl; [exact Hfences|]. cbn. intros x Hx. lia.
    - cbn. lia. }
  split.
  { split; [exact (eq_trans Hlh Hheap)|]. split; [exact Hall|].
    split; [exact Hopq|]. split.
    { intros p e' He'. destruct (Hitems' p e' He') as (e & He & ->).
      destruct (castle_tick_fields e) as (-> & -> & -> & _).
      exact (Hitems p e He). }
    split; [exact Hgeo|]. split; [|split; [exact Hviews | exact Hoff]].
    rewrite Hfrs. apply Forall_insert; [exact Hcbs|].
    cbn. lia. }
  split.
  { intros p e' He'. destruct (Hitems' p e' He') as (e & He & ->).
    destruct (castle_tick_fields e) as (_ & _ & _ & _ & Hd).
    pose proof (Hcount p e He) as Hn. rewrite Hd by lia. lia. }
  split; [exact Hk|]. split; [reflexivity|]. split; [reflexivity|].
  split; [reflexivity|]. split; [exact Hfr0|].
  split; [cbn [Signal CompletedValue]; exact Hdone|].
  split; [exact Hfrs|]. split; [reflexivity|]. split; [reflexivity|].
  split.
  { intros p e He. split; [exact (Hh' p e He) | exact (Hc' p e He)]. }
  split; [reflexivity|].
  split.
  { unfold cmds. cbn [app descriptor_tables Z.eqb Pos.eqb].
    assert (Hd1 : forall a b, descriptor_tables 1 (a ++ b)
                    = descriptor_tables 1 a ++ descriptor_tables 1 b).
    { induction a as [|c a IHa]; intros b; [reflexivity|].
      destruct c; cbn [app descriptor_tables]; try apply IHa.
      destruct (root =? 1); [cbn; f_equal|]; apply IHa. }
    rewrite Hd1, Ht1. reflexivity. }
  split.
  { unfold cmds. cbn [app descriptor_tables Z.eqb Pos.eqb].
    assert (Hd0 : forall a b, descriptor_tables 0 (a ++ b)
                    = descriptor_tables 0 a ++ descriptor_tables 0 b).
    { induction a as [|c a IHa]; intros b; [reflexivity|].
      destruct c; cbn [app descriptor_tables]; try apply IHa.
      destruct (root =? 0); [cbn; f_equal|]; apply IHa. }
    rewrite Hd0, Ht0. cbn [descriptor_tables]. rewrite app_nil_r.
    apply list_fmap_ext. intros j p Hp.
    cbn [su mCurrFrameResourceIndex mOpaqueRitems set_heap
         set_mFrameResources set_current set_mIsWireframe].
    rewrite Hopq, length_seq.
    apply lookup_seq in Hp as [-> Hp]. cbn [Nat.add].
    assert (Hc3 : (k = 0 \/ k = 1 \/ k = 2)%nat) by lia.
    rewrite (UINT_small (Z.of_nat k)) by lia.
    rewrite (UINT_small (Z.of_nat 36)) by lia.
    rewrite INT_UINT_small by lia. lia. }
  unfold draw_calls, cmds. cbn [app draw_calls_from].
  rewrite Hcalls. cbn [draw_calls_from]. rewrite app_nil_r, length_seq.
  reflexivity.
Qed.


Lemma castle_run_spec (inputs : list FrameInput) (n : nat) s (f : Z)
    (g : Gpu) :
  castle_ring_ok s f g -> castle_scene s -> castle_counters_at n s ->
  mCurrFrameResourceIndex s = Z.of_nat (n mod 3) ->
  (forall k, (k < 3)%nat -> visited n k -> castle_constants_written s k) ->
  f + Z.of_nat (length inputs) < 2 ^ 64 ->
  exists s' g',
    run inputs (s, f, g) = Some (s', f + Z.of_nat (length inputs), g') /\
    castle_ring_ok s' (f + Z.of_nat (length inputs)) g' /\
    castle_scene s' /\
    castle_counters_at (length inputs + n) s' /\
    mCurrFrameResourceIndex s' = Z.of_nat ((length inputs + n) mod 3) /\
    (forall k, (k < 3)%nat -> visited (length inputs + n) k ->
       castle_constants_written s' k).
Proof.
  revert n s f g.
  induction inputs as [|i rest IH];
    intros n s f g Hring Hscene Hcount Hidx Hv Hf.
  - exists s, g. cbn [run length Nat.add]. rewrite Z.add_0_r. auto 10.
  - cbn [length] in Hf.
    destruct (castle_frame_spec i n s f g Hring Hscene Hcount ltac:(lia))
      as (s1 & g1 & fr0 & fr & cmds & Hframe & Hring1 & Hscene1 & Hcount1
          & Hk & Hcur & Hidx1 & _ & Hfr0 & _ & Hfrs & _ & _ & Hitems & _).
    cbn zeta in *.
    assert (Hnext : Z.to_nat (Z.rem (mCurrFrameResourceIndex s + 1)
                                    gNumFrameResources)
                    = ((n + 1) mod 3)%nat).
    { rewrite Hidx. rewrite <- (Nat.Div0.add_mod_idemp_l n 1 3).
      destruct (mod3_cases n) as [-> | [-> | ->]]; reflexivity. }
    rewrite Hnext in *.
    assert (Hidx1' : mCurrFrameResourceIndex s1 = Z.of_nat (S n mod 3))
      by (rewrite Hidx1; replace (S n) with (n + 1)%nat by lia; reflexivity).
    assert (Hv1 : forall k, (k < 3)%nat -> visited (S n) k ->
              castle_constants_written s1 k).
    { intros k Hk3 Hvk.
      assert (Hitem1 : forall p e', heap s1 !! p = Some e' ->
                exists e, heap s !! p = Some e /\ e' = castle_tick e).
      { intros p e' He'. destruct Hscene as (Hl & _), Hscene1 as (Hl1 & _).
        destruct (lookup_lt_is_Some_2 (heap s) p) as [e He];
          [rewrite Hl, <- Hl1; apply lookup_lt_is_Some; eauto|].
        exists e. split; [exact He|].
        destruct (Hitems p e He) as [He1 _]. congruence. }
      destruct (visited_step n k Hk3 Hvk) as [[-> Hn] | Hold].
      - exists fr. rewrite Hfrs.
        split; [apply list_lookup_insert_eq, lookup_lt_is_Some; eauto|].
        intros p e' He'. destruct (Hitem1 p e' He') as (e & He & ->).
        destruct (castle_tick_fields e) as (_ & _ & _ & -> & _).
        destruct (Hitems p e He) as [_ ->].
        rewrite (Hcount p e He).
        destruct (0 <? Z.max 0 (3 - Z.of_nat n)) eqn:E;
          [reflexivity | apply Z.ltb_ge in E; lia].
      - destruct (Hv k Hk3 Hold) as (frk & Hfrk & Hwritten).
        destruct (decide (k = ((n + 1) mod 3)%nat)) as [-> | Hne].
        + exists fr. rewrite Hfrs.
          split; [apply list_lookup_insert_eq, lookup_lt_is_Some; eauto|].
          intros p e' He'. destruct (Hitem1 p e' He') as (e & He & ->).
          destruct (castle_tick_fields e) as (_ & _ & _ & -> & _).
          destruct (Hitems p e He) as [_ ->].
          rewrite Hfr0 in Hfrk. injection Hfrk as <-.
          rewrite (Hwritten p e He).
          destruct (0 <? RenderItem.NumFramesDirty e); reflexivity.
        + exists frk. rewrite Hfrs.
          split; [rewrite list_lookup_insert_ne by congruence; exact Hfrk|].
          intros p e' He'. destruct (Hitem1 p e' He') as (e & He & ->).
          destruct (castle_tick_fields e) as (_ & _ & _ & -> & _).
          exact (Hwritten p e He). }
    destruct (IH (S n) s1 (f + 1) g1 Hring1 Hscene1 Hcount1 Hidx1' Hv1
                ltac:(lia))
      as (s' & g' & Hrun & Hring' & Hscene' & Hcount' & Hidx' & Hv').
    replace (f + 1 + Z.of_nat (length rest))
      with (f + Z.of_nat (S (length rest))) in * by lia.
    replace (length rest + S n)%nat with (S (length rest) + n)%nat in *
      by lia.
    exists s', g'. cbn [run length]. rewrite Hframe. cbn [mbind option_bind].
    auto 10.
Qed.


(** The state a run of frames of the castle reaches. *)
Lemma castle_reach (m : GeneratedMeshes F) (uninit_obj : ObjectConstants.t F)
    (inputs : list FrameInput) (f0 : Z) (g : Gpu) :
  0 <= CompletedValue g <= LastSignal g -> LastSignal g = f0 ->
  f0 + Z.of_nat (length inputs) < 2 ^ 64 ->
  exists s0 s g',
    Initialize m uninit_obj = Some s0 /\
    run inputs (s0, f0, g) = Some (s, f0 + Z.of_nat (length inputs), g') /\
    castle_ring_ok s (f0 + Z.of_nat (length inputs)) g' /\
    castle_scene s /\
    castle_counters_at (length inputs) s /\
    (forall k, (k < 3)%nat -> visited (length inputs) k ->
       castle_constants_written s k).
Proof.
  intros Hg Hsig Hf.
  destruct (castle_Initialize_scene m uninit_obj)
    as (s0 & Hinit & Hscene & Hcount & Hidx & Hfrs).
  destruct (castle_run_spec inputs 0 s0 f0 g)
    as (s & g' & Hrun & Hring & Hscene' & Hcount' & _ & Hv);
    try assumption.
  - split; [rewrite Hfrs; reflexivity|].
    split; [rewrite Hidx; unfold gNumFrameResources; lia|].
    split; [exact Hg|]. split; [exact Hsig|].
    rewrite Hfrs. repeat constructor; cbn; lia.
  - intros k _ [Hk | [_ Hk]]; lia.
  - rewrite Nat.add_0_r in *. exists s0, s, g'. auto 10.
Qed.

Lemma castle_descriptor_lookup (k p : nat) :
  (k < 3)%nat ->
  castle_descriptors !! Z.to_nat (108 + Z.of_nat k)
  = Some (Some (pass_cbv (Z.of_nat k))) /\
  ((p < 36)%nat ->
   castle_descriptors !! Z.to_nat (36 * Z.of_nat k + Z.of_nat p)
   = Some (Some (object_cbv (Z.of_nat k) (Z.of_nat p)))).
Proof.
  intros Hk.
  assert (Hc : k = 0%nat \/ k = 1%nat \/ k = 2%nat) by lia.
  destruct Hc as [-> | [-> | ->]]; (split; [reflexivity|]); intros Hp;
    do 36 (destruct p as [|p]; [reflexivity|]); lia.
Qed.

(** X11.  The frames of the castle complete.  [Initialize] returns a
    state, and from that state every run of frames completes while the
    fence counter does not wrap: the frame resource [Update] selects
    exists, its wait returns, and [UpdateObjectCBs] and [DrawRenderItems]
    find every render item and its geometry; the fence counter advances
    by one per frame, and the run leaves the ring and the scene as a
    frame needs them. *)
Theorem castle_frames_complete (m : GeneratedMeshes F)
    (uninit_obj : ObjectConstants.t F) (inputs : list FrameInput) (f0 : Z)
    (g : Gpu) :
  0 <= CompletedValue g <= LastSignal g -> LastSignal g = f0 ->
  f0 + Z.of_nat (length inputs) < 2 ^ 64 ->
  exists s0 s g',
    Initialize m uninit_obj = Some s0 /\
    run inputs (s0, f0, g) = Some (s, f0 + Z.of_nat (length inputs), g') /\
    castle_ring_ok s (f0 + Z.of_nat (length inputs)) g' /\
    castle_scene s.
Proof.
  intros Hg Hsig Hf.
  destruct (castle_reach m uninit_obj inputs f0 g Hg Hsig Hf)
    as (s0 & s & g' & Hinit & Hrun & Hring & Hscene & _).
  exists s0, s, g'. auto.
Qed.

(** X12.  The descriptors a frame of the castle binds.  In every frame
    that follows [Initialize], [Update] waits until the GPU has completed
    the fence value of the frame resource it selects, and [Draw] records
    into that frame resource 36 draw calls; it binds at root parameter 1
    the descriptor of the pass constants of that frame resource, and for
    the draw call of render item [p] at root parameter 0 the descriptor
    of element [p] of the object constants of that frame resource.  Every
    descriptor it binds was created by [BuildConstantBufferViews]. *)
Theorem castle_frame_descriptors (m : GeneratedMeshes F)
    (uninit_obj : ObjectConstants.t F) (inputs : list FrameInput)
    (i : FrameInput) (f0 : Z) (g : Gpu) :
  0 <= CompletedValue g <= LastSignal g -> LastSignal g = f0 ->
  f0 + Z.of_nat (length inputs) + 1 < 2 ^ 64 ->
  exists s0 s f g1 s' g' k fr0 fr,
    Initialize m uninit_obj = Some s0 /\
    run inputs (s0, f0, g) = Some (s, f, g1) /\
    frame i (s, f, g1) = Some (s', f + 1, g') /\
    mCurrFrameResource s' = Some k /\ (k < 3)%nat /\
    mFrameResources s !! k = Some fr0 /\
    FrameResource.Fence fr0 <= CompletedValue g' /\
    mFrameResources s' !! k = Some fr /\
    FrameResource.Fence fr = f + 1 /\
    length (draw_calls (FrameResource.CmdListAlloc fr)) = 36%nat /\
    descriptor_tables 1 (FrameResource.CmdListAlloc fr)
    = [108 + Z.of_nat k] /\
    mCbvHeap s' !! Z.to_nat (108 + Z.of_nat k)
    = Some (Some (pass_cbv (Z.of_nat k))) /\
    descriptor_tables 0 (FrameResource.CmdListAlloc fr)
    = (fun p => 36 * Z.of_nat k + Z.of_nat p) <$> seq 0 36 /\
    forall p, (p < 36)%nat ->
      mCbvHeap s' !! Z.to_nat (36 * Z.of_nat k + Z.of_nat p)
      = Some (Some (object_cbv (Z.of_nat k) (Z.of_nat p))).
Proof.
  intros Hg Hsig Hf.
  destruct (castle_reach m uninit_obj inputs f0 g Hg Hsig ltac:(lia))
    as (s0 & s & g1 & Hinit & Hrun & Hring & Hscene & Hcount & _).
  destruct (castle_frame_spec i (length inputs) s _ g1 Hring Hscene Hcount
              ltac:(lia))
    as (s' & g' & fr0 & fr & cmds & Hframe & _ & Hscene' & _ & Hk & Hcur & _
        & _ & Hfr0 & Hdone & Hfrs & Hcmds & Hfence & _ & _ & Ht1 & Ht0
        & Hcalls).
  cbn zeta in *.
  set (k := Z.to_nat _) in *.
  destruct Hscene' as (_ & _ & _ & _ & _ & _ & Hviews & _).
  exists s0, s, (f0 + Z.of_nat (length inputs)), g1, s', g', k, fr0, fr.
  rewrite Hcmds, Hviews, Hcalls, length_replicate.
  split; [exact Hinit|]. split; [exact Hrun|]. split; [exact Hframe|].
  split; [exact Hcur|]. split; [exact Hk|]. split; [exact Hfr0|].
  split; [exact Hdone|].
  split; [rewrite Hfrs; apply list_lookup_insert_eq, lookup_lt_is_Some; eauto|].
  split; [exact Hfence|]. split; [reflexivity|]. split; [exact Ht1|].
  split; [apply (castle_descriptor_lookup k 0 Hk)|].
  split; [exact Ht0|].
  intros p Hp. apply (castle_descriptor_lookup k p Hk). exact Hp.
Qed.

(** The pipeline states of the castle. *)
Lemma castle_pipeline_states_built :
  exists mPSOs,
    castle_pipeline_states = Some mPSOs /\
    forall wireframe : bool, exists pso,
      mPSOs !! (if wireframe then "opaque_wireframe" else "opaque")
      = Some pso /\
      FillMode pso = (if wireframe then D3D12_FILL_MODE_WIREFRAME
                      else D3D12_FILL_MODE_SOLID) /\
      CullMode pso = D3D12_CULL_MODE_BACK /\
      BlendEnable pso = false /\ GS pso = None /\
      PrimitiveTopologyType pso = D3D12_PRIMITIVE_TOPOLOGY_TYPE_TRIANGLE /\
      layout_packed 0 (InputLayout pso) = true /\
      layout_size (InputLayout pso) = Vertex.sizeof.
Proof.
  destruct castle_pipeline_states as [mPSOs|] eqn:E;
    [|vm_compute in E; discriminate E].
  exists mPSOs. split; [reflexivity|]. intros w.
  assert (Hl : exists pso,
             castle_pipeline_states
               ≫= (fun m => m !! (if w then "opaque_wireframe" else "opaque"))
             = Some pso /\
             FillMode pso = (if w then D3D12_FILL_MODE_WIREFRAME
                             else D3D12_FILL_MODE_SOLID) /\
             CullMode pso = D3D12_CULL_MODE_BACK /\
             BlendEnable pso = false /\ GS pso = None /\
             PrimitiveTopologyType pso
               = D3D12_PRIMITIVE_TOPOLOGY_TYPE_TRIANGLE /\
             layout_packed 0 (InputLayout pso) = true /\
             layout_size (InputLayout pso) = Vertex.sizeof).
  { destruct w; eexists; (split; [vm_compute; reflexivity|]);
      repeat split. }
  destruct Hl as (pso & Hq & Hprops). rewrite E in Hq.
  exists pso. split; [exact Hq | exact Hprops].
Qed.

(** X13.  The wireframe key of the castle.  [BuildPSOs] finds the two
    shaders it dereferences among those of [BuildShadersAndInputLayout]
    and builds two pipeline states that differ in the fill mode only.  In
    every frame that follows [Initialize], [Draw] resets the command list
    with the wireframe state when the key 1 is held in that frame, and
    with the solid state otherwise, whatever the frames before did; every
    draw call of the frame is recorded under that state, whose topology
    type is that of every render item and whose input layout is packed
    and as large as the vertex stride of the geometry. *)
Theorem castle_wireframe_key (m : GeneratedMeshes F)
    (uninit_obj : ObjectConstants.t F) (inputs : list FrameInput)
    (i : FrameInput) (f0 : Z) (g : Gpu) :
  0 <= CompletedValue g <= LastSignal g -> LastSignal g = f0 ->
  f0 + Z.of_nat (length inputs) + 1 < 2 ^ 64 ->
  let name := if key_1 i then "opaque_wireframe" else "opaque" in
  exists s0 s f g1 s' g' k fr mPSOs pso geo,
    Initialize m uninit_obj = Some s0 /\
    run inputs (s0, f0, g) = Some (s, f, g1) /\
    frame i (s, f, g1) = Some (s', f + 1, g') /\
    mIsWireframe s' = key_1 i /\
    mCurrFrameResource s' = Some k /\
    mFrameResources s' !! k = Some fr /\
    head (FrameResource.CmdListAlloc fr) = Some (CmdReset name) /\
    draw_calls (FrameResource.CmdListAlloc fr)
    = replicate 36 (mkDrawCall name None) /\
    castle_pipeline_states = Some mPSOs /\
    mPSOs !! name = Some pso /\
    FillMode pso = (if key_1 i then D3D12_FILL_MODE_WIREFRAME
                    else D3D12_FILL_MODE_SOLID) /\
    CullMode pso = D3D12_CULL_MODE_BACK /\
    BlendEnable pso = false /\ GS pso = None /\
    layout_packed 0 (InputLayout pso) = true /\
    mGeometries s' !! "shapeGeo" = Some geo /\
    layout_size (InputLayout pso) = VertexByteStride geo /\
    forall p e, heap s' !! p = Some e ->
      RenderItem.Geo e = Some "shapeGeo" /\
      PrimitiveTopologyType pso = topology_type (RenderItem.PrimitiveType e).
Proof.
  intros Hg Hsig Hf name.
  destruct (castle_reach m uninit_obj inputs f0 g Hg Hsig ltac:(lia))
    as (s0 & s & g1 & Hinit & Hrun & Hring & Hscene & Hcount & _).
  destruct (castle_frame_spec i (length inputs) s _ g1 Hring Hscene Hcount
              ltac:(lia))
    as (s' & g' & fr0 & fr & cmds & Hframe & _ & Hscene' & _ & Hk & Hcur & _
        & Hwire & Hfr0 & _ & Hfrs & Hcmds & _ & _ & Hhead & _ & _ & Hcalls).
  cbn zeta in *.
  set (k := Z.to_nat _) in *.
  destruct Hscene' as (_ & _ & _ & Hitems & (geo & Hgeo & Hstride) & _).
  destruct castle_pipeline_states_built as (mPSOs & Hbuilt & Hpso).
  destruct (Hpso (key_1 i))
    as (pso & Hq & Hfill & Hcull & Hblend & Hgs & Htop & Hpacked & Hsize).
  exists s0, s, (f0 + Z.of_nat (length inputs)), g1, s', g', k, fr, mPSOs,
    pso, geo.
  rewrite Hcmds.
  split; [exact Hinit|]. split; [exact Hrun|]. split; [exact Hframe|].
  split; [exact Hwire|]. split; [exact Hcur|].
  split; [rewrite Hfrs; apply list_lookup_insert_eq, lookup_lt_is_Some; eauto|].
  split; [exact Hhead|]. split; [exact Hcalls|]. split; [exact Hbuilt|].
  split; [exact Hq|]. split; [exact Hfill|]. split; [exact Hcull|].
  split; [exact Hblend|]. split; [exact Hgs|]. split; [exact Hpacked|].
  split; [exact Hgeo|]. split; [congruence|].
  intros p e He. destruct (Hitems p e He) as (_ & Hge & Ht).
  split; [exact Hge|]. rewrite Htop, Ht. reflexivity.
Qed.

(** X14.  The constants a frame of the castle draws with.  In every
    frame that follows [Initialize], the frame resource the frame draws
    from holds, for each of the 36 render items, at the index of the
    render item the transposed world matrix of the render item: no draw
    call reads an element of the object constants that was not written. *)
Theorem castle_constants_current (m : GeneratedMeshes F)
    (uninit_obj : ObjectConstants.t F) (inputs : list FrameInput)
    (i : FrameInput) (f0 : Z) (g : Gpu) :
  0 <= CompletedValue g <= LastSignal g -> LastSignal g = f0 ->
  f0 + Z.of_nat (length inputs) + 1 < 2 ^ 64 ->
  exists s0 s f g1 s' g' k fr,
    Initialize m uninit_obj = Some s0 /\
    run inputs (s0, f0, g) = Some (s, f, g1) /\
    frame i (s, f, g1) = Some (s', f + 1, g') /\
    mCurrFrameResource s' = Some k /\
    mFrameResources s' !! k = Some fr /\
    length (heap s') = 36%nat /\
    forall p e, heap s' !! p = Some e ->
      RenderItem.ObjCBIndex e = Z.of_nat p /\
      FrameResource.ObjectCB fr !! p
      = Some (ObjectConstants.mk (XMMatrixTranspose (RenderItem.World e))).
Proof.
  intros Hg Hsig Hf.
  destruct (castle_reach m uninit_obj inputs f0 g Hg Hsig ltac:(lia))
    as (s0 & s & g1 & Hinit & Hrun & Hring & Hscene & Hcount & Hv).
  destruct (castle_frame_spec i (length inputs) s _ g1 Hring Hscene Hcount
              ltac:(lia))
    as (s' & g' & fr0 & fr & cmds & Hframe & _ & Hscene' & _ & Hk & Hcur & _
        & _ & Hfr0 & _ & Hfrs & _ & _ & Hitems & _).
  cbn zeta in *.
  set (k := Z.to_nat _) in *.
  exists s0, s, (f0 + Z.of_nat (length inputs)), g1, s', g', k, fr.
  split; [exact Hinit|]. split; [exact Hrun|]. split; [exact Hframe|].
  split; [exact Hcur|].
  split; [rewrite Hfrs; apply list_lookup_insert_eq, lookup_lt_is_Some; eauto|].
  destruct Hscene as (Hl & _), Hscene' as (Hl' & _ & _ & Hitems' & _).
  split; [exact Hl'|].
  intros p e' He'. split; [apply (Hitems' p e' He')|].
  destruct (lookup_lt_is_Some_2 (heap s) p) as [e He];
    [rewrite Hl, <- Hl'; apply lookup_lt_is_Some; eauto|].
  destruct (Hitems p e He) as [He1 Hcb].
  rewrite He1 in He'. injection He' as <-.
  destruct (castle_tick_fields e) as (_ & _ & _ & Hcon & _).
  change (ObjectConstants.mk (XMMatrixTranspose
            (RenderItem.World (castle_tick e))))
    with (objConstants (castle_tick e)).
  rewrite Hcon, Hcb.
  destruct (0 <? RenderItem.NumFramesDirty e) eqn:Hd; [reflexivity|].
  apply Z.ltb_ge in Hd. rewrite (Hcount p e He) in Hd.
  destruct (Hv k Hk) as (frk & Hfrk & Hwritten).
  { unfold visited. destruct k; [right | left]; lia. }
  rewrite Hfr0 in Hfrk. injection Hfrk as <-.
  exact (Hwritten p e He).
Qed.

End CastleFrames.

(** ** Camera angles *)

Section Orbit.
Context {F : Type} `{FloatOrder F}.

Lemma Clamp_in_range (x lo hi : F) :
  fleb lo hi = true ->
  fleb lo (Clamp x lo hi) = true /\ fleb (Clamp x lo hi) hi = true.
Proof.
  intros Hb. unfold Clamp.
  destruct (fltb x lo) eqn:Hlo.
  - split; [apply fleb_refl | exact Hb].
  - destruct (fltb hi x) eqn:Hhi.
    + split; [exact Hb | apply fleb_refl].
    + split; apply fltb_false_fleb; assumption.
Qed.

Lemma fleb_not_fltb (x y : F) : fleb x y = true -> fltb y x = false.
Proof.
  intros Hle. destruct (fltb y x) eqn:Hlt; [|reflexivity].
  pose proof (fleb_fltb_trans x y x Hle Hlt) as Hxx.
  pose proof (fltb_asym x x Hxx). congruence.
Qed.

Lemma Clamp_inside (x lo hi : F) :
  fleb lo x = true -> fleb x hi = true -> Clamp x lo hi = x.
Proof.
  intros Hlo Hhi. unfold Clamp.
  rewrite (fleb_not_fltb lo x Hlo), (fleb_not_fltb x hi Hhi). reflexivity.
Qed.

(** X15.  Camera angles.  In both applications a mouse move with the
    left button held, whatever the other buttons, turns the azimuth by a
    quarter of a degree per pixel counted from the last mouse position,
    leaves the polar angle in [0.1, Pi - 0.1] (the turned angle itself
    when that is in the range) and does not touch the radius; a mouse
    move without the left button leaves both angles as they are; a button
    press and a mouse move store the mouse position, and a button press
    changes nothing else of the camera.  The bounds of the clamp must be
    ordered, which float arithmetic gives. *)
Theorem camera_orbit_clamped (W : Type) :
  fleb (flit 0.1) (fsub TreeBillboardsApp.Pi (flit 0.1)) = true ->
  clamps_orbit (St := TreeBillboardsApp.State F W) TreeBillboardsApp.mTheta
    TreeBillboardsApp.mPhi TreeBillboardsApp.mRadius
    TreeBillboardsApp.mLastMousePos TreeBillboardsApp.OnMouseDown
    TreeBillboardsApp.OnMouseMove
  /\ clamps_orbit (St := MyCastleApp.State F) MyCastleApp.mTheta
       MyCastleApp.mPhi MyCastleApp.mRadius MyCastleApp.mLastMousePos
       MyCastleApp.OnMouseDown MyCastleApp.OnMouseMove.
Proof.
  intros Hpi.
  split; (split; [intros s b x y; repeat split|]); (split; [|split; [|split]]).
  - intros s b x y. unfold TreeBillboardsApp.OnMouseMove.
    repeat case_match; reflexivity.
  - intros s b x y Hl. unfold TreeBillboardsApp.OnMouseMove.
    apply Z.eqb_neq in Hl. rewrite Hl. cbn.
    split; [apply Clamp_in_range; exact Hpi|]. split; reflexivity.
  - intros s b x y Hl [Hlo Hhi]. unfold TreeBillboardsApp.OnMouseMove.
    apply Z.eqb_neq in Hl. rewrite Hl. cbn.
    apply Clamp_inside; assumption.
  - intros s b x y Hl. unfold TreeBillboardsApp.OnMouseMove.
    assert (E : Z.land b TreeBillboardsApp.MK_LBUTTON = 0)
      by (destruct (decide (Z.land b TreeBillboardsApp.MK_LBUTTON = 0));
          [assumption | contradiction]).
    rewrite E. cbn. case_match; split; reflexivity.
  - intros s b x y. unfold MyCastleApp.OnMouseMove.
    repeat case_match; reflexivity.
  - intros s b x y Hl. unfold MyCastleApp.OnMouseMove.
    apply Z.eqb_neq in Hl. rewrite Hl. cbn.
    split; [apply Clamp_in_range; exact Hpi|]. split; reflexivity.
  - intros s b x y Hl [Hlo Hhi]. unfold MyCastleApp.OnMouseMove.
    apply Z.eqb_neq in Hl. rewrite Hl. cbn.
    apply Clamp_inside; assumption.
  - intros s b x y Hl. unfold MyCastleApp.OnMouseMove.
    assert (E : Z.land b TreeBillboardsApp.MK_LBUTTON = 0)
      by (destruct (decide (Z.land b TreeBillboardsApp.MK_LBUTTON = 0));
          [assumption | contradiction]).
    rewrite E. cbn. case_match; split; reflexivity.
Qed.

End Orbit.

(** ** The vertices a submesh draws *)

Section Fetch.
Context {F W : Type} `{FloatOps F} `{FloatLib F} `{WavesOps F W}.

Lemma uint16_t_bounds (x : Z) : 0 <= x -> 0 <= uint16_t x <= x.
Proof.
  intros Hx. unfold uint16_t.
  pose proof (Z.mod_pos_bound x (2 ^ 16) ltac:(lia)).
  pose proof (Z.mod_le x (2 ^ 16) Hx ltac:(lia)). lia.
Qed.

(** A submesh whose index range is the segment [segI] of the index buffer
    and whose base vertex is the start of the segment [segV] of the vertex
    buffer fetches from [segV]. *)
Lemma fetch_segment {V : Type} (vs preV segV postV : list V)
    (ids preI segI postI : list Z) (sm : SubmeshGeometry) (j : nat)
    (idx : Z) :
  vs = preV ++ segV ++ postV -> ids = preI ++ segI ++ postI ->
  StartIndexLocation sm = Z.of_nat (length preI) ->
  BaseVertexLocation sm = Z.of_nat (length preV) ->
  segI !! j = Some idx -> 0 <= idx < Z.of_nat (length segV) ->
  fetch_vertex vs ids sm j = segV !! Z.to_nat idx.
Proof.
  intros -> -> Hstart Hbase Hj Hidx. unfold fetch_vertex.
  rewrite Hstart, Hbase, Nat2Z.id.
  rewrite lookup_app_r by lia.
  replace (length preI + j - length preI)%nat with j by lia.
  rewrite (lookup_app_l_Some _ _ _ _ Hj). cbn [mbind option_bind].
  destruct (Z.of_nat (length preV) + idx <? 0) eqn:E;
    [apply Z.ltb_lt in E; lia|].
  rewrite lookup_app_r by lia.
  replace (Z.to_nat (Z.of_nat (length preV) + idx) - length preV)%nat
    with (Z.to_nat idx) by lia.
  apply lookup_app_l. lia.
Qed.

Ltac table_entry' :=
  repeat (rewrite lookup_insert_ne by discriminate);
  rewrite lookup_insert_eq; reflexivity.

Ltac segments' := cbn [app]; rewrite <- ?app_assoc, ?app_nil_r; reflexivity.

Ltac no_wrap' :=
  repeat match goal with
         | |- context [UINT ?x] => rewrite (UINT_small x) by lia
         | |- context [INT ?x] => rewrite (INT_small x) by lia
         end.

Ltac sizes' :=
  cbn [StartIndexLocation IndexCount BaseVertexLocation submesh];
  unfold nIndices, nVertices, GeometryGenerator.GetIndices16,
    MyCastleApp.paint;
  rewrite ?length_app, ?length_map, ?length_imap; cbn [length];
  no_wrap'; try lia.

(** Finds the segments of the two buffers a submesh covers. *)
Ltac fetch_search vs ids preV lv preI li Hj Hb :=
  lazymatch lv with
  | ?a ++ ?restV =>
      lazymatch li with
      | ?b ++ ?restI =>
          first [ solve [ eapply (fetch_segment vs preV a restV ids preI b restI);
                          [segments' | segments' | sizes' | sizes'
                          | exact Hj | exact Hb ] ]
                | fetch_search vs ids (preV ++ a) restV (preI ++ b) restI Hj Hb ]
      | ?b =>
          solve [ eapply (fetch_segment vs preV a restV ids preI b []);
                  [segments' | segments' | sizes' | sizes'
                  | exact Hj | exact Hb ] ]
      end
  | ?a =>
      solve [ eapply (fetch_segment vs preV a [] ids preI li []);
              [segments' | segments' | sizes' | sizes' | exact Hj | exact Hb ] ]
  end.

(** One shape of the castle, its submesh found. *)
Ltac castle_fetch Hmesh :=
  let j := fresh "j" in
  let i := fresh "i" in
  let Hji := fresh "Hji" in
  let Hrange := fresh "Hrange" in
  let H16 := fresh "H16" in
  let v := fresh "v" in
  let Hv' := fresh "Hv'" in
  let Hj := fresh "Hj" in
  let Hb := fresh "Hb" in
  intros j i Hji;
  pose proof (Forall_lookup_1 _ _ _ _ Hmesh Hji) as Hrange;
  cbn beta in Hrange;
  pose proof (uint16_t_bounds i ltac:(lia)) as H16;
  match type of Hji with
  | GeometryGenerator.Indices32 ?mesh !! _ = _ =>
      destruct (lookup_lt_is_Some_2 (GeometryGenerator.Vertices mesh)
                  (Z.to_nat (uint16_t i))) as [v Hv']; [lia|];
      exists v; split; [exact Hv'|];
      match goal with
      | |- fetch_vertex ?vs ?ids _ _ = Some (MyCastleApp.Vertex.mk _ ?c) =>
          transitivity (MyCastleApp.paint c mesh !! Z.to_nat (uint16_t i));
          [|unfold MyCastleApp.paint; rewrite list_lookup_fmap, Hv';
            reflexivity];
          assert (Hj : GeometryGenerator.GetIndices16 mesh !! j
                       = Some (uint16_t i))
            by (unfold GeometryGenerator.GetIndices16;
                rewrite list_lookup_fmap, Hji; reflexivity);
          assert (Hb : 0 <= uint16_t i
                       < Z.of_nat (length (MyCastleApp.paint c mesh)))
            by (unfold MyCastleApp.paint; rewrite length_map; lia);
          fetch_search vs ids (@nil (MyCastleApp.Vertex.t F)) vs (@nil Z) ids
                       Hj Hb
      end
  end.

(** X16.  The vertices the shapes of the castle draw.  When the
    generated meshes are well formed and the byte sizes of the
    concatenated buffers fit a [UINT], a draw call with the submesh
    [BuildShapeGeometry] records for a shape fetches, for every index of
    the mesh of the shape, the position of the vertex of that mesh the
    index, converted to 16 bits, refers to, in the colour of the shape:
    no shape is drawn with a vertex of another shape. *)
Theorem castle_shapes_fetched (m : GeneratedMeshes F)
    (s : MyCastleApp.State F) :
  Forall GeometryGenerator.well_formed (castle_meshes m) ->
  buffers_fit (castle_meshes m) MyCastleApp.Vertex.sizeof ->
  exists geo vs,
    MyCastleApp.mGeometries (MyCastleApp.BuildShapeGeometry m s)
      !! "shapeGeo" = Some geo /\
    VertexBufferCPU geo = Some vs /\
    forall name c mesh, (name, c, mesh) ∈ castle_shapes m ->
      exists sm,
        DrawArgs geo !! name = Some sm /\
        IndexCount sm
        = Z.of_nat (length (GeometryGenerator.Indices32 mesh)) /\
        forall j i, GeometryGenerator.Indices32 mesh !! j = Some i ->
          exists v,
            GeometryGenerator.Vertices mesh !! Z.to_nat (uint16_t i)
            = Some v /\
            fetch_vertex vs (indices_of geo) sm j
            = Some (MyCastleApp.Vertex.mk (GeometryGenerator.Position v) c).
Proof.
  intros Hwf [Hv Hi].
  unfold MyCastleApp.BuildShapeGeometry.
  cbn [MyCastleApp.mGeometries MyCastleApp.set_mGeometries].
  rewrite lookup_insert_eq. eexists. eexists.
  split; [reflexivity|]. split; [reflexivity|].
  unfold castle_meshes, vertices_in, indices_in in *. cbn [foldr] in *.
  unfold MyCastleApp.Vertex.sizeof in *.
  intros name c mesh Hin. unfold castle_shapes in Hin.
  assert (Hmesh : GeometryGenerator.well_formed mesh).
  { rewrite !elem_of_cons, elem_of_nil in Hin.
    rewrite !Forall_cons in Hwf.
    repeat (destruct Hin as [Hin | Hin]); try contradiction;
      apply pair_equal_spec in Hin as [_ ->]; tauto. }
  clear Hwf.
  cbn [DrawArgs VertexBufferCPU indices_of IndexBufferCPU default from_option
       id].
  rewrite !elem_of_cons, elem_of_nil in Hin.
  repeat (destruct Hin as [Hin | Hin]); try contradiction;
    apply pair_equal_spec in Hin as [Hin ->];
    apply pair_equal_spec in Hin as [-> ->];
    (eexists; split; [table_entry'|]; split; [sizes'|]);
    castle_fetch Hmesh.
Qed.


(** One shape of [BuildBoxGeometry], its submesh found; [seg] is the mesh
    whose vertices lie at the base vertex of the submesh. *)
Ltac box_fetch seg v Hv' Hji :=
  let Hj := fresh "Hj" in
  let Hb := fresh "Hb" in
  match type of Hji with
  | GeometryGenerator.Indices32 ?mesh !! ?j = Some ?i =>
      match goal with
      | |- fetch_vertex ?vs ?ids _ _ = _ =>
          transitivity (map TreeBillboardsApp.copy_vertex
                            (GeometryGenerator.Vertices seg)
                          !! Z.to_nat (uint16_t i));
          [|rewrite list_lookup_fmap, Hv'; reflexivity];
          assert (Hj : GeometryGenerator.GetIndices16 mesh !! j
                       = Some (uint16_t i))
            by (unfold GeometryGenerator.GetIndices16;
                rewrite list_lookup_fmap, Hji; reflexivity);
          assert (Hb : 0 <= uint16_t i
                       < Z.of_nat (length (map TreeBillboardsApp.copy_vertex
                                             (GeometryGenerator.Vertices seg))))
            by (rewrite length_map; apply lookup_lt_Some in Hv';
                pose proof (Z.mod_pos_bound i (2 ^ 16) ltac:(lia));
                unfold uint16_t in *; lia);
          fetch_search vs ids (@nil (TreeBillboardsApp.Vertex.t F)) vs
                       (@nil Z) ids Hj Hb
      end
  end.

(** X17.  The vertices the shapes of the box geometry draw.  When the
    generated meshes are well formed and the byte sizes of the
    concatenated buffers fit a [UINT], a draw call with the submesh
    [BuildBoxGeometry] records for the box, the sphere, the cylinder, the
    cone or the pointed cylinder fetches the vertices of the mesh of that
    shape.  The vertices of the wedge are copied before those of the two
    pyramids while the base vertex locations are computed for the
    opposite order: a draw call with the submesh of the flat pyramid
    fetches, for an index below the number of vertices of the wedge, the
    vertex of the wedge. *)
Theorem box_shapes_fetched (inp : TreeBillboardsApp.InitInput F W)
    (s : TreeBillboardsApp.State F W) :
  let m := TreeBillboardsApp.meshes inp in
  Forall GeometryGenerator.well_formed (box_meshes m) ->
  buffers_fit (box_meshes m) TreeBillboardsApp.Vertex.sizeof ->
  exists geo vs,
    TreeBillboardsApp.mGeometries (TreeBillboardsApp.BuildBoxGeometry inp s)
      !! "boxGeo" = Some geo /\
    VertexBufferCPU geo = Some (TreeBillboardsApp.StdVertices vs) /\
    (forall name mesh, (name, mesh) ∈ box_shapes m ->
       exists sm,
         DrawArgs geo !! name = Some sm /\
         IndexCount sm
         = Z.of_nat (length (GeometryGenerator.Indices32 mesh)) /\
         forall j i, GeometryGenerator.Indices32 mesh !! j = Some i ->
           exists v,
             GeometryGenerator.Vertices mesh !! Z.to_nat (uint16_t i)
             = Some v /\
             fetch_vertex vs (indices_of geo) sm j
             = Some (TreeBillboardsApp.copy_vertex v)) /\
    exists sm,
      DrawArgs geo !! "Pyramid_flat_head" = Some sm /\
      IndexCount sm
      = Z.of_nat (length (GeometryGenerator.Indices32 (Pyramid_flat_head m))) /\
      forall j i v,
        GeometryGenerator.Indices32 (Pyramid_flat_head m) !! j = Some i ->
        GeometryGenerator.Vertices (wedge m) !! Z.to_nat (uint16_t i)
        = Some v ->
        fetch_vertex vs (indices_of geo) sm j
        = Some (TreeBillboardsApp.copy_vertex v).
Proof.
  intros m Hwf [Hv Hi].
  unfold TreeBillboardsApp.BuildBoxGeometry.
  cbn [TreeBillboardsApp.mGeometries TreeBillboardsApp.set_mGeometries].
  rewrite lookup_insert_eq. eexists. eexists.
  split; [reflexivity|]. split; [reflexivity|].
  unfold box_meshes, vertices_in, indices_in in *. cbn [foldr] in *.
  unfold TreeBillboardsApp.Vertex.sizeof in *.
  fold m.
  cbn [DrawArgs VertexBufferCPU indices_of IndexBufferCPU default from_option
       id TreeBillboardsApp.static_geometry].
  split.
  - intros name mesh Hin. unfold box_shapes in Hin.
    assert (Hmesh : GeometryGenerator.well_formed mesh).
    { rewrite !elem_of_cons, elem_of_nil in Hin.
      rewrite !Forall_cons in Hwf.
      repeat (destruct Hin as [Hin | Hin]); try contradiction;
        apply pair_equal_spec in Hin as [_ ->]; tauto. }
    clear Hwf.
    rewrite !elem_of_cons, elem_of_nil in Hin.
    repeat (destruct Hin as [Hin | Hin]); try contradiction;
      apply pair_equal_spec in Hin as [-> ->];
      (eexists; split; [table_entry'|]; split; [sizes'|]);
      intros j i Hji;
      pose proof (Forall_lookup_1 _ _ _ _ Hmesh Hji) as Hrange;
      cbn beta in Hrange;
      pose proof (uint16_t_bounds i ltac:(lia)) as H16;
      match type of Hji with
      | GeometryGenerator.Indices32 ?mesh !! _ = _ =>
          destruct (lookup_lt_is_Some_2 (GeometryGenerator.Vertices mesh)
                      (Z.to_nat (uint16_t i))) as [v Hv']; [lia|];
          exists v; split; [exact Hv'|]; box_fetch mesh v Hv' Hji
      end.
  - clear Hwf. eexists. split; [table_entry'|]. split; [sizes'|].
    intros j i v Hji Hv'.
    box_fetch (wedge m) v Hv' Hji.
Qed.

End Fetch.

(** ** Wave disturbances and tree sprites *)

Section WavesAndTrees.
Context {F W : Type} `{FloatOps F} `{FloatLib F} `{WavesOps F W}.
Import TreeBillboardsApp.
Implicit Type s : State F W.

Lemma Rand_in_range (a b r : Z) : a <= b -> 0 <= r -> a <= Rand a b r <= b.
Proof.
  intros Hab Hr. unfold Rand.
  pose proof (Z.rem_bound_pos r (b - a + 1) Hr ltac:(lia)). lia.
Qed.

(** X18.  Wave disturbances.  A frame integrates the waves once, and
    before that disturbs them at most once: not at all when less than a
    quarter second has passed since the time base, and otherwise at one
    cell, after which the time base is a quarter second later.  When the
    grid has at least nine rows and nine columns and [rand()] returns no
    negative value, the disturbed cell is at least four cells away from
    every border of the grid. *)
Theorem wave_disturbance_interior (i : FrameInput F) s g s' g' :
  frame i (s, g) = Some (s', g') ->
  9 <= RowCount (mWaves s) -> 9 <= ColumnCount (mWaves s) ->
  0 <= rand_i i -> 0 <= rand_j i ->
  (fleb (flit 0.25) (fsub (TotalTime (gt i)) (t_base s)) = false /\
   mWaves s' = Waves_Update (DeltaTime (gt i)) (mWaves s) /\
   t_base s' = t_base s)
  \/ (fleb (flit 0.25) (fsub (TotalTime (gt i)) (t_base s)) = true /\
      exists r c,
        4 <= r <= RowCount (mWaves s) - 5 /\
        4 <= c <= ColumnCount (mWaves s) - 5 /\
        mWaves s'
        = Waves_Update (DeltaTime (gt i))
            (Disturb r c (RandF (flit 0.2) (flit 0.5) (rand_r i))
                     (mWaves s)) /\
        t_base s' = fadd (t_base s) (flit 0.25)).
Proof.
  intros Hframe Hrows Hcols Hri Hrj.
  destruct (frame_effect _ _ _ _ _ Hframe)
    as (fr & w & r & p & ri & gn & geo & cmds & g1 & _ & _ & _ & _ & _ & _
        & _ & _ & _ & _ & _ & _ & _ & _ & _ & _ & _ & _ & Hw & Ht & _).
  rewrite Hw, Ht. unfold step_waves. cbn [fst snd].
  destruct (fleb (flit 0.25) (fsub (TotalTime (gt i)) (t_base s))) eqn:E.
  - right. split; [reflexivity|].
    exists (Rand 4 (RowCount (mWaves s) - 5) (rand_i i)),
           (Rand 4 (ColumnCount (mWaves s) - 5) (rand_j i)).
    split; [apply Rand_in_range; lia|].
    split; [apply Rand_in_range; lia|]. split; reflexivity.
  - left. repeat split.
Qed.

(** X19.  Tree sprites.  In every frame that follows [Initialize] the
    geometry of the tree sprites has 20 vertices, all written: each is a
    sprite of 20 by 20 at height 9.5, whatever the height of the land
    there, at the [x] and [z] drawn for it, the [z] of the trees after the
    eleventh mirrored; its index buffer numbers the vertices in their
    order, and a draw call with its submesh fetches vertex [j] for
    point [j]. *)
Theorem tree_sprites_placed (inp : InitInput F W)
    (inputs : list (FrameInput F)) (g g' : Gpu) (s0 s : State F W) :
  Initialize inp = Some s0 ->
  run inputs (s0, g) = Some (s, g') ->
  exists geo vs sm,
    mGeometries s !! "treeSpritesGeo" = Some geo /\
    VertexBufferCPU geo = Some (SpriteVertices vs) /\
    length vs = 20%nat /\
    DrawArgs geo !! "points" = Some sm /\ IndexCount sm = 20 /\
    forall j v, vs !! j = Some v ->
      fetch_vertex vs (indices_of geo) sm j = Some v /\
      TreeSpriteVertex.Size v = mkXMFLOAT2 (flit 20) (flit 20) /\
      y3 (TreeSpriteVertex.Pos v) = flit 9.5 /\
      x3 (TreeSpriteVertex.Pos v)
      = RandF (fneg (flit 40)) (flit 40) (tree_rand inp j).1 /\
      z3 (TreeSpriteVertex.Pos v)
      = (let z := RandF (fneg (flit 50)) (fneg (flit 40))
                        (tree_rand inp j).2 in
         if (j <=? 10)%nat then z else fneg z).
Proof.
  intros Hinit Hrun.
  pose proof (run_same_scene inputs s0 g s g' Hrun)
    as (_ & _ & _ & _ & _ & Hgeos).
  specialize (Hgeos "treeSpritesGeo").
  destruct (Initialize_spec inp) as (s0' & b & Hs & Hspec).
  rewrite Hinit in Hs. injection Hs as <-.
  destruct Hspec as (_ & _ & _ & _ & _ & _ & _ & _ & _ & _ & _ & Hgeo0).
  rewrite Hgeo0 in Hgeos. unfold BuildTreeSpritesGeometry at 1 in Hgeos.
  cbn [mGeometries set_mGeometries] in Hgeos.
  rewrite lookup_insert_eq in Hgeos.
  destruct (mGeometries s !! "treeSpritesGeo") as [geo|]; [|discriminate].
  cbn [fmap option_fmap option_map] in Hgeos.
  apply (inj Some) in Hgeos. rename Hgeos into Hst.
  pose proof (f_equal VertexBufferCPU Hst) as Hv.
  pose proof (f_equal IndexBufferCPU Hst) as Hi.
  pose proof (f_equal DrawArgs Hst) as Ha.
  cbn [static_geometry_of set_VertexBufferGPU static_geometry VertexBufferCPU
       IndexBufferCPU DrawArgs] in Hv, Hi, Ha.
  cbv zeta in Hv, Hi, Ha.
  exists geo, (map (tree_sprite inp) (seq 0 20)),
    (submesh (UINT (Z.of_nat 20)) 0 0).
  split; [reflexivity|]. split; [exact Hv|]. split; [reflexivity|].
  split; [rewrite Ha; apply lookup_insert_eq|]. split; [reflexivity|].
  intros j v Hj. unfold indices_of. rewrite Hi.
  do 20 (destruct j as [|j];
         [cbn in Hj; injection Hj as <-; repeat split; reflexivity|]).
  cbn in Hj. discriminate Hj.
Qed.

End WavesAndTrees.

(** ** The land *)

Section Land.
Context {F W : Type} `{FloatOps F} `{FloatLib F} `{WavesOps F W}.
Import TreeBillboardsApp.
Implicit Type s : State F W.

Lemma Initialize_land (inp : InitInput F W) s :
  mGeometries (BuildTreeSpritesGeometry inp
                 (BuildBoxGeometry inp
                    (BuildWavesGeometry (BuildLandGeometry inp s))))
    !! "landGeo"
  = mGeometries (BuildLandGeometry inp s) !! "landGeo".
Proof.
  unfold BuildTreeSpritesGeometry. cbn [mGeometries set_mGeometries].
  rewrite lookup_insert_ne by discriminate.
  unfold BuildBoxGeometry. cbn [mGeometries set_mGeometries].
  rewrite lookup_insert_ne by discriminate.
  unfold BuildWavesGeometry. cbn [mGeometries set_mGeometries].
  rewrite lookup_insert_ne by discriminate.
  reflexivity.
Qed.

(** X20.  The land.  In every frame that follows [Initialize] the
    geometry of the land has one vertex per vertex of the generated grid,
    at the [x] and [z] of that vertex and at height 0.5: the land is
    flat, while its normals are those of the hills at [x] and [z]; the
    texture coordinates are those of the grid.  When the grid is well
    formed and the byte sizes of the buffers fit a [UINT], a draw call
    with the submesh of the land fetches, for every index of the grid, the
    vertex of the land the index, converted to 16 bits, refers to. *)
Theorem land_flat (inp : InitInput F W) (inputs : list (FrameInput F))
    (g g' : Gpu) (s0 s : State F W) :
  let grid := grid (meshes inp) in
  Initialize inp = Some s0 ->
  run inputs (s0, g) = Some (s, g') ->
  GeometryGenerator.well_formed grid ->
  buffers_fit [grid] Vertex.sizeof ->
  exists geo vs sm,
    mGeometries s !! "landGeo" = Some geo /\
    VertexBufferCPU geo = Some (StdVertices vs) /\
    DrawArgs geo !! "grid" = Some sm /\
    IndexCount sm = Z.of_nat (length (GeometryGenerator.Indices32 grid)) /\
    (forall k gv, GeometryGenerator.Vertices grid !! k = Some gv ->
       let p := GeometryGenerator.Position gv in
       vs !! k = Some (Vertex.mk (mkXMFLOAT3 (x3 p) (flit 0.5) (z3 p))
                                 (GetHillsNormal (x3 p) (z3 p))
                                 (GeometryGenerator.TexC gv))) /\
    (forall k, is_Some (vs !! k)
               <-> is_Some (GeometryGenerator.Vertices grid !! k)) /\
    forall j i, GeometryGenerator.Indices32 grid !! j = Some i ->
      is_Some (vs !! Z.to_nat (uint16_t i)) /\
      fetch_vertex vs (indices_of geo) sm j = vs !! Z.to_nat (uint16_t i).
Proof.
  intros grid0 Hinit Hrun Hwf [Hv Hi].
  pose proof (run_same_scene inputs s0 g s g' Hrun)
    as (_ & _ & _ & _ & _ & Hgeos).
  specialize (Hgeos "landGeo").
  destruct (Initialize_spec inp) as (s0' & b & Hs & Hspec).
  rewrite Hinit in Hs. injection Hs as <-.
  destruct Hspec as (_ & _ & _ & _ & _ & _ & _ & _ & _ & _ & _ & Hgeo0).
  rewrite Hgeo0 in Hgeos.
  rewrite Initialize_land in Hgeos. unfold BuildLandGeometry in Hgeos.
  cbn [mGeometries set_mGeometries] in Hgeos.
  rewrite lookup_insert_eq in Hgeos.
  destruct (mGeometries s !! "landGeo") as [geo|]; [|discriminate].
  cbn [fmap option_fmap option_map] in Hgeos.
  apply (inj Some) in Hgeos. rename Hgeos into Hst.
  pose proof (f_equal VertexBufferCPU Hst) as Hvb.
  pose proof (f_equal IndexBufferCPU Hst) as Hib.
  pose proof (f_equal DrawArgs Hst) as Ha.
  cbn [static_geometry_of set_VertexBufferGPU static_geometry VertexBufferCPU
       IndexBufferCPU DrawArgs] in Hvb, Hib, Ha.
  cbv zeta in Hvb, Hib, Ha. fold grid0 in Hvb, Hib, Ha.
  unfold vertices_in, indices_in in Hv, Hi. cbn [foldr] in Hv, Hi.
  unfold Vertex.sizeof in Hv.
  eexists geo, _, _.
  split; [reflexivity|]. split; [exact Hvb|].
  split; [rewrite Ha; apply lookup_insert_eq|].
  split.
  { cbn [submesh IndexCount]. unfold GeometryGenerator.GetIndices16.
    rewrite length_map. apply UINT_small. lia. }
  split; [intros k gv Hk; rewrite list_lookup_fmap, Hk; reflexivity|].
  split.
  { intros k. rewrite list_lookup_fmap, fmap_is_Some. reflexivity. }
  intros j i Hji.
  pose proof (Forall_lookup_1 _ _ _ _ Hwf Hji) as Hrange. cbn beta in Hrange.
  pose proof (uint16_t_bounds i ltac:(lia)) as H16.
  split.
  { rewrite list_lookup_fmap, fmap_is_Some.
    apply lookup_lt_is_Some_2. lia. }
  unfold indices_of. rewrite Hib. cbn [default from_option id].
  unfold fetch_vertex. cbn [submesh StartIndexLocation BaseVertexLocation].
  change (Z.to_nat 0 + j)%nat with j.
  unfold GeometryGenerator.GetIndices16. rewrite list_lookup_fmap, Hji.
  cbn [fmap option_fmap option_map mbind option_bind].
  change (INT 0) with 0. rewrite Z.add_0_l.
  destruct (uint16_t i <? 0) eqn:E; [apply Z.ltb_lt in E; lia | reflexivity].
Qed.

End Land.

(** ** The index buffer of the waves *)

Section WaveIndices.
Context {F W : Type} `{FloatOps F} `{WavesGrid F W}.
Import TreeBillboardsApp.

Lemma write_quad_block (n i j : Z) (done rest : list Z) :
  write_quad n i j (done ++ replicate 6 0 ++ rest, Z.of_nat (length done))
  = (done ++ quad_indices n i j ++ rest, Z.of_nat (length done + 6)).
Proof.
  unfold write_quad, quad_indices. cbn [fst snd map imap foldl].
  unfold compose. cbn [fst snd Nat.add].
  f_equal; [|lia].
  replace (Z.to_nat (Z.of_nat (length done) + Z.of_nat 0))
    with (length done + 0)%nat by lia.
  replace (Z.to_nat (Z.of_nat (length done) + Z.of_nat 1))
    with (length done + 1)%nat by lia.
  replace (Z.to_nat (Z.of_nat (length done) + Z.of_nat 2))
    with (length done + 2)%nat by lia.
  replace (Z.to_nat (Z.of_nat (length done) + Z.of_nat 3))
    with (length done + 3)%nat by lia.
  replace (Z.to_nat (Z.of_nat (length done) + Z.of_nat 4))
    with (length done + 4)%nat by lia.
  replace (Z.to_nat (Z.of_nat (length done) + Z.of_nat 5))
    with (length done + 5)%nat by lia.
  rewrite !insert_app_r. reflexivity.
Qed.

Lemma write_row (n i : Z) (js : list Z) (done rest : list Z) :
  foldl (fun acc j => write_quad n i j acc)
        (done ++ replicate (6 * length js) 0 ++ rest,
         Z.of_nat (length done)) js
  = (done ++ (js ≫= quad_indices n i) ++ rest,
     Z.of_nat (length done + 6 * length js)).
Proof.
  revert done. induction js as [|j js IH]; intros done.
  - cbn. rewrite Nat.add_0_r. reflexivity.
  - cbn [foldl length].
    replace (6 * S (length js))%nat with (6 + 6 * length js)%nat by lia.
    rewrite replicate_add, <- app_assoc, write_quad_block.
    replace (Z.of_nat (length done + 6))
      with (Z.of_nat (length (done ++ quad_indices n i j)))
      by (rewrite length_app; reflexivity).
    rewrite (app_assoc done (quad_indices n i j)), IH.
    cbn [mbind list_bind]. rewrite <- !app_assoc.
    f_equal. rewrite !length_app. cbn [quad_indices map length]. lia.
Qed.

Lemma write_rows (n : Z) (cols : list Z) (rows : list Z)
    (done rest : list Z) :
  foldl (fun acc i => foldl (fun acc j => write_quad n i j acc) acc cols)
        (done ++ replicate (6 * length cols * length rows) 0 ++ rest,
         Z.of_nat (length done)) rows
  = (done ++ (rows ≫= fun i => cols ≫= quad_indices n i) ++ rest,
     Z.of_nat (length done + 6 * length cols * length rows)).
Proof.
  revert done. induction rows as [|i rows IH]; intros done.
  - cbn. rewrite Nat.mul_0_r, Nat.add_0_r. reflexivity.
  - cbn [foldl length].
    replace (6 * length cols * S (length rows))%nat
      with (6 * length cols + 6 * length cols * length rows)%nat by lia.
    rewrite replicate_add, <- app_assoc, write_row.
    assert (Hl : length (cols ≫= quad_indices n i) = (6 * length cols)%nat).
    { clear. induction cols as [|j cols IHc]; [reflexivity|].
      cbn [mbind list_bind length]. rewrite length_app, IHc.
      cbn [quad_indices map length]. lia. }
    replace (Z.of_nat (length done + 6 * length cols))
      with (Z.of_nat (length (done ++ (cols ≫= quad_indices n i))))
      by (rewrite length_app, Hl; reflexivity).
    rewrite (app_assoc done (cols ≫= quad_indices n i)), IH.
    cbn [mbind list_bind]. rewrite <- !app_assoc.
    f_equal. rewrite !length_app, Hl. lia.
Qed.

Lemma bind_ext_in {A B : Type} (f g : A -> list B) (l : list A) :
  (forall x, x ∈ l -> f x = g x) -> l ≫= f = l ≫= g.
Proof.
  induction l as [|x l IH]; intros Hfg; [reflexivity|].
  cbn [mbind list_bind]. rewrite (Hfg x) by left.
  f_equal. apply IH. intros y Hy. apply Hfg. right. exact Hy.
Qed.

Lemma quad_indices_triangles (m n i j : Z) :
  0 <= i < m - 1 -> 0 <= j < n - 1 -> m * n < 65535 ->
  quad_indices n i j = quad_triangles n i j.
Proof.
  intros Hi Hj Hfit. unfold quad_indices, quad_triangles. cbn [map].
  unfold uint16_t. rewrite !Z.mod_small by nia. reflexivity.
Qed.

(** X21.  The index buffer of the waves.  On a wave grid of [m] rows
    and [n] columns, the index buffer [BuildWavesGeometry] fills holds,
    quad after quad and row after row, the two triangles of every quad of
    the grid: no element is left at its initial value, and no index is
    changed by its conversion to 16 bits.  The submesh of the geometry
    covers the whole buffer. *)
Theorem waves_triangulated (s : State F W) :
  let w := mWaves s in
  exists geo sm,
    mGeometries (BuildWavesGeometry s) !! "waterGeo" = Some geo /\
    indices_of geo = grid_triangles (RowCount w) (ColumnCount w) /\
    Z.of_nat (length (indices_of geo)) = 3 * TriangleCount w /\
    DrawArgs geo !! "grid" = Some sm /\
    IndexCount sm = 3 * TriangleCount w /\
    StartIndexLocation sm = 0 /\ BaseVertexLocation sm = 0.
Proof.
  intros w.
  pose proof (waves_rows_pos w) as Hm. pose proof (waves_cols_pos w) as Hn.
  pose proof (waves_vertex_count w) as Hvn.
  pose proof (waves_triangle_count w) as Htn.
  pose proof (waves_fits_16 w) as H16.
  assert (Hind : wave_indices w
                 = grid_triangles (RowCount w) (ColumnCount w)).
  { unfold wave_indices, grid_triangles. fold w.
    pose proof (write_rows (ColumnCount w) (seqZ 0 (ColumnCount w - 1))
                  (seqZ 0 (RowCount w - 1)) [] []) as Hrows.
    rewrite !length_seqZ in Hrows. cbn [app length] in Hrows.
    rewrite app_nil_r in Hrows.
    replace (6 * Z.to_nat (ColumnCount w - 1) * Z.to_nat (RowCount w - 1))%nat
      with (Z.to_nat (3 * TriangleCount w)) in Hrows by nia.
    change (Z.of_nat 0) with 0 in Hrows. rewrite Hrows. cbn [fst].
    rewrite app_nil_r.
    apply bind_ext_in. intros i Hi%elem_of_seqZ.
    apply bind_ext_in. intros j Hj%elem_of_seqZ.
    apply (quad_indices_triangles (RowCount w)); lia. }
  assert (Hlen : Z.of_nat (length (wave_indices w)) = 3 * TriangleCount w).
  { destruct (wave_indices_in_range w) as [-> _]. nia. }
  unfold BuildWavesGeometry. cbn [mGeometries set_mGeometries].
  rewrite lookup_insert_eq. eexists. eexists.
  split; [reflexivity|].
  cbn [indices_of IndexBufferCPU default from_option id DrawArgs].
  fold w. split; [exact Hind|]. split; [exact Hlen|].
  split; [apply lookup_insert_eq|].
  cbn [submesh IndexCount StartIndexLocation BaseVertexLocation].
  split; [rewrite Hlen; apply UINT_small; nia|].
  split; reflexivity.
Qed.

End WaveIndices.

(** * The properties on the example inputs *)

#[export] Instance ExampleWaves_grid : WavesGrid Q ExampleWaves.
Proof. split; intros; cbn; (reflexivity || lia). Qed.

Lemma example_state_eq :
  TreeBillboardsApp.Initialize example_input = Some example_state.
Proof. vm_compute. reflexivity. Qed.

Lemma example_run_eq :
  TreeBillboardsApp.run example_frames (example_state, example_gpu)
  = Some (example_run.1, example_run.2).
Proof. vm_compute. reflexivity. Qed.

Lemma example_ring_ok : ring_ok example_state example_gpu.
Proof.
  apply (Initialize_ring_ok example_input); [exact example_state_eq | |].
  - cbn. lia.
  - reflexivity.
Qed.

Lemma no_premature_reuse_witness :
  example_steps.*1 = TreeBillboardsApp.frame_statements /\
  next_slot example_run.1 = 1%nat /\
  (exists fr,
     TreeBillboardsApp.mFrameResources example_run.1 !! 1%nat = Some fr /\
     TreeBillboardsApp.FrameResource.Fence fr = 1) /\
  CompletedValue example_run.2 = 0 /\
  ~ slot_idle (example_run.1, example_run.2) 1 /\
  forall st sg, (st, sg) ∈ example_steps ->
                recording st = true -> slot_idle sg 1.
Proof.
  destruct (no_premature_reuse example_frames example_next_frame
              example_state example_gpu example_run.1 example_run.2)
    as (_ & _ & Hall & (fr & _ & _ & Hfr & _) & Hsteps & _).
  - exact example_ring_ok.
  - vm_compute. reflexivity.
  - exact example_run_eq.
  - unfold example_steps. split.
    { apply Hall.
      destruct (TreeBillboardsApp.frame example_next_frame
                  (example_run.1, example_run.2)) as [sg|] eqn:E;
        [eauto | vm_compute in E; discriminate E]. }
    split; [vm_compute; reflexivity|].
    split.
    { exists fr. split; [exact Hfr|].
      vm_compute in Hfr. injection Hfr as <-. reflexivity. }
    split; [reflexivity|]. split.
    { intros (fr' & Hfr' & Hle). vm_compute in Hfr'. injection Hfr' as <-.
      vm_compute in Hle. apply Hle. reflexivity. }
    intros st sg Hin Hrec. exact (proj1 (proj2 (Hsteps st sg Hin)) Hrec).
Defined.

Lemma example_items_ok : items_ok example_state.
Proof. exact (Initialize_items_ok example_input _ example_state_eq). Qed.

Lemma example_materials_ok : materials_ok example_state.
Proof. exact (Initialize_materials_ok example_input _ example_state_eq). Qed.

Lemma example_waves_ok : waves_buffers_ok example_state.
Proof. exact (Initialize_waves_ok example_input _ example_state_eq). Qed.

Lemma dirty_propagation_complete_witness :
  exists e m,
    TreeBillboardsApp.heap example_state !! 1%nat = Some e /\
    TreeBillboardsApp.heap example_run.1 !! 1%nat
      = Some (TreeBillboardsApp.RenderItem.set_NumFramesDirty 0 e) /\
    (forall k, (k < 3)%nat ->
       object_constants example_run.1 k
         (TreeBillboardsApp.RenderItem.ObjCBIndex e)
       = Some (TreeBillboardsApp.objConstants e)) /\
    TreeBillboardsApp.mMaterials example_state !! "grass" = Some m /\
    TreeBillboardsApp.mMaterials example_run.1 !! "grass"
      = Some (TreeBillboardsApp.Material.set_NumFramesDirty 0 m) /\
    (forall k, (k < 3)%nat ->
       material_constants example_run.1 k
         (TreeBillboardsApp.Material.MatCBIndex m)
       = Some (TreeBillboardsApp.matConstants m)).
Proof.
  destruct (dirty_propagation_complete
              (example_frame (1 # 10) 3) (example_frame (3 # 10) 7)
              (example_frame (1 # 2) 12)
              example_state example_gpu example_run.1 example_run.2)
    as (Hitem & Hmat & _).
  - vm_compute. split; [discriminate | reflexivity].
  - exact example_items_ok.
  - exact example_materials_ok.
  - exact example_run_eq.
  - destruct (TreeBillboardsApp.heap example_state !! 1%nat) as [e|] eqn:He;
      [|vm_compute in He; discriminate He].
    destruct (TreeBillboardsApp.mMaterials example_state !! "grass")
      as [m|] eqn:Hm; [|vm_compute in Hm; discriminate Hm].
    exists e, m.
    destruct (Hitem 1%nat e) as [Hheap Hslots].
    { apply (bool_decide_unpack
               (1%nat ∈ TreeBillboardsApp.mAllRitems example_state)).
      vm_compute. exact I. }
    { exact He. }
    { vm_compute in He. injection He as <-. reflexivity. }
    destruct (Hmat "grass" m Hm) as [Hgrass Hmslots].
    { discriminate. }
    { vm_compute in Hm. injection Hm as <-. reflexivity. }
    repeat split; assumption.
Defined.

Lemma draw_order_witness :
  Forall2 (fun lp c => call_of example_state 1 lp = Some c)
          (draw_sequence example_registration) (draw_calls example_commands) /\
  pso <$> draw_calls example_commands
  = ["opaque"] ++ replicate 27 "alphaTested" ++ ["treeSprites"; "transparent"].
Proof.
  destruct (draw_order example_registration example_state 1 example_commands)
    as (Hcalls & _ & _).
  - vm_compute. reflexivity.
  - vm_compute. reflexivity.
  - split; [exact Hcalls|]. vm_compute. reflexivity.
Defined.

Lemma wave_buffer_rotation_witness :
  TreeBillboardsApp.mCurrFrameResource example_run.1 = Some 0%nat /\
  active_wave_buffer example_run.1 = Some (UploadResource 0 WavesVBKind) /\
  disturbance_schedule example_frames
    (TreeBillboardsApp.t_base example_state) = example_schedule /\
  TreeBillboardsApp.mWaves example_run.1
  = integrate example_schedule (TreeBillboardsApp.mWaves example_state) /\
  heights (TreeBillboardsApp.mWaves example_run.1) !! 40%nat
  = Some (1100 # 8000)%Q /\
  exists fr,
    TreeBillboardsApp.mFrameResources example_run.1 !! 0%nat = Some fr /\
    TreeBillboardsApp.FrameResource.WavesVB fr
    = wave_vertices
        (integrate example_schedule
           (TreeBillboardsApp.mWaves example_state)).
Proof.
  destruct (wave_buffer_rotation example_frames example_state example_gpu
              example_run.1 example_run.2)
    as (Hcur & _ & Hact & _ & Hint & _ & _ & (fr & Hfr & Hvb & _)).
  - vm_compute. split; [discriminate | reflexivity].
  - exact example_waves_ok.
  - discriminate.
  - exact example_run_eq.
  - cbv zeta in Hint, Hvb.
    change (disturbance_schedule example_frames
              (TreeBillboardsApp.t_base example_state))
      with example_schedule in Hint, Hvb.
    split; [exact Hcur|]. split; [exact Hact|].
    split; [reflexivity|]. split; [exact Hint|].
    split; [reflexivity|].
    exists fr. split; [exact Hfr | exact Hvb].
Defined.

Lemma example_meshes_well_formed :
  Forall GeometryGenerator.well_formed (castle_meshes example_meshes).
Proof.
  unfold castle_meshes, GeometryGenerator.well_formed.
  repeat (apply Forall_cons_2;
          [cbn; repeat (apply Forall_cons_2; [lia|]); apply Forall_nil_2|]).
  apply Forall_nil_2.
Qed.

Lemma submesh_ranges_valid_witness :
  (exists geo,
     TreeBillboardsApp.mGeometries
       (TreeBillboardsApp.BuildBoxGeometry example_input
          (TreeBillboardsApp.State_new example_input))
       !! "boxGeo" = Some geo /\
     geometry_valid geo /\
     DrawArgs geo !! "cone" = Some (mkSubmeshGeometry 3 15 11)) /\
  (exists geo,
     MyCastleApp.mGeometries
       (MyCastleApp.BuildShapeGeometry example_meshes MyCastleApp.State_new)
       !! "shapeGeo" = Some geo /\
     geometry_valid geo).
Proof.
  destruct (submesh_ranges_valid example_input MyCastleApp.State_new
              (TreeBillboardsApp.State_new example_input))
    as ((g1 & Hg1 & Hv1 & _) & (g2 & Hg2 & Hv2 & _) & _).
  - exact example_meshes_well_formed.
  - split; vm_compute; reflexivity.
  - split; vm_compute; reflexivity.
  - split; vm_compute; reflexivity.
  - split.
    + exists g2. split; [exact Hg2|]. split; [exact Hv2|].
      vm_compute in Hg2. injection Hg2 as <-. vm_compute. reflexivity.
    + exists g1. split; [exact Hg1 | exact Hv1].
Defined.

Lemma example_updating_waves_ok : waves_buffers_ok example_updating.
Proof.
  intros k fr Hk. destruct k as [|[|[|k]]]; vm_compute in Hk;
    [injection Hk as <-; reflexivity .. | discriminate Hk].
Qed.

Lemma waves_rebuild_vertices_only_witness :
  exists geo geo',
    TreeBillboardsApp.mGeometries example_updating !! "waterGeo" = Some geo /\
    TreeBillboardsApp.mGeometries example_rebuilt !! "waterGeo" = Some geo' /\
    VertexBufferGPU geo = Some (UploadResource 0 WavesVBKind) /\
    VertexBufferGPU geo' = Some (UploadResource 1 WavesVBKind) /\
    IndexBufferCPU geo' = IndexBufferCPU geo /\
    IndexFormat geo' = IndexFormat geo /\
    VertexByteStride geo' = VertexByteStride geo /\
    DrawArgs geo' = DrawArgs geo.
Proof.
  destruct (waves_rebuild_vertices_only example_next_frame
              example_updating example_rebuilt 1)
    as (p & ri & gn & geo & geo' & fr & fr' & Hp & Hri & Hgn & Hgeo & Hgeo'
        & Hvb & Hib & _ & Hfmt & _ & Hstride & _ & _ & Hargs & _).
  - exact example_updating_waves_ok.
  - reflexivity.
  - vm_compute. reflexivity.
  - vm_compute in Hp. injection Hp as <-.
    vm_compute in Hri. injection Hri as <-.
    vm_compute in Hgn. injection Hgn as <-.
    exists geo, geo'. split; [exact Hgeo|]. split; [exact Hgeo'|].
    split; [vm_compute in Hgeo; injection Hgeo as <-; reflexivity|].
    repeat split; assumption.
Defined.

Lemma descriptor_index_matches_view_witness :
  MyCastleApp.BuildConstantBufferViews
    (MyCastleApp.BuildDescriptorHeaps example_castle_scene)
  = Some example_castle /\
  MyCastleApp.mCbvHeap example_castle !! 77%nat
  = Some (Some (MyCastleApp.object_cbv 2 5)) /\
  MyCastleApp.draw_item example_castle 5 = Some example_castle_commands /\
  descriptor_tables 0 example_castle_commands = [5] /\
  MyCastleApp.mCbvHeap example_castle !! 5%nat
  = Some (Some (MyCastleApp.mkCBV
                  (mkGpuAddress (UploadResource 0 ObjectCBKind) 1280)
                      256)).
Proof.
  destruct (descriptor_index_matches_view (F := Q) example_castle_scene)
    as [(s1 & Hb & Hviews & _ & Hdraw) _].
  - vm_compute. reflexivity.
  - vm_compute. lia.
  - assert (Hs : Some s1 = Some example_castle)
      by (rewrite <- Hb; vm_compute; reflexivity).
    injection Hs as ->.
    split; [exact Hb|]. split.
    { apply (Hviews 2 5); vm_compute; split; (discriminate || reflexivity). }
    split; [vm_compute; reflexivity|].
    destruct (MyCastleApp.heap example_castle !! 5%nat) as [ri|] eqn:Hri;
      [|vm_compute in Hri; discriminate Hri].
    assert (Hidx : MyCastleApp.RenderItem.ObjCBIndex ri = 5)
      by (vm_compute in Hri; injection Hri as <-; reflexivity).
    destruct (Hdraw example_castle 5%nat ri example_castle_commands)
      as [Htab Hview].
    + reflexivity.
    + reflexivity.
    + vm_compute. split; [discriminate | reflexivity].
    + exact Hri.
    + rewrite Hidx. vm_compute. split; [discriminate | reflexivity].
    + vm_compute. reflexivity.
    + rewrite Hidx in Htab, Hview. split; [exact Htab | exact Hview].
Defined.

Lemma camera_zoom_clamped_witness :
  TreeBillboardsApp.mRadius
    (repeat_move TreeBillboardsApp.OnMouseMove TreeBillboardsApp.mLastMousePos
       TreeBillboardsApp.MK_RBUTTON 1000 0 3 example_state) = 150%Q /\
  MyCastleApp.mRadius
    (repeat_move MyCastleApp.OnMouseMove MyCastleApp.mLastMousePos
       TreeBillboardsApp.MK_RBUTTON 0 1000 3 example_castle_scene) = 5%Q.
Proof.
  destruct (camera_zoom_clamped (F := Q) ExampleWaves)
    as [(_ & Habove & _) (_ & _ & Hbelow)].
  split.
  - apply (Habove example_state TreeBillboardsApp.MK_RBUTTON 1000 0 2%nat).
    + split; [reflexivity | discriminate].
    + split; reflexivity.
    + reflexivity.
  - apply (Hbelow example_castle_scene TreeBillboardsApp.MK_RBUTTON 0 1000
             2%nat).
    + split; [reflexivity | discriminate].
    + split; reflexivity.
    + reflexivity.
Defined.

Lemma water_material_never_settles_witness :
  exists w m,
    TreeBillboardsApp.mMaterials example_run.1 !! "water" = Some w /\
    TreeBillboardsApp.Material.NumFramesDirty w = 2 /\
    TreeBillboardsApp.mMaterials example_run.1 !! "bricks" = Some m /\
    TreeBillboardsApp.Material.NumFramesDirty m = 0.
Proof.
  destruct (water_material_never_settles example_frames
              example_state example_gpu example_run.1 example_run.2)
    as (Hpos & Hframe & Hother).
  - vm_compute. split; [discriminate | reflexivity].
  - exact example_materials_ok.
  - exact example_run_eq.
  - destruct (TreeBillboardsApp.mMaterials example_state !! "water")
      as [w0|] eqn:Hw0; [|vm_compute in Hw0; discriminate Hw0].
    destruct (Hpos w0 eq_refl) as (w & Hw & Hwpos).
    { vm_compute in Hw0. injection Hw0 as <-. reflexivity. }
    destruct (TreeBillboardsApp.mMaterials example_state !! "bricks")
      as [m0|] eqn:Hm0; [|vm_compute in Hm0; discriminate Hm0].
    destruct (Hother (example_frame (1 # 10) 3) (example_frame (3 # 10) 7)
                (example_frame (1 # 2) 12)
                example_state example_gpu example_run.1 example_run.2
                "bricks" m0)
      as (m & Hm & Hmz).
    { vm_compute. split; [discriminate | reflexivity]. }
    { exact example_materials_ok. }
    { exact example_run_eq. }
    { exact Hm0. }
    { discriminate. }
    { vm_compute in Hm0. injection Hm0 as <-. reflexivity. }
    exists w, m. split; [exact Hw|]. split; [|split; [exact Hm | exact Hmz]].
    vm_compute in Hw. injection Hw as <-. reflexivity.
Defined.

Lemma frames_complete_witness :
  exists s s' g',
    TreeBillboardsApp.Initialize example_input = Some s /\
    TreeBillboardsApp.run example_frames (s, example_gpu) = Some (s', g') /\
    ring_ok s' g' /\ scene_ok s'.
Proof.
  apply (frames_complete example_input example_frames example_gpu).
  - cbn. lia.
  - reflexivity.
  - vm_compute. reflexivity.
Defined.

Lemma example_updated_eq :
  TreeBillboardsApp.Update example_next_frame example_run.1 example_run.2
  = Some (example_updated.1, example_updated.2).
Proof. vm_compute. reflexivity. Qed.

Lemma frames_in_flight_witness :
  TreeBillboardsApp.mCurrentFence example_run.1 = 3 /\
  LastSignal example_run.2 = 3 /\
  ring_stamped 3 example_run.1 /\
  1 <= CompletedValue example_updated.2.
Proof.
  destruct (frames_in_flight example_frames example_next_frame
              example_state example_gpu example_run.1 example_run.2
              example_updated.1 example_updated.2)
    as (Hfence & Hsig & Hst & Hdone).
  - exact example_ring_ok.
  - vm_compute. reflexivity.
  - exact example_run_eq.
  - exact example_updated_eq.
  - split; [exact Hfence|]. split; [rewrite Hsig; exact Hfence|].
    split; [exact Hst|]. apply (Hdone (le_n 3)).
Defined.

Lemma dirty_countdown_witness :
  exists e e',
    TreeBillboardsApp.heap example_state !! 1%nat = Some e /\
    TreeBillboardsApp.RenderItem.NumFramesDirty e = 3 /\
    TreeBillboardsApp.heap example_run.1 !! 1%nat = Some e' /\
    TreeBillboardsApp.RenderItem.NumFramesDirty e' = 0 /\
    TreeBillboardsApp.RenderItem.ObjCBIndex e'
      = TreeBillboardsApp.RenderItem.ObjCBIndex e /\
    TreeBillboardsApp.objConstants e' = TreeBillboardsApp.objConstants e.
Proof.
  destruct (TreeBillboardsApp.heap example_state !! 1%nat) as [e|] eqn:He;
    [|vm_compute in He; discriminate He].
  assert (Hd : TreeBillboardsApp.RenderItem.NumFramesDirty e = 3)
    by (vm_compute in He; injection He as <-; reflexivity).
  destruct (dirty_countdown example_frames example_state example_gpu
              example_run.1 example_run.2 1%nat e)
    as ((e' & He' & Hn & Hidx & Hcon) & _).
  - exact example_items_ok.
  - exact example_run_eq.
  - apply (bool_decide_unpack
             (1%nat ∈ TreeBillboardsApp.mAllRitems example_state)).
    vm_compute. exact I.
  - exact He.
  - rewrite Hd. lia.
  - exists e, e'. split; [reflexivity|]. split; [exact Hd|].
    split; [exact He'|]. split; [rewrite Hn, Hd; reflexivity|].
    split; [exact Hidx | exact Hcon].
Defined.

Lemma frames_keep_scene_witness :
  TreeBillboardsApp.mAllRitems example_run.1
  = TreeBillboardsApp.mAllRitems example_state /\
  TreeBillboardsApp.mRitemLayer example_run.1
  = TreeBillboardsApp.mRitemLayer example_state /\
  length (TreeBillboardsApp.heap example_run.1)
  = length (TreeBillboardsApp.heap example_state).
Proof.
  destruct (frames_keep_scene example_frames example_state example_gpu
              example_run.1 example_run.2 example_run_eq)
    as (Hall & Hlayers & _ & Hlen & _).
  split; [exact Hall|]. split; [exact Hlayers | exact Hlen].
Defined.

Lemma example_run_commands_eq :
  TreeBillboardsApp.Draw_commands example_run.1 0
  = Some example_run_commands.
Proof. vm_compute. reflexivity. Qed.

Lemma every_item_drawn_once_witness :
  length (draw_calls example_run_commands) = 30%nat /\
  NoDup (object_cb <$> draw_calls example_run_commands).
Proof.
  destruct (every_item_drawn_once example_input example_frames example_gpu
              example_run.2 example_state example_run.1 0
              example_run_commands example_state_eq example_run_eq
              example_run_commands_eq)
    as (order & _ & _ & _ & Hlen & Hnd).
  split; [exact Hlen | exact Hnd].
Defined.

Lemma layer_contents_witness :
  length (TreeBillboardsApp.heap example_run.1) = 30%nat /\
  forall l p, p ∈ TreeBillboardsApp.layer_items example_run.1 l ->
    exists e, TreeBillboardsApp.heap example_run.1 !! p = Some e
              /\ layer_kind l e.
Proof.
  destruct (layer_contents example_input example_frames example_gpu
              example_run.2 example_state example_run.1
              example_state_eq example_run_eq)
    as (Hlen & _ & Hl).
  split; [exact Hlen | exact Hl].
Defined.

Lemma example_tree_commands_eq :
  is_Some (TreeBillboardsApp.draw_item example_run.1 0 29).
Proof. vm_compute. eexists. reflexivity. Qed.

Lemma material_textures_witness :
  exists cmds srvHeap view,
    TreeBillboardsApp.draw_item example_run.1 0 29 = Some cmds /\
    TreeBillboardsApp.BuildDescriptorHeaps
      (TreeBillboardsApp.LoadTextures example_dds ∅) = Some srvHeap /\
    descriptor_tables 0 cmds = [9] /\
    srvHeap !! 9%nat = Some (Some view) /\
    tex_file (srv_Resource view) = "../../Textures/treeArray.dds" /\
    ViewDimension (srv_Desc view) = D3D12_SRV_DIMENSION_TEXTURE2DARRAY.
Proof.
  destruct example_tree_commands_eq as [cmds Hcmds].
  destruct (material_textures example_dds example_input example_frames
              example_gpu example_run.2 example_state example_run.1 0 29
              cmds example_state_eq example_run_eq Hcmds)
    as (_ & srvHeap & e & m & mat & view & Hheap & _ & He & Hm & Hmat
        & Htab & Hview & Hfile & _ & Hdim).
  exists cmds, srvHeap, view.
  vm_compute in He. injection He as <-.
  vm_compute in Hm. injection Hm as <-.
  vm_compute in Hmat. injection Hmat as <-.
  split; [exact Hcmds|]. split; [exact Hheap|]. split; [exact Htab|].
  split; [exact Hview|]. split; [|exact Hdim].
  cbn in Hfile. congruence.
Defined.

Lemma pipeline_matches_items_witness :
  exists mPSOs e pso,
    initial_pipeline_states = Some mPSOs /\
    TreeBillboardsApp.heap example_run.1 !! 29%nat = Some e /\
    mPSOs !! "treeSprites" = Some pso /\
    PrimitiveTopologyType pso
      = topology_type (TreeBillboardsApp.RenderItem.PrimitiveType e) /\
    layout_size (InputLayout pso) = 20.
Proof.
  destruct (pipeline_matches_items example_input example_frames example_gpu
              example_run.2 example_state example_run.1
              example_state_eq example_run_eq)
    as (mPSOs & Hbuilt & Hitems).
  destruct (Hitems TreeBillboardsApp.AlphaTestedTreeSprites 29%nat)
    as (e & gn & geo & pso & He & Hg & Hgeo & Hq & Htop & _ & Hsize & _).
  { apply (bool_decide_unpack
             (29%nat ∈ TreeBillboardsApp.layer_items example_run.1
                         TreeBillboardsApp.AlphaTestedTreeSprites)).
    vm_compute. exact I. }
  exists mPSOs, e, pso. split; [exact Hbuilt|]. split; [exact He|].
  split; [exact Hq|]. split; [exact Htop|].
  rewrite Hsize.
  vm_compute in He. injection He as <-.
  vm_compute in Hg. injection Hg as <-.
  vm_compute in Hgeo. injection Hgeo as <-. reflexivity.
Defined.

Lemma drawn_constants_current_witness :
  exists k,
    TreeBillboardsApp.mCurrFrameResource example_run.1 = Some k /\
    constants_written [] example_run.1 k.
Proof.
  apply (drawn_constants_current example_input example_frames example_gpu
           example_run.2 example_state example_run.1
           example_state_eq example_run_eq).
  discriminate.
Defined.

Lemma castle_frames_complete_witness :
  exists (s0 s : MyCastleApp.State Q) g',
    MyCastleApp.Initialize example_meshes
      (MyCastleApp.ObjectConstants.mk Identity4x4) = Some s0 /\
    MyCastleApp.run example_castle_frames (s0, 1, example_castle_gpu)
    = Some (s, 5, g') /\
    castle_ring_ok s 5 g' /\ castle_scene s.
Proof.
  apply (castle_frames_complete example_meshes
           (MyCastleApp.ObjectConstants.mk Identity4x4)
           example_castle_frames 1 example_castle_gpu).
  - cbn. lia.
  - reflexivity.
  - vm_compute. reflexivity.
Defined.

Lemma castle_frame_descriptors_witness :
  exists (s' : MyCastleApp.State Q) k (fr : MyCastleApp.FrameResource.t Q),
    MyCastleApp.mCurrFrameResource s' = Some k /\
    MyCastleApp.mFrameResources s' !! k = Some fr /\
    descriptor_tables 1 (MyCastleApp.FrameResource.CmdListAlloc fr)
    = [108 + Z.of_nat k] /\
    MyCastleApp.mCbvHeap s' !! Z.to_nat (108 + Z.of_nat k)
    = Some (Some (MyCastleApp.pass_cbv (Z.of_nat k))) /\
    length (draw_calls (MyCastleApp.FrameResource.CmdListAlloc fr))
    = 36%nat.
Proof.
  destruct (castle_frame_descriptors example_meshes
              (MyCastleApp.ObjectConstants.mk Identity4x4)
              example_castle_frames example_castle_key 1 example_castle_gpu)
    as (s0 & s & f & g1 & s' & g' & k & fr0 & fr & _ & _ & _
        & Hcur & _ & _ & _ & Hfr & _ & Hcalls & Ht1 & Hpass & _).
  - cbn. lia.
  - reflexivity.
  - vm_compute. reflexivity.
  - exists s', k, fr. auto 10.
Defined.

Lemma castle_wireframe_key_witness :
  exists (s' : MyCastleApp.State Q) k (fr : MyCastleApp.FrameResource.t Q)
         mPSOs pso,
    MyCastleApp.mIsWireframe s' = true /\
    MyCastleApp.mCurrFrameResource s' = Some k /\
    MyCastleApp.mFrameResources s' !! k = Some fr /\
    head (MyCastleApp.FrameResource.CmdListAlloc fr)
    = Some (CmdReset "opaque_wireframe") /\
    castle_pipeline_states = Some mPSOs /\
    mPSOs !! "opaque_wireframe" = Some pso /\
    FillMode pso = D3D12_FILL_MODE_WIREFRAME.
Proof.
  destruct (castle_wireframe_key example_meshes
              (MyCastleApp.ObjectConstants.mk Identity4x4)
              example_castle_frames example_castle_key 1 example_castle_gpu)
    as (s0 & s & f & g1 & s' & g' & k & fr & mPSOs & pso & geo & _ & _ & _
        & Hwire & Hcur & Hfr & Hhead & _ & Hbuilt & Hq & Hfill & _).
  - cbn. lia.
  - reflexivity.
  - vm_compute. reflexivity.
  - exists s', k, fr, mPSOs, pso. auto 10.
Defined.

Lemma castle_constants_current_witness :
  exists (s' : MyCastleApp.State Q) k (fr : MyCastleApp.FrameResource.t Q),
    MyCastleApp.mCurrFrameResource s' = Some k /\
    MyCastleApp.mFrameResources s' !! k = Some fr /\
    length (MyCastleApp.heap s') = 36%nat /\
    forall p e, MyCastleApp.heap s' !! p = Some e ->
      MyCastleApp.FrameResource.ObjectCB fr !! p
      = Some (MyCastleApp.ObjectConstants.mk
                (XMMatrixTranspose (MyCastleApp.RenderItem.World e))).
Proof.
  destruct (castle_constants_current example_meshes
              (MyCastleApp.ObjectConstants.mk Identity4x4)
              example_castle_frames example_castle_key 1 example_castle_gpu)
    as (s0 & s & f & g1 & s' & g' & k & fr & _ & _ & _ & Hcur & Hfr & Hlen
        & Hcb).
  - cbn. lia.
  - reflexivity.
  - vm_compute. reflexivity.
  - exists s', k, fr. split; [exact Hcur|]. split; [exact Hfr|].
    split; [exact Hlen|]. intros p e He. apply (Hcb p e He).
Defined.

Lemma camera_orbit_clamped_witness :
  phi_ok (TreeBillboardsApp.mPhi
            (TreeBillboardsApp.OnMouseMove TreeBillboardsApp.MK_LBUTTON
               0 100000 example_state)) /\
  MyCastleApp.mRadius
    (MyCastleApp.OnMouseMove 3 40 (-7) example_castle_scene)
  = MyCastleApp.mRadius example_castle_scene.
Proof.
  destruct (camera_orbit_clamped (F := Q) ExampleWaves)
    as [(_ & _ & Hleft & _) (_ & _ & Hleft' & _)].
  - vm_compute. reflexivity.
  - split.
    + apply (Hleft example_state TreeBillboardsApp.MK_LBUTTON 0 100000).
      discriminate.
    + apply (Hleft' example_castle_scene 3 40 (-7)). discriminate.
Defined.

Lemma example_castle_fit :
  buffers_fit (castle_meshes example_meshes) MyCastleApp.Vertex.sizeof.
Proof. split; vm_compute; reflexivity. Qed.

Lemma castle_shapes_fetched_witness :
  exists geo vs sm,
    MyCastleApp.mGeometries
      (MyCastleApp.BuildShapeGeometry example_meshes MyCastleApp.State_new)
      !! "shapeGeo" = Some geo /\
    VertexBufferCPU geo = Some vs /\
    DrawArgs geo !! "wedge" = Some sm /\
    fetch_vertex vs (indices_of geo) sm 2
    = Some (MyCastleApp.Vertex.mk (mkXMFLOAT3 0 0 1)%Q MyCastleApp.Chocolate).
Proof.
  destruct (castle_shapes_fetched example_meshes MyCastleApp.State_new
              example_meshes_well_formed example_castle_fit)
    as (geo & vs & Hgeo & Hvs & Hshapes).
  destruct (Hshapes "wedge" MyCastleApp.Chocolate (wedge example_meshes))
    as (sm & Hsm & _ & Hfetch).
  { unfold castle_shapes. rewrite !elem_of_cons. tauto. }
  destruct (Hfetch 2%nat 2 eq_refl) as (v & Hv & Hf).
  exists geo, vs, sm. split; [exact Hgeo|]. split; [exact Hvs|].
  split; [exact Hsm|]. rewrite Hf. vm_compute in Hv. injection Hv as <-.
  reflexivity.
Defined.

Lemma example_box_well_formed :
  Forall GeometryGenerator.well_formed
         (box_meshes (TreeBillboardsApp.meshes example_input)).
Proof.
  unfold box_meshes, GeometryGenerator.well_formed.
  repeat (apply Forall_cons_2;
          [cbn; repeat (apply Forall_cons_2; [lia|]); apply Forall_nil_2|]).
  apply Forall_nil_2.
Qed.

Lemma box_shapes_fetched_witness :
  exists geo vs sm,
    TreeBillboardsApp.mGeometries
      (TreeBillboardsApp.BuildBoxGeometry example_input
         (TreeBillboardsApp.State_new example_input))
      !! "boxGeo" = Some geo /\
    VertexBufferCPU geo = Some (TreeBillboardsApp.StdVertices vs) /\
    DrawArgs geo !! "Pyramid_flat_head" = Some sm /\
    fetch_vertex vs (indices_of geo) sm 1
    = Some (TreeBillboardsApp.copy_vertex (example_vertex 1 0)).
Proof.
  destruct (box_shapes_fetched example_input
              (TreeBillboardsApp.State_new example_input)
              example_box_well_formed)
    as (geo & vs & Hgeo & Hvs & _ & sm & Hsm & _ & Hfetch).
  - split; vm_compute; reflexivity.
  - exists geo, vs, sm. split; [exact Hgeo|]. split; [exact Hvs|].
    split; [exact Hsm|].
    apply (Hfetch 1%nat 1 (example_vertex 1 0)); reflexivity.
Defined.

Lemma example_first_eq :
  TreeBillboardsApp.frame (example_frame (1 # 10) 3)
                          (example_state, example_gpu)
  = Some (example_first.1, example_first.2).
Proof. vm_compute. reflexivity. Qed.

Lemma wave_disturbance_interior_witness :
  TreeBillboardsApp.mWaves example_first.1
  = Waves_Update (1 # 10)%Q (TreeBillboardsApp.mWaves example_state) /\
  TreeBillboardsApp.t_base example_first.1
  = TreeBillboardsApp.t_base example_state.
Proof.
  destruct (wave_disturbance_interior (example_frame (1 # 10) 3)
              example_state example_gpu example_first.1 example_first.2
              example_first_eq)
    as [(_ & Hw & Ht) | (Hq & _)].
  - vm_compute. discriminate.
  - vm_compute. discriminate.
  - vm_compute. discriminate.
  - vm_compute. discriminate.
  - split; [exact Hw | exact Ht].
  - vm_compute in Hq. discriminate Hq.
Defined.

Lemma tree_sprites_placed_witness :
  exists geo vs,
    TreeBillboardsApp.mGeometries example_run.1 !! "treeSpritesGeo"
    = Some geo /\
    VertexBufferCPU geo = Some (TreeBillboardsApp.SpriteVertices vs) /\
    length vs = 20%nat /\
    forall j v, vs !! j = Some v ->
      y3 (TreeBillboardsApp.TreeSpriteVertex.Pos v) = 9.5%Q.
Proof.
  destruct (tree_sprites_placed example_input example_frames example_gpu
              example_run.2 example_state example_run.1
              example_state_eq example_run_eq)
    as (geo & vs & sm & Hgeo & Hvs & Hlen & _ & _ & Hall).
  exists geo, vs. split; [exact Hgeo|]. split; [exact Hvs|].
  split; [exact Hlen|]. intros j v Hj.
  destruct (Hall j v Hj) as (_ & _ & Hy & _). exact Hy.
Defined.

Lemma land_flat_witness :
  exists geo vs,
    TreeBillboardsApp.mGeometries example_run.1 !! "landGeo" = Some geo /\
    VertexBufferCPU geo = Some (TreeBillboardsApp.StdVertices vs) /\
    forall k, (k < 4)%nat ->
      exists v, vs !! k = Some v /\
                y3 (TreeBillboardsApp.Vertex.Pos v) = 0.5%Q.
Proof.
  destruct (land_flat example_input example_frames example_gpu
              example_run.2 example_state example_run.1
              example_state_eq example_run_eq)
    as (geo & vs & sm & Hgeo & Hvs & _ & _ & Hall & _).
  - unfold GeometryGenerator.well_formed. cbn.
    repeat (apply Forall_cons_2; [lia|]). apply Forall_nil_2.
  - split; vm_compute; reflexivity.
  - exists geo, vs. split; [exact Hgeo|]. split; [exact Hvs|].
    intros k Hk.
    destruct (lookup_lt_is_Some_2
                (GeometryGenerator.Vertices
                   (grid (TreeBillboardsApp.meshes example_input))) k)
      as [gv Hgv]; [cbn; lia|].
    eexists. split; [apply (Hall k gv Hgv) | reflexivity].
Defined.

Lemma waves_triangulated_witness :
  exists geo,
    TreeBillboardsApp.mGeometries
      (TreeBillboardsApp.BuildWavesGeometry example_state) !! "waterGeo"
    = Some geo /\
    indices_of geo = grid_triangles 9 9 /\
    length (indices_of geo) = 384%nat.
Proof.
  destruct (waves_triangulated (F := Q) (W := ExampleWaves) example_state)
    as (geo & sm & Hgeo & Hind & Hlen & _).
  exists geo. split; [exact Hgeo|]. split; [exact Hind|].
  cbn in Hlen. lia.
Defined.
